(** * Cache-consistency layer of the property-listing backend

    A shallow embedding of [src/cache/cacheService.ts], [src/cache/redisClient.ts],
    [src/middleware/cacheMiddleware.ts], [src/middleware/ownershipMiddleware.ts],
    [src/routes/cacheRoutes.ts], [src/utils/generateToken.ts] and the controllers of
    [src/controllers/favoriteController.ts], [src/controllers/propertyController.ts]
    and [src/controllers/authController.ts], together with the properties the design
    document states about them and further properties of the code.

    Conventions.
    - A JavaScript string is a [string]; each character stands for one code unit
      below 256.
    - A JavaScript number is a [number]: an IEEE 754 double, with its two zeros,
      its two infinities and NaN. An integer literal [z] stands for
      [Number_of_Z z].
    - A [Date] is identified by the text its [toISOString()] returns.
    - An object is the list of its own enumerable properties in enumeration order.
    - The Redis server is a finite map from keys to entries, each with the TTL it
      was written with and the time of the write; time is a [Z] in seconds. *)

From Stdlib Require Import ZArith Ascii String List Lia.
From Stdlib Require Import Decimal DecimalString DecimalN DecimalPos DecimalFacts.
From stdpp Require Import base option list strings gmap fin_maps sorting.

Set Warnings "-register-all".
Open Scope string_scope.
Open Scope Z_scope.

(** ** Decimal digits *)

Definition is_digit (c : ascii) : bool :=
  (48 <=? N_of_ascii c)%N && (N_of_ascii c <=? 57)%N.

Definition digit_val (c : ascii) : N := (N_of_ascii c - 48)%N.

Fixpoint all_digits (s : string) : bool :=
  match s with
  | "" => true
  | String c r => is_digit c && all_digits r
  end.

Fixpoint digits_val (acc : N) (s : string) : N :=
  match s with
  | "" => acc
  | String c r => digits_val (10 * acc + digit_val c)%N r
  end.

Definition string_of_N (n : N) : string := NilEmpty.string_of_uint (N.to_uint n).

Fixpoint take_digits (s : string) : string * string :=
  match s with
  | "" => ("", "")
  | String c r =>
      if is_digit c then let '(d, r') := take_digits r in (String c d, r')
      else ("", s)
  end.

(** ** JavaScript numbers

    The Number type: the IEEE 754 binary64 values, with one NaN. A finite
    number is [m * 2^e] with its sign; the mantissa of a normal number has 53
    bits, a subnormal number (and zero) has the least exponent. *)

Inductive raw_number : Type :=
| RNaN
| RInf (negative : bool)
| RFin (negative : bool) (m : N) (e : Z).

#[global] Instance raw_number_eq_dec : EqDecision raw_number.
Proof. solve_decision. Defined.

Definition canonical (r : raw_number) : bool :=
  match r with
  | RFin _ m e =>
      if (m <? 2 ^ 52)%N then e =? -1074
      else (m <? 2 ^ 53)%N && (-1074 <=? e) && (e <=? 971)
  | _ => true
  end.

Definition number : Type := { r : raw_number | canonical r = true }.

Definition NaN : number := exist _ RNaN eq_refl.

(** A raw value as a number; one that is not canonical is no number. *)
Definition pack (r : raw_number) : number :=
  match canonical r as b return canonical r = b -> number with
  | true => fun H => exist _ r H
  | false => fun _ => NaN
  end eq_refl.

(** [n / d < 2^k] *)
Definition below_pow2 (n d k : Z) : bool :=
  n * 2 ^ Z.max 0 (- k) <? d * 2 ^ Z.max 0 k.

(** The integer part of the binary logarithm of [n / d]. *)
Definition ilog2 (n d : Z) : Z :=
  let g := Z.log2 n - Z.log2 d in
  if below_pow2 n d g then g - 1 else g.

(** [n / d] rounded to the nearest integer, ties to even. *)
Definition rne (n d : Z) : Z :=
  let q := n / d in
  let r := n mod d in
  if 2 * r <? d then q
  else if d <? 2 * r then q + 1
  else if Z.even q then q else q + 1.

(** The number nearest to [n / d] ([0 <= n], [0 < d]), ties to even: what the
    real value of a numeric literal becomes. *)
Definition round (negative : bool) (n d : Z) : raw_number :=
  if n =? 0 then RFin negative 0 (-1074)
  else
    let e := Z.max (ilog2 n d - 52) (-1074) in
    let m := if 0 <=? e then rne n (d * 2 ^ e) else rne (n * 2 ^ (- e)) d in
    let '(m, e) := if m =? 2 ^ 53 then (2 ^ 52, e + 1) else (m, e) in
    if 971 <? e then RInf negative else RFin negative (Z.to_N m) e.

(** [s * 10^E] as a fraction *)
Definition dec_frac (s E : Z) : Z * Z :=
  if 0 <=? E then (s * 10 ^ E, 1) else (s, 10 ^ (- E)).

Definition round_dec (negative : bool) (s E : Z) : raw_number :=
  round negative (fst (dec_frac s E)) (snd (dec_frac s E)).

(** [m * 2^e] as a fraction *)
Definition bin_frac (m e : Z) : Z * Z :=
  if 0 <=? e then (m * 2 ^ e, 1) else (m, 2 ^ (- e)).

Definition Number_of_Z (z : Z) : number := pack (round (z <? 0) (Z.abs z) 1).

(** The number of decimal digits of [n]. *)
Definition digits10 (n : Z) : Z := Z.of_nat (String.length (string_of_N (Z.to_N n))).

(** The [N] with [10^(N-1) <= n / d < 10^N]. *)
Definition magnitude (n d : Z) : Z :=
  if d <=? n then digits10 (n / d)
  else
    let D := digits10 (d / n) in
    if n * 10 ^ (D - 1) =? d then 2 - D else 1 - D.

(** [Number::toString] chooses [k] as small as possible, and digits [s] and
    a position [n] with [10^(k-1) <= s < 10^k], such that [s * 10^(n-k)] is
    read back as the number; among several [s] the one nearest to the
    number. The candidates with [k] digits are the two multiples of
    [10^(n-k)] around the number. *)
Definition reads_back (m : N) (e : Z) (s n : Z) : bool :=
  (0 <? s) && bool_decide (round_dec false s (n - digits10 s) = RFin false m e).

Definition candidate (m : N) (e : Z) (k : Z) : option (Z * Z) :=
  let '(n, d) := bin_frac (Z.of_N m) e in
  let N := magnitude n d in
  let '(n', d') := if 0 <=? k - N then (n * 10 ^ (k - N), d) else (n, d * 10 ^ (N - k)) in
  let lo := n' / d' in
  let r := n' mod d' in
  let hi := if lo + 1 =? 10 ^ k then (10 ^ (k - 1), N + 1) else (lo + 1, N) in
  let lo_ok := reads_back m e lo N in
  let hi_ok := reads_back m e (fst hi) (snd hi) in
  if lo_ok && hi_ok then
    if 2 * r <? d' then Some (lo, N)
    else if d' <? 2 * r then Some hi
    else if Z.even lo then Some (lo, N) else Some hi
  else if lo_ok then Some (lo, N)
  else if hi_ok then Some hi
  else None.

(** The decimal expansion in full. Seventeen digits always suffice to tell
    a number from its neighbours, so the search below does not come here. *)
Definition expansion (m : N) (e : Z) : Z * Z :=
  let s := if 0 <=? e then Z.of_N m * 2 ^ e else Z.of_N m * 5 ^ (- e) in
  let E := if 0 <=? e then 0 else e in
  (s, E + digits10 s).

Fixpoint shortest_from (m : N) (e : Z) (ks : list Z) : Z * Z :=
  match ks with
  | [] => expansion m e
  | k :: ks' =>
      match candidate m e k with
      | Some sn => sn
      | None => shortest_from m e ks'
      end
  end.

Definition shortest (m : N) (e : Z) : Z * Z :=
  shortest_from m e (map Z.of_nat (seq 1 17)).

Fixpoint zeros (n : nat) : string :=
  match n with
  | O => ""
  | S n' => String "0" (zeros n')
  end.

Fixpoint take_str (n : nat) (s : string) : string :=
  match n, s with
  | S n', String c r => String c (take_str n' r)
  | _, _ => ""
  end.

Fixpoint drop_str (n : nat) (s : string) : string :=
  match n, s with
  | S n', String c r => drop_str n' r
  | _, _ => s
  end.

(** The text of [s * 10^(n-k)], where [k] is the number of digits of [s]. *)
Definition format_decimal (s n : Z) : string :=
  let D := string_of_N (Z.to_N s) in
  let k := Z.of_nat (String.length D) in
  if (k <=? n) && (n <=? 21) then D +:+ zeros (Z.to_nat (n - k))
  else if (0 <? n) && (n <=? 21) then
    take_str (Z.to_nat n) D +:+ "." +:+ drop_str (Z.to_nat n) D
  else if (-6 <? n) && (n <=? 0) then "0." +:+ zeros (Z.to_nat (- n)) +:+ D
  else
    let x := n - 1 in
    let exponent := "e" +:+ (if 0 <=? x then "+" else "-") +:+ string_of_N (Z.to_N (Z.abs x)) in
    if k =? 1 then D +:+ exponent
    else take_str 1 D +:+ "." +:+ drop_str 1 D +:+ exponent.

(** [Number::toString(x)], radix 10: the text of [x] in a template literal
    and in [String(x)]. *)
Definition Number_toString (x : number) : string :=
  match proj1_sig x with
  | RNaN => "NaN"
  | RInf negative => if negative then "-Infinity" else "Infinity"
  | RFin negative m e =>
      if (m =? 0)%N then "0"
      else
        let '(s, n) := shortest m e in
        (if negative then "-" else "") +:+ format_decimal s n
  end.

(** The digits of a JSON number after its sign: an integer part without a
    superfluous leading zero, an optional fraction, an optional exponent.
    The result is the pair [(s, E)] of the value [s * 10^E]. *)
Definition parse_exponent (s : string) : option (Z * string) :=
  match s with
  | String c r =>
      if Ascii.eqb c "e" || Ascii.eqb c "E" then
        let '(negative, r1) :=
          match r with
          | String g r' =>
              if Ascii.eqb g "-" then (true, r')
              else if Ascii.eqb g "+" then (false, r')
              else (false, r)
          | "" => (false, r)
          end in
        let '(d, r2) := take_digits r1 in
        match d with
        | "" => None
        | _ => Some ((if negative then - Z.of_N (digits_val 0 d)
                      else Z.of_N (digits_val 0 d)), r2)
        end
      else Some (0, s)
  | "" => Some (0, s)
  end.

Definition parse_decimal (s : string) : option (Z * Z * string) :=
  let '(i, r) := take_digits s in
  match i with
  | "" => None
  | String c i' =>
      if Ascii.eqb c "0" && negb (String.eqb i' "") then None
      else
        let frac :=
          match r with
          | String p r1 =>
              if Ascii.eqb p "." then
                let '(f, r2) := take_digits r1 in
                match f with
                | "" => None
                | _ => Some (f, r2)
                end
              else Some ("", r)
          | "" => Some ("", r)
          end in
        match frac with
        | None => None
        | Some (f, r2) =>
            match parse_exponent r2 with
            | None => None
            | Some (x, r3) =>
                Some (Z.of_N (digits_val 0 (i +:+ f)),
                      x - Z.of_nat (String.length f), r3)
            end
        end
  end.

(** A JSON number after its optional minus sign. *)
Definition parse_number (negative : bool) (s : string) : option (number * string) :=
  match parse_decimal s with
  | Some (m, E, r) => Some (pack (round_dec negative m E), r)
  | None => None
  end.

Definition is_finite (x : number) : bool :=
  match proj1_sig x with
  | RFin _ _ _ => true
  | _ => false
  end.

Definition is_NaN (x : number) : bool :=
  match proj1_sig x with
  | RNaN => true
  | _ => false
  end.

Definition is_zero (x : number) : bool :=
  match proj1_sig x with
  | RFin _ m _ => (m =? 0)%N
  | _ => false
  end.

(** [-0], the zero that [Object.is] tells from [0]. *)
Definition is_negative_zero (x : number) : bool :=
  match proj1_sig x with
  | RFin negative m _ => negative && (m =? 0)%N
  | _ => false
  end.

(** An integer literal of the code. *)
Coercion Number_of_Z : Z >-> number.
Arguments Number_of_Z : simpl never.
Arguments Some {A} & a.

(** *** Arithmetic

    The operators of the code on numbers: the exact result, rounded to the
    nearest double. A zero that is the exact result of a sum is [+0] unless
    both terms are negative; a zero product or quotient has the sign of the
    operation. *)

Definition signed (negative : bool) (n : Z) : Z := if negative then - n else n.

(** The number nearest to [n / d] ([0 < d]); [zero_negative] is the sign of
    the result when [n] is zero. *)
Definition Number_of_frac (n d : Z) (zero_negative : bool) : number :=
  if n =? 0 then pack (RFin zero_negative 0 (-1074))
  else pack (round (n <? 0) (Z.abs n) d).

(** [x + y] *)
Definition Number_add (x y : number) : number :=
  match proj1_sig x, proj1_sig y with
  | RNaN, _ | _, RNaN => NaN
  | RInf s1, RInf s2 => if Bool.eqb s1 s2 then x else NaN
  | RInf _, RFin _ _ _ => x
  | RFin _ _ _, RInf _ => y
  | RFin s1 m1 e1, RFin s2 m2 e2 =>
      let '(n1, q1) := bin_frac (Z.of_N m1) e1 in
      let '(n2, q2) := bin_frac (Z.of_N m2) e2 in
      Number_of_frac (signed s1 n1 * q2 + signed s2 n2 * q1) (q1 * q2) (s1 && s2)
  end.

(** [- x] *)
Definition Number_neg (x : number) : number :=
  match proj1_sig x with
  | RNaN => NaN
  | RInf s => pack (RInf (negb s))
  | RFin s m e => pack (RFin (negb s) m e)
  end.

(** [x - y] *)
Definition Number_sub (x y : number) : number := Number_add x (Number_neg y).

(** [x * y] *)
Definition Number_mul (x y : number) : number :=
  match proj1_sig x, proj1_sig y with
  | RNaN, _ | _, RNaN => NaN
  | RInf s1, RInf s2 => pack (RInf (xorb s1 s2))
  | RInf s1, RFin s2 m _ | RFin s2 m _, RInf s1 =>
      if (m =? 0)%N then NaN else pack (RInf (xorb s1 s2))
  | RFin s1 m1 e1, RFin s2 m2 e2 =>
      let '(n1, q1) := bin_frac (Z.of_N m1) e1 in
      let '(n2, q2) := bin_frac (Z.of_N m2) e2 in
      Number_of_frac (signed (xorb s1 s2) (n1 * n2)) (q1 * q2) (xorb s1 s2)
  end.

(** [x / y] *)
Definition Number_div (x y : number) : number :=
  match proj1_sig x, proj1_sig y with
  | RNaN, _ | _, RNaN => NaN
  | RInf _, RInf _ => NaN
  | RInf s1, RFin s2 _ _ => pack (RInf (xorb s1 s2))
  | RFin s1 _ _, RInf s2 => pack (RFin (xorb s1 s2) 0 (-1074))
  | RFin s1 m1 e1, RFin s2 m2 e2 =>
      if (m2 =? 0)%N then
        if (m1 =? 0)%N then NaN else pack (RInf (xorb s1 s2))
      else
        let '(n1, q1) := bin_frac (Z.of_N m1) e1 in
        let '(n2, q2) := bin_frac (Z.of_N m2) e2 in
        Number_of_frac (signed (xorb s1 s2) (n1 * q2)) (q1 * n2) (xorb s1 s2)
  end.

(** [Math.ceil(x)]: the least integer that is not below [x]; it is [-0] for
    [-1 < x < 0]. *)
Definition Math_ceil (x : number) : number :=
  match proj1_sig x with
  | RFin s m e =>
      if (m =? 0)%N then x
      else
        let '(n, d) := bin_frac (Z.of_N m) e in
        Number_of_frac (- ((- signed s n) / d)) 1 true
  | _ => x
  end.

(** ** JavaScript values *)

Inductive jsval : Type :=
| VUndef
| VNull
| VBool (b : bool)
| VNum (n : number)
| VStr (s : string)
| VDate (iso : string)
| VArr (l : list jsval)
| VObj (l : list (string * jsval)).

Abbreviation obj := (list (string * jsval)).

(** [ToBoolean]: what [if (x)], [!x] and [x ? a : b] test. *)
Definition truthy (v : jsval) : bool :=
  match v with
  | VUndef | VNull => false
  | VBool b => b
  | VNum n => negb (is_zero n || is_NaN n)
  | VStr s => negb (String.eqb s "")
  | VDate _ | VArr _ | VObj _ => true
  end.

(** Property read [o[k]] / [o.k]: [undefined] when [o] has no own property [k]
    (or is no object at all). *)
Fixpoint obj_get (k : string) (l : obj) : jsval :=
  match l with
  | [] => VUndef
  | (k', v) :: l' => if String.eqb k k' then v else obj_get k l'
  end.

Definition js_get (v : jsval) (k : string) : jsval :=
  match v with
  | VObj l => obj_get k l
  | _ => VUndef
  end.

(** *** Own-property order

    An object enumerates its array-index keys first, in ascending numeric
    order, then its other string keys in creation order. *)

(** A canonical numeric string of an integer below [2^32 - 1]. *)
Definition array_index (k : string) : option N :=
  match k with
  | "" => None
  | String c r =>
      if all_digits k && (negb (Ascii.eqb c "0") || String.eqb r "")
         && (String.length k <=? 10)%nat && (digits_val 0 k <? 4294967295)%N
      then Some (digits_val 0 k) else None
  end.

(** Insert a new property [k] into an object that lacks it. *)
Fixpoint obj_add_index (n : N) (k : string) (v : jsval) (l : obj) : obj :=
  match l with
  | [] => [(k, v)]
  | (k', v') :: l' =>
      match array_index k' with
      | Some n' => if (n' <? n)%N then (k', v') :: obj_add_index n k v l'
                   else (k, v) :: l
      | None => (k, v) :: l
      end
  end.

Fixpoint obj_replace (k : string) (v : jsval) (l : obj) : obj :=
  match l with
  | [] => []
  | (k', v') :: l' =>
      if String.eqb k k' then (k', v) :: l' else (k', v') :: obj_replace k v l'
  end.

Definition obj_has (k : string) (l : obj) : bool :=
  existsb (fun kv => String.eqb k (fst kv)) l.

(** [CreateDataProperty(o, k, v)]: overwrite in place, or create the property
    at its place in the enumeration order. *)
Definition obj_define (k : string) (v : jsval) (l : obj) : obj :=
  if obj_has k l then obj_replace k v l
  else match array_index k with
       | Some n => obj_add_index n k v l
       | None => l ++ [(k, v)]
       end.

(** Assignment [o[k] = v] on an ordinary object created by [{}]. The key
    [__proto__] reaches the accessor inherited from [Object.prototype], which
    creates no own property. *)
Definition obj_set (k : string) (v : jsval) (l : obj) : obj :=
  if String.eqb k "__proto__" then l else obj_define k v l.

Definition obj_keys (l : obj) : list string := map fst l.

(** ** Serialization codec: [JSON.stringify] and [JSON.parse] *)

Definition dquote : ascii := "034"%char.

Definition hex_digit (n : N) : ascii :=
  if (n <? 10)%N then ascii_of_N (48 + n) else ascii_of_N (87 + n).

(** [QuoteJSONString]: the two-character escapes, [\u00xx] for the other
    control characters, every other code unit as it is. *)
Definition quote_char (c : ascii) : string :=
  let n := N_of_ascii c in
  if (n =? 34)%N then String "\" (String dquote "")
  else if (n =? 92)%N then "\\"
  else if (n =? 8)%N then "\b"
  else if (n =? 12)%N then "\f"
  else if (n =? 10)%N then "\n"
  else if (n =? 13)%N then "\r"
  else if (n =? 9)%N then "\t"
  else if (n <? 32)%N then
    "\u00" +:+ String (hex_digit (n / 16)) (String (hex_digit (n mod 16)) "")
  else String c "".

Fixpoint quote_body (s : string) : string :=
  match s with
  | "" => ""
  | String c r => quote_char c +:+ quote_body r
  end.

Definition quote (s : string) : string :=
  String dquote (quote_body s +:+ String dquote "").

(** [Array.prototype.join] on strings. *)
Fixpoint join (sep : string) (l : list string) : string :=
  match l with
  | [] => ""
  | x :: l' => match l' with [] => x | _ => x +:+ sep +:+ join sep l' end
  end.

(** [JSON.stringify(v)] without replacer or indentation. [None] is the result
    [undefined]. A number that is not finite is written [null]; a [Date] is
    replaced by its [toJSON()], an [undefined] array element by [null], and a
    property whose value is [undefined] is left out. *)
Fixpoint JSON_stringify (v : jsval) : option string :=
  match v with
  | VUndef => None
  | VNull => Some "null"
  | VBool b => Some (if b then "true" else "false")
  | VNum n => Some (if is_finite n then Number_toString n else "null")
  | VStr s => Some (quote s)
  | VDate iso => Some (quote iso)
  | VArr l =>
      Some ("[" +:+ join "," (map (fun x => default "null" (JSON_stringify x)) l) +:+ "]")
  | VObj l =>
      Some ("{" +:+ join "," (omap (fun kv =>
                     match JSON_stringify (snd kv) with
                     | Some t => Some (quote (fst kv) +:+ ":" +:+ t)
                     | None => None
                     end) l) +:+ "}")
  end.


(** *** [JSON.parse]

    A recursive-descent reader of the JSON grammar. [None] is the
    [SyntaxError] the built-in throws. A [\u] escape of a code unit from 256
    on names a string outside the strings of this development: the reader
    gives [None] for it as well, and [JSON_grammar] below tells the texts the
    built-in refuses from those. *)

Definition is_ws (c : ascii) : bool :=
  let n := N_of_ascii c in
  (n =? 32)%N || (n =? 9)%N || (n =? 10)%N || (n =? 13)%N.

Fixpoint skip_ws (s : string) : string :=
  match s with
  | "" => ""
  | String c r => if is_ws c then skip_ws r else s
  end.

Definition hex_val (c : ascii) : option N :=
  let n := N_of_ascii c in
  if (48 <=? n)%N && (n <=? 57)%N then Some (n - 48)%N
  else if (97 <=? n)%N && (n <=? 102)%N then Some (n - 87)%N
  else if (65 <=? n)%N && (n <=? 70)%N then Some (n - 55)%N
  else None.

Definition hex4 (a b c d : ascii) : option N :=
  match hex_val a, hex_val b, hex_val c, hex_val d with
  | Some x, Some y, Some z, Some w => Some (((x * 16 + y) * 16 + z) * 16 + w)%N
  | _, _, _, _ => None
  end.

Definition unescape (e : ascii) : option ascii :=
  let n := N_of_ascii e in
  if (n =? 34)%N then Some dquote
  else if (n =? 92)%N then Some "\"%char
  else if (n =? 47)%N then Some "/"%char
  else if (n =? 98)%N then Some (ascii_of_N 8)
  else if (n =? 102)%N then Some (ascii_of_N 12)
  else if (n =? 110)%N then Some (ascii_of_N 10)
  else if (n =? 114)%N then Some (ascii_of_N 13)
  else if (n =? 116)%N then Some (ascii_of_N 9)
  else None.

Definition cons_char (c : ascii) (p : option (string * string)) : option (string * string) :=
  match p with
  | Some (s, r) => Some (String c s, r)
  | None => None
  end.

(** The characters of a string literal after its opening quote, up to and
    including the closing quote. *)
Fixpoint parse_string_body (s : string) : option (string * string) :=
  match s with
  | "" => None
  | String c r =>
      if Ascii.eqb c dquote then Some ("", r)
      else if Ascii.eqb c "\" then
        match r with
        | "" => None
        | String e r' =>
            if Ascii.eqb e "u" then
              match r' with
              | String h1 (String h2 (String h3 (String h4 r''))) =>
                  match hex4 h1 h2 h3 h4 with
                  | Some n => if (n <? 256)%N
                              then cons_char (ascii_of_N n) (parse_string_body r'')
                              else None
                  | None => None
                  end
              | _ => None
              end
            else
              match unescape e with
              | Some c' => cons_char c' (parse_string_body r')
              | None => None
              end
        end
      else if (N_of_ascii c <? 32)%N then None
      else cons_char c (parse_string_body r)
  end.

Definition parse_literal (s : string) : option (jsval * string) :=
  match s with
  | String "t" (String "r" (String "u" (String "e" r))) => Some (VBool true, r)
  | String "f" (String "a" (String "l" (String "s" (String "e" r)))) => Some (VBool false, r)
  | String "n" (String "u" (String "l" (String "l" r))) => Some (VNull, r)
  | _ => None
  end.

Definition build_object (l : list (string * jsval)) : obj :=
  fold_left (fun o kv => obj_define (fst kv) (snd kv) o) l [].

Fixpoint parse_value (fuel : nat) (s : string) : option (jsval * string) :=
  match fuel with
  | O => None
  | S fuel' =>
      match skip_ws s with
      | "" => None
      | String c r =>
          if Ascii.eqb c dquote then
            match parse_string_body r with
            | Some (str, r') => Some (VStr str, r')
            | None => None
            end
          else if Ascii.eqb c "[" then
            match skip_ws r with
            | "" => None
            | String c' r' =>
                if Ascii.eqb c' "]" then Some (VArr [], r')
                else match parse_elems fuel' r with
                     | Some (l, r'') => Some (VArr l, r'')
                     | None => None
                     end
            end
          else if Ascii.eqb c "{" then
            match skip_ws r with
            | "" => None
            | String c' r' =>
                if Ascii.eqb c' "}" then Some (VObj [], r')
                else match parse_members fuel' r with
                     | Some (l, r'') => Some (VObj (build_object l), r'')
                     | None => None
                     end
            end
          else if Ascii.eqb c "-" then
            match parse_number true r with
            | Some (n, r') => Some (VNum n, r')
            | None => None
            end
          else if is_digit c then
            match parse_number false (String c r) with
            | Some (n, r') => Some (VNum n, r')
            | None => None
            end
          else parse_literal (String c r)
      end
  end
with parse_elems (fuel : nat) (s : string) : option (list jsval * string) :=
  match fuel with
  | O => None
  | S fuel' =>
      match parse_value fuel' s with
      | None => None
      | Some (v, r) =>
          match skip_ws r with
          | "" => None
          | String c r' =>
              if Ascii.eqb c "," then
                match parse_elems fuel' r' with
                | Some (l, r'') => Some (v :: l, r'')
                | None => None
                end
              else if Ascii.eqb c "]" then Some ([v], r')
              else None
          end
      end
  end
with parse_members (fuel : nat) (s : string) : option (list (string * jsval) * string) :=
  match fuel with
  | O => None
  | S fuel' =>
      match skip_ws s with
      | "" => None
      | String q r =>
          if negb (Ascii.eqb q dquote) then None
          else
            match parse_string_body r with
            | None => None
            | Some (k, r1) =>
                match skip_ws r1 with
                | "" => None
                | String c r2 =>
                    if negb (Ascii.eqb c ":") then None
                    else
                      match parse_value fuel' r2 with
                      | None => None
                      | Some (v, r3) =>
                          match skip_ws r3 with
                          | "" => None
                          | String c' r4 =>
                              if Ascii.eqb c' "," then
                                match parse_members fuel' r4 with
                                | Some (l, r5) => Some ((k, v) :: l, r5)
                                | None => None
                                end
                              else if Ascii.eqb c' "}" then Some ([(k, v)], r4)
                              else None
                          end
                      end
                end
            end
      end
  end.

(** [JSON.parse(text)]: one value, then nothing but white space. *)
Definition JSON_parse (text : string) : option jsval :=
  match parse_value (S (String.length text)) text with
  | Some (v, r) => match skip_ws r with "" => Some v | _ => None end
  | None => None
  end.

(** *** The JSON grammar

    [JSON_grammar text] tells whether [text] is a JSON text, that is, whether
    the built-in [JSON.parse] accepts it: the reader above without the values,
    and with every [\u] escape of four hexadecimal digits accepted. *)

Fixpoint check_string_body (s : string) : option string :=
  match s with
  | "" => None
  | String c r =>
      if Ascii.eqb c dquote then Some r
      else if Ascii.eqb c "\" then
        match r with
        | "" => None
        | String e r' =>
            if Ascii.eqb e "u" then
              match r' with
              | String h1 (String h2 (String h3 (String h4 r''))) =>
                  match hex4 h1 h2 h3 h4 with
                  | Some _ => check_string_body r''
                  | None => None
                  end
              | _ => None
              end
            else
              match unescape e with
              | Some _ => check_string_body r'
              | None => None
              end
        end
      else if (N_of_ascii c <? 32)%N then None
      else check_string_body r
  end.

Definition check_number (negative : bool) (s : string) : option string :=
  match parse_number negative s with
  | Some (_, r) => Some r
  | None => None
  end.

Definition check_literal (s : string) : option string :=
  match parse_literal s with
  | Some (_, r) => Some r
  | None => None
  end.

Fixpoint check_value (fuel : nat) (s : string) : option string :=
  match fuel with
  | O => None
  | S fuel' =>
      match skip_ws s with
      | "" => None
      | String c r =>
          if Ascii.eqb c dquote then check_string_body r
          else if Ascii.eqb c "[" then
            match skip_ws r with
            | "" => None
            | String c' r' =>
                if Ascii.eqb c' "]" then Some r' else check_elems fuel' r
            end
          else if Ascii.eqb c "{" then
            match skip_ws r with
            | "" => None
            | String c' r' =>
                if Ascii.eqb c' "}" then Some r' else check_members fuel' r
            end
          else if Ascii.eqb c "-" then check_number true r
          else if is_digit c then check_number false (String c r)
          else check_literal (String c r)
      end
  end
with check_elems (fuel : nat) (s : string) : option string :=
  match fuel with
  | O => None
  | S fuel' =>
      match check_value fuel' s with
      | None => None
      | Some r =>
          match skip_ws r with
          | "" => None
          | String c r' =>
              if Ascii.eqb c "," then check_elems fuel' r'
              else if Ascii.eqb c "]" then Some r'
              else None
          end
      end
  end
with check_members (fuel : nat) (s : string) : option string :=
  match fuel with
  | O => None
  | S fuel' =>
      match skip_ws s with
      | "" => None
      | String q r =>
          if negb (Ascii.eqb q dquote) then None
          else
            match check_string_body r with
            | None => None
            | Some r1 =>
                match skip_ws r1 with
                | "" => None
                | String c r2 =>
                    if negb (Ascii.eqb c ":") then None
                    else
                      match check_value fuel' r2 with
                      | None => None
                      | Some r3 =>
                          match skip_ws r3 with
                          | "" => None
                          | String c' r4 =>
                              if Ascii.eqb c' "," then check_members fuel' r4
                              else if Ascii.eqb c' "}" then Some r4
                              else None
                          end
                      end
                end
            end
      end
  end.

Definition JSON_grammar (text : string) : bool :=
  match check_value (S (String.length text)) text with
  | Some r => match skip_ws r with "" => true | _ => false end
  | None => false
  end.


(** ** The query of a request and its numbers *)

(** [req.query] as Express parses it: texts, lists and nested objects. *)
Inductive ParsedQs : Type :=
| QStr (s : string)
| QArr (l : list ParsedQs)
| QObj (l : list (string * ParsedQs)).

Fixpoint qs_js (q : ParsedQs) : jsval :=
  match q with
  | QStr s => VStr s
  | QArr l => VArr (map qs_js l)
  | QObj l => VObj (map (fun kv => (fst kv, qs_js (snd kv))) l)
  end.

(** The text of a query value in a template literal. *)
Fixpoint qs_to_string (q : ParsedQs) : string :=
  match q with
  | QStr s => s
  | QArr l => join "," (map qs_to_string l)
  | QObj _ => "[object Object]"
  end.

Fixpoint query_get (k : string) (q : list (string * ParsedQs)) : option ParsedQs :=
  match q with
  | [] => None
  | (k', v) :: q' => if String.eqb k k' then Some v else query_get k q'
  end.

(** [StrWhiteSpaceChar], among the code units below 256: what [Number] and
    [String.prototype.trim] strip. *)
Definition is_str_ws (c : ascii) : bool :=
  let n := N_of_ascii c in
  (n =? 9)%N || (n =? 10)%N || (n =? 11)%N || (n =? 12)%N || (n =? 13)%N
  || (n =? 32)%N || (n =? 160)%N.

Fixpoint trim_start (s : string) : string :=
  match s with
  | "" => ""
  | String c r => if is_str_ws c then trim_start r else s
  end.

Fixpoint trim_end (s : string) : string :=
  match s with
  | "" => ""
  | String c r =>
      match trim_end r with
      | "" => if is_str_ws c then "" else String c ""
      | t => String c t
      end
  end.

(** [s.trim()] *)
Definition trim (s : string) : string := trim_end (trim_start s).

(** The digits of a binary, octal or hexadecimal literal. *)
Fixpoint radix_val (radix acc : N) (s : string) : option N :=
  match s with
  | "" => Some acc
  | String c r =>
      match hex_val c with
      | Some v => if (v <? radix)%N then radix_val radix (radix * acc + v) r else None
      | None => None
      end
  end.

(** [NonDecimalIntegerLiteral]: [0b], [0o] or [0x] and at least one digit. *)
Definition non_decimal (s : string) : option N :=
  match s with
  | String z (String p (String c r)) =>
      if Ascii.eqb z "0" then
        if Ascii.eqb p "b" || Ascii.eqb p "B" then radix_val 2 0 (String c r)
        else if Ascii.eqb p "o" || Ascii.eqb p "O" then radix_val 8 0 (String c r)
        else if Ascii.eqb p "x" || Ascii.eqb p "X" then radix_val 16 0 (String c r)
        else None
      else None
  | _ => None
  end.

(** [StrUnsignedDecimalLiteral]: [Infinity], or digits with an optional
    point and an optional exponent, at least one digit before or after the
    point. *)
Definition str_unsigned (negative : bool) (s : string) : option number :=
  if String.eqb s "Infinity" then Some (pack (RInf negative))
  else
    let '(i, r) := take_digits s in
    let '(f, r1) :=
      match r with
      | String p r' => if Ascii.eqb p "." then take_digits r' else ("", r)
      | "" => ("", r)
      end in
    if String.eqb i "" && String.eqb f "" then None
    else
      match parse_exponent r1 with
      | Some (x, "") =>
          Some (pack (round_dec negative (Z.of_N (digits_val 0 (i +:+ f)))
                                (x - Z.of_nat (String.length f))))
      | _ => None
      end.

Definition str_decimal (s : string) : option number :=
  match s with
  | "" => None
  | String c r =>
      if Ascii.eqb c "+" then str_unsigned false r
      else if Ascii.eqb c "-" then str_unsigned true r
      else str_unsigned false s
  end.

(** [StringToNumber]: [Number(s)] for a text [s]. *)
Definition StringToNumber (s : string) : number :=
  let t := trim s in
  if String.eqb t "" then Number_of_Z 0
  else
    match non_decimal t with
    | Some n => pack (round false (Z.of_N n) 1)
    | None => default NaN (str_decimal t)
    end.

(** [req.query] as a value *)
Definition query_js (q : list (string * ParsedQs)) : obj :=
  map (fun kv => (fst kv, qs_js (snd kv))) q.

(** [Number(v)] for a value of the query: the number of its text. *)
Definition Number_of_qs (q : ParsedQs) : number := StringToNumber (qs_to_string q).

(** [Number(x)] for [const { x = fallback } = req.query]. *)
Definition Number_of_query (name : string) (fallback : number)
           (q : list (string * ParsedQs)) : number :=
  from_option Number_of_qs fallback (query_get name q).

(** [!!x] for a value of the query that may be absent: a text is truthy when
    it is not empty, a list and an object always. *)
Definition qs_truthy (v : option ParsedQs) : bool :=
  match v with
  | Some (QStr t) => negb (String.eqb t "")
  | Some _ => true
  | None => false
  end.

(** [s.split(",")] *)
Fixpoint split_comma (s : string) : list string :=
  match s with
  | "" => [""]
  | String c r =>
      if Ascii.eqb c "," then "" :: split_comma r
      else match split_comma r with
           | [] => [String c ""]
           | x :: l => String c x :: l
           end
  end.

(** ** Exceptions and effects

    An asynchronous function is a state transformer that returns a value or
    throws. The state of the cache service is the Redis client and the clock;
    the controllers add the durable store. *)

Record js_error : Type := mk_error {
  err_name : string;
  err_code : option Z;
  err_messages : list string
}.

Inductive result (A : Type) : Type :=
| Ok (a : A)
| Throw (e : js_error).
Arguments Ok {A} a.
Arguments Throw {A} e.

Definition M (S A : Type) : Type := S -> result A * S.

Definition ret {S A} (a : A) : M S A := fun s => (Ok a, s).

Definition throw {S A} (e : js_error) : M S A := fun s => (Throw e, s).

Definition bind {S A B} (m : M S A) (k : A -> M S B) : M S B :=
  fun s => match m s with
           | (Ok a, s') => k a s'
           | (Throw e, s') => (Throw e, s')
           end.

(** [try { body } catch (error) { handler }] *)
Definition try_catch {S A} (body : M S A) (handler : js_error -> M S A) : M S A :=
  fun s => match body s with
           | (Ok a, s') => (Ok a, s')
           | (Throw e, s') => handler e s'
           end.

Declare Scope js_scope.
Delimit Scope js_scope with js.
Notation "'let*' x ':=' m 'in' k" := (bind m (fun x => k))
  (at level 10, x name, m at level 100, k at level 200) : js_scope.
Notation "'do' m 'in' k" := (bind m (fun _ => k))
  (at level 10, m at level 100, k at level 200) : js_scope.
Open Scope js_scope.

Definition TypeError : js_error := mk_error "TypeError" None [].
Definition SyntaxError : js_error := mk_error "SyntaxError" None [].
Definition ReplyError : js_error := mk_error "ReplyError" None [].
Definition MaxRetriesPerRequestError : js_error :=
  mk_error "MaxRetriesPerRequestError" None [].

(** ** Key space *)

(** *** [Buffer.from(text).toString('base64')] *)

Definition utf8_char (c : ascii) : list N :=
  let n := N_of_ascii c in
  if (n <? 128)%N then [n]
  else [N.lor 192 (N.shiftr n 6); N.lor 128 (N.land n 63)].

Fixpoint Buffer_from (s : string) : list N :=
  match s with
  | "" => []
  | String c r => utf8_char c ++ Buffer_from r
  end.

Definition base64_char (n : N) : ascii :=
  if (n <? 26)%N then ascii_of_N (65 + n)
  else if (n <? 52)%N then ascii_of_N (71 + n)
  else if (n <? 62)%N then ascii_of_N (n - 4)
  else if (n =? 62)%N then "+"%char else "/"%char.

Fixpoint toString_base64 (l : list N) : string :=
  match l with
  | [] => ""
  | [a] =>
      String (base64_char (N.shiftr a 2))
        (String (base64_char (N.shiftl (N.land a 3) 4)) "==")
  | [a; b] =>
      String (base64_char (N.shiftr a 2))
        (String (base64_char (N.lor (N.shiftl (N.land a 3) 4) (N.shiftr b 4)))
           (String (base64_char (N.shiftl (N.land b 15) 2)) "="))
  | a :: b :: c :: r =>
      String (base64_char (N.shiftr a 2))
        (String (base64_char (N.lor (N.shiftl (N.land a 3) 4) (N.shiftr b 4)))
           (String (base64_char (N.lor (N.shiftl (N.land b 15) 2) (N.shiftr c 6)))
              (String (base64_char (N.land c 63)) (toString_base64 r))))
  end.

(** *** [CacheService.generateSearchKey]

    [Array.prototype.sort()] without a comparator orders strings by their code
    units; [merge_sort] over [String.le] is that order. *)
Definition sort_keys (ks : list string) : list string := merge_sort String.le ks.

(** [Object.keys(query).sort().reduce((obj, key) => { obj[key] = query[key];
    return obj; }, {})] *)
Definition sortedQuery (query : obj) : obj :=
  fold_left (fun o key => obj_set key (obj_get key query) o)
            (sort_keys (obj_keys query)) [].

Definition generateSearchKey (query : obj) : result string :=
  match JSON_stringify (VObj (sortedQuery query)) with
  | Some text => Ok (toString_base64 (Buffer_from text))
  | None => Throw TypeError
  end.

(** *** [CacheService.KEYS] *)

Module KEYS.
Definition PROPERTY (id : string) : string := "property:" +:+ id.
Definition USER_PROFILE (id : string) : string := "user:profile:" +:+ id.
Definition USER_PROPERTIES (userId : string) (page limit : option number) : string :=
  "user:properties:" +:+ userId +:+ ":" +:+ Number_toString (default (1 : number) page)
    +:+ ":" +:+ Number_toString (default (10 : number) limit).
Definition PROPERTY_SEARCH (query : string) : string := "search:properties:" +:+ query.
Definition USER_FAVORITES (userId : string) (page limit : option number) : string :=
  "user:favorites:" +:+ userId +:+ ":" +:+ Number_toString (default (1 : number) page)
    +:+ ":" +:+ Number_toString (default (10 : number) limit).
Definition FAVORITE_STATUS (userId propertyId : string) : string :=
  "favorite:status:" +:+ userId +:+ ":" +:+ propertyId.
End KEYS.

(** *** [CacheService.TTL], in seconds *)

Module TTL.
Definition PROPERTY : Z := 60 * 15.
Definition USER : Z := 60 * 30.
Definition SEARCH : Z := 60 * 5.
Definition FAVORITES : Z := 60 * 10.
Definition PROPERTY_LIST : Z := 60 * 10.
End TTL.

(** ** The Redis server behind the client

    What the service asks of it: [GET], [SETEX], [DEL], [KEYS]. *)

Record entry : Type := mk_entry {
  e_data : string;   (* the stored text *)
  e_ttl : Z;         (* the TTL of the SETEX that wrote it, in seconds *)
  e_written : Z      (* the time of that write *)
}.

Record connection : Type := mk_connection {
  db : gmap string entry;
  reachable : bool   (* false: every command is rejected after its retries *)
}.

(** [redisClient] holds [client: Redis | null] and the service reads the clock
    of the server through the entries' expiry only. *)
Record env : Type := mk_env {
  client : option connection;
  time : Z
}.

Definition live (now : Z) (e : entry) : bool := now <? e_written e + e_ttl e.

(** *** Glob patterns of [KEYS], after the server's [stringmatchlen] *)

Fixpoint strip_stars (p : string) : string :=
  match p with
  | String c r => if Ascii.eqb c "*" then strip_stars r else p
  | "" => ""
  end.

Definition in_range (a b c : ascii) : bool :=
  let lo := N.min (N_of_ascii a) (N_of_ascii b) in
  let hi := N.max (N_of_ascii a) (N_of_ascii b) in
  (lo <=? N_of_ascii c)%N && (N_of_ascii c <=? hi)%N.

(** The body of a bracket class: whether [c] is in it, and the pattern after
    the closing bracket. *)
Fixpoint class_match (p : string) (c : ascii) (acc : bool) : bool * string :=
  match p with
  | "" => (acc, "")
  | String a r =>
      if Ascii.eqb a "\" then
        match r with
        | String x r' => class_match r' c (acc || Ascii.eqb x c)
        | "" => (acc || Ascii.eqb a c, "")
        end
      else if Ascii.eqb a "]" then (acc, r)
      else
        match r with
        | String d (String b r') =>
            if Ascii.eqb d "-" then class_match r' c (acc || in_range a b c)
            else class_match r c (acc || Ascii.eqb a c)
        | _ => class_match r c (acc || Ascii.eqb a c)
        end
  end.

(** One pattern element against the character [c]: the pattern that remains,
    or [None] when [c] does not fit. The element is not a star. *)
Definition match_one (pc : ascii) (p' : string) (c : ascii) : option string :=
  if Ascii.eqb pc "?" then Some p'
  else if Ascii.eqb pc "[" then
    let '(neg, body) :=
      match p' with
      | String x b => if Ascii.eqb x "^" then (true, b) else (false, p')
      | "" => (false, p')
      end in
    let '(m, rest) := class_match body c false in
    if xorb neg m then Some rest else None
  else if Ascii.eqb pc "\" then
    match p' with
    | String e p'' => if Ascii.eqb e c then Some p'' else None
    | "" => if Ascii.eqb pc c then Some "" else None
    end
  else if Ascii.eqb pc c then Some p' else None.

Fixpoint stringmatchlen (fuel : nat) (p s : string) : bool :=
  match fuel with
  | O => false
  | S fuel' =>
      match p, s with
      | "", "" => true
      | "", String _ _ => false
      | String _ _, "" => false
      | String pc p', String c s' =>
          if Ascii.eqb pc "*" then
            match strip_stars p' with
            | "" => true
            | p1 =>
                (fix try (t : string) : bool :=
                   match t with
                   | "" => false
                   | String _ t' => stringmatchlen fuel' p1 t || try t'
                   end) s
            end
          else
            match match_one pc p' c with
            | None => false
            | Some p1 =>
                match s' with
                | "" => String.eqb (strip_stars p1) ""
                | _ => stringmatchlen fuel' p1 s'
                end
            end
      end
  end.

Definition stringmatch (pattern key : string) : bool :=
  stringmatchlen (S (String.length pattern)) pattern key.

(** *** Commands *)

Definition visible (now : Z) (d : gmap string entry) (key : string) : option entry :=
  match d !! key with
  | Some e => if live now e then Some e else None
  | None => None
  end.

(** A command on the client: rejected when the server cannot be reached,
    a [TypeError] when there is no client object at all. *)
Definition command {A} (run : Z -> gmap string entry -> result A * gmap string entry)
  : M env A :=
  fun s =>
    match client s with
    | None => (Throw TypeError, s)
    | Some c =>
        if reachable c then
          let '(r, d) := run (time s) (db c) in
          (r, mk_env (Some (mk_connection d (reachable c))) (time s))
        else (Throw MaxRetriesPerRequestError, s)
    end.

Definition redis_get (key : string) : M env (option string) :=
  command (fun now d => (Ok (e_data <$> visible now d key), d)).

(** The server refuses an expiry that is not positive. *)
Definition redis_setex (key : string) (ttl : Z) (data : string) : M env unit :=
  command (fun now d =>
    if 0 <? ttl then (Ok tt, <[key := mk_entry data ttl now]> d)
    else (Throw ReplyError, d)).

Definition redis_del (keys : list string) : M env unit :=
  command (fun now d => (Ok tt, foldr delete d keys)).

Definition redis_keys (pattern : string) : M env (list string) :=
  command (fun now d =>
    (Ok (filter (fun k => stringmatch pattern k = true
                          /\ is_Some (visible now d k))
                (map fst (map_to_list d))), d)).

(** [FLUSHDB] empties the database; [PING] answers [PONG]. *)
Definition redis_flushdb : M env unit :=
  command (fun now d => (Ok tt, ∅)).

Definition redis_ping : M env string :=
  command (fun now d => (Ok "PONG", d)).

(** [redisClient.getClient()] *)
Definition getClient : M env (option connection) := fun s => (Ok (client s), s).

(** ** [redisClient]

    The singleton of [src/cache/redisClient.ts]. Its field [client] is the
    [client] of the state. *)

Module redisClient.

(** What [throw error] throws in [connect]: [error] is the function
    [console.error], imported from [console]. *)
Definition thrown_function : js_error := mk_error "error" None [].

(** [this.client = new Redis(redisUrl, ...)]: [server] is what the URL leads
    to. With [lazyConnect] the constructor does not connect yet. *)
Definition new_Redis (server : string -> connection) (redisUrl : string) : M env unit :=
  fun s => (Ok tt, mk_env (Some (server redisUrl)) (time s)).

(** [REDIS_URL] is [process.env.REDIS_URL]. *)
Definition connect (REDIS_URL : option string) (server : string -> connection)
  : M env unit :=
  try_catch
    (match REDIS_URL with
     | None => throw thrown_function
     | Some redisUrl =>
         if negb (truthy (VStr redisUrl)) then throw thrown_function
         else
           do new_Redis server redisUrl in
           do redis_ping in
           ret tt
     end)
    (fun error => ret tt).

Definition disconnect : M env unit :=
  fun s =>
    match client s with
    | Some _ => (Ok tt, mk_env None (time s))
    | None => (Ok tt, s)
    end.

(** [this.client !== null && this.client.status === 'ready']; [status] is
    what the client object reports as its [status]. *)
Definition isConnected (status : string) : M env bool :=
  fun s =>
    (Ok (match client s with
         | Some _ => String.eqb status "ready"
         | None => false
         end), s).

End redisClient.

(** ** Typed views of the cached values *)

(** [IProperty] and [Omit<IUser, 'password'>]: an optional string [_id] and the
    other own properties. *)
Record entity : Type := mk_entity {
  _id : option string;
  fields : obj
}.

Abbreviation IProperty := entity.
Abbreviation IUserProfile := entity.

Definition entity_js (x : entity) : jsval :=
  match _id x with
  | Some id => VObj (("_id", VStr id) :: fields x)
  | None => VObj (fields x)
  end.

(** [{ isFavorited: boolean; favoriteId?: string }] *)
Record favorite_status : Type := mk_status {
  isFavorited : bool;
  favoriteId : option string
}.

Definition status_js (st : favorite_status) : jsval :=
  match favoriteId st with
  | Some id => VObj [("isFavorited", VBool (isFavorited st)); ("favoriteId", VStr id)]
  | None => VObj [("isFavorited", VBool (isFavorited st))]
  end.

(** ** [CacheService]

    [console.error] and [console.log] have no effect on the state that is
    modelled and are left out. *)

Module CacheService.

(** The client converts a command argument that is not a string with
    [String(arg)], and [undefined] to the empty string. *)
Definition to_arg (text : option string) : string := default "" text.

Definition JSON_parse_or_throw (text : string) : M env jsval :=
  match JSON_parse text with
  | Some v => ret v
  | None => throw SyntaxError
  end.

Definition setCache (key : string) (data : jsval) (ttl : Z) : M env unit :=
  try_catch
    (let* c := getClient in
     match c with
     | None => ret tt
     | Some _ => redis_setex key ttl (to_arg (JSON_stringify data))
     end)
    (fun error => ret tt).

Definition getCache (key : string) : M env jsval :=
  try_catch
    (let* c := getClient in
     match c with
     | None => ret VNull
     | Some _ =>
         let* data := redis_get key in
         match data with
         | Some text =>
             if truthy (VStr text) then JSON_parse_or_throw text else ret VNull
         | None => ret VNull
         end
     end)
    (fun error => ret VNull).

Definition deleteCache (key : string) : M env unit :=
  try_catch
    (let* c := getClient in
     match c with
     | None => ret tt
     | Some _ => redis_del [key]
     end)
    (fun error => ret tt).

Definition deleteCachePattern (pattern : string) : M env unit :=
  try_catch
    (let* c := getClient in
     match c with
     | None => ret tt
     | Some _ =>
         let* keys := redis_keys pattern in
         if (0 <? length keys)%nat then redis_del keys else ret tt
     end)
    (fun error => ret tt).

(** Property caching *)
Definition cacheProperty (property : IProperty) : M env unit :=
  match _id property with
  | None => ret tt
  | Some id =>
      if negb (truthy (VStr id)) then ret tt
      else setCache (KEYS.PROPERTY id) (entity_js property) TTL.PROPERTY
  end.

Definition getCachedProperty (propertyId : string) : M env jsval :=
  getCache (KEYS.PROPERTY propertyId).

Definition invalidateProperty (propertyId : string) : M env unit :=
  do deleteCache (KEYS.PROPERTY propertyId) in
  do deleteCachePattern "search:properties:*" in
  deleteCachePattern "user:properties:*".

(** User caching *)
Definition cacheUserProfile (user : IUserProfile) : M env unit :=
  match _id user with
  | None => ret tt
  | Some id =>
      if negb (truthy (VStr id)) then ret tt
      else setCache (KEYS.USER_PROFILE id) (entity_js user) TTL.USER
  end.

Definition getCachedUserProfile (userId : string) : M env jsval :=
  getCache (KEYS.USER_PROFILE userId).

Definition invalidateUserProfile (userId : string) : M env unit :=
  deleteCache (KEYS.USER_PROFILE userId).

(** Property search caching *)
Definition generateSearchKey_or_throw (query : obj) : M env string :=
  match generateSearchKey query with
  | Ok k => ret k
  | Throw e => throw e
  end.

Definition cachePropertySearch (query : obj) (results : jsval) : M env unit :=
  let* queryKey := generateSearchKey_or_throw query in
  setCache (KEYS.PROPERTY_SEARCH queryKey) results TTL.SEARCH.

Definition getCachedPropertySearch (query : obj) : M env jsval :=
  let* queryKey := generateSearchKey_or_throw query in
  getCache (KEYS.PROPERTY_SEARCH queryKey).

Definition invalidatePropertySearches : M env unit :=
  deleteCachePattern "search:properties:*".

(** User properties caching *)
Definition cacheUserProperties (userId : string) (page limit : number) (results : jsval)
  : M env unit :=
  setCache (KEYS.USER_PROPERTIES userId (Some page) (Some limit)) results
           TTL.PROPERTY_LIST.

Definition getCachedUserProperties (userId : string) (page limit : number) : M env jsval :=
  getCache (KEYS.USER_PROPERTIES userId (Some page) (Some limit)).

Definition invalidateUserProperties (userId : string) : M env unit :=
  do deleteCachePattern ("user:properties:" +:+ userId +:+ ":*") in
  invalidatePropertySearches.

(** Favorites caching *)
Definition cacheFavoriteStatus (userId propertyId : string) (status : favorite_status)
  : M env unit :=
  setCache (KEYS.FAVORITE_STATUS userId propertyId) (status_js status) TTL.FAVORITES.

Definition getCachedFavoriteStatus (userId propertyId : string) : M env jsval :=
  getCache (KEYS.FAVORITE_STATUS userId propertyId).

Definition cacheUserFavorites (userId : string) (page limit : number) (results : jsval)
  : M env unit :=
  setCache (KEYS.USER_FAVORITES userId (Some page) (Some limit)) results
           TTL.FAVORITES.

Definition getCachedUserFavorites (userId : string) (page limit : number) : M env jsval :=
  getCache (KEYS.USER_FAVORITES userId (Some page) (Some limit)).

Definition invalidateFavorites (userId : string) : M env unit :=
  do deleteCachePattern ("user:favorites:" +:+ userId +:+ ":*") in
  deleteCachePattern ("favorite:status:" +:+ userId +:+ ":*").

Definition invalidateSpecificFavorite (userId propertyId : string) : M env unit :=
  do deleteCache (KEYS.FAVORITE_STATUS userId propertyId) in
  deleteCachePattern ("user:favorites:" +:+ userId +:+ ":*").

Definition warmPropertyCache (propertyId : string) (property : IProperty) : M env unit :=
  cacheProperty property.

(** Clear all cache *)
Definition clearAllCache : M env unit :=
  try_catch
    (let* c := getClient in
     match c with
     | None => ret tt
     | Some _ => redis_flushdb
     end)
    (fun error => ret tt).

End CacheService.

(** ** The durable store

    The Mongoose models are external; the controllers see them through the
    calls below. Every call may throw (a [CastError], a [ValidationError], a
    duplicate-key error with code 11000, a lost connection) and may change
    the store. *)

(** A property document: [_id.toString()], the other properties of
    [toJSON()], and [createdBy.toString()] when [createdBy] is set. *)
Record property_doc : Type := mk_property_doc {
  doc_id : string;
  doc_fields : obj;
  doc_createdBy : option string
}.

(** A favorite document, with the texts of its ids and its populated
    references. *)
Record favorite_doc : Type := mk_favorite_doc {
  fav_id : string;
  fav_userId : string;
  fav_propertyId : string;
  fav_notes : jsval;
  fav_tags : jsval;
  fav_createdAt : jsval;
  fav_updatedAt : jsval;
  fav_property : jsval;
  fav_user : jsval
}.

Class DurableStore (D : Type) : Type := {
  Property_findById : string -> M D (option property_doc);
  Property_findOne_id : jsval -> M D (option property_doc);
  Property_create : obj -> string -> M D property_doc;
  Property_findByIdAndUpdate : string -> obj -> M D (option property_doc);
  Property_findByIdAndDelete : string -> M D (option property_doc);
  Favorite_findOne : string -> string -> M D (option favorite_doc);
  Favorite_create : string -> string -> string -> list string -> M D string;
  Favorite_findById : string -> M D (option favorite_doc);
  Favorite_findOneAndDelete : string -> string -> M D (option favorite_doc);
  Favorite_findOneAndUpdate :
    string -> string -> option string -> option (list string) -> M D (option favorite_doc)
}.

Record world (D : Type) : Type := mk_world {
  durable : D;
  cache : env
}.
Arguments mk_world {D} durable cache.
Arguments durable {D} w.
Arguments cache {D} w.

Definition liftD {D A} (m : M D A) : M (world D) A :=
  fun w => let '(r, d) := m (durable w) in (r, mk_world d (cache w)).

Definition liftC {D A} (m : M env A) : M (world D) A :=
  fun w => let '(r, c) := m (cache w) in (r, mk_world (durable w) c).

(** ** Controllers *)

Record response : Type := mk_response {
  status : Z;
  body : jsval
}.

(** [res.status(code).json({ success: false, message })] *)
Definition failure (code : Z) (message : string) : response :=
  mk_response code (VObj [("success", VBool false); ("message", VStr message)]).

(** [a || b] *)
Definition js_or (a b : jsval) : jsval := if truthy a then a else b.

(** [Object.values(error.errors).map(err => err.message).join(', ')] *)
Definition validation_message (error : js_error) : string :=
  join ", " (err_messages error).

Section Controllers.
Context {D : Type} `{DurableStore D}.

(** *** [FavoriteController] *)

Record ICreateFavoriteRequest : Type := mk_create_favorite {
  propertyId : option string;
  notes : option string;
  tags : option (list string)
}.

Record IUpdateFavoriteRequest : Type := mk_update_favorite {
  upd_notes : option string;
  upd_tags : option (list string)
}.

(** [notes || ''] and [tags || []] *)
Definition notes_or_empty (n : option string) : string := default "" n.
Definition tags_or_empty (t : option (list string)) : list string := default [] t.

(** The [favoriteResponse] of [addToFavorites], read through [?.] from a
    document that may be [null]. *)
Definition favoriteResponse_opt (p : option favorite_doc) : jsval :=
  VObj [("_id", from_option (fun f => VStr (fav_id f)) VUndef p);
        ("userId", VStr (from_option fav_userId "" p));
        ("propertyId", VStr (from_option fav_propertyId "" p));
        ("notes", from_option fav_notes VUndef p);
        ("tags", from_option fav_tags VUndef p);
        ("createdAt", from_option fav_createdAt VUndef p);
        ("updatedAt", from_option fav_updatedAt VUndef p);
        ("property", from_option fav_property VUndef p);
        ("user", from_option fav_user VUndef p)].

Definition favoriteResponse (f : favorite_doc) : jsval :=
  VObj [("_id", VStr (fav_id f));
        ("userId", VStr (fav_userId f));
        ("propertyId", VStr (fav_propertyId f));
        ("notes", fav_notes f);
        ("tags", fav_tags f);
        ("createdAt", fav_createdAt f);
        ("updatedAt", fav_updatedAt f);
        ("property", fav_property f);
        ("user", fav_user f)].

Definition addToFavorites (user_id : string) (req_body : ICreateFavoriteRequest)
  : M (world D) response :=
  try_catch
    (match propertyId req_body with
     | None => ret (failure 400 "Property ID is required")
     | Some pid =>
       if negb (truthy (VStr pid)) then ret (failure 400 "Property ID is required")
       else
         let* property := liftD (Property_findById pid) in
         match property with
         | None => ret (failure 404 "Property not found")
         | Some _ =>
           let* cachedStatus := liftC (CacheService.getCachedFavoriteStatus user_id pid) in
           if truthy cachedStatus && truthy (js_get cachedStatus "isFavorited")
           then ret (failure 400 "Property is already in your favorites")
           else
             let* existingFavorite := liftD (Favorite_findOne user_id pid) in
             match existingFavorite with
             | Some existing =>
               do liftC (CacheService.cacheFavoriteStatus user_id pid
                           (mk_status true (Some (fav_id existing)))) in
               ret (failure 400 "Property is already in your favorites")
             | None =>
               let* favorite_id :=
                 liftD (Favorite_create user_id pid (notes_or_empty (notes req_body))
                                        (tags_or_empty (tags req_body))) in
               let* populatedFavorite := liftD (Favorite_findById favorite_id) in
               do liftC (CacheService.cacheFavoriteStatus user_id pid
                           (mk_status true (Some favorite_id))) in
               do liftC (CacheService.invalidateFavorites user_id) in
               ret (mk_response 201
                      (VObj [("success", VBool true);
                             ("message", VStr "Property added to favorites successfully");
                             ("favorite", favoriteResponse_opt populatedFavorite)]))
             end
         end
     end)
    (fun error =>
       if String.eqb (err_name error) "ValidationError"
       then ret (failure 400 (validation_message error))
       else if bool_decide (err_code error = Some 11000)
       then ret (failure 400 "Property is already in your favorites")
       else ret (failure 500 "Internal server error")).

Definition removeFromFavorites (user_id : string) (param_propertyId : string)
  : M (world D) response :=
  try_catch
    (if negb (truthy (VStr param_propertyId))
     then ret (failure 400 "Property ID is required")
     else
       let* deletedFavorite := liftD (Favorite_findOneAndDelete user_id param_propertyId) in
       match deletedFavorite with
       | None => ret (failure 404 "Favorite not found")
       | Some _ =>
         do liftC (CacheService.cacheFavoriteStatus user_id param_propertyId
                     (mk_status false None)) in
         do liftC (CacheService.invalidateFavorites user_id) in
         ret (mk_response 200
                (VObj [("success", VBool true);
                       ("message", VStr "Property removed from favorites successfully")]))
       end)
    (fun error =>
       if String.eqb (err_name error) "CastError"
       then ret (failure 400 "Invalid property ID format")
       else ret (failure 500 "Internal server error")).

Definition updateFavorite (user_id : string) (param_id : string)
           (req_body : IUpdateFavoriteRequest) : M (world D) response :=
  try_catch
    (let* updatedFavorite :=
       liftD (Favorite_findOneAndUpdate param_id user_id
                (upd_notes req_body) (upd_tags req_body)) in
     match updatedFavorite with
     | None => ret (failure 404 "Favorite not found")
     | Some updated =>
       do liftC (CacheService.invalidateFavorites user_id) in
       ret (mk_response 200
              (VObj [("success", VBool true);
                     ("message", VStr "Favorite updated successfully");
                     ("favorite", favoriteResponse updated)]))
     end)
    (fun error =>
       if String.eqb (err_name error) "ValidationError"
       then ret (failure 400 (validation_message error))
       else if String.eqb (err_name error) "CastError"
       then ret (failure 400 "Invalid favorite ID format")
       else ret (failure 500 "Internal server error")).

Definition checkFavoriteStatus (user_id : string) (param_propertyId : string)
  : M (world D) response :=
  try_catch
    (let* cachedStatus :=
       liftC (CacheService.getCachedFavoriteStatus user_id param_propertyId) in
     if truthy cachedStatus then
       ret (mk_response 200
              (VObj [("success", VBool true);
                     ("message", VStr "Favorite status retrieved");
                     ("isFavorited", js_get cachedStatus "isFavorited");
                     ("favoriteId", js_or (js_get cachedStatus "favoriteId") VNull)]))
     else
       let* favorite := liftD (Favorite_findOne user_id param_propertyId) in
       let isFav := match favorite with Some _ => true | None => false end in
       let favId := js_or (from_option (fun f => VStr (fav_id f)) VUndef favorite) VNull in
       let cacheStatus :=
         mk_status isFav (match favId with
                          | VStr id => if truthy favId then Some id else None
                          | _ => None
                          end) in
       do liftC (CacheService.cacheFavoriteStatus user_id param_propertyId cacheStatus) in
       ret (mk_response 200
              (VObj [("success", VBool true);
                     ("message", VStr "Favorite status retrieved");
                     ("isFavorited", VBool isFav);
                     ("favoriteId", favId)])))
    (fun error => ret (failure 500 "Internal server error")).

(** *** [PropertyController] (the version that calls [CacheService]) *)

Definition requiredFields : list string :=
  ["id"; "title"; "type"; "price"; "state"; "city"; "areaSqFt";
   "bedrooms"; "bathrooms"; "amenities"; "furnished"; "availableFrom";
   "listedBy"; "tags"; "colorTheme"; "rating"; "listingType"].

(** The first required field that is falsy in the request body. *)
Fixpoint first_missing (fs : list string) (propertyData : obj) : option string :=
  match fs with
  | [] => None
  | field :: fs' =>
      if negb (truthy (obj_get field propertyData)) then Some field
      else first_missing fs' propertyData
  end.

(** [{ ...doc.toJSON(), _id: doc._id.toString(),
       createdBy: doc.createdBy ? doc.createdBy.toString() : "" }] *)
Definition propertyResponse (doc : property_doc) : IProperty :=
  mk_entity (Some (doc_id doc))
            (obj_define "createdBy" (VStr (default "" (doc_createdBy doc)))
                        (doc_fields doc)).

(** [delete o[k]] *)
Definition obj_delete (k : string) (o : obj) : obj :=
  filter (fun kv => fst kv <> k) o.

Definition createProperty (user_id : string) (propertyData : obj)
  : M (world D) response :=
  try_catch
    (match first_missing requiredFields propertyData with
     | Some field => ret (failure 400 (field +:+ " is required"))
     | None =>
       let* existingProperty :=
         liftD (Property_findOne_id (obj_get "id" propertyData)) in
       match existingProperty with
       | Some _ => ret (failure 400 "Property with this ID already exists")
       | None =>
         let* property := liftD (Property_create propertyData user_id) in
         do liftC (CacheService.cacheProperty (propertyResponse property)) in
         do liftC CacheService.invalidatePropertySearches in
         do liftC (CacheService.invalidateUserProperties user_id) in
         ret (mk_response 201
                (VObj [("success", VBool true);
                       ("message", VStr "Property created successfully");
                       ("property", entity_js (propertyResponse property))]))
       end
     end)
    (fun error =>
       if String.eqb (err_name error) "ValidationError"
       then ret (failure 400 (validation_message error))
       else ret (failure 500 "Internal server error")).

Definition getPropertyById (param_id : string) : M (world D) response :=
  try_catch
    (let* cachedProperty := liftC (CacheService.getCachedProperty param_id) in
     if truthy cachedProperty then
       ret (mk_response 200
              (VObj [("success", VBool true);
                     ("message", VStr "Property retrieved successfully");
                     ("property", cachedProperty)]))
     else
       let* property := liftD (Property_findById param_id) in
       match property with
       | None => ret (failure 404 "Property not found")
       | Some doc =>
         do liftC (CacheService.cacheProperty (propertyResponse doc)) in
         ret (mk_response 200
                (VObj [("success", VBool true);
                       ("message", VStr "Property retrieved successfully");
                       ("property", entity_js (propertyResponse doc))]))
       end)
    (fun error =>
       if String.eqb (err_name error) "CastError"
       then ret (failure 400 "Invalid property ID format")
       else ret (failure 500 "Internal server error")).

Definition updateProperty (user_id : string) (param_id : string) (req_body : obj)
  : M (world D) response :=
  try_catch
    (let updateData := obj_delete "id" (obj_delete "createdBy" req_body) in
     let* updatedProperty := liftD (Property_findByIdAndUpdate param_id updateData) in
     match updatedProperty with
     | None => ret (failure 404 "Property not found")
     | Some doc =>
       do liftC (CacheService.cacheProperty (propertyResponse doc)) in
       do liftC CacheService.invalidatePropertySearches in
       do liftC (CacheService.invalidateUserProperties user_id) in
       ret (mk_response 200
              (VObj [("success", VBool true);
                     ("message", VStr "Property updated successfully");
                     ("property", entity_js (propertyResponse doc))]))
     end)
    (fun error =>
       if String.eqb (err_name error) "ValidationError"
       then ret (failure 400 (validation_message error))
       else if String.eqb (err_name error) "CastError"
       then ret (failure 400 "Invalid property ID format")
       else ret (failure 500 "Internal server error")).

Definition deleteProperty (user_id : string) (param_id : string)
  : M (world D) response :=
  try_catch
    (let* deletedProperty := liftD (Property_findByIdAndDelete param_id) in
     match deletedProperty with
     | None => ret (failure 404 "Property not found")
     | Some _ =>
       do liftC (CacheService.invalidateProperty param_id) in
       do liftC (CacheService.invalidateUserProperties user_id) in
       ret (mk_response 200
              (VObj [("success", VBool true);
                     ("message", VStr "Property deleted successfully")]))
     end)
    (fun error =>
       if String.eqb (err_name error) "CastError"
       then ret (failure 400 "Invalid property ID format")
       else ret (failure 500 "Internal server error")).

End Controllers.

(** [propertySearchCache]'s [keyGenerator] in [src/middleware/cacheMiddleware.ts] *)
Definition propertySearchCache_keyGenerator (query : obj) : result string :=
  match JSON_stringify (VObj (sortedQuery query)) with
  | Some text => Ok ("search:properties:" +:+ toString_base64 (Buffer_from text))
  | None => Throw TypeError
  end.

(** ** [src/middleware/cacheMiddleware.ts] *)

(** What the middleware reads of a request: [req.originalUrl], [req.query],
    [req.params.id] and [req.headers.authorization]. *)
Record Request : Type := mk_request {
  originalUrl : string;
  req_query : list (string * ParsedQs);
  params_id : option string;
  authorization : option string
}.

Definition query_obj (req : Request) : obj :=
  map (fun kv => (fst kv, qs_js (snd kv))) (req_query req).

Record CacheOptions : Type := mk_options {
  ttl : option Z;
  keyGenerator : option (Request -> result string);
  skipCondition : option (Request -> bool)
}.

Module Middleware.

(** The defaults of the destructured [options]. *)
Definition ttl_of (options : CacheOptions) : Z := default 300 (ttl options).

Definition keyGenerator_of (options : CacheOptions) : Request -> result string :=
  default (fun req => Ok ("route:" +:+ originalUrl req)) (keyGenerator options).

Definition skipCondition_of (options : CacheOptions) : Request -> bool :=
  default (fun _ => false) (skipCondition options).

(** How the part of the middleware before [next()] ends: it hands the
    request on as it is, it answers from the cache, or it hands the request
    on with [res.json] replaced so that the answer is stored under
    [cacheKey]. *)
Inductive lookup : Type :=
| Pass
| Hit (parsedData : jsval)
| Miss (cacheKey : string).

Definition call_keyGenerator (f : Request -> result string) (req : Request)
  : M env string :=
  match f req with
  | Ok k => ret k
  | Throw e => throw e
  end.

(** The body of the [try] up to [next()]; an exception in it reaches the
    [catch], which calls [next()]. [next()] itself returns at once, the
    handler it starts is asynchronous, so nothing the handler throws comes
    back here. *)
Definition before_next (options : CacheOptions) (client_status : string)
           (req : Request) : M env lookup :=
  try_catch
    (if skipCondition_of options req then ret Pass
     else
       let* connected := redisClient.isConnected client_status in
       if negb connected then ret Pass
       else
         let* c := getClient in
         match c with
         | None => ret Pass
         | Some _ =>
             let* cacheKey := call_keyGenerator (keyGenerator_of options) req in
             let* cachedData := redis_get cacheKey in
             match cachedData with
             | Some text =>
                 if truthy (VStr text)
                 then let* parsedData := CacheService.JSON_parse_or_throw text in
                      ret (Hit parsedData)
                 else ret (Miss cacheKey)
             | None => ret (Miss cacheKey)
             end
         end)
    (fun error => ret Pass).

(** The replaced [res.json]: [client.setex(...).catch(...)] when the status
    code is 2xx, then the original [res.json]. *)
Definition store_response (options : CacheOptions) (cacheKey : string)
           (res : response) : M env unit :=
  if (200 <=? status res) && (status res <? 300)
  then try_catch
         (redis_setex cacheKey (ttl_of options)
            (CacheService.to_arg (JSON_stringify (body res))))
         (fun err => ret tt)
  else ret tt.

End Middleware.

(** The middleware around the handler [next]. An answer from the cache is
    sent by [res.json(parsedData)], with the status code 200 of a fresh
    response. *)
Definition cacheMiddleware {D} (options : CacheOptions) (client_status : string)
           (req : Request) (next : M (world D) response) : M (world D) response :=
  let* found := liftC (Middleware.before_next options client_status req) in
  match found with
  | Middleware.Pass => next
  | Middleware.Hit parsedData => ret (mk_response 200 parsedData)
  | Middleware.Miss cacheKey =>
      let* res := next in
      do liftC (Middleware.store_response options cacheKey res) in
      ret res
  end.

(** [propertySearchCache] *)
Definition propertySearchCache : CacheOptions :=
  mk_options (Some 300)
    (Some (fun req => propertySearchCache_keyGenerator (query_obj req)))
    (Some (fun req => match authorization req with
                      | Some a => truthy (VStr a)
                      | None => false
                      end)).

(** [publicPropertyCache] *)
Definition publicPropertyCache : CacheOptions :=
  mk_options (Some 600)
    (Some (fun req =>
             let page := from_option qs_to_string "1" (query_get "page" (req_query req)) in
             let limit := from_option qs_to_string "10" (query_get "limit" (req_query req)) in
             Ok ("public:properties:" +:+ page +:+ ":" +:+ limit)))
    (Some (fun req =>
             existsb (fun key => negb (bool_decide (key ∈ ["page"; "limit"])))
                     (map fst (req_query req)))).

(** [propertyDetailCache] *)
Definition propertyDetailCache : CacheOptions :=
  mk_options (Some 900)
    (Some (fun req => Ok ("property:" +:+ default "undefined" (params_id req))))
    (Some (fun _ => false)).

(** [invalidateCachePattern] and [invalidateCacheKey] of the middleware file *)
Definition invalidateCachePattern (pattern : string) : M env unit :=
  try_catch
    (let* c := getClient in
     match c with
     | None => ret tt
     | Some _ =>
         let* keys := redis_keys pattern in
         if (0 <? length keys)%nat then redis_del keys else ret tt
     end)
    (fun error => ret tt).

Definition invalidateCacheKey (key : string) : M env unit :=
  try_catch
    (let* c := getClient in
     match c with
     | None => ret tt
     | Some _ => redis_del [key]
     end)
    (fun error => ret tt).

(** *** The listing operations

    [getProperties] and [getUserProperties] of [PropertyController] and
    [getUserFavorites] of [FavoriteController]. The queries they run are
    calls of the store: *)

Class ListingStore (D : Type) : Type := {
  (* Property.find(filter).populate('createdBy', 'username email').sort(...)
       .skip(skip).limit(limit), with the filter and the sort that
     getProperties builds from req.query *)
  Property_find_query : list (string * ParsedQs) -> number -> number -> M D (list property_doc);
  (* Property.countDocuments(filter), with the same filter *)
  Property_countDocuments_query : list (string * ParsedQs) -> M D number;
  (* Property.find({ createdBy }).sort({ createdAt: -1 }).skip(skip).limit(limit) *)
  Property_find_createdBy : string -> number -> number -> M D (list property_doc);
  (* Property.countDocuments({ createdBy }) *)
  Property_countDocuments_createdBy : string -> M D number;
  (* Favorite.aggregate([...pipeline, { $skip }, { $limit }]) for the user, with
     the pipeline that getUserFavorites builds from sortBy, search and the
     list of tags *)
  Favorite_aggregate :
    string -> option ParsedQs -> option ParsedQs -> option (list string) ->
    number -> number -> M D (list favorite_doc);
  (* Favorite.aggregate([...pipeline, { $count: 'total' }]): totalResult[0]?.total *)
  Favorite_aggregate_count :
    string -> option ParsedQs -> option ParsedQs -> option (list string) ->
    M D (option number)
}.

Section Listings.
Context {D : Type} `{ListingStore D}.

(** [for (const property of properties) await CacheService.cacheProperty(...)] *)
Fixpoint cache_each (properties : list property_doc) : M env unit :=
  match properties with
  | [] => ret tt
  | property :: rest =>
      do CacheService.cacheProperty (propertyResponse property) in
      cache_each rest
  end.

(** The page a listing answers with. *)
Definition page_response (message items_name : string) (items : list jsval)
           (total page limit : number) : jsval :=
  VObj [("success", VBool true);
        ("message", VStr message);
        (items_name, VArr items);
        ("total", VNum total);
        ("page", VNum page);
        ("limit", VNum limit);
        ("totalPages", VNum (Math_ceil (Number_div total limit)))].

Definition getProperties (req_query : list (string * ParsedQs)) : M (world D) response :=
  try_catch
    (let page := Number_of_query "page" 1 req_query in
     let limit := Number_of_query "limit" 10 req_query in
     let query := query_js req_query in
     let* cachedResult := liftC (CacheService.getCachedPropertySearch query) in
     if truthy cachedResult then ret (mk_response 200 cachedResult)
     else
       let skip := Number_mul (Number_sub page 1) limit in
       let* properties := liftD (Property_find_query req_query skip limit) in
       let* total := liftD (Property_countDocuments_query req_query) in
       let response :=
         page_response "Properties retrieved successfully" "properties"
           (map (fun p => entity_js (propertyResponse p)) properties) total page limit in
       do liftC (CacheService.cachePropertySearch query response) in
       do liftC (cache_each properties) in
       ret (mk_response 200 response))
    (fun error => ret (failure 500 "Internal server error")).

Definition getUserProperties (user_id : string) (req_query : list (string * ParsedQs))
  : M (world D) response :=
  try_catch
    (let page := Number_of_query "page" 1 req_query in
     let limit := Number_of_query "limit" 10 req_query in
     let* cachedResult := liftC (CacheService.getCachedUserProperties user_id page limit) in
     if truthy cachedResult then ret (mk_response 200 cachedResult)
     else
       let skip := Number_mul (Number_sub page 1) limit in
       let* properties := liftD (Property_find_createdBy user_id skip limit) in
       let* total := liftD (Property_countDocuments_createdBy user_id) in
       let response :=
         page_response "User properties retrieved successfully" "properties"
           (map (fun p => entity_js (propertyResponse p)) properties) total page limit in
       do liftC (CacheService.cacheUserProperties user_id page limit response) in
       do liftC (cache_each properties) in
       ret (mk_response 200 response))
    (fun error => ret (failure 500 "Internal server error")).

(** [tags.split(',').map(tag => tag.trim())] when [tags] is truthy; a list or
    an object has no [split]. *)
Definition tagsArray (tags : option ParsedQs) : result (option (list string)) :=
  match tags with
  | Some (QStr t) => if String.eqb t "" then Ok None else Ok (Some (map trim (split_comma t)))
  | Some _ => Throw TypeError
  | None => Ok None
  end.

Definition getUserFavorites (user_id : string) (req_query : list (string * ParsedQs))
  : M (world D) response :=
  try_catch
    (let page := Number_of_query "page" 1 req_query in
     let limit := Number_of_query "limit" 10 req_query in
     let search := query_get "search" req_query in
     let tags := query_get "tags" req_query in
     let sortBy := query_get "sortBy" req_query in
     let simple := negb (qs_truthy search) && negb (qs_truthy tags) in
     let* cachedResult :=
       if simple then liftC (CacheService.getCachedUserFavorites user_id page limit)
       else ret VUndef in
     if truthy cachedResult then ret (mk_response 200 cachedResult)
     else
       let skip := Number_mul (Number_sub page 1) limit in
       match tagsArray tags with
       | Throw error => throw error
       | Ok tagList =>
           let* favorites :=
             liftD (Favorite_aggregate user_id sortBy search tagList skip limit) in
           let* totalResult :=
             liftD (Favorite_aggregate_count user_id sortBy search tagList) in
           let total :=
             match totalResult with
             | Some n => if truthy (VNum n) then n else Number_of_Z 0
             | None => Number_of_Z 0
             end in
           let response :=
             page_response "Favorites retrieved successfully" "favorites"
               (map favoriteResponse favorites) total page limit in
           do (if simple
               then liftC (CacheService.cacheUserFavorites user_id page limit response)
               else ret tt) in
           ret (mk_response 200 response)
       end)
    (fun error => ret (failure 500 "Internal server error")).

End Listings.

(** ** [src/middleware/ownershipMiddleware.ts] *)

Section Ownership.
Context {D : Type} `{DurableStore D}.

(** How the part of [checkPropertyOwnership] before [next()] ends. *)
Inductive ownership : Type :=
| Refused (res : response)
| Owner (property : property_doc).

(** [params_id] is [req.params.id], [user_id] is [req.user?.id]. Reading
    [createdBy] of a document that has none throws. *)
Definition ownership_before_next (params_id : string) (user_id : option string)
  : M (world D) ownership :=
  try_catch
    (if negb (truthy (VStr params_id))
     then ret (Refused (failure 400 "Property ID is required"))
     else
       match user_id with
       | None => ret (Refused (failure 401 "User authentication required"))
       | Some userId =>
           if negb (truthy (VStr userId))
           then ret (Refused (failure 401 "User authentication required"))
           else
             let* property := liftD (Property_findById params_id) in
             match property with
             | None => ret (Refused (failure 404 "Property not found"))
             | Some doc =>
                 match doc_createdBy doc with
                 | None => throw TypeError
                 | Some createdBy =>
                     if negb (String.eqb createdBy userId)
                     then ret (Refused (failure 403
                            "Access denied. You can only modify properties you created."))
                     else ret (Owner doc)
                 end
             end
       end)
    (fun error => ret (Refused (failure 500 "Internal server error"))).

Definition checkPropertyOwnership (params_id : string) (user_id : option string)
           (next : M (world D) response) : M (world D) response :=
  let* verdict := ownership_before_next params_id user_id in
  match verdict with
  | Refused res => ret res
  | Owner _ => next
  end.

(** The routes [PUT /:id], [PATCH /:id] and [DELETE /:id] of
    [src/routes/propertyRoutes.ts], for a request that [authMiddleware] has
    let through with [req.user.id = user_id]. *)
Definition route_update_property (user_id id : string) (req_body : obj)
  : M (world D) response :=
  checkPropertyOwnership id (Some user_id) (updateProperty user_id id req_body).

Definition route_delete_property (user_id id : string) : M (world D) response :=
  checkPropertyOwnership id (Some user_id) (deleteProperty user_id id).

End Ownership.

(** ** [AuthController] (the version that calls [CacheService])

    The [User] model, [hashPassword], [comparePassword] and [jwt.sign] are
    external; each may throw. *)

(** A user document: [_id.toString()] and the other properties of
    [toObject()], the password hash among them. *)
Record user_doc : Type := mk_user_doc {
  usr_id : string;
  usr_fields : obj
}.

Class UserStore (D : Type) : Type := {
  (* User.findOne({ $or: [{ email }, { username }] }) *)
  User_findOne_email_or_username : string -> string -> M D (option user_doc);
  (* User.findOne({ email }).select('+password') *)
  User_findOne_email : string -> M D (option user_doc);
  (* new User({ username, email, password }) and save() *)
  User_create : string -> string -> string -> M D user_doc;
  User_findById : string -> M D (option user_doc);
  (* User.findOne({ _id: { $ne: userId }, $or: [...] }) *)
  User_findOne_other : string -> option string -> option string -> M D (option user_doc);
  User_findByIdAndUpdate : string -> obj -> M D (option user_doc);
  hashPassword : string -> M D string;
  comparePassword : string -> jsval -> M D bool;
  (* jwt.sign(payload, secret, options) *)
  jwt_sign : jsval -> string -> jsval -> M D string
}.

(** [{ ...user.toJSON(), _id: user._id.toString() }]; the [toJSON] of the
    schema deletes [password]. *)
Definition userResponse (user : user_doc) : IUserProfile :=
  mk_entity (Some (usr_id user)) (obj_delete "password" (usr_fields user)).

Section Auth.
Context {D : Type} `{UserStore D}.
(** [process.env.JWT_SECRET] and [process.env.JWT_EXPIRES_IN] *)
Variables JWT_SECRET JWT_EXPIRES_IN : option string.

(** [x || fallback] on an environment variable *)
Definition env_or (x : option string) (fallback : string) : string :=
  match x with
  | Some v => if truthy (VStr v) then v else fallback
  | None => fallback
  end.

(** [src/utils/generateToken.ts] *)
Definition generateToken (user : IUserProfile) : M D string :=
  let payload :=
    VObj [("id", from_option VStr VUndef (_id user));
          ("email", obj_get "email" (fields user));
          ("username", obj_get "username" (fields user))] in
  let secret := env_or JWT_SECRET "your-secret-key" in
  let options := VObj [("expiresIn", VStr (env_or JWT_EXPIRES_IN "7d"))] in
  jwt_sign payload secret options.

Record ISignupRequest : Type := mk_signup {
  signup_username : option string;
  signup_email : option string;
  signup_password : option string
}.

Record ILoginRequest : Type := mk_login {
  login_email : option string;
  login_password : option string
}.

Record IUpdateProfileRequest : Type := mk_update_profile {
  profile_username : option string;
  profile_email : option string
}.

Record IChangePasswordRequest : Type := mk_change_password {
  currentPassword : option string;
  newPassword : option string
}.

(** A field of the request body when it is truthy. *)
Definition given (x : option string) : option string :=
  match x with
  | Some v => if truthy (VStr v) then Some v else None
  | None => None
  end.

Definition signup (req_body : ISignupRequest) : M (world D) response :=
  try_catch
    (match given (signup_username req_body), given (signup_email req_body),
           given (signup_password req_body) with
     | Some username, Some email, Some password =>
         let* existingUser := liftD (User_findOne_email_or_username email username) in
         match existingUser with
         | Some _ => ret (failure 400 "User with this email or username already exists")
         | None =>
             let* hashedPassword := liftD (hashPassword password) in
             let* user := liftD (User_create username email hashedPassword) in
             let* token := liftD (generateToken (userResponse user)) in
             do liftC (CacheService.cacheUserProfile (userResponse user)) in
             ret (mk_response 201
                    (VObj [("success", VBool true);
                           ("message", VStr "User created successfully");
                           ("token", VStr token);
                           ("user", entity_js (userResponse user))]))
         end
     | _, _, _ => ret (failure 400 "All fields are required")
     end)
    (fun error =>
       if String.eqb (err_name error) "ValidationError"
       then ret (failure 400 (validation_message error))
       else ret (failure 500 "Internal server error")).

Definition login (req_body : ILoginRequest) : M (world D) response :=
  try_catch
    (match given (login_email req_body), given (login_password req_body) with
     | Some email, Some password =>
         let* found := liftD (User_findOne_email email) in
         match found with
         | None => ret (failure 401 "Invalid credentials")
         | Some user =>
             let* isPasswordValid :=
               liftD (comparePassword password (obj_get "password" (usr_fields user))) in
             if negb isPasswordValid then ret (failure 401 "Invalid credentials")
             else
               let* token := liftD (generateToken (userResponse user)) in
               do liftC (CacheService.cacheUserProfile (userResponse user)) in
               ret (mk_response 200
                      (VObj [("success", VBool true);
                             ("message", VStr "Login successful");
                             ("token", VStr token);
                             ("user", entity_js (userResponse user))]))
         end
     | _, _ => ret (failure 400 "Email and password are required")
     end)
    (fun error => ret (failure 500 "Internal server error")).

Definition getProfile (userId : string) : M (world D) response :=
  try_catch
    (let* cachedUser := liftC (CacheService.getCachedUserProfile userId) in
     if truthy cachedUser then
       ret (mk_response 200
              (VObj [("success", VBool true);
                     ("message", VStr "Profile retrieved successfully");
                     ("user", cachedUser)]))
     else
       let* found := liftD (User_findById userId) in
       match found with
       | None => ret (failure 404 "User not found")
       | Some user =>
           do liftC (CacheService.cacheUserProfile (userResponse user)) in
           ret (mk_response 200
                  (VObj [("success", VBool true);
                         ("message", VStr "Profile retrieved successfully");
                         ("user", entity_js (userResponse user))]))
       end)
    (fun error => ret (failure 500 "Internal server error")).

(** [updateData]: [username] and [email], each when it is given. *)
Definition updateData (username email : option string) : obj :=
  from_option (fun v => [("username", VStr v)]) [] username
    ++ from_option (fun v => [("email", VStr v)]) [] email.

Definition updateProfile (userId : string) (req_body : IUpdateProfileRequest)
  : M (world D) response :=
  try_catch
    (let username := given (profile_username req_body) in
     let email := given (profile_email req_body) in
     match username, email with
     | None, None =>
         ret (failure 400 "At least one field (username or email) is required")
     | _, _ =>
         let* existingUser := liftD (User_findOne_other userId username email) in
         match existingUser with
         | Some _ => ret (failure 400 "Username or email is already taken")
         | None =>
             let* updatedUser :=
               liftD (User_findByIdAndUpdate userId (updateData username email)) in
             match updatedUser with
             | None => ret (failure 404 "User not found")
             | Some user =>
                 do liftC (CacheService.cacheUserProfile (userResponse user)) in
                 ret (mk_response 200
                        (VObj [("success", VBool true);
                               ("message", VStr "Profile updated successfully");
                               ("user", entity_js (userResponse user))]))
             end
         end
     end)
    (fun error =>
       if String.eqb (err_name error) "ValidationError"
       then ret (failure 400 (validation_message error))
       else ret (failure 500 "Internal server error")).

Definition changePassword (userId : string) (req_body : IChangePasswordRequest)
  : M (world D) response :=
  try_catch
    (match given (currentPassword req_body), given (newPassword req_body) with
     | Some current, Some new =>
         if (String.length new <? 6)%nat
         then ret (failure 400 "New password must be at least 6 characters long")
         else
           let* found := liftD (User_findById userId) in
           match found with
           | None => ret (failure 404 "User not found")
           | Some user =>
               let* isCurrentPasswordValid :=
                 liftD (comparePassword current (obj_get "password" (usr_fields user))) in
               if negb isCurrentPasswordValid
               then ret (failure 400 "Current password is incorrect")
               else
                 let* hashedNewPassword := liftD (hashPassword new) in
                 do liftD (User_findByIdAndUpdate userId
                             [("password", VStr hashedNewPassword)]) in
                 do liftC (CacheService.invalidateUserProfile userId) in
                 ret (mk_response 200
                        (VObj [("success", VBool true);
                               ("message", VStr "Password changed successfully")]))
           end
     | _, _ => ret (failure 400 "Current password and new password are required")
     end)
    (fun error => ret (failure 500 "Internal server error")).

End Auth.

(** ** [src/routes/cacheRoutes.ts]

    The handlers of the routes, for a request that [authMiddleware] has let
    through; [user] is [req.user]. *)

Module cacheRoutes.

Definition adminMiddleware {S} (user : jsval) (next : M S response) : M S response :=
  if negb (truthy user) then ret (failure 401 "Authentication required") else next.

Definition success (message : string) : response :=
  mk_response 200 (VObj [("success", VBool true); ("message", VStr message)]).

(** [DELETE /clear] *)
Definition clear : M env response :=
  try_catch
    (do CacheService.clearAllCache in
     ret (success "All cache cleared successfully"))
    (fun error => ret (failure 500 "Failed to clear cache")).

(** [DELETE /property/:propertyId] *)
Definition clear_property (propertyId : string) : M env response :=
  try_catch
    (if negb (truthy (VStr propertyId)) then ret (failure 400 "Property ID is required")
     else
       do CacheService.invalidateProperty propertyId in
       ret (success ("Cache cleared for property " +:+ propertyId)))
    (fun error => ret (failure 500 "Failed to clear property cache")).

(** [DELETE /search] *)
Definition clear_search : M env response :=
  try_catch
    (do CacheService.invalidatePropertySearches in
     ret (success "Search cache cleared successfully"))
    (fun error => ret (failure 500 "Failed to clear search cache")).

(** [POST /warm/property/:propertyId] *)
Definition warm_property (propertyId : string) : M env response :=
  try_catch
    (if negb (truthy (VStr propertyId)) then ret (failure 400 "Property ID is required")
     else ret (success ("Cache warming initiated for property " +:+ propertyId)))
    (fun error => ret (failure 500 "Failed to warm cache")).

(** [GET /health] *)
Definition health (client_status : string) : M env response :=
  try_catch
    (let* isConnected := redisClient.isConnected client_status in
     if negb isConnected
     then ret (failure 503 "Cache service is not available")
     else
       let* c := getClient in
       do match c with
          | Some _ => do redis_ping in ret tt
          | None => ret tt
          end in
       ret (mk_response 200
              (VObj [("success", VBool true);
                     ("message", VStr "Cache service is healthy");
                     ("connected", VBool true)])))
    (fun error =>
       ret (mk_response 503
              (VObj [("success", VBool false);
                     ("message", VStr "Cache service health check failed");
                     ("connected", VBool false)]))).

End cacheRoutes.

(** ** Notions used by the statements *)

(** What [JSON.parse(JSON.stringify(x))] is for a number: [null] for NaN and
    the infinities, [0] for [-0], and [x] otherwise. *)
Definition number_image (x : number) : jsval :=
  if is_finite x then VNum (if is_zero x then Number_of_Z 0 else x) else VNull.

(** What [JSON.parse(JSON.stringify(v))] is: a number has become its
    [number_image], a [Date] its ISO text, an [undefined] array element
    [null], a property that is [undefined] is gone, and the properties are in
    the order a new object gives them. *)
Fixpoint json_image (v : jsval) : jsval :=
  match v with
  | VNum x => number_image x
  | VDate iso => VStr iso
  | VArr l =>
      VArr (map (fun x => match x with VUndef => VNull | _ => json_image x end) l)
  | VObj l =>
      VObj (build_object
              (omap (fun kv => match snd kv with
                               | VUndef => None
                               | _ => Some (fst kv, json_image (snd kv))
                               end) l))
  | _ => v
  end.

(** The keys of an object in an order an object can have: array indices
    ascending, then the other keys; [bound] is the least index still allowed. *)
Fixpoint keys_ordered (bound : option N) (ks : list string) : bool :=
  match ks with
  | [] => true
  | k :: ks' =>
      match array_index k, bound with
      | Some n, Some b => (b <=? n)%N && keys_ordered (Some (n + 1)%N) ks'
      | Some _, None => false
      | None, _ => keys_ordered None ks'
      end
  end.

Definition obj_wf (l : obj) : bool :=
  bool_decide (NoDup (obj_keys l)) && keys_ordered (Some 0%N) (obj_keys l).

(** Values that JSON carries without loss: no [undefined], no [Date], no
    number that is NaN, infinite or [-0], and objects with distinct keys in
    own-property order. *)
Fixpoint plain (v : jsval) : bool :=
  match v with
  | VUndef | VDate _ => false
  | VNum x => is_finite x && negb (is_negative_zero x)
  | VNull | VBool _ | VStr _ => true
  | VArr l => forallb plain l
  | VObj l => obj_wf l && forallb (fun kv => plain (snd kv)) l
  end.

(** Nesting measure of the text of a value (the reader's recursion depth). *)
Fixpoint need (v : jsval) : nat :=
  match v with
  | VArr l => S (list_sum (map (fun x => S (need x)) l))
  | VObj l =>
      S (list_sum (map (fun kv => match snd kv with
                                  | VUndef => O
                                  | _ => S (need (snd kv))
                                  end) l))
  | _ => 1%nat
  end.

Definition starts_fraction (s : string) : bool :=
  match s with
  | "" => false
  | String c _ => Ascii.eqb c "." || Ascii.eqb c "e" || Ascii.eqb c "E"
  end.

(** What may follow a number in a text. *)
Definition delim (rest : string) : bool :=
  match rest with
  | "" => true
  | String c _ => negb (is_digit c) && negb (starts_fraction rest)
  end.

(** A text without glob metacharacters. *)
Definition glob_plain_char (c : ascii) : bool :=
  negb (Ascii.eqb c "*") && negb (Ascii.eqb c "?") && negb (Ascii.eqb c "[")
  && negb (Ascii.eqb c "\").

Fixpoint glob_literal (s : string) : bool :=
  match s with
  | "" => true
  | String c r => glob_plain_char c && glob_literal r
  end.

(** The store is connected and answers. *)
Definition store_up (s : env) : bool :=
  match client s with
  | Some c => reachable c
  | None => false
  end.

(** The entry a [GET] of [key] is answered from, if it is answered. *)
Definition cached (s : env) (key : string) : option entry :=
  match client s with
  | Some c => if reachable c then visible (time s) (db c) key else None
  | None => None
  end.

(** What [getCache] makes of an entry: [data ? JSON.parse(data) : null], and
    [null] when the parse throws. *)
Definition decoded (e : option entry) : jsval :=
  match e with
  | Some e =>
      if truthy (VStr (e_data e))
      then match JSON_parse (e_data e) with Some v => v | None => VNull end
      else VNull
  | None => VNull
  end.

(** Time passes; nothing else changes. *)
Definition tick (dt : Z) (s : env) : env := mk_env (client s) (time s + dt).

Definition run {S A} (m : M S A) (s : S) : result A := fst (m s).
Definition exec {S A} (m : M S A) (s : S) : S := snd (m s).

(** What a domain operation does as far as its caller and the durable store
    can tell: the response (or the exception), and the store it leaves. *)
Definition outcome {D A} (m : M (world D) A) (w : world D) : result A * D :=
  (run m w, durable (exec m w)).

(** The cache says that [u] has favorited [p]: the test
    [cachedStatus && cachedStatus.isFavorited] of [addToFavorites]. *)
Definition says_favorited (c : env) (u p : string) : bool :=
  let cachedStatus := decoded (cached c (KEYS.FAVORITE_STATUS u p)) in
  truthy cachedStatus && truthy (js_get cachedStatus "isFavorited").

(** The same number, but for the sign of a zero: what the text of a number
    tells. *)
Definition same_number (x y : number) : Prop :=
  x = y \/ (is_zero x = true /\ is_zero y = true).

(** A text without [:], the separator of the parts of a key. *)
Fixpoint colon_free (s : string) : bool :=
  match s with
  | "" => true
  | String c r => negb (Ascii.eqb c ":") && colon_free r
  end.

(** ** A reference store

    A small in-memory instance of [DurableStore], used to run the controllers
    on examples. It counts the reads of the favorites collection. *)

Record mem_store : Type := mk_mem_store {
  ms_properties : list property_doc;
  ms_favorites : list favorite_doc;
  ms_next : N;
  ms_reads : nat
}.

Module MemStore.

Definition is_pair (u p : string) (f : favorite_doc) : bool :=
  String.eqb (fav_userId f) u && String.eqb (fav_propertyId f) p.

Definition duplicate_key : js_error := mk_error "MongoServerError" (Some 11000) [].

Definition new_favorite (id u p notes : string) (tags : list string) : favorite_doc :=
  mk_favorite_doc id u p (VStr notes) (VArr (map VStr tags))
    (VDate "2024-01-01T00:00:00.000Z") (VDate "2024-01-01T00:00:00.000Z")
    (VObj [("_id", VStr p)]) (VObj [("_id", VStr u)]).

Definition findById (id : string) : M mem_store (option property_doc) :=
  fun d => (Ok (List.find (fun p => String.eqb (doc_id p) id) (ms_properties d)), d).

Definition findOne_id (v : jsval) : M mem_store (option property_doc) :=
  fun d =>
    (Ok (match v with
         | VStr s =>
             List.find (fun p => match obj_get "id" (doc_fields p) with
                                 | VStr s' => String.eqb s s'
                                 | _ => false
                                 end) (ms_properties d)
         | _ => None
         end), d).

Definition create (data : obj) (createdBy : string) : M mem_store property_doc :=
  fun d =>
    let doc := mk_property_doc ("prop" +:+ string_of_N (ms_next d)) data (Some createdBy) in
    (Ok doc, mk_mem_store (ms_properties d ++ [doc])%list (ms_favorites d)
                          (ms_next d + 1)%N (ms_reads d)).

Definition apply_update (upd : obj) (p : property_doc) : property_doc :=
  mk_property_doc (doc_id p)
    (fold_left (fun o kv => obj_define (fst kv) (snd kv) o) upd (doc_fields p))
    (doc_createdBy p).

Definition findByIdAndUpdate (id : string) (upd : obj)
  : M mem_store (option property_doc) :=
  fun d =>
    match List.find (fun p => String.eqb (doc_id p) id) (ms_properties d) with
    | Some p =>
        (Ok (Some (apply_update upd p)),
         mk_mem_store
           (map (fun q => if String.eqb (doc_id q) id then apply_update upd q else q)
                (ms_properties d))
           (ms_favorites d) (ms_next d) (ms_reads d))
    | None => (Ok None, d)
    end.

Definition findByIdAndDelete (id : string) : M mem_store (option property_doc) :=
  fun d =>
    (Ok (List.find (fun p => String.eqb (doc_id p) id) (ms_properties d)),
     mk_mem_store
       (List.filter (fun q => negb (String.eqb (doc_id q) id)) (ms_properties d))
       (ms_favorites d) (ms_next d) (ms_reads d)).

Definition findOne (u p : string) : M mem_store (option favorite_doc) :=
  fun d =>
    (Ok (List.find (is_pair u p) (ms_favorites d)),
     mk_mem_store (ms_properties d) (ms_favorites d) (ms_next d) (S (ms_reads d))).

Definition create_favorite (u p notes : string) (tags : list string)
  : M mem_store string :=
  fun d =>
    if existsb (is_pair u p) (ms_favorites d) then (Throw duplicate_key, d)
    else
      let id := "fav" +:+ string_of_N (ms_next d) in
      (Ok id, mk_mem_store (ms_properties d)
                (ms_favorites d ++ [new_favorite id u p notes tags])%list
                (ms_next d + 1)%N (ms_reads d)).

Definition findFavoriteById (id : string) : M mem_store (option favorite_doc) :=
  fun d => (Ok (List.find (fun f => String.eqb (fav_id f) id) (ms_favorites d)), d).

Definition findOneAndDelete (u p : string) : M mem_store (option favorite_doc) :=
  fun d =>
    (Ok (List.find (is_pair u p) (ms_favorites d)),
     mk_mem_store (ms_properties d)
       (List.filter (fun f => negb (is_pair u p f)) (ms_favorites d))
       (ms_next d) (ms_reads d)).

Definition set_notes_tags (n : option string) (t : option (list string))
           (f : favorite_doc) : favorite_doc :=
  mk_favorite_doc (fav_id f) (fav_userId f) (fav_propertyId f)
    (from_option VStr (fav_notes f) n)
    (from_option (fun l => VArr (map VStr l)) (fav_tags f) t)
    (fav_createdAt f) (fav_updatedAt f) (fav_property f) (fav_user f).

Definition findOneAndUpdate (id u : string) (n : option string)
           (t : option (list string)) : M mem_store (option favorite_doc) :=
  fun d =>
    let hit f := String.eqb (fav_id f) id && String.eqb (fav_userId f) u in
    match List.find hit (ms_favorites d) with
    | Some f =>
        (Ok (Some (set_notes_tags n t f)),
         mk_mem_store (ms_properties d)
           (map (fun g => if hit g then set_notes_tags n t g else g) (ms_favorites d))
           (ms_next d) (ms_reads d))
    | None => (Ok None, d)
    end.

#[export] Instance store : DurableStore mem_store := {|
  Property_findById := findById;
  Property_findOne_id := findOne_id;
  Property_create := create;
  Property_findByIdAndUpdate := findByIdAndUpdate;
  Property_findByIdAndDelete := findByIdAndDelete;
  Favorite_findOne := findOne;
  Favorite_create := create_favorite;
  Favorite_findById := findFavoriteById;
  Favorite_findOneAndDelete := findOneAndDelete;
  Favorite_findOneAndUpdate := findOneAndUpdate
|}.

(** The listings of the reference store: it knows no filter but the owner
    and the user, and pages by whole numbers. *)
Definition unsupported : js_error := mk_error "MongoServerError" None [].

Definition integer_of (x : number) : option Z :=
  match proj1_sig x with
  | RFin s m e =>
      let '(n, d) := bin_frac (Z.of_N m) e in
      if n mod d =? 0 then Some (signed s (n / d)) else None
  | _ => None
  end.

Definition page_of {A} (skip limit : number) (l : list A) : result (list A) :=
  match integer_of skip, integer_of limit with
  | Some s, Some k =>
      if (0 <=? s) && (0 <? k) then Ok (take (Z.to_nat k) (drop (Z.to_nat s) l))
      else Throw unsupported
  | _, _ => Throw unsupported
  end.

Definition paging_only (q : list (string * ParsedQs)) : bool :=
  forallb (fun kv => String.eqb (fst kv) "page" || String.eqb (fst kv) "limit") q.

Definition find_query (q : list (string * ParsedQs)) (skip limit : number)
  : M mem_store (list property_doc) :=
  fun d => if paging_only q then (page_of skip limit (ms_properties d), d)
           else (Throw unsupported, d).

Definition countDocuments_query (q : list (string * ParsedQs)) : M mem_store number :=
  fun d => if paging_only q
           then (Ok (Number_of_Z (Z.of_nat (length (ms_properties d)))), d)
           else (Throw unsupported, d).

Definition created_by (u : string) (p : property_doc) : bool :=
  match doc_createdBy p with
  | Some c => String.eqb c u
  | None => false
  end.

Definition find_createdBy (u : string) (skip limit : number)
  : M mem_store (list property_doc) :=
  fun d => (page_of skip limit (List.filter (created_by u) (ms_properties d)), d).

Definition countDocuments_createdBy (u : string) : M mem_store number :=
  fun d => (Ok (Number_of_Z (Z.of_nat (length (List.filter (created_by u)
                                                  (ms_properties d))))), d).

Definition favorites_of (u : string) (d : mem_store) : list favorite_doc :=
  List.filter (fun f => String.eqb (fav_userId f) u) (ms_favorites d).

Definition aggregate (u : string) (sortBy search : option ParsedQs)
           (tags : option (list string)) (skip limit : number)
  : M mem_store (list favorite_doc) :=
  fun d => match sortBy, search, tags with
           | None, None, None => (page_of skip limit (favorites_of u d), d)
           | _, _, _ => (Throw unsupported, d)
           end.

Definition aggregate_count (u : string) (sortBy search : option ParsedQs)
           (tags : option (list string)) : M mem_store (option number) :=
  fun d => match sortBy, search, tags with
           | None, None, None =>
               (Ok (match favorites_of u d with
                    | [] => None
                    | l => Some (Number_of_Z (Z.of_nat (length l)))
                    end), d)
           | _, _, _ => (Throw unsupported, d)
           end.

#[export] Instance listings : ListingStore mem_store := {|
  Property_find_query := find_query;
  Property_countDocuments_query := countDocuments_query;
  Property_find_createdBy := find_createdBy;
  Property_countDocuments_createdBy := countDocuments_createdBy;
  Favorite_aggregate := aggregate;
  Favorite_aggregate_count := aggregate_count
|}.

End MemStore.
Export MemStore.

(** Example data: a connected, empty cache at time 1000 and a store that
    holds the property [propX]. *)
Definition empty_cache : env := mk_env (Some (mk_connection ∅ true)) 1000.

Definition propX : property_doc :=
  mk_property_doc "propX"
    [("id", VStr "PROP1"); ("title", VStr "Flat"); ("price", VNum 100);
     ("availableFrom", VDate "2024-06-01T00:00:00.000Z")]
    (Some "userA").

Definition store0 : mem_store := mk_mem_store [propX] [] 1 0.

Definition world0 : world mem_store := mk_world store0 empty_cache.

(** ** A reference user store

    A small in-memory instance of [UserStore], used to run the
    [AuthController] on examples. *)

Record mem_users : Type := mk_mem_users {
  mu_users : list user_doc;
  mu_next : N
}.

Module MemUsers.

Definition has_text (k v : string) (u : user_doc) : bool :=
  match obj_get k (usr_fields u) with
  | VStr s => String.eqb s v
  | _ => false
  end.

Definition findOne_email_or_username (email username : string)
  : M mem_users (option user_doc) :=
  fun d => (Ok (List.find (fun u => has_text "email" email u
                                    || has_text "username" username u) (mu_users d)), d).

Definition findOne_email (email : string) : M mem_users (option user_doc) :=
  fun d => (Ok (List.find (has_text "email" email) (mu_users d)), d).

Definition create_user (username email password : string) : M mem_users user_doc :=
  fun d =>
    let user := mk_user_doc ("user" +:+ string_of_N (mu_next d))
                  [("username", VStr username); ("email", VStr email);
                   ("password", VStr password);
                   ("createdAt", VDate "2024-01-01T00:00:00.000Z")] in
    (Ok user, mk_mem_users (mu_users d ++ [user])%list (mu_next d + 1)%N).

Definition findUserById (id : string) : M mem_users (option user_doc) :=
  fun d => (Ok (List.find (fun u => String.eqb (usr_id u) id) (mu_users d)), d).

Definition findOne_other (id : string) (username email : option string)
  : M mem_users (option user_doc) :=
  fun d =>
    (Ok (List.find (fun u => negb (String.eqb (usr_id u) id)
                             && (from_option (fun v => has_text "username" v u) false username
                                 || from_option (fun v => has_text "email" v u) false email))
                   (mu_users d)), d).

Definition apply_user_update (upd : obj) (u : user_doc) : user_doc :=
  mk_user_doc (usr_id u)
    (fold_left (fun o kv => obj_define (fst kv) (snd kv) o) upd (usr_fields u)).

Definition findUserByIdAndUpdate (id : string) (upd : obj) : M mem_users (option user_doc) :=
  fun d =>
    match List.find (fun u => String.eqb (usr_id u) id) (mu_users d) with
    | Some u =>
        (Ok (Some (apply_user_update upd u)),
         mk_mem_users
           (map (fun v => if String.eqb (usr_id v) id then apply_user_update upd v else v)
                (mu_users d))
           (mu_next d))
    | None => (Ok None, d)
    end.

Definition hash_password (password : string) : M mem_users string :=
  ret ("hashed:" +:+ password).

Definition compare_password (password : string) (hashed : jsval) : M mem_users bool :=
  ret (match hashed with
       | VStr h => String.eqb h ("hashed:" +:+ password)
       | _ => false
       end).

Definition sign_token (payload : jsval) (secret : string) (options : jsval)
  : M mem_users string :=
  ret (default "" (JSON_stringify payload) +:+ "." +:+ secret).

#[export] Instance users : UserStore mem_users := {|
  User_findOne_email_or_username := findOne_email_or_username;
  User_findOne_email := findOne_email;
  User_create := create_user;
  User_findById := findUserById;
  User_findOne_other := findOne_other;
  User_findByIdAndUpdate := findUserByIdAndUpdate;
  hashPassword := hash_password;
  comparePassword := compare_password;
  jwt_sign := sign_token
|}.

End MemUsers.
Export MemUsers.

(** ** Notions used by the proofs *)

(** A character a value's text can start with, as the reader sees it: no
    white space and no closing bracket. *)
Definition value_start (c : ascii) : bool :=
  negb (is_ws c) && negb (Ascii.eqb c "]") && negb (Ascii.eqb c "}").

(** The text and the image of an array element and of an object member. *)
Definition elem_text (x : jsval) : string := default "null" (JSON_stringify x).

Definition elem_image (x : jsval) : jsval :=
  match x with VUndef => VNull | _ => json_image x end.

Definition member_text (kv : string * jsval) : string :=
  quote (fst kv) +:+ ":" +:+ elem_text (snd kv).

Definition member_image (kv : string * jsval) : string * jsval :=
  (fst kv, json_image (snd kv)).

Definition is_defined (kv : string * jsval) : bool :=
  match snd kv with VUndef => false | _ => true end.

(** [n / d = m * 2^e] *)
Definition exactly (n d m e : Z) : Prop :=
  n * 2 ^ Z.max 0 (- e) = m * d * 2 ^ Z.max 0 e.

Definition no_digit_ahead (rest : string) : bool :=
  match rest with
  | "" => true
  | String c _ => negb (is_digit c)
  end.

Section Agreement.
Context {D : Type}.

(** Two runs agree: the same result and the same durable store afterwards. *)
Definition agree {A} (m : M (world D) A) (w1 w2 : world D) : Prop :=
  outcome m w1 = outcome m w2.

(** [m] does not look at the cache. *)
Definition blind {A} (m : M (world D) A) : Prop :=
  forall w1 w2, durable w1 = durable w2 -> agree m w1 w2.
End Agreement.

(** The numbers below [k], for the checks that run over all bytes. *)
Definition below (k : nat) : list N := map N.of_nat (seq 0 k).

(** The four sextets of a group of three bytes, as [toString_base64] cuts them. *)
Definition sextet1 (a : N) : N := N.shiftr a 2.
Definition sextet2 (a b : N) : N := N.lor (N.shiftl (N.land a 3) 4) (N.shiftr b 4).
Definition sextet3 (b c : N) : N := N.lor (N.shiftl (N.land b 15) 2) (N.shiftr c 6).
Definition sextet4 (c : N) : N := N.land c 63.

(** ** Example data *)

Definition request0 : ICreateFavoriteRequest :=
  mk_create_favorite (Some "propX") None None.

Definition notes_only : IUpdateFavoriteRequest :=
  mk_update_favorite (Some "near work") None.

(** A cache that holds a favorite status the durable store does not back. *)
Definition stale_cache : env :=
  exec (CacheService.cacheFavoriteStatus "userA" "propX" (mk_status true (Some "fav0")))
       empty_cache.

(** A cache whose entry for [propX] is no JSON text. *)
Definition corrupted : env :=
  mk_env (Some (mk_connection {[ "property:propX" := mk_entry "{oops" 900 990 ]} true)) 1000.

(** The number [4.5]. *)
Definition four_and_a_half : number := pack (RFin false 5066549580791808 (-50)).


Definition plain_property : IProperty :=
  mk_entity (Some "propX") [("id", VStr "PROP1"); ("price", VNum 100)].

(** [userA] has favorited [propX]; the cache holds that status, a search
    result and the first page of [userA]'s properties. *)
Definition store1 : mem_store :=
  mk_mem_store [propX] [MemStore.new_favorite "fav1" "userA" "propX" "" []] 2 0.

Definition warm_cache : env :=
  exec (CacheService.cacheUserProperties "userA" 1 10 (VObj [("total", VNum 1)]))
    (exec (CacheService.cachePropertySearch [("city", VStr "Pune")]
             (VObj [("total", VNum 1)]))
       (exec (CacheService.cacheFavoriteStatus "userA" "propX"
                (mk_status true (Some "fav1")))
          empty_cache)).

Definition world1 : world mem_store := mk_world store1 warm_cache.

(** A user of the reference store, with the hash of the password [secret1]. *)
Definition alice : user_doc :=
  mk_user_doc "userA"
    [("username", VStr "alice"); ("email", VStr "alice@example.com");
     ("password", VStr "hashed:secret1")].

Definition users0 : mem_users := mk_mem_users [alice] 1.

(** A request for the details of [propX], without credentials. *)
Definition request1 : Request :=
  mk_request "/api/properties/propX" [] (Some "propX") None.

(** A cache that holds a list of properties under the key of [request1]'s route. *)
Definition route_cache : env :=
  exec (CacheService.setCache "route:/api/properties/propX"
          (VObj [("total", VNum 1)]) 300) empty_cache.

Definition world_users : world mem_users := mk_world users0 empty_cache.

(** * Properties *)

(** ** Texts and numbers *)

Lemma string_app_cons c s r : String c s +:+ r = String c (s +:+ r).
Proof. reflexivity. Qed.
Lemma string_app_nil_l r : "" +:+ r = r.
Proof. reflexivity. Qed.
Lemma string_app_assoc a b c : (a +:+ b) +:+ c = a +:+ (b +:+ c).
Proof. induction a; simpl; [done|]. rewrite !string_app_cons. by f_equal. Qed.
Lemma string_app_nil_r s : s +:+ "" = s.
Proof. induction s as [|c s IH]; [done|]. by rewrite string_app_cons, IH. Qed.
Lemma string_length_app a b : String.length (a +:+ b) = (String.length a + String.length b)%nat.
Proof. induction a as [|c a IH]; [done|]. rewrite string_app_cons. cbn [String.length]. by rewrite IH. Qed.

(* digits of a uint *)
Lemma all_digits_uint d : all_digits (NilEmpty.string_of_uint d) = true.
Proof. induction d; simpl; auto. Qed.

Lemma digits_val_acc (d : uint) (acc : positive) :
  digits_val (Npos acc) (NilEmpty.string_of_uint d) = Npos (Pos.of_uint_acc d acc).
Proof.
  revert acc. induction d; intros acc; simpl; try reflexivity;
  rewrite <- IHd; f_equal; unfold digit_val; simpl; lia.
Qed.

Lemma digits_val_uint (d : uint) :
  digits_val 0 (NilEmpty.string_of_uint d) = Pos.of_uint d.
Proof.
  induction d; simpl; try reflexivity; try exact IHd;
  apply digits_val_acc.
Qed.

Lemma digits_val_N n : digits_val 0 (string_of_N n) = n.
Proof. unfold string_of_N. rewrite digits_val_uint. apply DecimalN.Unsigned.of_to. Qed.

Lemma pos_head p : exists c s, NilEmpty.string_of_uint (Pos.to_uint p) = String c s
   /\ is_digit c = true /\ Ascii.eqb c "0" = false.
Proof.
  assert (Hn := DecimalPos.Unsigned.to_of (Pos.to_uint p)).
  rewrite DecimalPos.Unsigned.of_to in Hn. simpl in Hn.
  assert (Hz := DecimalPos.Unsigned.to_uint_nonzero p).
  unfold unorm in Hn.
  destruct (nzhead (Pos.to_uint p)) eqn:E;
    try (rewrite Hn; cbn [NilEmpty.string_of_uint]; do 2 eexists;
         split; [reflexivity | split; reflexivity]).
  - congruence.
  - exfalso. clear -E.
    assert (Hgen: forall d u, nzhead d <> D0 u).
    { induction d; simpl; intros; try discriminate; auto. }
    by apply Hgen in E.
Qed.

Lemma all_digits_colon_free s : all_digits s = true -> colon_free s = true.
Proof.
  induction s as [|c s IH]; [done|]. cbn [all_digits colon_free].
  intros [Hc Hs]%andb_true_iff. rewrite IH by done. rewrite andb_true_r.
  destruct (Ascii.eqb_spec c ":") as [->|]; done.
Qed.

(** *** Numbers *)

Lemma number_eq (x y : number) : proj1_sig x = proj1_sig y -> x = y.
Proof. apply sig_eq_pi. intros r. apply _. Qed.

Lemma pack_raw r : canonical r = true -> proj1_sig (pack r) = r.
Proof.
  intros Hc. unfold pack.
  generalize (eq_refl (canonical r)). generalize (canonical r) at 2 3.
  intros [] E; [reflexivity|congruence].
Qed.

Lemma pack_proj (x : number) : pack (proj1_sig x) = x.
Proof. apply number_eq, pack_raw. by destruct x. Qed.

Lemma pow2_pos k : 0 < 2 ^ Z.max 0 k.
Proof. apply Z.pow_pos_nonneg; lia. Qed.

Lemma pow2_succ k :
  2 ^ Z.max 0 (k + 1) * 2 ^ Z.max 0 (- k) = 2 * 2 ^ Z.max 0 k * 2 ^ Z.max 0 (- (k + 1)).
Proof.
  destruct (Z_lt_le_dec k 0).
  - replace (Z.max 0 (k + 1)) with 0 by lia. replace (Z.max 0 k) with 0 by lia.
    replace (Z.max 0 (- k)) with (Z.succ (- (k + 1))) by lia.
    replace (Z.max 0 (- (k + 1))) with (- (k + 1)) by lia.
    rewrite Z.pow_succ_r by lia. rewrite !Z.pow_0_r. lia.
  - replace (Z.max 0 (k + 1)) with (Z.succ k) by lia. replace (Z.max 0 k) with k by lia.
    replace (Z.max 0 (- k)) with 0 by lia.
    replace (Z.max 0 (- (k + 1))) with 0 by lia.
    rewrite Z.pow_succ_r by lia. rewrite !Z.pow_0_r. lia.
Qed.

Lemma below_pow2_succ n d k :
  0 < n -> 0 < d -> below_pow2 n d k = true -> below_pow2 n d (k + 1) = true.
Proof.
  unfold below_pow2. intros Hn Hd H%Z.ltb_lt. apply Z.ltb_lt.
  pose proof (pow2_succ k) as F.
  pose proof (pow2_pos k). pose proof (pow2_pos (- k)).
  pose proof (pow2_pos (k + 1)). pose proof (pow2_pos (- (k + 1))).
  set (P := 2 ^ Z.max 0 k) in *. set (Q := 2 ^ Z.max 0 (- k)) in *.
  set (P1 := 2 ^ Z.max 0 (k + 1)) in *. set (Q1 := 2 ^ Z.max 0 (- (k + 1))) in *.
  apply (Z.mul_lt_mono_pos_r Q); [done|].
  assert (n * Q1 * Q = (n * Q) * Q1) as -> by ring.
  assert (d * P1 * Q = 2 * (d * P) * Q1) as -> by (rewrite <- Z.mul_assoc, F; ring).
  nia.
Qed.

Lemma below_pow2_mono n d k k' :
  0 < n -> 0 < d -> k <= k' -> below_pow2 n d k = true -> below_pow2 n d k' = true.
Proof.
  intros Hn Hd Hk H. replace k' with (k + (k' - k)) by lia.
  assert (0 <= k' - k) as Hj by lia. revert Hj. generalize (k' - k).
  apply natlike_ind.
  - by rewrite Z.add_0_r.
  - intros j Hj IH. replace (k + Z.succ j) with (k + j + 1) by lia.
    by apply below_pow2_succ.
Qed.

Lemma pow2_diff a b :
  0 <= a -> 0 <= b -> 2 ^ Z.max 0 (a - b) * 2 ^ b = 2 ^ a * 2 ^ Z.max 0 (- (a - b)).
Proof. intros Ha Hb. rewrite <- !Z.pow_add_r by lia. f_equal. lia. Qed.

Lemma pow2_add t e :
  0 <= t -> 2 ^ Z.max 0 (t + e) * 2 ^ Z.max 0 (- e)
            = 2 ^ t * 2 ^ Z.max 0 e * 2 ^ Z.max 0 (- (t + e)).
Proof.
  intros Ht.
  rewrite <- !Z.pow_add_r by lia. f_equal. lia.
Qed.

Lemma below_pow2_exactly n d m e k :
  0 < d -> 0 < m -> exactly n d m e ->
  below_pow2 n d (k + e) = (m <? 2 ^ k) \/ k < 0.
Proof.
  intros Hd Hm Hx. destruct (Z_lt_le_dec k 0) as [|Hk]; [by right|left].
  unfold below_pow2, exactly in *.
  pose proof (pow2_add k e Hk) as F.
  pose proof (pow2_pos e). pose proof (pow2_pos (- e)).
  pose proof (pow2_pos (k + e)). pose proof (pow2_pos (- (k + e))).
  assert (0 < 2 ^ k) by (apply Z.pow_pos_nonneg; lia).
  set (P := 2 ^ Z.max 0 e) in *. set (Q := 2 ^ Z.max 0 (- e)) in *.
  set (P1 := 2 ^ Z.max 0 (k + e)) in *. set (Q1 := 2 ^ Z.max 0 (- (k + e))) in *.
  set (T := 2 ^ k) in *.
  destruct (Z.ltb_spec m T) as [Hlt|Hge].
  - apply Z.ltb_lt. apply (Z.mul_lt_mono_pos_r Q); [done|].
    assert (n * Q1 * Q = m * d * P * Q1) as -> by (rewrite <- Hx; ring).
    assert (d * P1 * Q = T * d * P * Q1) as -> by (rewrite <- Z.mul_assoc, F; ring).
    nia.
  - apply Z.ltb_ge. apply (Z.mul_le_mono_pos_r _ _ Q); [done|].
    assert (n * Q1 * Q = m * d * P * Q1) as -> by (rewrite <- Hx; ring).
    assert (d * P1 * Q = T * d * P * Q1) as -> by (rewrite <- Z.mul_assoc, F; ring).
    nia.
Qed.

Lemma ilog2_bounds n d :
  0 < n -> 0 < d ->
  let g := Z.log2 n - Z.log2 d in
  below_pow2 n d (g + 1) = true /\ below_pow2 n d (g - 1) = false.
Proof.
  intros Hn Hd g.
  destruct (Z.log2_spec n Hn) as [Ha1 Ha2]. destruct (Z.log2_spec d Hd) as [Hb1 Hb2].
  pose proof (Z.log2_nonneg n) as Ha. pose proof (Z.log2_nonneg d) as Hb.
  rewrite Z.pow_succ_r in Ha2, Hb2 by done.
  unfold below_pow2. split.
  - apply Z.ltb_lt.
    pose proof (pow2_diff (Z.log2 n + 1) (Z.log2 d) ltac:(lia) Hb) as F.
    replace (Z.log2 n + 1 - Z.log2 d) with (g + 1) in F by (subst g; lia).
    rewrite Z.pow_add_r, Z.pow_1_r in F by lia.
    pose proof (pow2_pos (g + 1)). pose proof (pow2_pos (- (g + 1))).
    set (P := 2 ^ Z.max 0 (g + 1)) in *. set (Q := 2 ^ Z.max 0 (- (g + 1))) in *.
    set (A := 2 ^ Z.log2 n) in *. set (B := 2 ^ Z.log2 d) in *.
    nia.
  - apply Z.ltb_ge.
    pose proof (pow2_diff (Z.log2 n) (Z.log2 d + 1) Ha ltac:(lia)) as F.
    replace (Z.log2 n - (Z.log2 d + 1)) with (g - 1) in F by (subst g; lia).
    rewrite Z.pow_add_r, Z.pow_1_r in F by lia.
    pose proof (pow2_pos (g - 1)). pose proof (pow2_pos (- (g - 1))).
    set (P := 2 ^ Z.max 0 (g - 1)) in *. set (Q := 2 ^ Z.max 0 (- (g - 1))) in *.
    set (A := 2 ^ Z.log2 n) in *. set (B := 2 ^ Z.log2 d) in *.
    nia.
Qed.

Lemma ilog2_exactly n d m e :
  0 < n -> 0 < d -> 0 < m -> exactly n d m e -> ilog2 n d = Z.log2 m + e.
Proof.
  intros Hn Hd Hm Hx.
  destruct (Z.log2_spec m Hm) as [Hm1 Hm2]. pose proof (Z.log2_nonneg m) as Ht.
  destruct (below_pow2_exactly n d m e (Z.log2 m) Hd Hm Hx) as [Hlo|]; [|lia].
  destruct (below_pow2_exactly n d m e (Z.succ (Z.log2 m)) Hd Hm Hx) as [Hhi|]; [|lia].
  rewrite (proj2 (Z.ltb_ge _ _) Hm1) in Hlo. rewrite (proj2 (Z.ltb_lt _ _) Hm2) in Hhi.
  set (T := Z.log2 m + e) in *. replace (Z.succ (Z.log2 m) + e) with (T + 1) in Hhi by lia.
  destruct (ilog2_bounds n d Hn Hd) as [Hg1 Hg2]. cbv zeta in Hg1, Hg2.
  unfold ilog2. set (g := Z.log2 n - Z.log2 d) in *.
  assert (T <= g) as H1.
  { destruct (Z_le_gt_dec T g); [done|]. exfalso.
    pose proof (below_pow2_mono n d (g + 1) T Hn Hd ltac:(lia) Hg1). congruence. }
  assert (g - 1 <= T) as H2.
  { destruct (Z_le_gt_dec (g - 1) T); [done|]. exfalso.
    pose proof (below_pow2_mono n d (T + 1) (g - 1) Hn Hd ltac:(lia) Hhi). congruence. }
  destruct (below_pow2 n d g) eqn:Eg.
  - assert (T <> g) by (intros ->; congruence). lia.
  - assert (T + 1 <> g) by (intros <-; congruence). lia.
Qed.

Lemma rne_exact m d : 0 < d -> rne (m * d) d = m.
Proof.
  intros Hd. unfold rne. rewrite Z.mod_mul, Z.div_mul by lia.
  by rewrite (proj2 (Z.ltb_lt _ _)) by lia.
Qed.

Lemma round_exact negative n d m e :
  0 < n -> 0 < d -> 0 < m -> canonical (RFin negative (Z.to_N m) e) = true ->
  exactly n d m e -> round negative n d = RFin negative (Z.to_N m) e.
Proof.
  intros Hn Hd Hm Hc Hx. unfold round.
  rewrite (proj2 (Z.eqb_neq _ _)) by lia.
  rewrite (ilog2_exactly n d m e) by done.
  cbn [canonical] in Hc.
  assert (Z.of_N (Z.to_N m) = m) as Hmm by lia.
  assert (Z.max (Z.log2 m + e - 52) (-1074) = e /\ m < 2 ^ 53 /\ e <= 971) as (-> & Hm53 & He).
  { destruct (N.ltb_spec (Z.to_N m) (2 ^ 52)) as [Hsub|Hnorm].
    - apply Z.eqb_eq in Hc as ->.
      assert (m < 2 ^ 52) as Hlt by lia.
      assert (Z.log2 m < 52) by (apply Z.log2_lt_pow2; lia). lia.
    - apply andb_true_iff in Hc as [[H53 H1]%andb_true_iff H2].
      apply N.ltb_lt in H53. apply Z.leb_le in H1, H2.
      assert (2 ^ 52 <= m < 2 ^ 53) as Hr by lia.
      assert (Z.log2 m = 52) by (apply Z.log2_unique; [lia|]; exact Hr). lia. }
  unfold exactly in Hx.
  assert ((if 0 <=? e then rne n (d * 2 ^ e) else rne (n * 2 ^ (- e)) d) = m) as ->.
  { destruct (Z.leb_spec 0 e).
    - replace (Z.max 0 (- e)) with 0 in Hx by lia. replace (Z.max 0 e) with e in Hx by lia.
      rewrite Z.pow_0_r, Z.mul_1_r in Hx. rewrite Hx, <- Z.mul_assoc.
      apply rne_exact. pose proof (Z.pow_pos_nonneg 2 e). lia.
    - replace (Z.max 0 (- e)) with (- e) in Hx by lia. replace (Z.max 0 e) with 0 in Hx by lia.
      rewrite Z.pow_0_r, Z.mul_1_r in Hx. rewrite Hx. by apply rne_exact. }
  rewrite (proj2 (Z.eqb_neq _ _)) by lia.
  by rewrite (proj2 (Z.ltb_ge _ _)) by lia.
Qed.

Lemma below_pow2_scaled n d e k :
  0 <= k ->
  below_pow2 n d (k + e)
  = (n * 2 ^ Z.max 0 (- e) <? 2 ^ k * (d * 2 ^ Z.max 0 e)).
Proof.
  intros Hk. unfold below_pow2.
  pose proof (pow2_add k e Hk) as F.
  pose proof (pow2_pos e). pose proof (pow2_pos (- e)).
  pose proof (pow2_pos (k + e)). pose proof (pow2_pos (- (k + e))).
  assert (0 < 2 ^ k) by (apply Z.pow_pos_nonneg; lia).
  set (P := 2 ^ Z.max 0 e) in *. set (Q := 2 ^ Z.max 0 (- e)) in *.
  set (P1 := 2 ^ Z.max 0 (k + e)) in *. set (Q1 := 2 ^ Z.max 0 (- (k + e))) in *.
  set (T := 2 ^ k) in *.
  assert (n * Q1 * Q = (n * Q) * Q1) as E1 by ring.
  assert (d * P1 * Q = (T * (d * P)) * Q1) as E2 by (rewrite <- Z.mul_assoc, F; ring).
  destruct (Z.ltb_spec (n * Q) (T * (d * P))) as [Hlt|Hge].
  - apply Z.ltb_lt. apply (Z.mul_lt_mono_pos_r Q); [done|]. rewrite E1, E2.
    by apply Z.mul_lt_mono_pos_r.
  - apply Z.ltb_ge. apply (Z.mul_le_mono_pos_r _ _ Q); [done|]. rewrite E1, E2.
    apply Z.mul_le_mono_nonneg_r; lia.
Qed.

Lemma ilog2_spec n d :
  0 < n -> 0 < d ->
  below_pow2 n d (ilog2 n d) = false /\ below_pow2 n d (ilog2 n d + 1) = true.
Proof.
  intros Hn Hd. destruct (ilog2_bounds n d Hn Hd) as [Hg1 Hg2]. cbv zeta in Hg1, Hg2.
  unfold ilog2. set (g := Z.log2 n - Z.log2 d) in *.
  destruct (below_pow2 n d g) eqn:Eg.
  - split; [done|]. by replace (g - 1 + 1) with g by lia.
  - by split.
Qed.

Lemma rne_bounds n d a b :
  0 < d -> a * d <= n -> n <= b * d -> a <= rne n d <= b.
Proof.
  intros Hd Ha Hb. unfold rne.
  pose proof (Z.div_mod n d ltac:(lia)) as E.
  pose proof (Z.mod_pos_bound n d Hd) as Hr.
  set (q := n / d) in *. set (r := n mod d) in *.
  assert (a <= q) by nia.
  assert (q <= b) by nia.
  assert (q = b -> r = 0) by nia.
  repeat case_match; try lia;
    repeat match goal with
           | H : (_ <? _) = true |- _ => apply Z.ltb_lt in H
           | H : (_ <? _) = false |- _ => apply Z.ltb_ge in H
           end; lia.
Qed.

(** Rounding gives a number. *)
Lemma round_canonical negative n d :
  0 <= n -> 0 < d -> canonical (round negative n d) = true.
Proof.
  intros Hn Hd. unfold round.
  destruct (Z.eqb_spec n 0) as [->|Hn0]; [reflexivity|].
  destruct (ilog2_spec n d ltac:(lia) Hd) as [Hlo Hhi].
  set (l := ilog2 n d) in *. set (e := Z.max (l - 52) (-1074)).
  pose proof (pow2_pos e) as HP. pose proof (pow2_pos (- e)) as HQ.
  assert ((if 0 <=? e then rne n (d * 2 ^ e) else rne (n * 2 ^ (- e)) d)
          = rne (n * 2 ^ Z.max 0 (- e)) (d * 2 ^ Z.max 0 e)) as ->.
  { destruct (Z.leb_spec 0 e).
    - replace (Z.max 0 (- e)) with 0 by lia. replace (Z.max 0 e) with e by lia.
      by rewrite Z.pow_0_r, Z.mul_1_r.
    - replace (Z.max 0 (- e)) with (- e) by lia. replace (Z.max 0 e) with 0 by lia.
      by rewrite Z.pow_0_r, Z.mul_1_r. }
  set (N' := n * 2 ^ Z.max 0 (- e)) in *. set (D := d * 2 ^ Z.max 0 e) in *.
  assert (0 < D) as HD by (subst D; nia).
  assert (0 <= N') as HN by (subst N'; nia).
  assert (N' < 2 ^ 53 * D) as H53.
  { apply Z.ltb_lt. subst N' D. rewrite <- below_pow2_scaled by lia.
    apply (below_pow2_mono n d (l + 1)); [lia|done|lia|done]. }
  assert (-1074 <= l - 52 -> 2 ^ 52 * D <= N') as H52.
  { intros Hl. apply Z.ltb_ge. subst N' D. rewrite <- below_pow2_scaled by lia.
    replace (52 + e) with l by lia. done. }
  assert (l - 52 < -1074 -> N' <= 2 ^ 52 * D) as Hsub.
  { intros Hl. apply Z.lt_le_incl, Z.ltb_lt. subst N' D.
    rewrite <- below_pow2_scaled by lia.
    apply (below_pow2_mono n d (l + 1)); [lia|done|lia|done]. }
  destruct (Z_le_gt_dec (-1074) (l - 52)) as [Hnorm|Hden].
  - specialize (H52 Hnorm).
    pose proof (rne_bounds N' D (2 ^ 52) (2 ^ 53) HD H52 ltac:(lia)) as Hm.
    set (m := rne N' D) in *.
    change (2 ^ 52) with 4503599627370496 in *.
    change (2 ^ 53) with 9007199254740992 in *.
    destruct (Z.eqb_spec m 9007199254740992) as [Em|Em].
    + destruct (Z.ltb_spec 971 (e + 1)); [done|].
      cbn [canonical]. change (Z.to_N 4503599627370496) with (2 ^ 52)%N.
      change ((2 ^ 52 <? 2 ^ 52)%N) with false. change ((2 ^ 52 <? 2 ^ 53)%N) with true.
      cbn [andb]. apply andb_true_iff. split; apply Z.leb_le; lia.
    + destruct (Z.ltb_spec 971 e); [done|].
      cbn [canonical]. change (2 ^ 52)%N with 4503599627370496%N.
      change (2 ^ 53)%N with 9007199254740992%N.
      destruct (N.ltb_spec (Z.to_N m) 4503599627370496); [lia|].
      apply andb_true_iff. split; [apply andb_true_iff; split|].
      * apply N.ltb_lt. lia.
      * apply Z.leb_le. lia.
      * apply Z.leb_le. lia.
  - specialize (Hsub ltac:(lia)). assert (e = -1074) as He by lia.
    pose proof (rne_bounds N' D 0 (2 ^ 52) HD ltac:(lia) Hsub) as Hm.
    set (m := rne N' D) in *.
    change (2 ^ 52) with 4503599627370496 in *.
    change (2 ^ 53) with 9007199254740992 in *.
    destruct (Z.eqb_spec m 9007199254740992) as [Em|Em]; [lia|].
    destruct (Z.ltb_spec 971 e); [done|].
    cbn [canonical]. change (2 ^ 52)%N with 4503599627370496%N.
    change (2 ^ 53)%N with 9007199254740992%N.
    destruct (N.ltb_spec (Z.to_N m) 4503599627370496).
    + apply Z.eqb_eq. lia.
    + apply andb_true_iff. split; [apply andb_true_iff; split|].
      * apply N.ltb_lt. lia.
      * apply Z.leb_le. lia.
      * apply Z.leb_le. lia.
Qed.

Lemma round_dec_canonical negative s E :
  0 <= s -> canonical (round_dec negative s E) = true.
Proof.
  intros Hs. unfold round_dec, dec_frac. destruct (Z.leb_spec 0 E); cbn [fst snd].
  - apply round_canonical; [|lia]. pose proof (Z.pow_nonneg 10 E). nia.
  - apply round_canonical; [done|]. apply Z.pow_pos_nonneg; lia.
Qed.

Lemma expansion_spec m e :
  (0 < m)%N -> canonical (RFin false m e) = true ->
  0 < fst (expansion m e)
  /\ round_dec false (fst (expansion m e))
                     (snd (expansion m e) - digits10 (fst (expansion m e)))
     = RFin false m e.
Proof.
  intros Hm Hc. unfold expansion. cbn [fst snd].
  set (s := if 0 <=? e then Z.of_N m * 2 ^ e else Z.of_N m * 5 ^ (- e)).
  set (E := if 0 <=? e then 0 else e).
  assert (0 < s) as Hs.
  { subst s. destruct (Z.leb_spec 0 e).
    - pose proof (Z.pow_pos_nonneg 2 e). nia.
    - pose proof (Z.pow_pos_nonneg 5 (- e)). nia. }
  split; [done|]. replace (E + digits10 s - digits10 s) with E by lia.
  replace (RFin false m e) with (RFin false (Z.to_N (Z.of_N m)) e) by by rewrite N2Z.id.
  unfold round_dec, dec_frac.
  subst s E. destruct (Z.leb_spec 0 e) as [He|He].
  - change (0 <=? 0) with true. cbn [fst snd]. rewrite Z.pow_0_r, Z.mul_1_r.
    pose proof (Z.pow_pos_nonneg 2 e).
    apply round_exact; [nia|lia|lia|by rewrite N2Z.id|].
    unfold exactly. replace (Z.max 0 (- e)) with 0 by lia. replace (Z.max 0 e) with e by lia.
    rewrite Z.pow_0_r. lia.
  - rewrite (proj2 (Z.leb_gt _ _)) by lia. cbn [fst snd].
    pose proof (Z.pow_pos_nonneg 10 (- e)). pose proof (Z.pow_pos_nonneg 5 (- e)).
    apply round_exact; [nia|lia|lia|by rewrite N2Z.id|].
    unfold exactly. replace (Z.max 0 (- e)) with (- e) by lia. replace (Z.max 0 e) with 0 by lia.
    rewrite Z.pow_0_r. change 10 with (5 * 2). rewrite Z.pow_mul_l. ring.
Qed.

Lemma candidate_spec m e k sn :
  candidate m e k = Some sn -> reads_back m e (fst sn) (snd sn) = true.
Proof.
  unfold candidate. destruct (bin_frac (Z.of_N m) e) as [n d].
  set (N := magnitude n d).
  destruct (if 0 <=? k - N then (n * 10 ^ (k - N), d) else (n, d * 10 ^ (N - k)))
    as [n' d'].
  cbv zeta. set (lo := n' / d'). set (hi := if lo + 1 =? 10 ^ k then _ else _).
  destruct (reads_back m e lo N) eqn:Elo, (reads_back m e (fst hi) (snd hi)) eqn:Ehi;
    cbn [andb]; repeat case_match; intros; simplify_eq; done.
Qed.

Lemma shortest_spec m e :
  (0 < m)%N -> canonical (RFin false m e) = true ->
  0 < fst (shortest m e)
  /\ round_dec false (fst (shortest m e))
                     (snd (shortest m e) - digits10 (fst (shortest m e)))
     = RFin false m e.
Proof.
  intros Hm Hc. unfold shortest. induction (map Z.of_nat (seq 1 17)) as [|k ks IH].
  - by apply expansion_spec.
  - cbn [shortest_from]. destruct (candidate m e k) as [sn|] eqn:E; [|exact IH].
    apply candidate_spec in E. unfold reads_back in E.
    apply andb_true_iff in E as [Hs Hr]. apply Z.ltb_lt in Hs.
    by apply bool_decide_eq_true in Hr.
Qed.

Lemma round_dec_sign negative s E :
  round_dec negative s E
  = match round_dec false s E with
    | RFin _ m e => RFin negative m e
    | RInf _ => RInf negative
    | RNaN => RNaN
    end.
Proof.
  unfold round_dec, round. destruct (_ =? 0); [done|].
  repeat (cbv zeta; case_match; simplify_eq); done.
Qed.

(** Digits *)

Lemma take_digits_all d rest :
  all_digits d = true -> no_digit_ahead rest = true ->
  take_digits (d +:+ rest) = (d, rest).
Proof.
  intros Hd Hr. induction d as [|c d IH].
  - rewrite string_app_nil_l. destruct rest as [|c r]; [done|].
    cbn in *. apply negb_true_iff in Hr. by rewrite Hr.
  - cbn [all_digits] in Hd. apply andb_true_iff in Hd as [Hc Hd].
    rewrite string_app_cons. cbn [take_digits]. by rewrite Hc, IH.
Qed.

Lemma all_digits_app a b : all_digits (a +:+ b) = all_digits a && all_digits b.
Proof.
  induction a as [|c a IH]; [done|]. rewrite string_app_cons. cbn [all_digits].
  by rewrite IH, andb_assoc.
Qed.

Lemma all_digits_zeros j : all_digits (zeros j) = true.
Proof. induction j; [done|]. cbn [zeros all_digits]. by rewrite IHj. Qed.

Lemma all_digits_N n : all_digits (string_of_N n) = true.
Proof. apply all_digits_uint. Qed.

Lemma take_drop_str j s : take_str j s +:+ drop_str j s = s.
Proof.
  revert s. induction j as [|j IH]; intros [|c s]; cbn [take_str drop_str]; try done.
  by rewrite string_app_cons, IH.
Qed.

Lemma length_take_str j s :
  (j <= String.length s)%nat -> String.length (take_str j s) = j.
Proof.
  revert s. induction j as [|j IH]; intros [|c s] Hj; cbn in *; try done; try lia.
  rewrite IH; lia.
Qed.

Lemma length_drop_str j s :
  String.length (drop_str j s) = (String.length s - j)%nat.
Proof.
  revert s. induction j as [|j IH]; intros [|c s]; cbn [drop_str String.length]; try done;
    lia.
Qed.

Lemma length_zeros j : String.length (zeros j) = j.
Proof. induction j; [done|]. cbn. by rewrite IHj. Qed.

Lemma digits_val_app acc a b : digits_val acc (a +:+ b) = digits_val (digits_val acc a) b.
Proof.
  revert acc. induction a as [|c a IH]; intros acc; [done|].
  rewrite string_app_cons. cbn [digits_val]. apply IH.
Qed.

Lemma digits_val_zeros acc j : digits_val acc (zeros j) = (acc * 10 ^ N.of_nat j)%N.
Proof.
  revert acc. induction j as [|j IH]; intros acc.
  - cbn. lia.
  - cbn [zeros digits_val]. rewrite IH. unfold digit_val. cbn [N_of_ascii].
    rewrite Nat2N.inj_succ, N.pow_succ_r'. cbn. lia.
Qed.

Lemma N_head n : (0 < n)%N ->
  exists c s, string_of_N n = String c s /\ is_digit c = true /\ Ascii.eqb c "0" = false.
Proof. destruct n as [|p]; [lia|]. intros _. apply pos_head. Qed.

Lemma delim_no_digit rest : delim rest = true -> no_digit_ahead rest = true.
Proof.
  destruct rest as [|c r]; [done|]. unfold delim. cbn [no_digit_ahead].
  by intros [-> _]%andb_true_iff.
Qed.

Lemma delim_no_point rest :
  delim rest = true ->
  match rest with String c _ => Ascii.eqb c "." = false | "" => True end.
Proof.
  destruct rest as [|c r]; [done|]. unfold delim, starts_fraction.
  intros [_ Hf%negb_true_iff]%andb_true_iff.
  by apply orb_false_iff in Hf as [[Hp _]%orb_false_iff _].
Qed.

Lemma parse_exponent_none rest :
  delim rest = true -> parse_exponent rest = Some (0, rest).
Proof.
  destruct rest as [|c r]; [done|]. unfold delim, starts_fraction.
  intros [_ Hf%negb_true_iff]%andb_true_iff.
  apply orb_false_iff in Hf as [[_ He]%orb_false_iff HE].
  cbn [parse_exponent]. by rewrite He, HE.
Qed.

Lemma parse_exponent_some x rest :
  delim rest = true ->
  parse_exponent ("e" +:+ (if 0 <=? x then "+" else "-")
                      +:+ string_of_N (Z.to_N (Z.abs x)) +:+ rest)
  = Some (x, rest).
Proof.
  intros Hd.
  pose proof (delim_no_digit rest Hd) as Hn.
  assert (exists c s, string_of_N (Z.to_N (Z.abs x)) = String c s) as (c & s & Hcs).
  { destruct (Z.to_N (Z.abs x)) as [|p]; [by eexists _, _|].
    destruct (pos_head p) as (c & s & E & _). eauto. }
  rewrite string_app_cons, string_app_nil_l. cbn [parse_exponent].
  change (("e" =? "e")%char) with true. cbn [orb].
  destruct (Z.leb_spec 0 x).
  - rewrite string_app_cons, string_app_nil_l.
    change (("+" =? "-")%char) with false. change (("+" =? "+")%char) with true.
    cbv iota. rewrite take_digits_all by (done || apply all_digits_N).
    rewrite Hcs at 1. rewrite digits_val_N. f_equal. f_equal. lia.
  - rewrite string_app_cons, string_app_nil_l.
    change (("-" =? "-")%char) with true.
    cbv iota. rewrite take_digits_all by (done || apply all_digits_N).
    rewrite Hcs at 1. rewrite digits_val_N. f_equal. f_equal. lia.
Qed.

(** The parts of a number, put together and read. *)
Lemma parse_decimal_parts i f ex x rest :
  all_digits i = true -> all_digits f = true ->
  (exists c i', i = String c i' /\ (Ascii.eqb c "0" = false \/ i' = "")) ->
  parse_exponent (ex +:+ rest) = Some (x, rest) ->
  no_digit_ahead (ex +:+ rest) = true ->
  match ex +:+ rest with String c _ => Ascii.eqb c "." = false | "" => True end ->
  parse_decimal (i +:+ (match f with "" => "" | _ => "." +:+ f end) +:+ ex +:+ rest)
  = Some (Z.of_N (digits_val 0 (i +:+ f)), x - Z.of_nat (String.length f), rest).
Proof.
  intros Hi Hf (c & i' & -> & Hlead) Hex Hnd Hnp. unfold parse_decimal.
  assert ((Ascii.eqb c "0" && negb (String.eqb i' "")) = false) as Hz.
  { destruct Hlead as [->| ->]; [done|]. by destruct (Ascii.eqb c "0"). }
  destruct f as [|cf f'].
  - rewrite string_app_nil_l, string_app_nil_r.
    rewrite take_digits_all by done. rewrite Hz.
    destruct (ex +:+ rest) as [|p r1] eqn:E.
    + by rewrite Hex, string_app_nil_r.
    + by rewrite Hnp, Hex, string_app_nil_r.
  - set (f := String cf f') in *.
    rewrite take_digits_all; [|done|by rewrite string_app_cons].
    rewrite Hz.
    rewrite !string_app_assoc, string_app_cons, string_app_nil_l.
    change (("." =? ".")%char) with true. cbv iota.
    rewrite take_digits_all by done. subst f. cbv iota. by rewrite Hex.
Qed.

Lemma parse_decimal_int i ex x rest :
  all_digits i = true ->
  (exists c i', i = String c i' /\ (Ascii.eqb c "0" = false \/ i' = "")) ->
  parse_exponent (ex +:+ rest) = Some (x, rest) ->
  no_digit_ahead (ex +:+ rest) = true ->
  match ex +:+ rest with String c _ => Ascii.eqb c "." = false | "" => True end ->
  parse_decimal (i +:+ ex +:+ rest) = Some (Z.of_N (digits_val 0 i), x, rest).
Proof.
  intros Hi Hl Hex H1 H2.
  pose proof (parse_decimal_parts i "" ex x rest Hi eq_refl Hl Hex H1 H2) as Hp.
  rewrite string_app_nil_l, string_app_nil_r in Hp. cbn [String.length] in Hp.
  rewrite Hp. repeat f_equal. lia.
Qed.

Lemma parse_decimal_frac i f ex x rest :
  all_digits i = true -> all_digits f = true -> f <> "" ->
  (exists c i', i = String c i' /\ (Ascii.eqb c "0" = false \/ i' = "")) ->
  parse_exponent (ex +:+ rest) = Some (x, rest) ->
  no_digit_ahead (ex +:+ rest) = true ->
  match ex +:+ rest with String c _ => Ascii.eqb c "." = false | "" => True end ->
  parse_decimal (i +:+ "." +:+ f +:+ ex +:+ rest)
  = Some (Z.of_N (digits_val 0 (i +:+ f)), x - Z.of_nat (String.length f), rest).
Proof.
  intros Hi Hf Hne Hl Hex H1 H2.
  pose proof (parse_decimal_parts i f ex x rest Hi Hf Hl Hex H1 H2) as Hp.
  destruct f as [|cf f']; [done|]. by rewrite string_app_assoc in Hp.
Qed.

Lemma head_app c i' t : String c i' +:+ t = String c (i' +:+ t).
Proof. reflexivity. Qed.

Lemma take_str_head j c s : (0 < j)%nat -> exists t, take_str j (String c s) = String c t.
Proof. destruct j; [lia|]. intros _. cbn. eauto. Qed.

Lemma all_digits_take j s : all_digits s = true -> all_digits (take_str j s) = true.
Proof.
  intros Hs. rewrite <- (take_drop_str j s), all_digits_app in Hs.
  by apply andb_true_iff in Hs as [-> _].
Qed.

Lemma all_digits_drop j s : all_digits s = true -> all_digits (drop_str j s) = true.
Proof.
  intros Hs. rewrite <- (take_drop_str j s), all_digits_app in Hs.
  by apply andb_true_iff in Hs as [_ ->].
Qed.

Lemma digits_val_lead j d : digits_val 0 (zeros j +:+ d) = digits_val 0 d.
Proof. by rewrite digits_val_app, digits_val_zeros. Qed.

Lemma length_nonempty s : (0 < String.length s)%nat -> s <> "".
Proof. by destruct s; [cbn; lia|]. Qed.

(** The text of [s * 10^(n-k)] is read as that value. *)
Lemma parse_format s n rest :
  0 < s -> delim rest = true ->
  exists M E,
    parse_decimal (format_decimal s n +:+ rest) = Some (M, E, rest)
    /\ dec_frac M E = dec_frac s (n - digits10 s).
Proof.
  intros Hs Hd. unfold format_decimal, digits10.
  set (D := string_of_N (Z.to_N s)). set (k := Z.of_nat (String.length D)).
  assert (all_digits D = true) as HD by apply all_digits_N.
  assert (Z.of_N (digits_val 0 D) = s) as Hval by (subst D; rewrite digits_val_N; lia).
  destruct (N_head (Z.to_N s) ltac:(lia)) as (c & D' & HcD & Hc & Hc0). fold D in HcD.
  assert (1 <= k) as Hk1 by (subst k; rewrite HcD; cbn [String.length]; lia).
  pose proof (delim_no_digit rest Hd) as Hnd.
  pose proof (delim_no_point rest Hd) as Hnp.
  pose proof (parse_exponent_none rest Hd) as Hex0.
  destruct ((k <=? n) && (n <=? 21)) eqn:C1.
  { (* digits and zeros *)
    apply andb_true_iff in C1 as [Hkn%Z.leb_le Hn21%Z.leb_le].
    eexists _, _. split.
    + apply (parse_decimal_int _ "" 0 rest); try done.
      * by rewrite all_digits_app, HD, all_digits_zeros.
      * rewrite HcD, head_app. eauto.
    + rewrite digits_val_app, digits_val_zeros.
      unfold dec_frac. change (0 <=? 0) with true.
      rewrite (proj2 (Z.leb_le 0 (n - k))) by lia.
      f_equal. rewrite N2Z.inj_mul, N2Z.inj_pow, Hval. cbn [Z.of_N].
      rewrite Z.pow_0_r, Z.mul_1_r. f_equal. f_equal. lia. }
  destruct ((0 <? n) && (n <=? 21)) eqn:C2.
  { (* a point among the digits *)
    apply andb_true_iff in C2 as [Hn0%Z.ltb_lt Hn21%Z.leb_le].
    assert (n < k) as Hnk.
    { apply andb_false_iff in C1 as [C1%Z.leb_gt|C1%Z.leb_gt]; lia. }
    set (j := Z.to_nat n).
    assert (String.length (drop_str j D) = Z.to_nat (k - n)) as Hlen.
    { rewrite length_drop_str. subst j k. lia. }
    eexists _, _. split.
    + rewrite !string_app_assoc. apply (parse_decimal_frac _ _ "" 0 rest); try done.
      * by apply all_digits_take.
      * by apply all_digits_drop.
      * apply length_nonempty. lia.
      * rewrite HcD. destruct (take_str_head j c D') as [t ->]; [subst j; lia|]. eauto.
    + rewrite take_drop_str, Hval, Hlen. f_equal. lia. }
  destruct ((-6 <? n) && (n <=? 0)) eqn:C3.
  { (* zeros after the point *)
    apply andb_true_iff in C3 as [Hn6%Z.ltb_lt Hn0%Z.leb_le].
    set (f := zeros (Z.to_nat (- n)) +:+ D).
    assert (String.length f = Z.to_nat (k - n)) as Hlen.
    { subst f. rewrite string_length_app, length_zeros. subst k. lia. }
    eexists _, _. split.
    + change ("0." +:+ zeros (Z.to_nat (- n)) +:+ D) with ("0" +:+ "." +:+ f).
      rewrite !string_app_assoc. apply (parse_decimal_frac "0" f "" 0 rest); try done.
      * subst f. by rewrite all_digits_app, all_digits_zeros.
      * apply length_nonempty. lia.
      * eexists _, _. split; [reflexivity|by right].
    + rewrite Hlen. subst f. change ("0" +:+ ?t) with (zeros 1 +:+ t).
      rewrite !digits_val_lead, Hval. f_equal. lia. }
  (* exponent form *)
  set (x := n - 1).
  pose proof (parse_exponent_some x rest Hd) as Hex.
  set (ex := "e" +:+ (if 0 <=? x then "+" else "-") +:+ string_of_N (Z.to_N (Z.abs x))).
  assert (parse_exponent (ex +:+ rest) = Some (x, rest)) as Hex'.
  { subst ex. by rewrite !string_app_assoc. }
  assert (no_digit_ahead (ex +:+ rest) = true) as He1 by reflexivity.
  assert (match ex +:+ rest with String c _ => Ascii.eqb c "." = false | "" => True end)
    as He2 by reflexivity.
  destruct (Z.eqb_spec k 1) as [Hk|Hk].
  - eexists _, _. split.
    + rewrite !string_app_assoc. apply (parse_decimal_int D ex x rest); try done.
      rewrite HcD. eauto.
    + rewrite Hval. f_equal. lia.
  - assert (String.length (drop_str 1 D) = Z.to_nat (k - 1)) as Hlen.
    { rewrite length_drop_str. subst k. lia. }
    eexists _, _. split.
    + rewrite !string_app_assoc.
      apply (parse_decimal_frac (take_str 1 D) (drop_str 1 D) ex x rest); try done.
      * by apply all_digits_take.
      * by apply all_digits_drop.
      * apply length_nonempty. lia.
      * rewrite HcD. cbn [take_str]. eauto.
    + rewrite take_drop_str, Hval, Hlen. f_equal. lia.
Qed.

Lemma canonical_sign n1 n2 m e : canonical (RFin n1 m e) = canonical (RFin n2 m e).
Proof. reflexivity. Qed.

Lemma parse_number_shortest negative m e rest :
  canonical (RFin negative m e) = true -> (0 < m)%N -> delim rest = true ->
  parse_number negative
    (format_decimal (fst (shortest m e)) (snd (shortest m e)) +:+ rest)
  = Some (pack (RFin negative m e), rest).
Proof.
  intros Hc Hm Hd.
  destruct (shortest_spec m e Hm Hc) as [Hs Hr].
  destruct (parse_format (fst (shortest m e)) (snd (shortest m e)) rest Hs Hd)
    as (M & E & Hp & Hf).
  unfold parse_number. rewrite Hp. f_equal. f_equal. f_equal.
  rewrite round_dec_sign. unfold round_dec in *. rewrite Hf. by rewrite Hr.
Qed.

Lemma format_decimal_head s n :
  0 < s -> exists c t, format_decimal s n = String c t /\ is_digit c = true
                       /\ (Ascii.eqb c "0" = true -> t <> "").
Proof.
  intros Hs. unfold format_decimal.
  destruct (N_head (Z.to_N s) ltac:(lia)) as (c & D' & -> & Hc & Hc0).
  set (D := String c D'). set (k := Z.of_nat (String.length D)).
  destruct ((k <=? n) && (n <=? 21)).
  { subst D. rewrite head_app. eexists _, _. split; [done|]. split; [done|]. congruence. }
  destruct ((0 <? n) && (n <=? 21)) eqn:C2.
  { apply andb_true_iff in C2 as [Hn%Z.ltb_lt _].
    destruct (take_str_head (Z.to_nat n) c D') as [t Ht]; [lia|]. subst D.
    rewrite Ht, head_app. eexists _, _. split; [done|]. split; [done|]. congruence. }
  destruct ((-6 <? n) && (n <=? 0)).
  { eexists _, _. split; [reflexivity|]. split; [done|]. by intros _. }
  destruct (k =? 1); subst D; cbn [take_str]; rewrite ?head_app;
    eexists _, _; (split; [done|]); (split; [done|]); congruence.
Qed.

Lemma colon_free_app a b : colon_free (a +:+ b) = colon_free a && colon_free b.
Proof.
  induction a as [|c a IH]; [done|]. rewrite string_app_cons. cbn [colon_free].
  by rewrite IH, andb_assoc.
Qed.

Lemma format_decimal_colon_free s n : colon_free (format_decimal s n) = true.
Proof.
  assert (forall m, colon_free (string_of_N m) = true) as c1
    by (intros; apply all_digits_colon_free, all_digits_N).
  assert (forall j, colon_free (zeros j) = true) as c2
    by (intros; apply all_digits_colon_free, all_digits_zeros).
  assert (forall j m, colon_free (take_str j (string_of_N m)) = true) as c3
    by (intros; apply all_digits_colon_free, all_digits_take, all_digits_N).
  assert (forall j m, colon_free (drop_str j (string_of_N m)) = true) as c4
    by (intros; apply all_digits_colon_free, all_digits_drop, all_digits_N).
  unfold format_decimal.
  repeat case_match; rewrite ?colon_free_app, ?c1, ?c2, ?c3, ?c4; reflexivity.
Qed.

Lemma Number_toString_colon_free x : colon_free (Number_toString x) = true.
Proof.
  unfold Number_toString. destruct (proj1_sig x) as [|[]|[] m e]; try reflexivity;
    destruct (m =? 0)%N; try reflexivity; destruct (shortest m e) as [s n];
    rewrite colon_free_app, format_decimal_colon_free; reflexivity.
Qed.

Lemma Number_toString_finite (x : number) negative m e :
  proj1_sig x = RFin negative m e -> (0 < m)%N ->
  exists c t,
    Number_toString x = (if negative then "-" else "") +:+ String c t
    /\ is_digit c = true
    /\ (Ascii.eqb c "0" = true -> t <> "")
    /\ forall rest, delim rest = true ->
          parse_number negative (String c t +:+ rest) = Some (x, rest).
Proof.
  intros Hx Hm. unfold Number_toString. rewrite Hx.
  rewrite (proj2 (N.eqb_neq _ _)) by lia.
  assert (canonical (RFin negative m e) = true) as Hc by (rewrite <- Hx; by destruct x).
  destruct (shortest_spec m e Hm Hc) as [Hs _].
  pose proof (fun rest => parse_number_shortest negative m e rest Hc Hm) as Hp.
  destruct (shortest m e) as [s n]. cbn [fst snd] in *.
  destruct (format_decimal_head s n Hs) as (c & t & Ht & Hd & H0).
  exists c, t. rewrite <- Ht. repeat split; try done; try (by rewrite Ht).
  intros rest Hr. rewrite (Hp rest Hr). f_equal. f_equal.
  apply number_eq. rewrite pack_raw by done. by rewrite Hx.
Qed.

(** The text tells the number, but for the sign of zero. *)
Lemma Number_toString_inj x y :
  Number_toString x = Number_toString y -> x = y \/ (is_zero x = true /\ is_zero y = true).
Proof.
  intros Heq.
  assert (forall (z : number) negative m e c t,
            proj1_sig z = RFin negative m e -> (0 < m)%N -> is_digit c = true ->
            Number_toString z = (if negative then "-" else "") +:+ String c t ->
            (Ascii.eqb c "0" = true -> t <> "") ->
            forall w, Number_toString w = Number_toString z ->
                      (forall rest, delim rest = true ->
                         parse_number negative (String c t +:+ rest) = Some (z, rest)) ->
                      w = z) as Hfin.
  { intros z negative m e c t Hz Hm Hc Ht H0 w Hw Hpz.
    destruct (proj1_sig w) as [|b|b m' e'] eqn:Ew.
    - unfold Number_toString in Hw at 1. rewrite Ew, Ht in Hw; cbv beta iota fix delta [String.app] in Hw.
      destruct negative; simplify_eq.
    - unfold Number_toString in Hw at 1. rewrite Ew, Ht in Hw; cbv beta iota fix delta [String.app] in Hw.
      destruct negative, b; simplify_eq.
    - destruct (N.eq_dec m' 0%N) as [->|Hm'].
      + unfold Number_toString in Hw at 1. rewrite Ew, Ht in Hw; cbv beta iota fix delta [String.app] in Hw. cbn [N.eqb] in Hw.
        destruct negative; simplify_eq. by destruct (H0 eq_refl).
      + destruct (Number_toString_finite w b m' e' Ew ltac:(lia))
          as (c' & t' & Hw' & Hc' & _ & Hpw).
        rewrite Hw', Ht in Hw; cbv beta iota fix delta [String.app] in Hw.
        destruct negative, b; simplify_eq.
        * specialize (Hpw "" eq_refl). specialize (Hpz "" eq_refl). congruence.
        * specialize (Hpw "" eq_refl). specialize (Hpz "" eq_refl). congruence. }
  assert (forall z : number,
            (exists (b : bool) (m : N) (e : Z), proj1_sig z = RFin b m e /\ (0 < m)%N)
            \/ (Number_toString z = "NaN" /\ proj1_sig z = RNaN)
            \/ (exists b : bool, Number_toString z = (if b then "-Infinity" else "Infinity")
                          /\ proj1_sig z = RInf b)
            \/ (Number_toString z = "0" /\ is_zero z = true)) as Hcase.
  { intros z. unfold Number_toString, is_zero. destruct (proj1_sig z) as [|b|b m e].
    - right. by left.
    - right. right. left. by exists b.
    - destruct (N.eq_dec m 0%N) as [->|Hm].
      + by repeat right.
      + left. exists b, m, e. split; [done | lia]. }
  assert (forall z w : number,
            (exists (b : bool) (m : N) (e : Z), proj1_sig z = RFin b m e /\ (0 < m)%N) ->
            Number_toString w = Number_toString z -> w = z) as Hnz.
  { intros z w (b & m & e & Hz & Hm) Hw.
    destruct (Number_toString_finite z b m e Hz Hm) as (c & t & Ht & Hc & H0 & Hp).
    by apply (Hfin z b m e c t). }
  destruct (Hcase x) as [Hx|Hx]; [left; symmetry; by apply Hnz|].
  destruct (Hcase y) as [Hy|Hy]; [left; by apply Hnz|].
  destruct Hx as [[Tx Rx]|[(bx & Tx & Rx)|[Tx Rx]]], Hy as [[Ty Ry]|[(by' & Ty & Ry)|[Ty Ry]]];
    rewrite Tx, Ty in Heq;
    try (right; done);
    try (left; apply number_eq; rewrite Rx, Ry);
    repeat case_match; simplify_eq; done.
Qed.

Lemma parse_number_zero negative rest :
  delim rest = true ->
  parse_number negative (String "0" rest) = Some (pack (RFin negative 0 (-1074)), rest).
Proof.
  intros Hd. unfold parse_number.
  change (String "0" rest) with ("0" +:+ "" +:+ rest).
  rewrite (parse_decimal_int "0" "" 0 rest); try done.
  - exists "0"%char, "". by split; [|right].
  - rewrite string_app_nil_l. by apply parse_exponent_none.
  - rewrite string_app_nil_l. by apply delim_no_digit.
  - rewrite string_app_nil_l. by apply delim_no_point.
Qed.

Lemma Number_toString_cases x :
  is_finite x = true ->
  (is_zero x = true /\ Number_toString x = "0")
  \/ (is_zero x = false
      /\ exists (negative : bool) c t,
           Number_toString x = (if negative then "-" else "") +:+ String c t
           /\ is_digit c = true
           /\ forall rest, delim rest = true ->
                 parse_number negative (String c t +:+ rest) = Some (x, rest)).
Proof.
  unfold is_finite, is_zero. destruct (proj1_sig x) as [|b|b m e] eqn:Ex; try done.
  intros _. destruct (N.eq_dec m 0%N) as [->|Hm].
  - left. split; [done|]. unfold Number_toString. by rewrite Ex.
  - right. split; [by apply N.eqb_neq|].
    destruct (Number_toString_finite x b m e Ex ltac:(lia)) as (c & t & Ht & Hc & _ & Hp).
    by exists b, c, t.
Qed.

Lemma parse_quote_char c r :
  parse_string_body (quote_char c +:+ r) = cons_char c (parse_string_body r).
Proof. destruct c as [[] [] [] [] [] [] [] []]; reflexivity. Qed.

Lemma parse_quote_body s rest :
  parse_string_body (quote_body s +:+ String dquote rest) = Some (s, rest).
Proof.
  induction s as [|c s IH]; [reflexivity|].
  cbn [quote_body]. rewrite string_app_assoc, parse_quote_char, IH. reflexivity.
Qed.

Lemma quote_app s rest : quote s +:+ rest = String dquote (quote_body s +:+ String dquote rest).
Proof. unfold quote. rewrite string_app_cons, string_app_assoc. reflexivity. Qed.


Lemma skip_ws_start c r : negb (is_ws c) = true -> skip_ws (String c r) = String c r.
Proof. intros Hc. apply negb_true_iff in Hc. cbn [skip_ws]. by rewrite Hc. Qed.

Lemma digit_dispatch c :
  is_digit c = true ->
  is_ws c = false /\ Ascii.eqb c dquote = false /\ Ascii.eqb c "[" = false
  /\ Ascii.eqb c "{" = false /\ Ascii.eqb c "-" = false /\ Ascii.eqb c "]" = false
  /\ Ascii.eqb c "}" = false.
Proof.
  destruct c as [[] [] [] [] [] [] [] []]; intros Hd; try discriminate Hd;
    repeat split; reflexivity.
Qed.

Lemma stringify_None v : JSON_stringify v = None -> v = VUndef.
Proof. destruct v; simpl; try discriminate; auto; destruct b; discriminate. Qed.


Lemma stringify_head v t :
  JSON_stringify v = Some t ->
  exists c t', t = String c t' /\ value_start c = true.
Proof.
  destruct v; simpl; intros Ht; simplify_eq.
  - by eexists _, _.
  - destruct b; by eexists _, _.
  - destruct (is_finite n) eqn:Ef; [|by eexists _, _].
    destruct (Number_toString_cases n Ef) as [[_ ->]|[_ (sg & c & s & -> & Hc & _)]].
    + by eexists _, _.
    + destruct sg; [by eexists _, _|].
      exists c, s. split; [done|].
      destruct (digit_dispatch c Hc) as (H1 & _ & _ & _ & _ & H2 & H3).
      unfold value_start. by rewrite H1, H2, H3.
  - by eexists _, _.
  - by eexists _, _.
  - by eexists _, _.
  - by eexists _, _.
Qed.

Lemma pr_head x : exists c t', elem_text x = String c t' /\ value_start c = true.
Proof.
  unfold elem_text. destruct (JSON_stringify x) eqn:E; simpl.
  - by eapply stringify_head.
  - by eexists _, _.
Qed.


Lemma omap_cons' {A B} (f : A -> option B) x l :
  omap f (x :: l) = match f x with Some y => y :: omap f l | None => omap f l end.
Proof. reflexivity. Qed.

Lemma omap_print l :
  omap (fun kv => match JSON_stringify (snd kv) with
                  | Some t => Some (quote (fst kv) +:+ ":" +:+ t)
                  | None => None
                  end) l = map member_text (List.filter is_defined l).
Proof.
  induction l as [|[k x] l IH]; [done|]. rewrite omap_cons'. cbn [List.filter].
  unfold is_defined at 1. cbn [snd fst].
  destruct (JSON_stringify x) eqn:E.
  - rewrite IH.
    destruct x; try discriminate E; cbn [map]; unfold member_text, elem_text; cbn [fst snd]; by rewrite E.
  - apply stringify_None in E as ->. exact IH.
Qed.

Lemma omap_image l :
  omap (fun kv => match snd kv with
                  | VUndef => None
                  | _ => Some (fst kv, json_image (snd kv))
                  end) l = map member_image (List.filter is_defined l).
Proof.
  induction l as [|[k x] l IH]; [done|]. rewrite omap_cons'. cbn [List.filter].
  unfold is_defined at 1. cbn [snd fst].
  destruct x; cbn [map]; rewrite <- ?IH; try reflexivity.
Qed.

Lemma list_sum_cons x l : list_sum (x :: l) = (x + list_sum l)%nat.
Proof. reflexivity. Qed.

Lemma need_filter l :
  list_sum (map (fun kv => match snd kv with VUndef => O | _ => S (need (snd kv)) end) l)
  = list_sum (map (fun kv => S (need (snd kv))) (List.filter is_defined l)).
Proof.
  induction l as [|[k x] l IH]; [done|]. cbn [map list_sum List.filter].
  unfold is_defined at 1. cbn [snd].
  destruct x; cbn [map snd]; rewrite !list_sum_cons, IH; reflexivity.
Qed.

Lemma join_cons sep x l :
  join sep (x :: l) = match l with [] => x | _ => x +:+ sep +:+ join sep l end.
Proof. reflexivity. Qed.

Section step.
Variable f : nat.
Hypothesis IHv : forall v t rest,
  JSON_stringify v = Some t -> (need v <= f)%nat -> delim rest = true ->
  parse_value f (t +:+ rest) = Some (json_image v, rest).

Lemma IHpr x rest :
  (need x <= f)%nat -> delim rest = true ->
  parse_value f (elem_text x +:+ rest) = Some (elem_image x, rest).
Proof.
  intros Hn Hd. unfold elem_text. destruct (JSON_stringify x) eqn:E; simpl.
  - rewrite (IHv _ _ _ E Hn Hd). destruct x; try reflexivity. discriminate E.
  - apply stringify_None in E as ->. destruct f as [|f']; [simpl in Hn; lia|]. reflexivity.
Qed.

Hypothesis IHe : forall l rest,
  l <> [] -> (list_sum (map (fun x => S (need x)) l) <= f)%nat ->
  parse_elems f (join "," (map elem_text l) +:+ String "]" rest) = Some (map elem_image l, rest).

Lemma step_elems l rest :
  l <> [] -> (list_sum (map (fun x => S (need x)) l) <= S f)%nat ->
  parse_elems (S f) (join "," (map elem_text l) +:+ String "]" rest) = Some (map elem_image l, rest).
Proof.
  destruct l as [|x l]; [done|]. intros _ Hn. cbn [map] in Hn.
  rewrite list_sum_cons in Hn.
  cbn [map]. rewrite join_cons. cbn [parse_elems].
  destruct l as [|y l].
  - cbn [map]. rewrite IHpr; [|lia|done].
    rewrite skip_ws_start by reflexivity. reflexivity.
  - set (l' := y :: l) in *.
    assert (Hl' : l' <> []) by done.
    assert (map elem_text l' <> []) as Hm by (subst l'; done).
    destruct (map elem_text l') eqn:E; [done|]. rewrite <- E. clear E Hm.
    rewrite !string_app_assoc. rewrite IHpr; [|lia|done].
    rewrite string_app_cons, skip_ws_start by reflexivity.
    change (("," =? ",")%char) with true. cbv iota.
    rewrite string_app_nil_l, IHe; [done|done|lia].
Qed.

Hypothesis IHm : forall l rest,
  l <> [] -> forallb is_defined l = true ->
  (list_sum (map (fun kv => S (need (snd kv))) l) <= f)%nat ->
  parse_members f (join "," (map member_text l) +:+ String "}" rest)
  = Some (map member_image l, rest).

Lemma img_defined kv : is_defined kv = true -> elem_image (snd kv) = json_image (snd kv).
Proof. unfold is_defined, elem_image. by destruct (snd kv). Qed.

Lemma mem_pr_eq k x : member_text (k, x) = quote k +:+ ":" +:+ elem_text x.
Proof. reflexivity. Qed.

Lemma step_members l rest :
  l <> [] -> forallb is_defined l = true ->
  (list_sum (map (fun kv => S (need (snd kv))) l) <= S f)%nat ->
  parse_members (S f) (join "," (map member_text l) +:+ String "}" rest)
  = Some (map member_image l, rest).
Proof.
  destruct l as [|[k x] l]; [done|]. intros _ Hdef Hn. cbn [map] in Hn.
  rewrite list_sum_cons in Hn. cbn [snd] in Hn.
  cbn [forallb] in Hdef. apply andb_true_iff in Hdef as [Hx Hdef].
  cbn [map]. rewrite join_cons. cbn [parse_members].
  rewrite !(mem_pr_eq k x).
  destruct l as [|y l].
  - cbn [map]. rewrite !string_app_assoc, quote_app.
    rewrite skip_ws_start by reflexivity.
    change (negb (dquote =? dquote)%char) with false. cbv iota.
    rewrite parse_quote_body. rewrite string_app_cons, skip_ws_start by reflexivity.
    change (negb (":" =? ":")%char) with false. cbv iota.
    rewrite string_app_nil_l, IHpr; [|lia|done].
    rewrite skip_ws_start by reflexivity.
    pose proof (img_defined (k, x) Hx) as Hi. cbn [snd] in Hi. rewrite Hi. reflexivity.
  - set (l' := y :: l) in *.
    assert (Hl' : l' <> []) by done.
    assert (map member_text l' <> []) as Hm by (subst l'; done).
    destruct (map member_text l') eqn:E; [done|]. rewrite <- E. clear E Hm.
    rewrite !string_app_assoc, quote_app.
    rewrite skip_ws_start by reflexivity.
    change (negb (dquote =? dquote)%char) with false. cbv iota.
    rewrite parse_quote_body. rewrite string_app_cons, skip_ws_start by reflexivity.
    change (negb (":" =? ":")%char) with false. cbv iota.
    rewrite string_app_nil_l, IHpr; [|lia|done].
    rewrite string_app_cons, skip_ws_start by reflexivity.
    change (("," =? ",")%char) with true. cbv iota.
    rewrite string_app_nil_l, IHm; [|done|done|lia].
    pose proof (img_defined (k, x) Hx) as Hi. cbn [snd] in Hi. rewrite Hi. reflexivity.
Qed.

Lemma elems_head l rest :
  l <> [] -> exists c t', join "," (map elem_text l) +:+ rest = String c t' /\ value_start c = true.
Proof.
  destruct l as [|x l]; [done|]. intros _. cbn [map]. rewrite join_cons.
  destruct (pr_head x) as (c & t' & E & Hc).
  destruct (map elem_text l); rewrite E, ?string_app_cons; eauto.
Qed.

Lemma members_head l rest :
  l <> [] -> exists t', join "," (map member_text l) +:+ rest = String dquote t'.
Proof.
  destruct l as [|[k x] l]; [done|]. intros _. cbn [map]. rewrite join_cons, mem_pr_eq.
  destruct (map member_text l); rewrite !string_app_assoc, quote_app; eauto.
Qed.

Lemma value_start_split c :
  value_start c = true ->
  negb (is_ws c) = true /\ Ascii.eqb c "]" = false /\ Ascii.eqb c "}" = false.
Proof.
  unfold value_start. intros [[H1 H2]%andb_true_iff H3]%andb_true_iff.
  by apply negb_true_iff in H2, H3.
Qed.

Lemma step_value v t rest :
  JSON_stringify v = Some t -> (need v <= S f)%nat -> delim rest = true ->
  parse_value (S f) (t +:+ rest) = Some (json_image v, rest).
Proof.
  intros Ht Hn Hd. destruct v; cbn [JSON_stringify] in Ht; simplify_eq.
  - reflexivity.
  - destruct b; reflexivity.
  - cbn [json_image]. unfold number_image.
    destruct (is_finite n) eqn:Ef; [|reflexivity].
    destruct (Number_toString_cases n Ef) as [[Hz ->]|[Hz (sg & c & s & -> & Hc & Hp)]];
      rewrite Hz.
    + rewrite string_app_cons, string_app_nil_l. cbn [parse_value].
      rewrite skip_ws_start by reflexivity.
      change (is_digit "0") with true.
      cbn [Ascii.eqb Bool.eqb dquote]. cbv iota.
      by rewrite parse_number_zero.
    + destruct sg.
      * rewrite !string_app_cons, string_app_nil_l. cbn [parse_value].
        rewrite skip_ws_start by reflexivity.
        cbn [Ascii.eqb Bool.eqb dquote]. cbv iota.
        by rewrite Hp.
      * rewrite string_app_nil_l, string_app_cons. cbn [parse_value].
        destruct (digit_dispatch c Hc) as (H1 & H2 & H3 & H4 & H5 & _).
        rewrite skip_ws_start by (by rewrite H1).
        rewrite H2, H3, H4, H5, Hc, <- string_app_cons, Hp by done. reflexivity.
  - rewrite quote_app. cbn [parse_value].
    rewrite skip_ws_start by reflexivity.
    change (dquote =? dquote)%char with true. cbv iota.
    by rewrite parse_quote_body.
  - rewrite quote_app. cbn [parse_value].
    rewrite skip_ws_start by reflexivity.
    change (dquote =? dquote)%char with true. cbv iota.
    by rewrite parse_quote_body.
  - change (map _ l) with (map elem_text l).
    change (json_image (VArr l)) with (VArr (map elem_image l)).
    cbn [need] in Hn. apply le_S_n in Hn.
    rewrite !string_app_assoc, string_app_cons, string_app_nil_l. cbn [parse_value].
    rewrite skip_ws_start by reflexivity.
    cbn [Ascii.eqb Bool.eqb dquote]. cbv iota.
    destruct (decide (l = [])) as [->|Hl].
    + reflexivity.
    + destruct (elems_head l (String "]" "" +:+ rest) Hl) as (c & t' & E & Hc).
      apply value_start_split in Hc as (Hc1 & Hc2 & Hc3).
      rewrite E, skip_ws_start, Hc2 by done. rewrite <- E.
      rewrite string_app_cons, string_app_nil_l, IHe by done. reflexivity.
  - rewrite omap_print.
    change (json_image (VObj l)) with
      (VObj (build_object (omap (fun kv => match snd kv with
                             | VUndef => None
                             | _ => Some (fst kv, json_image (snd kv))
                             end) l))).
    rewrite omap_image.
    cbn [need] in Hn. apply le_S_n in Hn. rewrite need_filter in Hn.
    rewrite !string_app_assoc, string_app_cons, string_app_nil_l. cbn [parse_value].
    rewrite skip_ws_start by reflexivity.
    cbn [Ascii.eqb Bool.eqb dquote]. cbv iota.
    destruct (decide (List.filter is_defined l = [])) as [->|Hl].
    + reflexivity.
    + destruct (members_head _ (String "}" "" +:+ rest) Hl) as (t' & E).
      rewrite E, skip_ws_start by reflexivity.
      change (dquote =? "}")%char with false. cbv iota. rewrite <- E.
      rewrite string_app_cons, string_app_nil_l, IHm; [reflexivity|done| |done].
      clear. induction l as [|kv l IH]; [done|]. cbn [List.filter].
      destruct (is_defined kv) eqn:E; [|done]. cbn [forallb]. by rewrite E.
Qed.
End step.

Lemma roundtrip_fuel f :
  (forall v t rest,
     JSON_stringify v = Some t -> (need v <= f)%nat -> delim rest = true ->
     parse_value f (t +:+ rest) = Some (json_image v, rest))
  /\ (forall l rest,
        l <> [] -> (list_sum (map (fun x => S (need x)) l) <= f)%nat ->
        parse_elems f (join "," (map elem_text l) +:+ String "]" rest) = Some (map elem_image l, rest))
  /\ (forall l rest,
        l <> [] -> forallb is_defined l = true ->
        (list_sum (map (fun kv => S (need (snd kv))) l) <= f)%nat ->
        parse_members f (join "," (map member_text l) +:+ String "}" rest)
        = Some (map member_image l, rest)).
Proof.
  induction f as [|f (IHv & IHe & IHm)].
  - split; [|split].
    + intros v t rest _ Hn. destruct v; cbn [need] in Hn; lia.
    + intros [|x l] rest Hl Hn; [done|]. cbn [map] in Hn. rewrite list_sum_cons in Hn. lia.
    + intros [|x l] rest Hl _ Hn; [done|]. cbn [map] in Hn. rewrite list_sum_cons in Hn. lia.
  - split; [|split].
    + intros. by apply step_value.
    + intros. by apply step_elems.
    + intros. by apply step_members.
Qed.

Lemma jsval_ind' (P : jsval -> Prop) :
  P VUndef -> P VNull -> (forall b, P (VBool b)) -> (forall n, P (VNum n)) ->
  (forall s, P (VStr s)) -> (forall s, P (VDate s)) ->
  (forall l, Forall P l -> P (VArr l)) ->
  (forall l, Forall (fun kv => P (snd kv)) l -> P (VObj l)) ->
  forall v, P v.
Proof.
  intros HU HN HB HZ HS HD HA HO. fix IH 1.
  intros [| |b|n|s|s|l|l];
    [exact HU|exact HN|apply HB|apply HZ|apply HS|apply HD| |].
  - apply HA. induction l as [|x l IHl]; constructor; [apply IH|apply IHl].
  - apply HO. induction l as [|[k x] l IHl]; constructor; [apply IH|apply IHl].
Qed.

Lemma length_join_bound {A} (pf : A -> string) (w : A -> nat) (l : list A) :
  Forall (fun x => (w x <= String.length (pf x))%nat) l ->
  (list_sum (map (fun x => S (w x)) l) <= S (String.length (join "," (map pf l))))%nat.
Proof.
  induction 1 as [|x l Hx Hl IH]; [cbn; lia|].
  cbn [map]. rewrite list_sum_cons, join_cons.
  destruct l as [|y l].
  - cbn [map list_sum]. cbn. lia.
  - set (l' := y :: l) in *. assert (map pf l' <> []) as Hm by (subst l'; done).
    destruct (map pf l') eqn:E; [done|]. rewrite <- E in *.
    rewrite !string_length_app. cbn [String.length]. lia.
Qed.

Lemma length_quote s : (2 <= String.length (quote s))%nat.
Proof. unfold quote. cbn [String.length]. rewrite string_length_app. cbn [String.length]. lia. Qed.

Lemma need_length v t : JSON_stringify v = Some t -> (need v <= String.length t)%nat.
Proof.
  revert t. induction v as [| |b|n|s|s|l IH|l IH] using jsval_ind'; intros t Ht;
    cbn [JSON_stringify] in Ht; simplify_eq.
  - cbn. lia.
  - destruct b; cbn; lia.
  - destruct (stringify_head (VNum n) _ eq_refl) as (c & t' & E & _).
    rewrite E. cbn. lia.
  - pose proof (length_quote s). cbn [need]. lia.
  - pose proof (length_quote s). cbn [need]. lia.
  - change (map _ l) with (map elem_text l). cbn [need].
    rewrite !string_length_app. cbn [String.length].
    pose proof (length_join_bound elem_text need l) as Hb.
    assert (Forall (fun x => (need x <= String.length (elem_text x))%nat) l) as HF.
    { eapply Forall_impl; [exact IH|]. intros x Hx. unfold elem_text.
      destruct (JSON_stringify x) eqn:E; [by apply Hx|].
      apply stringify_None in E as ->. cbn. lia. }
    specialize (Hb HF). lia.
  - rewrite omap_print. cbn [need]. rewrite need_filter.
    rewrite !string_length_app. cbn [String.length].
    pose proof (length_join_bound member_text (fun kv => need (snd kv)) (List.filter is_defined l)) as Hb.
    assert (Forall (fun kv => (need (snd kv) <= String.length (member_text kv))%nat)
                   (List.filter is_defined l)) as HF.
    { clear Hb. induction IH as [|[k x] l Hx Hl IHl]; [constructor|].
      cbn [List.filter]. destruct (is_defined (k, x)) eqn:E; [|done].
      constructor; [|done]. rewrite mem_pr_eq, !string_length_app. cbn [snd].
      unfold elem_text. destruct (JSON_stringify x) eqn:E'.
      - specialize (Hx _ E'). cbn [from_option snd String.length] in *. unfold id. lia.
      - apply stringify_None in E' as ->. discriminate E. }
    specialize (Hb HF). lia.
Qed.

Lemma JSON_roundtrip v t :
  JSON_stringify v = Some t -> JSON_parse t = Some (json_image v).
Proof.
  intros Ht. unfold JSON_parse.
  destruct (roundtrip_fuel (S (String.length t))) as (Hv & _ & _).
  specialize (Hv v t "" Ht).
  rewrite string_app_nil_r in Hv. rewrite Hv; [done| |done].
  pose proof (need_length v t Ht). lia.
Qed.

(** Own-property order *)

Lemma keys_ordered_None_app ks1 k ks2 :
  keys_ordered None (ks1 ++ k :: ks2)%list = true -> array_index k = None.
Proof.
  induction ks1 as [|k1 ks1 IH]; cbn [app keys_ordered].
  - destruct (array_index k); [discriminate|done].
  - destruct (array_index k1); [discriminate|exact IH].
Qed.

Lemma keys_ordered_bound ks1 : forall b k ks2 n,
  keys_ordered (Some b) (ks1 ++ k :: ks2)%list = true -> array_index k = Some n ->
  (b <= n)%N /\ Forall (fun k' => exists m, array_index k' = Some m /\ (m < n)%N) ks1.
Proof.
  induction ks1 as [|k1 ks1 IH]; intros b k ks2 n; cbn [app keys_ordered].
  - intros Ho Hk. rewrite Hk in Ho. apply andb_true_iff in Ho as [Hb _].
    apply N.leb_le in Hb. split; [done|constructor].
  - intros Ho Hk. destruct (array_index k1) as [m|] eqn:E1.
    + apply andb_true_iff in Ho as [Hb Ho]. apply N.leb_le in Hb.
      destruct (IH _ _ _ _ Ho Hk) as [Hm HF]. split; [lia|].
      constructor; [|done]. exists m. split; [done|lia].
    + apply keys_ordered_None_app in Ho. congruence.
Qed.

Lemma obj_add_index_end n k v acc :
  Forall (fun k' => exists m, array_index k' = Some m /\ (m < n)%N) (obj_keys acc) ->
  obj_add_index n k v acc = (acc ++ [(k, v)])%list.
Proof.
  induction acc as [|[k' v'] acc IH]; [done|]. cbn [obj_keys map fst].
  intros HF. apply Forall_cons in HF as [(m & Hm & Hlt) HF].
  cbn [obj_add_index app]. rewrite Hm. apply N.ltb_lt in Hlt. rewrite Hlt.
  f_equal. by apply IH.
Qed.

Lemma obj_has_false k acc : k ∉ obj_keys acc -> obj_has k acc = false.
Proof.
  unfold obj_has. induction acc as [|[k' v'] acc IH]; [done|].
  cbn [obj_keys map fst existsb]. intros Hk.
  apply not_elem_of_cons in Hk as [Hne Hk].
  apply String.eqb_neq in Hne. rewrite Hne. by apply IH.
Qed.

Lemma build_object_acc l : forall acc,
  NoDup (obj_keys (acc ++ l)%list) ->
  keys_ordered (Some 0%N) (obj_keys (acc ++ l)%list) = true ->
  fold_left (fun o kv => obj_define (fst kv) (snd kv) o) l acc = (acc ++ l)%list.
Proof.
  induction l as [|[k v] l IH]; intros acc Hnd Ho; cbn [fold_left fst snd].
  - by rewrite app_nil_r.
  - assert (obj_define k v acc = (acc ++ [(k, v)])%list) as ->.
    { unfold obj_define. unfold obj_keys in *. rewrite map_app in Hnd, Ho.
      cbn [map fst] in Hnd, Ho.
      rewrite obj_has_false.
      2:{ apply NoDup_app in Hnd as (_ & Hd & _). intros Hin.
          apply (Hd _ Hin). left. }
      destruct (array_index k) as [n|] eqn:E; [|done].
      apply obj_add_index_end. by eapply keys_ordered_bound. }
    rewrite IH; rewrite <- ?app_assoc; done.
Qed.

Lemma build_object_wf l : obj_wf l = true -> build_object l = l.
Proof.
  unfold obj_wf, build_object. intros [Hnd Ho]%andb_true_iff.
  apply bool_decide_eq_true in Hnd. by apply (build_object_acc l []).
Qed.

Lemma number_image_plain x :
  is_finite x && negb (is_negative_zero x) = true -> number_image x = VNum x.
Proof.
  unfold number_image, is_finite, is_negative_zero, is_zero.
  destruct x as [[|b|b m e] Hc]; cbn [proj1_sig]; try done.
  destruct (N.eqb_spec m 0) as [->|Hm]; [|done].
  destruct b; [done|]. intros _. f_equal. apply number_eq. cbn [proj1_sig].
  cbn in Hc. apply Z.eqb_eq in Hc as ->. reflexivity.
Qed.

Lemma plain_image v : plain v = true -> json_image v = v.
Proof.
  induction v as [| |b|n|s|s|l IH|l IH] using jsval_ind'; cbn [plain json_image];
    try done.
  - apply number_image_plain.
  - intros Hp. f_equal. induction IH as [|x l Hx Hl IHl]; [done|].
    cbn [forallb] in Hp. apply andb_true_iff in Hp as [Hpx Hp].
    cbn [map]. rewrite IHl by done. rewrite Hx by done.
    destruct x; try done.
  - intros [Hwf Hp]%andb_true_iff. f_equal.
    assert (omap (fun kv : string * jsval =>
              match snd kv with
              | VUndef => None
              | _ => Some (fst kv, json_image (snd kv))
              end) l = l) as ->; [|by apply build_object_wf].
    clear Hwf. induction IH as [|[k x] l Hx Hl IHl]; [done|].
    cbn [forallb snd] in Hp. apply andb_true_iff in Hp as [Hpx Hp].
    rewrite omap_cons'. cbn [snd fst] in *. rewrite IHl by done. rewrite Hx by done.
    destruct x; try done.
Qed.

Lemma plain_stringify v : plain v = true -> exists t, JSON_stringify v = Some t.
Proof. destruct v; cbn [plain JSON_stringify]; try done; eauto. Qed.

Lemma JSON_roundtrip_plain v :
  plain v = true -> exists t, JSON_stringify v = Some t /\ JSON_parse t = Some v.
Proof.
  intros Hp. destruct (plain_stringify v Hp) as [t Ht]. exists t. split; [done|].
  rewrite (JSON_roundtrip v t Ht). by rewrite plain_image.
Qed.

(** *** The grammar

    What the reader accepts is a JSON text. *)

Lemma parse_check_string s str r :
  parse_string_body s = Some (str, r) -> check_string_body s = Some r.
Proof.
  remember (String.length s) as n eqn:Hn. revert s Hn str r.
  induction n as [n IH] using lt_wf_ind. intros s -> str r.
  assert (forall s' str' r', (String.length s' < String.length s)%nat ->
            parse_string_body s' = Some (str', r') -> check_string_body s' = Some r') as IH'
    by (intros s' str' r' Hlt; by eapply IH).
  clear IH. rename IH' into IH.
  destruct s as [|c s]; [done|]. cbn [parse_string_body check_string_body].
  destruct (Ascii.eqb c dquote); [by intros [= _ ->]|].
  destruct (Ascii.eqb c "\").
  - destruct s as [|e s]; [done|]. destruct (Ascii.eqb e "u").
    + destruct s as [|h1 [|h2 [|h3 [|h4 s]]]]; try done.
      destruct (hex4 h1 h2 h3 h4) as [n|]; [|done].
      destruct (n <? 256)%N; [|done].
      destruct (parse_string_body s) as [[str' r']|] eqn:E; [|done].
      cbn [cons_char]. intros [= _ <-]. eapply IH; [|done]. cbn [String.length]. lia.
    + destruct (unescape e); [|done].
      destruct (parse_string_body s) as [[str' r']|] eqn:E; [|done].
      cbn [cons_char]. intros [= _ <-]. eapply IH; [|done]. cbn [String.length]. lia.
  - destruct (N_of_ascii c <? 32)%N; [done|].
    destruct (parse_string_body s) as [[str' r']|] eqn:E; [|done].
    cbn [cons_char]. intros [= _ <-]. eapply IH; [|done]. cbn [String.length]. lia.
Qed.

Lemma parse_check f :
  (forall s v r, parse_value f s = Some (v, r) -> check_value f s = Some r)
  /\ (forall s l r, parse_elems f s = Some (l, r) -> check_elems f s = Some r)
  /\ (forall s l r, parse_members f s = Some (l, r) -> check_members f s = Some r).
Proof.
  induction f as [|f (IHv & IHe & IHm)]; [done|]. split; [|split].
  - intros s v r. cbn [parse_value check_value].
    destruct (skip_ws s) as [|c t]; [done|].
    destruct (Ascii.eqb c dquote).
    { destruct (parse_string_body t) as [[str r']|] eqn:E; [|done].
      intros [= _ <-]. by eapply parse_check_string. }
    destruct (Ascii.eqb c "[").
    { destruct (skip_ws t) as [|c' t']; [done|].
      destruct (Ascii.eqb c' "]"); [by intros [= _ <-]|].
      destruct (parse_elems f t) as [[l r']|] eqn:E; [|done].
      intros [= _ <-]. by eapply IHe. }
    destruct (Ascii.eqb c "{").
    { destruct (skip_ws t) as [|c' t']; [done|].
      destruct (Ascii.eqb c' "}"); [by intros [= _ <-]|].
      destruct (parse_members f t) as [[l r']|] eqn:E; [|done].
      intros [= _ <-]. by eapply IHm. }
    unfold check_number, check_literal.
    destruct (Ascii.eqb c "-").
    { destruct (parse_number true t) as [[n r']|]; [|done]. by intros [= _ <-]. }
    destruct (is_digit c).
    { destruct (parse_number false (String c t)) as [[n r']|]; [|done]. by intros [= _ <-]. }
    intros ->. done.
  - intros s l r. cbn [parse_elems check_elems].
    destruct (parse_value f s) as [[v r1]|] eqn:E; [|done].
    rewrite (IHv _ _ _ E).
    destruct (skip_ws r1) as [|c t]; [done|].
    destruct (Ascii.eqb c ",").
    { destruct (parse_elems f t) as [[l' r']|] eqn:E'; [|done].
      intros [= _ <-]. by eapply IHe. }
    destruct (Ascii.eqb c "]"); [|done]. by intros [= _ <-].
  - intros s l r. cbn [parse_members check_members].
    destruct (skip_ws s) as [|q t]; [done|].
    destruct (negb (Ascii.eqb q dquote)); [done|].
    destruct (parse_string_body t) as [[k r1]|] eqn:Ek; [|done].
    rewrite (parse_check_string _ _ _ Ek).
    destruct (skip_ws r1) as [|c r2]; [done|].
    destruct (negb (Ascii.eqb c ":")); [done|].
    destruct (parse_value f r2) as [[v r3]|] eqn:E; [|done].
    rewrite (IHv _ _ _ E).
    destruct (skip_ws r3) as [|c' r4]; [done|].
    destruct (Ascii.eqb c' ",").
    { destruct (parse_members f r4) as [[l' r']|] eqn:E'; [|done].
      intros [= _ <-]. by eapply IHm. }
    destruct (Ascii.eqb c' "}"); [|done]. by intros [= _ <-].
Qed.

Lemma JSON_parse_grammar t v : JSON_parse t = Some v -> JSON_grammar t = true.
Proof.
  unfold JSON_parse, JSON_grammar.
  destruct (parse_value (S (String.length t)) t) as [[v' r]|] eqn:E; [|done].
  rewrite (proj1 (parse_check _) _ _ _ E). by destruct (skip_ws r).
Qed.

Lemma JSON_grammar_refuses t : JSON_grammar t = false -> JSON_parse t = None.
Proof.
  intros Hg. destruct (JSON_parse t) as [v|] eqn:E; [|done].
  apply JSON_parse_grammar in E. congruence.
Qed.

(** The fuel of [JSON_grammar] is enough: a text that the recogniser accepts
    with some fuel, it accepts with the fuel of its length. *)

Lemma skip_ws_length s : (String.length (skip_ws s) <= String.length s)%nat.
Proof.
  induction s as [|c s IH]; [done|]. cbn [skip_ws].
  destruct (is_ws c); cbn [String.length] in *; lia.
Qed.

Lemma check_string_body_length s r :
  check_string_body s = Some r -> (String.length r < String.length s)%nat.
Proof.
  remember (String.length s) as n eqn:Hn. revert s Hn r.
  induction n as [n IH] using lt_wf_ind. intros s -> r.
  assert (forall s' r', (String.length s' < String.length s)%nat ->
            check_string_body s' = Some r' ->
            (String.length r' < String.length s')%nat) as IH'
    by (intros s' r' Hlt; by eapply IH).
  clear IH. rename IH' into IH.
  destruct s as [|c s]; [done|]. cbn [check_string_body].
  destruct (Ascii.eqb c dquote); [intros [= ->]; cbn [String.length]; lia|].
  destruct (Ascii.eqb c "\").
  - destruct s as [|e s]; [done|]. destruct (Ascii.eqb e "u").
    + destruct s as [|h1 [|h2 [|h3 [|h4 s]]]]; try done.
      destruct (hex4 h1 h2 h3 h4) as [n|]; [|done].
      intros E. apply IH in E; cbn [String.length] in *; lia.
    + destruct (unescape e); [|done].
      intros E. apply IH in E; cbn [String.length] in *; lia.
  - destruct (N_of_ascii c <? 32)%N; [done|].
    intros E. apply IH in E; cbn [String.length] in *; lia.
Qed.

Lemma take_digits_length s :
  String.length s
  = (String.length (fst (take_digits s)) + String.length (snd (take_digits s)))%nat.
Proof.
  induction s as [|c s IH]; [done|]. cbn [take_digits].
  destruct (is_digit c); [|done].
  destruct (take_digits s) as [d r]. cbn [fst snd String.length] in *. lia.
Qed.

Lemma parse_exponent_length s x r :
  parse_exponent s = Some (x, r) -> (String.length r <= String.length s)%nat.
Proof.
  destruct s as [|c s]; [by intros [= _ <-]|]. cbn [parse_exponent].
  destruct (Ascii.eqb c "e" || Ascii.eqb c "E"); [|by intros [= _ <-]].
  set (p := match s with
            | "" => (false, s)
            | String g r' => if Ascii.eqb g "-" then (true, r')
                             else if Ascii.eqb g "+" then (false, r') else (false, s)
            end).
  assert (String.length (snd p) <= String.length s)%nat as Hp.
  { subst p. destruct s as [|g s']; [done|].
    destruct (Ascii.eqb g "-"); [cbn; lia|]. destruct (Ascii.eqb g "+"); cbn; lia. }
  destruct p as [sg r1]. cbn [snd] in Hp.
  pose proof (take_digits_length r1) as Hl.
  destruct (take_digits r1) as [d r2]. cbn [fst snd] in Hl.
  destruct d; [done|]. intros [= _ <-]. cbn [String.length] in *. lia.
Qed.

Lemma parse_decimal_length s m E r :
  parse_decimal s = Some (m, E, r) -> (String.length r < String.length s)%nat.
Proof.
  unfold parse_decimal. pose proof (take_digits_length s) as Hl.
  destruct (take_digits s) as [i r1]. cbn [fst snd] in Hl.
  destruct i as [|c i']; [done|].
  destruct (Ascii.eqb c "0" && negb (String.eqb i' "")); [done|].
  set (frac := match r1 with
               | "" => Some ("", r1)
               | String p r2 =>
                   if Ascii.eqb p "."
                   then let '(f, r3) := take_digits r2 in
                        match f with "" => None | _ => Some (f, r3) end
                   else Some ("", r1)
               end).
  assert (forall f r2, frac = Some (f, r2) ->
            (String.length r2 <= String.length r1)%nat) as Hf.
  { subst frac. intros f r2. destruct r1 as [|p r1']; [by intros [= _ <-]|].
    destruct (Ascii.eqb p "."); [|by intros [= _ <-]].
    pose proof (take_digits_length r1') as Hl'.
    destruct (take_digits r1') as [f' r3]. cbn [fst snd] in Hl'.
    destruct f'; [done|]. intros [= _ <-]. cbn [String.length] in *. lia. }
  destruct frac as [[f r2]|]; [|done]. specialize (Hf f r2 eq_refl).
  destruct (parse_exponent r2) as [[x r3]|] eqn:Ex; [|done].
  apply parse_exponent_length in Ex. intros [= _ _ <-]. cbn [String.length] in *. lia.
Qed.

Lemma check_number_length negative s r :
  check_number negative s = Some r -> (String.length r < String.length s)%nat.
Proof.
  unfold check_number, parse_number.
  destruct (parse_decimal s) as [[[m E] r']|] eqn:Ed; [|done].
  intros [= <-]. by eapply parse_decimal_length.
Qed.

Lemma check_literal_length s r :
  check_literal s = Some r -> (String.length r < String.length s)%nat.
Proof.
  unfold check_literal, parse_literal. intros E.
  repeat (case_match; simplify_eq); cbn [String.length]; lia.
Qed.

Lemma check_fuel f :
  (forall s r, check_value f s = Some r ->
     (String.length r < String.length s)%nat
     /\ forall f', (String.length s - String.length r <= f')%nat ->
                   check_value f' s = Some r)
  /\ (forall s r, check_elems f s = Some r ->
        (String.length r < String.length s)%nat
        /\ forall f', (String.length s - String.length r <= f')%nat ->
                      check_elems f' s = Some r)
  /\ (forall s r, check_members f s = Some r ->
        (String.length r < String.length s)%nat
        /\ forall f', (String.length s - String.length r <= f')%nat ->
                      check_members f' s = Some r).
Proof.
  induction f as [|f (IHv & IHe & IHm)]; [done|]. split; [|split].
  - intros s r. cbn [check_value]. pose proof (skip_ws_length s) as Hs.
    destruct (skip_ws s) as [|c t] eqn:Es; [done|]. cbn [String.length] in Hs.
    destruct (Ascii.eqb c dquote) eqn:E1.
    { intros E. pose proof (check_string_body_length _ _ E). split; [lia|].
      intros [|f'] Hf'; [lia|]. cbn [check_value]. by rewrite Es, E1. }
    destruct (Ascii.eqb c "[") eqn:E2.
    { pose proof (skip_ws_length t) as Ht.
      destruct (skip_ws t) as [|c' t'] eqn:Et; [done|]. cbn [String.length] in Ht.
      destruct (Ascii.eqb c' "]") eqn:E3.
      - intros [= <-]. split; [lia|].
        intros [|f'] Hf'; [lia|]. cbn [check_value]. by rewrite Es, E1, E2, Et, E3.
      - intros E. destruct (IHe _ _ E) as [Hl Hfuel]. split; [lia|].
        intros [|f'] Hf'; [lia|]. cbn [check_value]. rewrite Es, E1, E2, Et, E3.
        apply Hfuel. lia. }
    destruct (Ascii.eqb c "{") eqn:E3.
    { pose proof (skip_ws_length t) as Ht.
      destruct (skip_ws t) as [|c' t'] eqn:Et; [done|]. cbn [String.length] in Ht.
      destruct (Ascii.eqb c' "}") eqn:E4.
      - intros [= <-]. split; [lia|].
        intros [|f'] Hf'; [lia|]. cbn [check_value]. by rewrite Es, E1, E2, E3, Et, E4.
      - intros E. destruct (IHm _ _ E) as [Hl Hfuel]. split; [lia|].
        intros [|f'] Hf'; [lia|]. cbn [check_value]. rewrite Es, E1, E2, E3, Et, E4.
        apply Hfuel. lia. }
    destruct (Ascii.eqb c "-") eqn:E4.
    { intros E. pose proof (check_number_length _ _ _ E). split; [lia|].
      intros [|f'] Hf'; [lia|]. cbn [check_value]. by rewrite Es, E1, E2, E3, E4. }
    destruct (is_digit c) eqn:E5.
    { intros E. pose proof (check_number_length _ _ _ E) as Hl.
      cbn [String.length] in Hl. split; [lia|].
      intros [|f'] Hf'; [lia|]. cbn [check_value]. by rewrite Es, E1, E2, E3, E4, E5. }
    intros E. pose proof (check_literal_length _ _ E) as Hl.
    cbn [String.length] in Hl. split; [lia|].
    intros [|f'] Hf'; [lia|]. cbn [check_value]. by rewrite Es, E1, E2, E3, E4, E5.
  - intros s r. cbn [check_elems].
    destruct (check_value f s) as [r1|] eqn:Ev; [|done].
    destruct (IHv _ _ Ev) as [Hl1 Hfuel1].
    pose proof (skip_ws_length r1) as Hs.
    destruct (skip_ws r1) as [|c t] eqn:Es; [done|]. cbn [String.length] in Hs.
    destruct (Ascii.eqb c ",") eqn:E1.
    { intros E. destruct (IHe _ _ E) as [Hl Hfuel]. split; [lia|].
      intros [|f'] Hf'; [lia|]. cbn [check_elems].
      rewrite Hfuel1 by lia. rewrite Es, E1. apply Hfuel. lia. }
    destruct (Ascii.eqb c "]") eqn:E2; [|done].
    intros [= <-]. split; [lia|].
    intros [|f'] Hf'; [lia|]. cbn [check_elems].
    rewrite Hfuel1 by lia. by rewrite Es, E1, E2.
  - intros s r. cbn [check_members]. pose proof (skip_ws_length s) as Hs.
    destruct (skip_ws s) as [|q t] eqn:Es; [done|]. cbn [String.length] in Hs.
    destruct (negb (Ascii.eqb q dquote)) eqn:E1; [done|].
    destruct (check_string_body t) as [r1|] eqn:Ek; [|done].
    pose proof (check_string_body_length _ _ Ek) as Hk.
    pose proof (skip_ws_length r1) as Hs1.
    destruct (skip_ws r1) as [|c r2] eqn:Es1; [done|]. cbn [String.length] in Hs1.
    destruct (negb (Ascii.eqb c ":")) eqn:E2; [done|].
    destruct (check_value f r2) as [r3|] eqn:Ev; [|done].
    destruct (IHv _ _ Ev) as [Hl3 Hfuel3].
    pose proof (skip_ws_length r3) as Hs3.
    destruct (skip_ws r3) as [|c' r4] eqn:Es3; [done|]. cbn [String.length] in Hs3.
    destruct (Ascii.eqb c' ",") eqn:E3.
    { intros E. destruct (IHm _ _ E) as [Hl Hfuel]. split; [lia|].
      intros [|f'] Hf'; [lia|]. cbn [check_members].
      rewrite Es, E1, Ek, Es1, E2. rewrite Hfuel3 by lia. rewrite Es3, E3.
      apply Hfuel. lia. }
    destruct (Ascii.eqb c' "}") eqn:E4; [|done].
    intros [= <-]. split; [lia|].
    intros [|f'] Hf'; [lia|]. cbn [check_members].
    rewrite Es, E1, Ek, Es1, E2. rewrite Hfuel3 by lia. by rewrite Es3, E3, E4.
Qed.

Lemma JSON_grammar_fuel f t r :
  check_value f t = Some r -> check_value (S (String.length t)) t = Some r.
Proof.
  intros E. destruct (proj1 (check_fuel f) _ _ E) as [_ Hfuel]. apply Hfuel. lia.
Qed.

(** ** The store and the service *)

Import CacheService.

(** Glob patterns *)

Lemma match_one_literal pc p' c :
  glob_plain_char pc = true ->
  match_one pc p' c = if Ascii.eqb pc c then Some p' else None.
Proof.
  unfold glob_plain_char, match_one.
  intros [[[H1 H2]%andb_true_iff H3]%andb_true_iff H4]%andb_true_iff.
  apply negb_true_iff in H1, H2, H3, H4. by rewrite H2, H3, H4.
Qed.

Lemma glob_plain_not_star pc : glob_plain_char pc = true -> Ascii.eqb pc "*" = false.
Proof.
  unfold glob_plain_char.
  intros [[[H1 H2]%andb_true_iff H3]%andb_true_iff H4]%andb_true_iff.
  by apply negb_true_iff in H1.
Qed.

Lemma stringmatchlen_prefix lit : forall fuel suffix,
  glob_literal lit = true -> lit <> "" ->
  (String.length lit + 2 <= fuel)%nat ->
  stringmatchlen fuel (lit +:+ "*") (lit +:+ suffix) = true.
Proof.
  induction lit as [|c lit IH]; intros fuel suffix Hlit Hne Hf; [done|].
  cbn [glob_literal] in Hlit. apply andb_true_iff in Hlit as [Hc Hlit].
  cbn [String.length] in Hf. destruct fuel as [|fuel]; [lia|].
  rewrite !string_app_cons. cbn [stringmatchlen].
  rewrite (glob_plain_not_star c Hc), (match_one_literal c _ c Hc), Ascii.eqb_refl.
  destruct lit as [|c' lit].
  - rewrite !string_app_nil_l. destruct suffix as [|a suffix]; [reflexivity|].
    destruct fuel as [|fuel]; [lia|]. reflexivity.
  - rewrite (string_app_cons c' lit suffix), <- (string_app_cons c' lit suffix).
    destruct (String c' lit +:+ suffix) eqn:E; [by rewrite string_app_cons in E|].
    rewrite <- E. apply IH; [done|done|cbn [String.length] in *; lia].
Qed.

Lemma stringmatch_prefix lit suffix :
  glob_literal lit = true -> lit <> "" ->
  stringmatch (lit +:+ "*") (lit +:+ suffix) = true.
Proof.
  intros. unfold stringmatch. apply stringmatchlen_prefix; [done|done|].
  rewrite string_length_app. cbn. lia.
Qed.

Lemma stringmatch_head_mismatch pc p' c s' :
  glob_plain_char pc = true -> pc <> c ->
  stringmatch (String pc p') (String c s') = false.
Proof.
  intros Hpc Hne. unfold stringmatch. cbn [String.length stringmatchlen].
  rewrite (glob_plain_not_star pc Hpc), (match_one_literal pc _ c Hpc).
  apply Ascii.eqb_neq in Hne. by rewrite Hne.
Qed.

(** The monad *)

Lemma bind_ok {S A B} (m : M S A) (k : A -> M S B) s a s' :
  m s = (Ok a, s') -> bind m k s = k a s'.
Proof. unfold bind. by intros ->. Qed.

Lemma run_exec {S A} (m : M S A) s : m s = (run m s, exec m s).
Proof. unfold run, exec. by destruct (m s). Qed.

(** Operations of the service on the state *)

Lemma lookup_foldr_delete (d : gmap string entry) keys k :
  foldr delete d keys !! k = if decide (k ∈ keys) then None else d !! k.
Proof.
  induction keys as [|k' keys IH]; cbn [foldr].
  - rewrite decide_False; [done|]. apply not_elem_of_nil.
  - destruct (decide (k = k')) as [->|Hne].
    + rewrite lookup_delete_eq, decide_True; [done|]. apply elem_of_cons. by left.
    + rewrite lookup_delete_ne, IH by done.
      destruct (decide (k ∈ keys)) as [Hin|Hnin].
      * rewrite decide_True; [done|]. apply elem_of_cons. by right.
      * rewrite decide_False; [done|]. by apply not_elem_of_cons.
Qed.

Lemma visible_foldr_delete now (d : gmap string entry) keys k :
  visible now (foldr delete d keys) k
  = if decide (k ∈ keys) then None else visible now d k.
Proof. unfold visible. rewrite lookup_foldr_delete. by destruct (decide (k ∈ keys)). Qed.

Lemma elem_of_keys now (d : gmap string entry) pattern k :
  k ∈ filter (fun k => stringmatch pattern k = true /\ is_Some (visible now d k))
             (map fst (map_to_list d))
  <-> stringmatch pattern k = true /\ is_Some (visible now d k).
Proof.
  rewrite list_elem_of_filter. split; [tauto|]. intros [Hm Hv]. split; [done|].
  unfold visible in Hv. destruct (d !! k) as [e|] eqn:E; [|by destruct Hv].
  apply list_elem_of_fmap. exists (k, e). split; [done|]. by apply elem_of_map_to_list.
Qed.

Lemma getCache_spec key s : getCache key s = (Ok (decoded (cached s key)), s).
Proof.
  destruct s as [[[d r]|] t]; [destruct r|]; try reflexivity.
  unfold getCache, try_catch, bind, getClient, redis_get, command, cached, decoded.
  cbn [client time db reachable fst snd].
  destruct (visible t d key) as [e|]; cbn [fmap option_fmap option_map]; [|done].
  destruct (truthy (VStr (e_data e))); [|done].
  unfold JSON_parse_or_throw. by destruct (JSON_parse (e_data e)).
Qed.

Lemma setCache_ok key data ttl s : run (setCache key data ttl) s = Ok tt.
Proof.
  destruct s as [[[d r]|] t]; [destruct r|]; try reflexivity.
  unfold setCache, try_catch, bind, getClient, redis_setex, command, run.
  cbn [client time db reachable fst snd]. by destruct (0 <? ttl).
Qed.

Lemma setCache_time key data ttl s : time (exec (setCache key data ttl) s) = time s.
Proof.
  destruct s as [[[d r]|] t]; [destruct r|]; try reflexivity.
  unfold setCache, try_catch, bind, getClient, redis_setex, command, exec.
  cbn [client time db reachable fst snd]. by destruct (0 <? ttl).
Qed.

Lemma setCache_up key data ttl s : store_up (exec (setCache key data ttl) s) = store_up s.
Proof.
  destruct s as [[[d r]|] t]; [destruct r|]; try reflexivity.
  unfold setCache, try_catch, bind, getClient, redis_setex, command, exec.
  cbn [client time db reachable fst snd]. by destruct (0 <? ttl).
Qed.

Lemma setCache_down key data ttl s :
  store_up s = false -> exec (setCache key data ttl) s = s.
Proof. destruct s as [[[d r]|] t]; [destruct r|]; done. Qed.

Lemma setCache_cached key data ttl s k :
  0 < ttl -> store_up s = true ->
  cached (exec (setCache key data ttl) s) k
  = if decide (k = key)
    then Some (mk_entry (to_arg (JSON_stringify data)) ttl (time s))
    else cached s k.
Proof.
  intros Httl Hup. destruct s as [[[d r]|] t]; [destruct r|]; try done.
  unfold setCache, try_catch, bind, getClient, redis_setex, command, exec, cached.
  cbn [client time db reachable fst snd].
  apply Z.ltb_lt in Httl. rewrite Httl. cbn [client time db reachable fst snd].
  unfold visible. destruct (decide (k = key)) as [->|Hne].
  - rewrite lookup_insert_eq. unfold live. cbn [e_written e_ttl].
    apply Z.ltb_lt in Httl. by rewrite (proj2 (Z.ltb_lt t (t + ttl))) by lia.
  - by rewrite lookup_insert_ne.
Qed.

Lemma deleteCache_ok key s : run (deleteCache key) s = Ok tt.
Proof. destruct s as [[[d r]|] t]; [destruct r|]; reflexivity. Qed.

Lemma deleteCache_time key s : time (exec (deleteCache key) s) = time s.
Proof. destruct s as [[[d r]|] t]; [destruct r|]; reflexivity. Qed.

Lemma deleteCache_up key s : store_up (exec (deleteCache key) s) = store_up s.
Proof. destruct s as [[[d r]|] t]; [destruct r|]; reflexivity. Qed.

Lemma deleteCache_down key s : store_up s = false -> exec (deleteCache key) s = s.
Proof. destruct s as [[[d r]|] t]; [destruct r|]; done. Qed.

Lemma deleteCache_cached key s k :
  cached (exec (deleteCache key) s) k = if decide (k = key) then None else cached s k.
Proof.
  destruct s as [[[d r]|] t]; [destruct r|]; try (by destruct (decide (k = key))).
  unfold deleteCache, try_catch, bind, getClient, redis_del, command, exec, cached.
  cbn [client time db reachable fst snd foldr]. unfold visible.
  destruct (decide (k = key)) as [->|Hne].
  - by rewrite lookup_delete_eq.
  - by rewrite lookup_delete_ne.
Qed.

Lemma deleteCachePattern_run pattern s :
  deleteCachePattern pattern s
  = (Ok tt,
     match client s with
     | Some c =>
         if reachable c then
           mk_env (Some (mk_connection
                     (foldr delete (db c)
                        (filter (fun k => stringmatch pattern k = true
                                          /\ is_Some (visible (time s) (db c) k))
                                (map fst (map_to_list (db c)))))
                     true)) (time s)
         else s
     | None => s
     end).
Proof.
  destruct s as [[[d r]|] t]; [destruct r|]; try reflexivity.
  unfold deleteCachePattern, try_catch, bind, getClient, redis_keys, redis_del, command.
  cbn [client time db reachable fst snd].
  destruct (filter _ _) as [|k keys] eqn:E; reflexivity.
Qed.

Lemma deleteCachePattern_ok pattern s : run (deleteCachePattern pattern) s = Ok tt.
Proof. unfold run. by rewrite deleteCachePattern_run. Qed.

Lemma deleteCachePattern_time pattern s :
  time (exec (deleteCachePattern pattern) s) = time s.
Proof.
  unfold exec. rewrite deleteCachePattern_run.
  destruct s as [[[d r]|] t]; [destruct r|]; reflexivity.
Qed.

Lemma deleteCachePattern_up pattern s :
  store_up (exec (deleteCachePattern pattern) s) = store_up s.
Proof.
  unfold exec. rewrite deleteCachePattern_run.
  destruct s as [[[d r]|] t]; [destruct r|]; reflexivity.
Qed.

Lemma deleteCachePattern_down pattern s :
  store_up s = false -> exec (deleteCachePattern pattern) s = s.
Proof.
  intros Hup. unfold exec. rewrite deleteCachePattern_run.
  destruct s as [[[d r]|] t]; [destruct r|]; done.
Qed.

Lemma deleteCachePattern_cached pattern s k :
  cached (exec (deleteCachePattern pattern) s) k
  = if stringmatch pattern k then None else cached s k.
Proof.
  unfold exec. rewrite deleteCachePattern_run.
  destruct s as [[[d r]|] t]; [destruct r|]; cbn [snd client reachable time db cached];
    try (by destruct (stringmatch pattern k)).
  unfold cached. cbn [client reachable time db].
  rewrite visible_foldr_delete.
  destruct (decide (k ∈ _)) as [Hin|Hnin].
  - apply elem_of_keys in Hin as [-> _]. done.
  - destruct (stringmatch pattern k) eqn:Em; [|done].
    destruct (visible t d k) eqn:Ev; [|done].
    exfalso. apply Hnin. apply elem_of_keys. split; [done|]. by rewrite Ev.
Qed.

(** ** The cache service *)

Lemma seq_ok {S B} (a : M S unit) (b : M S B) s :
  run a s = Ok tt -> bind a (fun _ => b) s = b (exec a s).
Proof. intros Ha. unfold bind. rewrite (run_exec a s). by rewrite Ha. Qed.

Lemma generateSearchKey_total query : exists k, generateSearchKey query = Ok k.
Proof. unfold generateSearchKey. cbn [JSON_stringify]. eauto. Qed.

Lemma cacheProperty_ok p s : run (cacheProperty p) s = Ok tt.
Proof.
  unfold cacheProperty. destruct (_id p) as [id|]; [|done].
  destruct (negb (truthy (VStr id))); [done|]. apply setCache_ok.
Qed.

Lemma cacheUserProfile_ok p s : run (cacheUserProfile p) s = Ok tt.
Proof.
  unfold cacheUserProfile. destruct (_id p) as [id|]; [|done].
  destruct (negb (truthy (VStr id))); [done|]. apply setCache_ok.
Qed.

Lemma cachePropertySearch_ok q r s : run (cachePropertySearch q r) s = Ok tt.
Proof.
  unfold cachePropertySearch, generateSearchKey_or_throw.
  destruct (generateSearchKey_total q) as [k ->].
  unfold run, bind, ret. cbn [fst]. apply setCache_ok.
Qed.

Lemma invalidateProperty_run id s :
  invalidateProperty id s
  = (Ok tt, exec (deleteCachePattern "user:properties:*")
              (exec (deleteCachePattern "search:properties:*")
                 (exec (deleteCache (KEYS.PROPERTY id)) s))).
Proof.
  unfold invalidateProperty.
  rewrite seq_ok by apply deleteCache_ok.
  rewrite seq_ok by apply deleteCachePattern_ok.
  rewrite (run_exec (deleteCachePattern _) _). by rewrite deleteCachePattern_ok.
Qed.

Lemma invalidatePropertySearches_run s :
  invalidatePropertySearches s = (Ok tt, exec (deleteCachePattern "search:properties:*") s).
Proof.
  unfold invalidatePropertySearches.
  rewrite (run_exec (deleteCachePattern _) _). by rewrite deleteCachePattern_ok.
Qed.

Lemma invalidateUserProperties_run u s :
  invalidateUserProperties u s
  = (Ok tt, exec (deleteCachePattern "search:properties:*")
              (exec (deleteCachePattern ("user:properties:" +:+ u +:+ ":*")) s)).
Proof.
  unfold invalidateUserProperties.
  rewrite seq_ok by apply deleteCachePattern_ok.
  apply invalidatePropertySearches_run.
Qed.

Lemma invalidateFavorites_run u s :
  invalidateFavorites u s
  = (Ok tt, exec (deleteCachePattern ("favorite:status:" +:+ u +:+ ":*"))
              (exec (deleteCachePattern ("user:favorites:" +:+ u +:+ ":*")) s)).
Proof.
  unfold invalidateFavorites.
  rewrite seq_ok by apply deleteCachePattern_ok.
  rewrite (run_exec (deleteCachePattern _) _). by rewrite deleteCachePattern_ok.
Qed.

Lemma invalidateSpecificFavorite_run u p s :
  invalidateSpecificFavorite u p s
  = (Ok tt, exec (deleteCachePattern ("user:favorites:" +:+ u +:+ ":*"))
              (exec (deleteCache (KEYS.FAVORITE_STATUS u p)) s)).
Proof.
  unfold invalidateSpecificFavorite.
  rewrite seq_ok by apply deleteCache_ok.
  rewrite (run_exec (deleteCachePattern _) _). by rewrite deleteCachePattern_ok.
Qed.

Lemma down_None s : client s = None -> store_up s = false.
Proof. unfold store_up. by intros ->. Qed.

Lemma cached_down s k : store_up s = false -> cached s k = None.
Proof. unfold store_up, cached. destruct (client s) as [[d r]|]; [|done]. by intros ->. Qed.

Lemma setCache_run_down key data ttl s :
  store_up s = false -> setCache key data ttl s = (Ok tt, s).
Proof.
  intros Hs. rewrite (run_exec (setCache _ _ _) s), setCache_ok. by rewrite setCache_down.
Qed.

Lemma deleteCache_run_down key s : store_up s = false -> deleteCache key s = (Ok tt, s).
Proof.
  intros Hs. rewrite (run_exec (deleteCache _) s), deleteCache_ok. by rewrite deleteCache_down.
Qed.

Lemma deleteCachePattern_run_down p s :
  store_up s = false -> deleteCachePattern p s = (Ok tt, s).
Proof.
  intros Hs. rewrite (run_exec (deleteCachePattern _) s), deleteCachePattern_ok.
  by rewrite deleteCachePattern_down.
Qed.

Lemma getCache_down key s : store_up s = false -> getCache key s = (Ok VNull, s).
Proof. intros Hs. rewrite getCache_spec. by rewrite cached_down. Qed.

Ltac still_down :=
  rewrite ?deleteCachePattern_up, ?deleteCache_up, ?setCache_up; done.

(** C6. When the cache store is unavailable (there is no client, or the
    server of the client does not answer), every [getCached*] operation
    returns a miss ([null]) and every [cache*] and [invalidate*] operation
    returns normally, for all inputs; the state is left as it was. *)
Theorem miss_on_unavailable (s : env) :
  store_up s = false ->
  (forall id, getCachedProperty id s = (Ok VNull, s))
  /\ (forall id, getCachedUserProfile id s = (Ok VNull, s))
  /\ (forall query, getCachedPropertySearch query s = (Ok VNull, s))
  /\ (forall u page limit, getCachedUserProperties u page limit s = (Ok VNull, s))
  /\ (forall u p, getCachedFavoriteStatus u p s = (Ok VNull, s))
  /\ (forall u page limit, getCachedUserFavorites u page limit s = (Ok VNull, s))
  /\ (forall p, cacheProperty p s = (Ok tt, s))
  /\ (forall id p, warmPropertyCache id p s = (Ok tt, s))
  /\ (forall user, cacheUserProfile user s = (Ok tt, s))
  /\ (forall query results, cachePropertySearch query results s = (Ok tt, s))
  /\ (forall u page limit results, cacheUserProperties u page limit results s = (Ok tt, s))
  /\ (forall u p st, cacheFavoriteStatus u p st s = (Ok tt, s))
  /\ (forall u page limit results, cacheUserFavorites u page limit results s = (Ok tt, s))
  /\ (forall id, invalidateProperty id s = (Ok tt, s))
  /\ (forall id, invalidateUserProfile id s = (Ok tt, s))
  /\ invalidatePropertySearches s = (Ok tt, s)
  /\ (forall u, invalidateUserProperties u s = (Ok tt, s))
  /\ (forall u, invalidateFavorites u s = (Ok tt, s))
  /\ (forall u p, invalidateSpecificFavorite u p s = (Ok tt, s)).
Proof.
  intros Hd.
  assert (Hp : forall p, cacheProperty p s = (Ok tt, s)).
  { intros p. unfold cacheProperty. destruct (_id p) as [id|]; [|done].
    destruct (negb (truthy (VStr id))); [done|]. by apply setCache_run_down. }
  repeat split; intros.
  - by apply getCache_down.
  - by apply getCache_down.
  - unfold getCachedPropertySearch, generateSearchKey_or_throw.
    destruct (generateSearchKey_total query) as [k ->].
    unfold bind, ret. by apply getCache_down.
  - by apply getCache_down.
  - by apply getCache_down.
  - by apply getCache_down.
  - apply Hp.
  - apply Hp.
  - unfold cacheUserProfile. destruct (_id user) as [id|]; [|done].
    destruct (negb (truthy (VStr id))); [done|]. by apply setCache_run_down.
  - unfold cachePropertySearch, generateSearchKey_or_throw.
    destruct (generateSearchKey_total query) as [k ->].
    unfold bind, ret. by apply setCache_run_down.
  - by apply setCache_run_down.
  - by apply setCache_run_down.
  - by apply setCache_run_down.
  - rewrite invalidateProperty_run.
    by rewrite !deleteCachePattern_down, deleteCache_down by still_down.
  - by apply deleteCache_run_down.
  - by apply deleteCachePattern_run_down.
  - rewrite invalidateUserProperties_run. by rewrite !deleteCachePattern_down by still_down.
  - rewrite invalidateFavorites_run. by rewrite !deleteCachePattern_down by still_down.
  - rewrite invalidateSpecificFavorite_run.
    by rewrite !deleteCachePattern_down, deleteCache_down by still_down.
Qed.

Lemma miss_on_unavailable_witness :
  store_up (mk_env None 1000) = false
  /\ getCachedProperty "propX" (mk_env None 1000) = (Ok VNull, mk_env None 1000)
  /\ invalidateFavorites "userA" (mk_env None 1000) = (Ok tt, mk_env None 1000).
Proof.
  split; [reflexivity|].
  pose proof (miss_on_unavailable (mk_env None 1000) eq_refl) as H.
  split; [apply H|]. apply H.
Defined.

(** C7. When the text stored under a key cannot be decoded (it is no JSON
    text, so that [JSON.parse] throws), [getCache] and every [getCached*] read
    over that entry return a miss ([null]) and raise nothing. *)
Theorem decode_error_is_miss (s : env) (key : string) (e : entry) :
  cached s key = Some e -> JSON_grammar (e_data e) = false ->
  getCache key s = (Ok VNull, s)
  /\ (forall id, key = KEYS.PROPERTY id -> getCachedProperty id s = (Ok VNull, s))
  /\ (forall id, key = KEYS.USER_PROFILE id -> getCachedUserProfile id s = (Ok VNull, s))
  /\ (forall query k, generateSearchKey query = Ok k -> key = KEYS.PROPERTY_SEARCH k ->
        getCachedPropertySearch query s = (Ok VNull, s))
  /\ (forall u page limit, key = KEYS.USER_PROPERTIES u (Some page) (Some limit) ->
        getCachedUserProperties u page limit s = (Ok VNull, s))
  /\ (forall u p, key = KEYS.FAVORITE_STATUS u p ->
        getCachedFavoriteStatus u p s = (Ok VNull, s))
  /\ (forall u page limit, key = KEYS.USER_FAVORITES u (Some page) (Some limit) ->
        getCachedUserFavorites u page limit s = (Ok VNull, s)).
Proof.
  intros Hc Hp%JSON_grammar_refuses.
  assert (Hg : getCache key s = (Ok VNull, s)).
  { rewrite getCache_spec, Hc. unfold decoded. rewrite Hp.
    by destruct (truthy (VStr (e_data e))). }
  split; [done|]. repeat split; intros; subst; try done.
  unfold getCachedPropertySearch, generateSearchKey_or_throw.
  rewrite H. unfold bind, ret. exact Hg.
Qed.

Lemma decode_error_is_miss_witness :
  getCachedProperty "propX" corrupted = (Ok VNull, corrupted).
Proof.
  refine (proj1 (proj2 (decode_error_is_miss corrupted "property:propX"
                          (mk_entry "{oops" 900 990) _ _)) "propX" _);
    vm_compute; reflexivity.
Defined.

(** C9. Every cache write stores its entry with the TTL of its family, in
    seconds: property 900, user profile 1800, search results 300, user
    properties list 600, user favorites list 600, favorite status 600. *)
Theorem ttl_per_family (s : env) :
  store_up s = true ->
  (forall p id, _id p = Some id -> id <> "" ->
     e_ttl <$> cached (exec (cacheProperty p) s) (KEYS.PROPERTY id) = Some 900)
  /\ (forall user id, _id user = Some id -> id <> "" ->
     e_ttl <$> cached (exec (cacheUserProfile user) s) (KEYS.USER_PROFILE id) = Some 1800)
  /\ (forall query results key, generateSearchKey query = Ok key ->
     e_ttl <$> cached (exec (cachePropertySearch query results) s)
                      (KEYS.PROPERTY_SEARCH key) = Some 300)
  /\ (forall u page limit results,
     e_ttl <$> cached (exec (cacheUserProperties u page limit results) s)
                      (KEYS.USER_PROPERTIES u (Some page) (Some limit)) = Some 600)
  /\ (forall u page limit results,
     e_ttl <$> cached (exec (cacheUserFavorites u page limit results) s)
                      (KEYS.USER_FAVORITES u (Some page) (Some limit)) = Some 600)
  /\ (forall u p st,
     e_ttl <$> cached (exec (cacheFavoriteStatus u p st) s)
                      (KEYS.FAVORITE_STATUS u p) = Some 600).
Proof.
  intros Hup. repeat split; intros.
  - unfold cacheProperty. rewrite H.
    apply String.eqb_neq in H0. cbn [truthy]. rewrite H0. cbn [negb].
    rewrite setCache_cached by done. by rewrite decide_True.
  - unfold cacheUserProfile. rewrite H.
    apply String.eqb_neq in H0. cbn [truthy]. rewrite H0. cbn [negb].
    rewrite setCache_cached by done. by rewrite decide_True.
  - unfold cachePropertySearch, generateSearchKey_or_throw. rewrite H.
    unfold exec, bind, ret. fold (exec (setCache (KEYS.PROPERTY_SEARCH key) results TTL.SEARCH) s).
    rewrite setCache_cached by done. by rewrite decide_True.
  - unfold cacheUserProperties. rewrite setCache_cached by done. by rewrite decide_True.
  - unfold cacheUserFavorites. rewrite setCache_cached by done. by rewrite decide_True.
  - unfold cacheFavoriteStatus. rewrite setCache_cached by done. by rewrite decide_True.
Qed.

Lemma ttl_per_family_witness :
  e_ttl <$> cached (exec (cacheFavoriteStatus "userA" "propX" (mk_status true None))
                         empty_cache)
                   (KEYS.FAVORITE_STATUS "userA" "propX") = Some 600.
Proof. apply (ttl_per_family empty_cache). reflexivity. Defined.

(** C10. [cacheProperty] of a property without [_id] and [cacheUserProfile]
    of a user without [_id] are no-ops: they return normally and leave the
    state, hence every cache entry, unchanged. The same holds for an empty
    [_id], which is falsy too. *)
Theorem cache_without_id_is_noop (fs : obj) (s : env) :
  cacheProperty (mk_entity None fs) s = (Ok tt, s)
  /\ cacheUserProfile (mk_entity None fs) s = (Ok tt, s)
  /\ cacheProperty (mk_entity (Some "") fs) s = (Ok tt, s)
  /\ cacheUserProfile (mk_entity (Some "") fs) s = (Ok tt, s).
Proof. repeat split. Qed.

(** Time *)

Lemma cached_tick s k dt e :
  cached s k = Some e -> time s + dt < e_written e + e_ttl e ->
  cached (tick dt s) k = Some e.
Proof.
  unfold cached, tick. cbn [client time].
  destruct (client s) as [[d r]|]; [|done]. cbn [reachable db].
  destruct r; [|done]. unfold visible.
  destruct (d !! k) as [e'|]; [|done].
  destruct (live (time s) e') eqn:El; [|done]. intros [= ->] Hlt.
  unfold live. by rewrite (proj2 (Z.ltb_lt _ _) Hlt).
Qed.

Lemma cached_tick_expired s k dt e :
  0 <= dt -> cached s k = Some e -> e_written e + e_ttl e <= time s + dt ->
  cached (tick dt s) k = None.
Proof.
  unfold cached, tick. cbn [client time].
  destruct (client s) as [[d r]|]; [|done]. cbn [reachable db].
  destruct r; [|done]. unfold visible.
  destruct (d !! k) as [e'|]; [|done].
  destruct (live (time s) e') eqn:El; [|done]. intros Hdt [= ->] Hle.
  unfold live. by rewrite (proj2 (Z.ltb_ge _ _) Hle).
Qed.

Lemma stringify_truthy v t : JSON_stringify v = Some t -> truthy (VStr t) = true.
Proof. intros Ht. by destruct (stringify_head v t Ht) as (c & t' & -> & _). Qed.

Lemma read_after_write key data ttl s dt t :
  store_up s = true -> 0 < ttl -> 0 <= dt < ttl -> JSON_stringify data = Some t ->
  getCache key (tick dt (exec (setCache key data ttl) s))
  = (Ok (json_image data), tick dt (exec (setCache key data ttl) s)).
Proof.
  intros Hup Httl Hdt Ht. rewrite getCache_spec. f_equal. f_equal.
  erewrite cached_tick.
  2:{ rewrite setCache_cached by done. by rewrite decide_True. }
  2:{ cbn [e_written e_ttl]. rewrite setCache_time. lia. }
  unfold decoded. cbn [e_data]. rewrite Ht. cbn [to_arg from_option]. unfold id.
  rewrite (stringify_truthy _ _ Ht). by rewrite (JSON_roundtrip _ _ Ht).
Qed.

(** C8, as stated, fails: a [Date] is encodable and decodes to its ISO
    text, so [decode(encode(v))] is not [v]; and a property as the
    controllers cache it (with its [availableFrom] date) is not what
    [getCachedProperty] returns after [cacheProperty]. Nor does a number
    that is not finite come back: NaN is encoded as [null]. *)
Lemma roundtrip_counterexample :
  ~ (forall v t, JSON_stringify v = Some t -> JSON_parse t = Some v)
  /\ run (getCachedProperty "propX")
         (exec (cacheProperty (propertyResponse propX)) empty_cache)
     <> Ok (entity_js (propertyResponse propX))
  /\ (exists t, JSON_stringify (VNum NaN) = Some t /\ JSON_parse t = Some VNull).
Proof.
  split; [|split].
  - intros H. specialize (H (VDate "2024-06-01T00:00:00.000Z") _ eq_refl).
    vm_compute in H. discriminate H.
  - vm_compute. discriminate.
  - by exists "null".
Qed.

(** C8, amended. For every value [v] the codec encodes, decoding the
    encoding yields the JSON image of [v]: [v] with NaN and the infinities
    replaced by [null], [-0] by [0], a [Date] by its ISO text, an [undefined]
    array element by [null], the [undefined] properties left out and the
    properties in own-property order. It is [v] itself when [v] is JSON-plain
    (no [undefined], no [Date], numbers finite and not [-0], objects in
    own-property order); a finite number, with or without a fraction, comes
    back as the same double.
    Consequently [cacheProperty p] followed by [getCachedProperty] of its
    [_id] (store available, [_id] not empty, before the 900 seconds are over)
    returns the JSON image of [p], equal to [p] when [p] is JSON-plain. *)
Theorem roundtrip_plain (v : jsval) (t : string) :
  JSON_stringify v = Some t ->
  JSON_parse t = Some (json_image v)
  /\ (plain v = true -> JSON_parse t = Some v)
  /\ (forall p id s dt,
        v = entity_js p -> _id p = Some id -> id <> "" ->
        store_up s = true -> 0 <= dt < 900 ->
        run (getCachedProperty id) (tick dt (exec (cacheProperty p) s))
        = Ok (json_image v)
        /\ (plain v = true ->
            run (getCachedProperty id) (tick dt (exec (cacheProperty p) s)) = Ok v)).
Proof.
  intros Ht. pose proof (JSON_roundtrip v t Ht) as Hr.
  split; [done|]. split.
  { intros Hp. by rewrite Hr, plain_image. }
  intros p id s dt -> Hid Hne Hup Hdt.
  assert (run (getCachedProperty id) (tick dt (exec (cacheProperty p) s))
          = Ok (json_image (entity_js p))) as Hget.
  { unfold cacheProperty. rewrite Hid.
    apply String.eqb_neq in Hne. cbn [truthy]. rewrite Hne. cbn [negb].
    unfold getCachedProperty, run.
    by erewrite read_after_write. }
  split; [done|]. intros Hp. by rewrite Hget, plain_image.
Qed.

Lemma roundtrip_plain_witness :
  JSON_parse "[1,true,null]" = Some (VArr [VNum 1; VBool true; VNull])
  /\ JSON_parse "[4.5,-120]" = Some (VArr [VNum four_and_a_half; VNum (-120)])
  /\ run (getCachedProperty "propX") (tick 899 (exec (cacheProperty plain_property) empty_cache))
     = Ok (entity_js plain_property).
Proof.
  split; [|split].
  - apply (roundtrip_plain (VArr [VNum 1; VBool true; VNull]) "[1,true,null]" eq_refl).
    reflexivity.
  - apply (roundtrip_plain (VArr [VNum four_and_a_half; VNum (-120)]) "[4.5,-120]" eq_refl).
    reflexivity.
  - destruct (plain_stringify (entity_js plain_property) eq_refl) as [t Ht].
    refine (proj2 (proj2 (proj2 (roundtrip_plain _ t Ht)) plain_property "propX"
                     empty_cache 899 eq_refl eq_refl _ eq_refl _) eq_refl).
    + discriminate.
    + lia.
Defined.

(** Key commutativity *)

Lemma obj_get_elem (l : obj) k v :
  NoDup (obj_keys l) -> (k, v) ∈ l -> obj_get k l = v.
Proof.
  induction l as [|[k' v'] l IH]; [by intros _ ?%elem_of_nil|].
  cbn [obj_keys map fst]. intros [Hk Hnd]%NoDup_cons Hin.
  cbn [obj_get]. apply elem_of_cons in Hin as [[= -> ->]|Hin].
  - by rewrite String.eqb_refl.
  - destruct (String.eqb_spec k k') as [->|Hne]; [|by apply IH].
    exfalso. apply Hk. apply list_elem_of_fmap. by exists (k', v).
Qed.

Lemma obj_get_absent (l : obj) k : k ∉ obj_keys l -> obj_get k l = VUndef.
Proof.
  induction l as [|[k' v'] l IH]; [done|]. cbn [obj_keys map fst obj_get].
  intros [Hne Hk]%not_elem_of_cons.
  apply String.eqb_neq in Hne. rewrite Hne. by apply IH.
Qed.


Lemma obj_has_keys k (o : obj) : obj_has k o = bool_decide (k ∈ obj_keys o).
Proof.
  induction o as [|[k' v'] o IH]; [done|]. unfold obj_has in *. cbn [existsb fst obj_keys map].
  rewrite IH. destruct (String.eqb_spec k k') as [->|Hne]; cbn [orb].
  - symmetry. apply bool_decide_eq_true. left.
  - apply bool_decide_ext. rewrite elem_of_cons. split; [by right|by intros [?|?]].
Qed.

Lemma obj_get_app k (a b : obj) :
  obj_get k (a ++ b)%list = if obj_has k a then obj_get k a else obj_get k b.
Proof.
  induction a as [|[k' v'] a IH]; [done|]. unfold obj_has in *. cbn [app obj_get existsb fst].
  destruct (String.eqb k k'); [done|]. cbn [orb]. apply IH.
Qed.

Lemma obj_get_replace k k' v (o : obj) :
  obj_has k' o = true ->
  obj_get k (obj_replace k' v o) = if String.eqb k k' then v else obj_get k o.
Proof.
  induction o as [|[k1 v1] o IH]; [done|]. unfold obj_has in *. cbn [existsb fst obj_replace].
  destruct (String.eqb_spec k' k1) as [->|Hne]; cbn [orb obj_get].
  - intros _. by destruct (String.eqb k k1).
  - intros Hh. rewrite (IH Hh).
    destruct (String.eqb_spec k k1) as [->|]; [|done].
    by rewrite (proj2 (String.eqb_neq k1 k')).
Qed.

Lemma obj_get_add_index n k k' v (o : obj) :
  obj_has k' o = false ->
  obj_get k (obj_add_index n k' v o) = if String.eqb k k' then v else obj_get k o.
Proof.
  induction o as [|[k1 v1] o IH]; [done|]. unfold obj_has in *. cbn [existsb fst obj_add_index].
  intros [Hne Hh]%orb_false_iff.
  destruct (array_index k1) as [n'|]; [destruct (n' <? n)%N|]; cbn [obj_get]; try done.
  rewrite (IH Hh). destruct (String.eqb_spec k k1) as [->|]; [|done].
  rewrite String.eqb_sym. by rewrite Hne.
Qed.

Lemma obj_get_define k k' v (o : obj) :
  obj_get k (obj_define k' v o) = if String.eqb k k' then v else obj_get k o.
Proof.
  unfold obj_define. destruct (obj_has k' o) eqn:Hh.
  - by apply obj_get_replace.
  - destruct (array_index k'); [by apply obj_get_add_index|].
    rewrite obj_get_app. cbn [obj_get].
    destruct (String.eqb_spec k k') as [->|]; [by rewrite Hh|].
    destruct (obj_has k o) eqn:Hk; [done|].
    rewrite obj_has_keys in Hk. apply bool_decide_eq_false in Hk.
    symmetry. by apply obj_get_absent.
Qed.






(** ** The controllers *)

Lemma liftC_run {D A} (m : M env A) (w : world D) :
  liftC m w = (run m (cache w), mk_world (durable w) (exec m (cache w))).
Proof. unfold liftC. rewrite (run_exec m (cache w)). reflexivity. Qed.

Lemma liftD_run {D A} (m : M D A) (w : world D) :
  liftD m w = (run m (durable w), mk_world (exec m (durable w)) (cache w)).
Proof. unfold liftD. rewrite (run_exec m (durable w)). reflexivity. Qed.

Lemma glob_literal_app a b : glob_literal (a +:+ b) = glob_literal a && glob_literal b.
Proof.
  induction a as [|c a IH]; [done|]. rewrite string_app_cons. cbn [glob_literal].
  by rewrite IH, andb_assoc.
Qed.

Lemma status_pattern_matches u p :
  glob_literal u = true ->
  stringmatch ("favorite:status:" +:+ u +:+ ":*") (KEYS.FAVORITE_STATUS u p) = true.
Proof.
  intros Hu. unfold KEYS.FAVORITE_STATUS.
  replace ("favorite:status:" +:+ u +:+ ":*")
    with (("favorite:status:" +:+ u +:+ ":") +:+ "*") by by rewrite !string_app_assoc.
  replace ("favorite:status:" +:+ u +:+ ":" +:+ p)
    with (("favorite:status:" +:+ u +:+ ":") +:+ p) by by rewrite !string_app_assoc.
  apply stringmatch_prefix; [|done].
  rewrite !glob_literal_app, Hu. reflexivity.
Qed.

Lemma cacheFavoriteStatus_ok u p st s : run (cacheFavoriteStatus u p st) s = Ok tt.
Proof. apply setCache_ok. Qed.

Lemma invalidateFavorites_cached u s k :
  cached (exec (invalidateFavorites u) s) k
  = if stringmatch ("user:favorites:" +:+ u +:+ ":*") k
       || stringmatch ("favorite:status:" +:+ u +:+ ":*") k
    then None else cached s k.
Proof.
  unfold exec at 1. rewrite invalidateFavorites_run. cbn [snd].
  rewrite !deleteCachePattern_cached.
  destruct (stringmatch ("favorite:status:" +:+ u +:+ ":*") k);
    destruct (stringmatch ("user:favorites:" +:+ u +:+ ":*") k); reflexivity.
Qed.

Lemma bind_inv {S A B} (m : M S A) (k : A -> M S B) s b s' :
  bind m k s = (Ok b, s') -> exists a s1, m s = (Ok a, s1) /\ k a s1 = (Ok b, s').
Proof.
  unfold bind. destruct (m s) as [[a|e] s1]; [eauto|discriminate].
Qed.

Lemma try_catch_inv {S} (m : M S response) handler s resp s' (code : Z) :
  try_catch m handler s = (Ok resp, s') ->
  (forall e s0 r s1, handler e s0 = (Ok r, s1) -> status r <> code) ->
  status resp = code ->
  m s = (Ok resp, s').
Proof.
  unfold try_catch. destruct (m s) as [[a|e] s1]; [done|].
  intros Hh Hne Hst. by apply Hne in Hh.
Qed.

Lemma ret_inv {S A} (a b : A) (s s' : S) : ret a s = (Ok b, s') -> a = b /\ s = s'.
Proof. unfold ret. by intros [= -> ->]. Qed.

Lemma liftC_inv {D A} (m : M env A) (w w' : world D) a :
  liftC m w = (Ok a, w') ->
  run m (cache w) = Ok a /\ w' = mk_world (durable w) (exec m (cache w)).
Proof. rewrite liftC_run. by intros [= -> ->]. Qed.

Lemma liftC_seq {D B} (m : M env unit) (k : M (world D) B) w :
  run m (cache w) = Ok tt ->
  bind (liftC m) (fun _ => k) w = k (mk_world (durable w) (exec m (cache w))).
Proof. intros Hm. unfold bind. by rewrite liftC_run, Hm. Qed.

Lemma liftD_bind {D A B} (m : M D A) (k : A -> M (world D) B) w a d' :
  m (durable w) = (Ok a, d') ->
  bind (liftD m) k w = k a (mk_world d' (cache w)).
Proof. intros Hm. unfold bind, liftD. by rewrite Hm. Qed.

Lemma getCache_bind {D B} key (k : jsval -> M (world D) B) w :
  bind (liftC (getCache key)) k w = k (decoded (cached (cache w) key)) w.
Proof.
  unfold bind. rewrite liftC_run. unfold run, exec.
  rewrite getCache_spec. cbn [fst snd]. by destruct w.
Qed.

Lemma invalidateUserProfile_ok id s : run (invalidateUserProfile id) s = Ok tt.
Proof. apply deleteCache_ok. Qed.

Lemma invalidatePropertySearches_ok s : run invalidatePropertySearches s = Ok tt.
Proof. unfold run. by rewrite invalidatePropertySearches_run. Qed.

Lemma invalidateUserProperties_ok u s : run (invalidateUserProperties u) s = Ok tt.
Proof. unfold run. by rewrite invalidateUserProperties_run. Qed.

Lemma invalidateFavorites_ok u s : run (invalidateFavorites u) s = Ok tt.
Proof. unfold run. by rewrite invalidateFavorites_run. Qed.

Lemma invalidateProperty_ok id s : run (invalidateProperty id) s = Ok tt.
Proof. unfold run. by rewrite invalidateProperty_run. Qed.

Section favorites.
Context {D : Type} `{DurableStore D}.

(** C1, as the code has it. After a successful [addToFavorites] (status
    201) the favorite-status entry of the pair is not in the cache: the
    entry [cacheFavoriteStatus] has just written matches the pattern
    [favorite:status:<user>:*] that [invalidateFavorites] deletes next. A
    following [getCachedFavoriteStatus] is a miss. *)
Theorem addToFavorites_drops_status (w w' : world D) u req pid resp :
  addToFavorites u req w = (Ok resp, w') ->
  status resp = 201 ->
  propertyId req = Some pid ->
  glob_literal u = true ->
  cached (cache w') (KEYS.FAVORITE_STATUS u pid) = None
  /\ getCachedFavoriteStatus u pid (cache w') = (Ok VNull, cache w').
Proof.
  intros Hrun Hst Hpid Hu.
  assert (cached (cache w') (KEYS.FAVORITE_STATUS u pid) = None) as Hc;
    [|split; [done|]; unfold getCachedFavoriteStatus;
      by rewrite (getCache_spec _ (cache w')), Hc].
  unfold addToFavorites in Hrun.
  apply (try_catch_inv _ _ _ _ _ 201) in Hrun; [|clear|done].
  2:{ intros e s0 r s1.
      repeat match goal with |- context [if ?c then _ else _] => destruct c end;
        intros [<- _]%ret_inv; discriminate. }
  rewrite Hpid in Hrun.
  destruct (negb (truthy (VStr pid))).
  { apply ret_inv in Hrun as [<- _]. discriminate Hst. }
  apply bind_inv in Hrun as ([prop|] & w1 & _ & Hrun).
  2:{ apply ret_inv in Hrun as [<- _]. discriminate Hst. }
  apply bind_inv in Hrun as (cs & w2 & _ & Hrun).
  destruct (truthy cs && truthy (js_get cs "isFavorited")).
  { apply ret_inv in Hrun as [<- _]. discriminate Hst. }
  apply bind_inv in Hrun as ([existing|] & w3 & _ & Hrun).
  { apply bind_inv in Hrun as (? & w4 & _ & Hrun).
    apply ret_inv in Hrun as [<- _]. discriminate Hst. }
  apply bind_inv in Hrun as (fid & w4 & _ & Hrun).
  apply bind_inv in Hrun as (pop & w5 & _ & Hrun).
  apply bind_inv in Hrun as ([] & w6 & _ & Hrun).
  apply bind_inv in Hrun as ([] & w7 & Hinv & Hrun).
  apply ret_inv in Hrun as [_ <-].
  apply liftC_inv in Hinv as [_ ->]. cbn [cache].
  rewrite invalidateFavorites_cached.
  by rewrite (status_pattern_matches u pid Hu), orb_true_r.
Qed.

(** C5, amended. A favorite update of notes and tags that succeeds deletes
    the entries under [user:favorites:<user>:*] and also those under
    [favorite:status:<user>:*]; every entry whose key matches neither
    pattern stays as it was, and nothing is written. *)
Theorem updateFavorite_invalidates (w : world D) u id req updated d' :
  Favorite_findOneAndUpdate id u (upd_notes req) (upd_tags req) (durable w)
    = (Ok (Some updated), d') ->
  let w' := exec (updateFavorite u id req) w in
  run (updateFavorite u id req) w
    = Ok (mk_response 200
            (VObj [("success", VBool true);
                   ("message", VStr "Favorite updated successfully");
                   ("favorite", favoriteResponse updated)]))
  /\ durable w' = d'
  /\ (forall k,
        cached (cache w') k
        = if stringmatch ("user:favorites:" +:+ u +:+ ":*") k
             || stringmatch ("favorite:status:" +:+ u +:+ ":*") k
          then None else cached (cache w) k)
  /\ (glob_literal u = true ->
      forall p, cached (cache w') (KEYS.FAVORITE_STATUS u p) = None).
Proof.
  intros Hd w'.
  assert (updateFavorite u id req w
          = (Ok (mk_response 200
                   (VObj [("success", VBool true);
                          ("message", VStr "Favorite updated successfully");
                          ("favorite", favoriteResponse updated)])),
             mk_world d' (exec (invalidateFavorites u) (cache w)))) as Hrun.
  { unfold updateFavorite, try_catch, bind. rewrite liftD_run.
    unfold run, exec. rewrite Hd. cbn [fst snd].
    rewrite liftC_run. cbn [cache durable]. unfold run, exec.
    rewrite invalidateFavorites_run. reflexivity. }
  assert (Hw : w' = mk_world d' (exec (invalidateFavorites u) (cache w)))
    by (subst w'; unfold exec; by rewrite Hrun).
  clearbody w'. subst w'. unfold run. rewrite Hrun. cbn [fst snd durable cache].
  split; [done|]. split; [done|]. split.
  - intros k. apply invalidateFavorites_cached.
  - intros Hu p. rewrite invalidateFavorites_cached.
    by rewrite (status_pattern_matches u p Hu), orb_true_r.
Qed.

Lemma property_key_not_search id : stringmatch "search:properties:*" (KEYS.PROPERTY id) = false.
Proof. by apply stringmatch_head_mismatch. Qed.

Lemma property_key_not_user u id :
  stringmatch ("user:properties:" +:+ u +:+ ":*") (KEYS.PROPERTY id) = false.
Proof. by apply stringmatch_head_mismatch. Qed.

Lemma search_pattern_matches q :
  stringmatch "search:properties:*" (KEYS.PROPERTY_SEARCH q) = true.
Proof. by apply (stringmatch_prefix "search:properties:" q). Qed.

Lemma user_properties_pattern_matches u page limit :
  glob_literal u = true ->
  stringmatch ("user:properties:" +:+ u +:+ ":*") (KEYS.USER_PROPERTIES u page limit) = true.
Proof.
  intros Hu. unfold KEYS.USER_PROPERTIES.
  replace ("user:properties:" +:+ u +:+ ":*")
    with (("user:properties:" +:+ u +:+ ":") +:+ "*") by by rewrite !string_app_assoc.
  replace ("user:properties:" +:+ u +:+ ":" +:+ Number_toString (default (1 : number) page) +:+ ":"
             +:+ Number_toString (default (10 : number) limit))
    with (("user:properties:" +:+ u +:+ ":")
            +:+ (Number_toString (default (1 : number) page) +:+ ":" +:+ Number_toString (default (10 : number) limit)))
    by by rewrite !string_app_assoc.
  apply stringmatch_prefix; [|done].
  rewrite !glob_literal_app, Hu. reflexivity.
Qed.

Lemma store_up_tick dt s : store_up (tick dt s) = store_up s.
Proof. reflexivity. Qed.

(** C3, amended. After a property update that succeeds, the response
    carries the fresh value: the [_id] of the updated document, its
    [createdBy] as a text, and every other property as the store returned it
    after the update. [getCachedProperty] of the updated property returns the
    JSON image of that fresh value while the store is available and the 900
    seconds are not over, and a miss otherwise; no entry remains under
    [search:properties:*] nor under [user:properties:<user>:*] of the
    updating user. *)
Theorem updateProperty_cascades (w : world D) u pid req_body doc d' :
  Property_findByIdAndUpdate pid (obj_delete "id" (obj_delete "createdBy" req_body))
                             (durable w) = (Ok (Some doc), d') ->
  doc_id doc <> "" ->
  let w' := exec (updateProperty u pid req_body) w in
  let fresh := entity_js (propertyResponse doc) in
  run (updateProperty u pid req_body) w
    = Ok (mk_response 200
            (VObj [("success", VBool true);
                   ("message", VStr "Property updated successfully");
                   ("property", fresh)]))
  /\ js_get fresh "_id" = VStr (doc_id doc)
  /\ js_get fresh "createdBy" = VStr (default "" (doc_createdBy doc))
  /\ (forall k, k <> "_id" -> k <> "createdBy" ->
        js_get fresh k = obj_get k (doc_fields doc))
  /\ durable w' = d'
  /\ (forall dt, 0 <= dt ->
        run (getCachedProperty (doc_id doc)) (tick dt (cache w'))
        = Ok (if store_up (cache w) && (dt <? 900) then json_image fresh else VNull))
  /\ (forall k, stringmatch "search:properties:*" k = true -> cached (cache w') k = None)
  /\ (forall q, cached (cache w') (KEYS.PROPERTY_SEARCH q) = None)
  /\ (forall k, stringmatch ("user:properties:" +:+ u +:+ ":*") k = true ->
        cached (cache w') k = None)
  /\ (glob_literal u = true ->
      forall page limit, cached (cache w') (KEYS.USER_PROPERTIES u page limit) = None).
Proof.
  intros Hd Hid w' fresh.
  set (c1 := exec (cacheProperty (propertyResponse doc)) (cache w)).
  set (c2 := exec (deleteCachePattern "search:properties:*") c1).
  set (c3 := exec (deleteCachePattern ("user:properties:" +:+ u +:+ ":*")) c2).
  set (c4 := exec (deleteCachePattern "search:properties:*") c3).
  assert (updateProperty u pid req_body w
          = (Ok (mk_response 200
                   (VObj [("success", VBool true);
                          ("message", VStr "Property updated successfully");
                          ("property", fresh)])),
             mk_world d' c4)) as Hrun.
  { unfold updateProperty, try_catch.
    rewrite (liftD_bind _ _ _ _ _ Hd).
    rewrite liftC_seq by apply cacheProperty_ok.
    rewrite liftC_seq by apply invalidatePropertySearches_ok.
    rewrite liftC_seq by apply invalidateUserProperties_ok.
    cbn [cache durable]. unfold ret. f_equal. f_equal.
    subst c4 c3 c2 c1. unfold exec at 1. rewrite invalidateUserProperties_run.
    reflexivity. }
  assert (Hw : w' = mk_world d' c4) by (subst w'; unfold exec; by rewrite Hrun).
  clearbody w'. subst w'. unfold run at 1. rewrite Hrun. cbn [fst snd durable cache].
  assert (Hsearch : forall k, stringmatch "search:properties:*" k = true ->
                              cached c4 k = None).
  { intros k Hk. subst c4. by rewrite deleteCachePattern_cached, Hk. }
  assert (Huser : forall k, stringmatch ("user:properties:" +:+ u +:+ ":*") k = true ->
                            cached c4 k = None).
  { intros k Hk. subst c4 c3. rewrite !deleteCachePattern_cached, Hk.
    by destruct (stringmatch "search:properties:*" k). }
  split; [done|].
  split; [done|].
  split; [subst fresh; cbn; by rewrite obj_get_define|].
  split.
  { intros k Hk1 Hk2. subst fresh. cbn [entity_js propertyResponse _id fields js_get obj_get].
    rewrite (proj2 (String.eqb_neq k "_id")) by done.
    rewrite obj_get_define. by rewrite (proj2 (String.eqb_neq k "createdBy")). }
  split; [done|].
  split; [|split; [exact Hsearch|split; [|split; [exact Huser|]]]].
  - intros dt Hdt. unfold getCachedProperty, run. rewrite getCache_spec. cbn [fst].
    f_equal.
    assert (Hc4 : cached c4 (KEYS.PROPERTY (doc_id doc))
                  = cached c1 (KEYS.PROPERTY (doc_id doc))).
    { subst c4 c3 c2. rewrite !deleteCachePattern_cached.
      by rewrite property_key_not_search, property_key_not_user. }
    assert (Ht4 : time c4 = time (cache w)).
    { subst c4 c3 c2 c1. rewrite !deleteCachePattern_time.
      unfold cacheProperty. cbn [propertyResponse _id].
      destruct (negb (truthy (VStr (doc_id doc)))); [done|]. apply setCache_time. }
    destruct (store_up (cache w)) eqn:Hup.
    + assert (exists t, JSON_stringify fresh = Some t) as [t Ht] by (cbn; eauto).
      assert (Hc1 : cached c1 (KEYS.PROPERTY (doc_id doc))
                    = Some (mk_entry t 900 (time (cache w)))).
      { subst c1. unfold cacheProperty. cbn [propertyResponse _id].
        apply String.eqb_neq in Hid. cbn [truthy]. rewrite Hid. cbn [negb].
        rewrite setCache_cached by done. rewrite decide_True by done.
        fold fresh. by rewrite Ht. }
      rewrite Hc1 in Hc4. cbn [andb].
      destruct (dt <? 900) eqn:Elt.
      * apply Z.ltb_lt in Elt.
        rewrite (cached_tick _ _ _ _ Hc4) by (cbn [e_written e_ttl]; lia).
        unfold decoded. cbn [e_data]. rewrite (stringify_truthy _ _ Ht).
        by rewrite (JSON_roundtrip _ _ Ht).
      * apply Z.ltb_ge in Elt.
        by rewrite (cached_tick_expired _ _ _ _ Hdt Hc4) by (cbn [e_written e_ttl]; lia).
    + cbn [andb]. rewrite cached_down; [done|].
      rewrite store_up_tick. subst c4 c3 c2 c1.
      rewrite !deleteCachePattern_up.
      unfold cacheProperty. cbn [propertyResponse _id].
      destruct (negb (truthy (VStr (doc_id doc)))); [done|]. by rewrite setCache_up.
  - intros q. apply Hsearch, search_pattern_matches.
  - intros Hu page limit. by apply Huser, user_properties_pattern_matches.
Qed.
End favorites.

(** ** Outcomes and the cache *)

Section independence.
Context {D : Type} `{DurableStore D}.

Lemma agree_bind {A B} (m : M (world D) A) (k : A -> M (world D) B) w1 w2 :
  agree m w1 w2 ->
  (forall a w1' w2', m w1 = (Ok a, w1') -> m w2 = (Ok a, w2') ->
                     agree (k a) w1' w2') ->
  agree (bind m k) w1 w2.
Proof.
  unfold agree, outcome, run, exec, bind. intros Hm Hk.
  destruct (m w1) as [[a1|e1] w1'] eqn:E1, (m w2) as [[a2|e2] w2'] eqn:E2;
    cbn [fst snd] in *; simplify_eq; [|congruence].
  by apply (Hk a2 w1' w2').
Qed.

Lemma blind_bind {A B} (m : M (world D) A) (k : A -> M (world D) B) :
  blind m -> (forall a, blind (D:=D) (k a)) -> blind (D:=D) (bind m k).
Proof.
  intros Hm Hk w1 w2 Hw. apply agree_bind; [by apply Hm|].
  intros a w1' w2' E1 E2. apply Hk.
  specialize (Hm w1 w2 Hw). unfold agree, outcome, exec in Hm.
  rewrite E1, E2 in Hm. cbn [snd] in Hm. by simplify_eq.
Qed.

Lemma blind_ret {A} (a : A) : blind (D:=D) (ret a).
Proof. intros w1 w2 Hw. unfold agree, outcome, run, exec, ret. cbn. by rewrite Hw. Qed.

Lemma blind_liftD {A} (m : M D A) : blind (D:=D) (liftD m).
Proof.
  intros w1 w2 Hw. unfold agree, outcome, run, exec. rewrite !liftD_run.
  cbn [fst snd durable]. by rewrite Hw.
Qed.

Lemma blind_liftC (m : M env unit) : (forall c, run m c = Ok tt) -> blind (D:=D) (liftC m).
Proof.
  intros Hm w1 w2 Hw. unfold agree, outcome, run, exec. rewrite !liftC_run.
  cbn [fst snd durable]. by rewrite !Hm, Hw.
Qed.

Lemma blind_try {A} (m : M (world D) A) h :
  blind m -> (forall e, blind (D:=D) (h e)) -> blind (D:=D) (try_catch m h).
Proof.
  intros Hm Hh w1 w2 Hw. specialize (Hm w1 w2 Hw).
  unfold agree, outcome, run, exec, try_catch in *.
  destruct (m w1) as [[a1|e1] w1'] eqn:E1, (m w2) as [[a2|e2] w2'] eqn:E2;
    cbn [fst snd] in *; simplify_eq; [congruence|].
  by apply (Hh e2 w1' w2').
Qed.

Lemma blind_handler (f : js_error -> response) :
  forall e, blind (D:=D) (ret (f e)).
Proof. intros e. apply blind_ret. Qed.

Ltac blind_step :=
  lazymatch goal with
  | |- blind (ret _) => apply blind_ret
  | |- blind (liftD _) => apply blind_liftD
  | |- blind (liftC _) =>
      apply blind_liftC; intros ?;
      lazymatch goal with
      | |- run (cacheProperty _) _ = _ => apply cacheProperty_ok
      | |- run invalidatePropertySearches _ = _ => apply invalidatePropertySearches_ok
      | |- run (invalidateUserProperties _) _ = _ => apply invalidateUserProperties_ok
      | |- run (invalidateFavorites _) _ = _ => apply invalidateFavorites_ok
      | |- run (invalidateProperty _) _ = _ => apply invalidateProperty_ok
      | |- run (cacheFavoriteStatus _ _ _) _ = _ => apply cacheFavoriteStatus_ok
      end
  | |- blind (bind _ _) => apply blind_bind; [|intros ?]
  | |- blind (try_catch _ _) => apply blind_try; [|intros ?]
  | |- blind (match ?x with _ => _ end) => destruct x
  end.

Lemma createProperty_blind u data : blind (createProperty u data).
Proof. unfold createProperty. repeat blind_step. Qed.

Lemma updateProperty_blind u id body : blind (updateProperty u id body).
Proof. unfold updateProperty. repeat blind_step. Qed.

Lemma deleteProperty_blind u id : blind (deleteProperty u id).
Proof. unfold deleteProperty. repeat blind_step. Qed.

Lemma removeFromFavorites_blind u p : blind (removeFromFavorites u p).
Proof. unfold removeFromFavorites. repeat blind_step. Qed.

Lemma updateFavorite_blind u id req : blind (updateFavorite u id req).
Proof. unfold updateFavorite. repeat blind_step. Qed.

Lemma agree_try {A} (m : M (world D) A) h w1 w2 :
  agree m w1 w2 -> (forall e, blind (h e)) -> agree (try_catch m h) w1 w2.
Proof.
  intros Hm Hh. unfold agree, outcome, run, exec, try_catch in *.
  destruct (m w1) as [[a1|e1] w1'] eqn:E1, (m w2) as [[a2|e2] w2'] eqn:E2;
    cbn [fst snd] in *; simplify_eq; [congruence|].
  by apply (Hh e2 w1' w2').
Qed.

Lemma getCachedFavoriteStatus_bind {B} u p (k : jsval -> M (world D) B) w :
  bind (liftC (getCachedFavoriteStatus u p)) k w
  = k (decoded (cached (cache w) (KEYS.FAVORITE_STATUS u p))) w.
Proof.
  unfold bind. rewrite liftC_run. unfold getCachedFavoriteStatus, run, exec.
  rewrite getCache_spec. cbn [fst snd]. by destruct w.
Qed.

Lemma addToFavorites_agree u req d c1 c2 :
  (forall p, propertyId req = Some p -> says_favorited c1 u p = says_favorited c2 u p) ->
  agree (addToFavorites u req) (mk_world d c1) (mk_world d c2).
Proof.
  intros Hsay. unfold addToFavorites.
  apply agree_try.
  2:{ intros e. repeat blind_step. }
  destruct (propertyId req) as [pid|]; [|by apply blind_ret].
  specialize (Hsay pid eq_refl).
  destruct (negb (truthy (VStr pid))); [by apply blind_ret|].
  apply agree_bind; [by apply blind_liftD|].
  intros [prop|] w1' w2' E1 E2; [|by apply blind_ret; rewrite liftD_run in E1, E2;
                                    simplify_eq].
  rewrite liftD_run in E1, E2. cbn [durable cache] in E1, E2.
  injection E1 as E1r <-. injection E2 as E2r <-.
  unfold agree, outcome, run, exec. rewrite !getCachedFavoriteStatus_bind.
  cbn [cache]. unfold says_favorited in Hsay. rewrite <- Hsay.
  destruct (truthy _ && truthy _); [reflexivity|].
  assert (blind (D:=D) (let* existingFavorite := liftD (Favorite_findOne u pid) in
     match existingFavorite with
     | Some existing =>
         do liftC (cacheFavoriteStatus u pid (mk_status true (Some (fav_id existing)))) in
         ret (failure 400 "Property is already in your favorites")
     | None =>
         let* favorite_id := liftD (Favorite_create u pid (notes_or_empty (notes req))
                                      (tags_or_empty (tags req))) in
         let* populatedFavorite := liftD (Favorite_findById favorite_id) in
         do liftC (cacheFavoriteStatus u pid (mk_status true (Some favorite_id))) in
         do liftC (invalidateFavorites u) in
         ret (mk_response 201
                (VObj [("success", VBool true);
                       ("message", VStr "Property added to favorites successfully");
                       ("favorite", favoriteResponse_opt populatedFavorite)]))
     end)) as Hb by repeat blind_step.
  by apply Hb.
Qed.

Lemma addToFavorites_cached_hit u req d c p prop d1 :
  propertyId req = Some p -> p <> "" ->
  Property_findById p d = (Ok (Some prop), d1) ->
  says_favorited c u p = true ->
  addToFavorites u req (mk_world d c)
  = (Ok (failure 400 "Property is already in your favorites"), mk_world d1 c).
Proof.
  intros Hp Hne Hfind Hsay. unfold addToFavorites, try_catch. rewrite Hp.
  apply String.eqb_neq in Hne. cbn [truthy]. rewrite Hne. cbn [negb].
  rewrite (liftD_bind (Property_findById p) _ (mk_world d c) _ _ Hfind).
  rewrite getCachedFavoriteStatus_bind.
  cbn [cache]. unfold says_favorited in Hsay. by rewrite Hsay.
Qed.

(** An operation that reads through the cache: it answers from the entry
    under its key when the entry decodes to a truthy value, and goes on
    without the cache otherwise. *)
Lemma reads_bind {B} (m : M env jsval) key (k : jsval -> M (world D) B) w :
  (forall c, m c = (Ok (decoded (cached c key)), c)) ->
  bind (liftC m) k w = k (decoded (cached (cache w) key)) w.
Proof.
  intros Hm. unfold bind. rewrite liftC_run. unfold run, exec.
  rewrite Hm. cbn [fst snd]. by destruct w.
Qed.

Lemma read_through_agree {A} (m : M env jsval) key (hit : jsval -> A)
      (rest : M (world D) A) h d c1 c2 :
  (forall c, m c = (Ok (decoded (cached c key)), c)) ->
  decoded (cached c1 key) = decoded (cached c2 key) ->
  blind rest -> (forall e, blind (D:=D) (h e)) ->
  agree (try_catch (let* x := liftC m in
                    if truthy x then ret (hit x) else rest) h)
        (mk_world d c1) (mk_world d c2).
Proof.
  intros Hm Hdec Hrest Hh. apply agree_try; [|done].
  unfold agree, outcome, run, exec. rewrite !(reads_bind m key) by done. cbn [cache].
  rewrite <- Hdec. destruct (truthy _); [reflexivity|]. by apply Hrest.
Qed.

Lemma read_through_hit {A} (m : M env jsval) key (hit : jsval -> A)
      (rest : M (world D) A) h w :
  (forall c, m c = (Ok (decoded (cached c key)), c)) ->
  truthy (decoded (cached (cache w) key)) = true ->
  try_catch (let* x := liftC m in
             if truthy x then ret (hit x) else rest) h w
  = (Ok (hit (decoded (cached (cache w) key))), w).
Proof. intros Hm Ht. unfold try_catch. by rewrite (reads_bind m key), Ht. Qed.

Lemma blind_throw {A} (e : js_error) : blind (D:=D) (throw (A:=A) e).
Proof. intros w1 w2 Hw. unfold agree, outcome, run, exec, throw. cbn. by rewrite Hw. Qed.

Lemma getPropertyById_agree id d c1 c2 :
  decoded (cached c1 (KEYS.PROPERTY id)) = decoded (cached c2 (KEYS.PROPERTY id)) ->
  agree (getPropertyById id) (mk_world d c1) (mk_world d c2).
Proof.
  intros Hdec. unfold getPropertyById, getCachedProperty.
  apply (read_through_agree _ (KEYS.PROPERTY id));
    [apply getCache_spec|done| |intros e]; repeat blind_step.
Qed.

Lemma checkFavoriteStatus_agree u p d c1 c2 :
  decoded (cached c1 (KEYS.FAVORITE_STATUS u p))
  = decoded (cached c2 (KEYS.FAVORITE_STATUS u p)) ->
  agree (checkFavoriteStatus u p) (mk_world d c1) (mk_world d c2).
Proof.
  intros Hdec. unfold checkFavoriteStatus, getCachedFavoriteStatus.
  apply (read_through_agree _ (KEYS.FAVORITE_STATUS u p));
    [apply getCache_spec|done| |intros e]; repeat blind_step.
Qed.

End independence.

Section auth_independence.
Context {U : Type} `{UserStore U}.
Variables JWT_SECRET JWT_EXPIRES_IN : option string.

Ltac blind_auth_step :=
  lazymatch goal with
  | |- blind (ret _) => apply blind_ret
  | |- blind (liftD _) => apply blind_liftD
  | |- blind (liftC _) =>
      apply blind_liftC; intros ?;
      lazymatch goal with
      | |- run (cacheUserProfile _) _ = _ => apply cacheUserProfile_ok
      | |- run (invalidateUserProfile _) _ = _ => apply invalidateUserProfile_ok
      end
  | |- blind (bind _ _) => apply blind_bind; [|intros ?]
  | |- blind (try_catch _ _) => apply blind_try; [|intros ?]
  | |- blind (match ?x with _ => _ end) => destruct x
  end.

Lemma signup_blind body : blind (D:=U) (signup JWT_SECRET JWT_EXPIRES_IN body).
Proof. unfold signup. repeat blind_auth_step. Qed.

Lemma login_blind body : blind (D:=U) (login JWT_SECRET JWT_EXPIRES_IN body).
Proof. unfold login. repeat blind_auth_step. Qed.

Lemma updateProfile_blind id body : blind (D:=U) (updateProfile id body).
Proof. unfold updateProfile. repeat blind_auth_step. Qed.

Lemma changePassword_blind id body : blind (D:=U) (changePassword id body).
Proof. unfold changePassword. repeat blind_auth_step. Qed.

Lemma getProfile_agree id (d : U) c1 c2 :
  decoded (cached c1 (KEYS.USER_PROFILE id)) = decoded (cached c2 (KEYS.USER_PROFILE id)) ->
  agree (getProfile id) (mk_world d c1) (mk_world d c2).
Proof.
  intros Hdec. unfold getProfile, getCachedUserProfile.
  apply (read_through_agree _ (KEYS.USER_PROFILE id));
    [apply getCache_spec|done| |intros e]; repeat blind_auth_step.
Qed.
End auth_independence.

Section listing_independence.
Context {D : Type} `{ListingStore D}.

Lemma cache_each_ok l c : run (cache_each l) c = Ok tt.
Proof.
  revert c. induction l as [|p l IH]; intros c; [done|]. cbn [cache_each].
  unfold run. rewrite seq_ok by apply cacheProperty_ok. apply IH.
Qed.

Lemma cacheUserProperties_ok u page limit r c :
  run (cacheUserProperties u page limit r) c = Ok tt.
Proof. apply setCache_ok. Qed.

Lemma cacheUserFavorites_ok u page limit r c :
  run (cacheUserFavorites u page limit r) c = Ok tt.
Proof. apply setCache_ok. Qed.

Lemma getCachedPropertySearch_spec q key c :
  generateSearchKey q = Ok key ->
  getCachedPropertySearch q c = (Ok (decoded (cached c (KEYS.PROPERTY_SEARCH key))), c).
Proof.
  intros Hk. unfold getCachedPropertySearch, generateSearchKey_or_throw. rewrite Hk.
  unfold bind, ret. apply getCache_spec.
Qed.

Ltac blind_listing_step :=
  lazymatch goal with
  | |- blind (ret _) => apply blind_ret
  | |- blind (throw _) => apply blind_throw
  | |- blind (liftD _) => apply blind_liftD
  | |- blind (liftC _) =>
      apply blind_liftC; intros ?;
      lazymatch goal with
      | |- run (cache_each _) _ = _ => apply cache_each_ok
      | |- run (cachePropertySearch _ _) _ = _ => apply cachePropertySearch_ok
      | |- run (cacheUserProperties _ _ _ _) _ = _ => apply cacheUserProperties_ok
      | |- run (cacheUserFavorites _ _ _ _) _ = _ => apply cacheUserFavorites_ok
      end
  | |- blind (bind _ _) => apply blind_bind; [|intros ?]
  | |- blind (try_catch _ _) => apply blind_try; [|intros ?]
  | |- blind (match ?x with _ => _ end) => destruct x
  end.

Lemma getProperties_agree q key (d : D) c1 c2 :
  generateSearchKey (query_js q) = Ok key ->
  decoded (cached c1 (KEYS.PROPERTY_SEARCH key))
  = decoded (cached c2 (KEYS.PROPERTY_SEARCH key)) ->
  agree (getProperties q) (mk_world d c1) (mk_world d c2).
Proof.
  intros Hk Hdec. unfold getProperties.
  apply (read_through_agree _ (KEYS.PROPERTY_SEARCH key));
    [intros c; by apply getCachedPropertySearch_spec|done| |intros e];
    repeat blind_listing_step.
Qed.

Lemma getUserProperties_agree u q (d : D) c1 c2 :
  let key := KEYS.USER_PROPERTIES u (Some (Number_of_query "page" 1 q))
                                  (Some (Number_of_query "limit" 10 q)) in
  decoded (cached c1 key) = decoded (cached c2 key) ->
  agree (getUserProperties u q) (mk_world d c1) (mk_world d c2).
Proof.
  intros key Hdec. unfold getUserProperties, getCachedUserProperties.
  apply (read_through_agree _ key);
    [apply getCache_spec|done| |intros e]; repeat blind_listing_step.
Qed.

Lemma getUserFavorites_agree u q (d : D) c1 c2 :
  let key := KEYS.USER_FAVORITES u (Some (Number_of_query "page" 1 q))
                                 (Some (Number_of_query "limit" 10 q)) in
  decoded (cached c1 key) = decoded (cached c2 key)
  \/ qs_truthy (query_get "search" q) || qs_truthy (query_get "tags" q) = true ->
  agree (getUserFavorites u q) (mk_world d c1) (mk_world d c2).
Proof.
  intros key Hdec. unfold getUserFavorites, getCachedUserFavorites.
  destruct (qs_truthy (query_get "search" q)) eqn:Es;
    [|destruct (qs_truthy (query_get "tags" q)) eqn:Et]; cbn [negb andb orb] in *.
  - assert (blind (D:=D) (getUserFavorites u q)) as Hb.
    { unfold getUserFavorites. rewrite Es. cbn [negb andb].
      apply blind_try; [|intros e; apply blind_ret].
      apply blind_bind; [apply blind_ret|]. intros x. repeat blind_listing_step. }
    unfold getUserFavorites in Hb. rewrite Es in Hb. by apply Hb.
  - assert (blind (D:=D) (getUserFavorites u q)) as Hb.
    { unfold getUserFavorites. rewrite Es, Et. cbn [negb andb].
      apply blind_try; [|intros e; apply blind_ret].
      apply blind_bind; [apply blind_ret|]. intros x. repeat blind_listing_step. }
    unfold getUserFavorites in Hb. rewrite Es, Et in Hb. by apply Hb.
  - destruct Hdec as [Hdec|?]; [|done].
    apply (read_through_agree _ key);
      [apply getCache_spec|done| |intros e]; repeat blind_listing_step.
Qed.

Lemma getUserFavorites_hit u q (w : world D) :
  let key := KEYS.USER_FAVORITES u (Some (Number_of_query "page" 1 q))
                                 (Some (Number_of_query "limit" 10 q)) in
  qs_truthy (query_get "search" q) = false -> qs_truthy (query_get "tags" q) = false ->
  truthy (decoded (cached (cache w) key)) = true ->
  getUserFavorites u q w = (Ok (mk_response 200 (decoded (cached (cache w) key))), w).
Proof.
  intros key Es Et Ht. unfold getUserFavorites, getCachedUserFavorites.
  rewrite Es, Et. cbn [negb andb].
  by apply (read_through_hit _ key); [apply getCache_spec|].
Qed.
End listing_independence.

(** C4, amended. The outcome (response and durable store) of
    [createProperty], [updateProperty], [deleteProperty],
    [removeFromFavorites], [updateFavorite], [signup], [login],
    [updateProfile] and [changePassword] is the same whatever the cache
    holds. [addToFavorites] consults the cache: its outcome is the same in
    two runs whose caches agree on whether the pair is marked as favorited,
    and when the cache marks it, the answer is 400 and the favorites
    collection is neither read nor written. [getPropertyById],
    [checkFavoriteStatus], [getProfile] and the listings [getProperties],
    [getUserProperties] and [getUserFavorites] read through the cache: the
    outcome is the same in two runs whose caches decode to the same value
    under the key of the operation, and when that value is truthy the
    operation answers 200 with it and leaves the durable store alone.
    [getUserFavorites] with a [search] or with [tags] does not read the
    cache. *)
Theorem cache_independent_outcomes {D U : Type}
    `{DurableStore D} `{ListingStore D} `{UserStore U}
    (JWT_SECRET JWT_EXPIRES_IN : option string) (d : D) (ud : U) (c1 c2 : env) :
  (forall u data,
      outcome (createProperty u data) (mk_world d c1)
      = outcome (createProperty u data) (mk_world d c2))
  /\ (forall u id body,
      outcome (updateProperty u id body) (mk_world d c1)
      = outcome (updateProperty u id body) (mk_world d c2))
  /\ (forall u id,
      outcome (deleteProperty u id) (mk_world d c1)
      = outcome (deleteProperty u id) (mk_world d c2))
  /\ (forall u p,
      outcome (removeFromFavorites u p) (mk_world d c1)
      = outcome (removeFromFavorites u p) (mk_world d c2))
  /\ (forall u id req,
      outcome (updateFavorite u id req) (mk_world d c1)
      = outcome (updateFavorite u id req) (mk_world d c2))
  /\ (forall u req,
      (forall p, propertyId req = Some p ->
                 says_favorited c1 u p = says_favorited c2 u p) ->
      outcome (addToFavorites u req) (mk_world d c1)
      = outcome (addToFavorites u req) (mk_world d c2))
  /\ (forall u req p prop d1,
      propertyId req = Some p -> p <> "" ->
      Property_findById p d = (Ok (Some prop), d1) ->
      says_favorited c1 u p = true ->
      outcome (addToFavorites u req) (mk_world d c1)
      = (Ok (failure 400 "Property is already in your favorites"), d1))
  /\ (forall body,
      outcome (signup JWT_SECRET JWT_EXPIRES_IN body) (mk_world ud c1)
      = outcome (signup JWT_SECRET JWT_EXPIRES_IN body) (mk_world ud c2))
  /\ (forall body,
      outcome (login JWT_SECRET JWT_EXPIRES_IN body) (mk_world ud c1)
      = outcome (login JWT_SECRET JWT_EXPIRES_IN body) (mk_world ud c2))
  /\ (forall id body,
      outcome (updateProfile id body) (mk_world ud c1)
      = outcome (updateProfile id body) (mk_world ud c2))
  /\ (forall id body,
      outcome (changePassword id body) (mk_world ud c1)
      = outcome (changePassword id body) (mk_world ud c2))
  /\ (forall id,
      decoded (cached c1 (KEYS.PROPERTY id)) = decoded (cached c2 (KEYS.PROPERTY id)) ->
      outcome (getPropertyById id) (mk_world d c1)
      = outcome (getPropertyById id) (mk_world d c2))
  /\ (forall id,
      let cachedProperty := decoded (cached c1 (KEYS.PROPERTY id)) in
      truthy cachedProperty = true ->
      outcome (getPropertyById id) (mk_world d c1)
      = (Ok (mk_response 200
               (VObj [("success", VBool true);
                      ("message", VStr "Property retrieved successfully");
                      ("property", cachedProperty)])), d))
  /\ (forall u p,
      decoded (cached c1 (KEYS.FAVORITE_STATUS u p))
      = decoded (cached c2 (KEYS.FAVORITE_STATUS u p)) ->
      outcome (checkFavoriteStatus u p) (mk_world d c1)
      = outcome (checkFavoriteStatus u p) (mk_world d c2))
  /\ (forall u p,
      let cachedStatus := decoded (cached c1 (KEYS.FAVORITE_STATUS u p)) in
      truthy cachedStatus = true ->
      outcome (checkFavoriteStatus u p) (mk_world d c1)
      = (Ok (mk_response 200
               (VObj [("success", VBool true);
                      ("message", VStr "Favorite status retrieved");
                      ("isFavorited", js_get cachedStatus "isFavorited");
                      ("favoriteId", js_or (js_get cachedStatus "favoriteId") VNull)])),
         d))
  /\ (forall id,
      decoded (cached c1 (KEYS.USER_PROFILE id))
      = decoded (cached c2 (KEYS.USER_PROFILE id)) ->
      outcome (getProfile id) (mk_world ud c1)
      = outcome (getProfile id) (mk_world ud c2))
  /\ (forall id,
      let cachedUser := decoded (cached c1 (KEYS.USER_PROFILE id)) in
      truthy cachedUser = true ->
      outcome (getProfile id) (mk_world ud c1)
      = (Ok (mk_response 200
               (VObj [("success", VBool true);
                      ("message", VStr "Profile retrieved successfully");
                      ("user", cachedUser)])), ud))
  /\ (forall q key,
      generateSearchKey (query_js q) = Ok key ->
      decoded (cached c1 (KEYS.PROPERTY_SEARCH key))
      = decoded (cached c2 (KEYS.PROPERTY_SEARCH key)) ->
      outcome (getProperties q) (mk_world d c1)
      = outcome (getProperties q) (mk_world d c2))
  /\ (forall q key,
      generateSearchKey (query_js q) = Ok key ->
      let cachedResult := decoded (cached c1 (KEYS.PROPERTY_SEARCH key)) in
      truthy cachedResult = true ->
      outcome (getProperties q) (mk_world d c1) = (Ok (mk_response 200 cachedResult), d))
  /\ (forall u q,
      let key := KEYS.USER_PROPERTIES u (Some (Number_of_query "page" 1 q))
                                      (Some (Number_of_query "limit" 10 q)) in
      decoded (cached c1 key) = decoded (cached c2 key) ->
      outcome (getUserProperties u q) (mk_world d c1)
      = outcome (getUserProperties u q) (mk_world d c2))
  /\ (forall u q,
      let key := KEYS.USER_PROPERTIES u (Some (Number_of_query "page" 1 q))
                                      (Some (Number_of_query "limit" 10 q)) in
      let cachedResult := decoded (cached c1 key) in
      truthy cachedResult = true ->
      outcome (getUserProperties u q) (mk_world d c1)
      = (Ok (mk_response 200 cachedResult), d))
  /\ (forall u q,
      let key := KEYS.USER_FAVORITES u (Some (Number_of_query "page" 1 q))
                                     (Some (Number_of_query "limit" 10 q)) in
      decoded (cached c1 key) = decoded (cached c2 key)
      \/ qs_truthy (query_get "search" q) || qs_truthy (query_get "tags" q) = true ->
      outcome (getUserFavorites u q) (mk_world d c1)
      = outcome (getUserFavorites u q) (mk_world d c2))
  /\ (forall u q,
      let key := KEYS.USER_FAVORITES u (Some (Number_of_query "page" 1 q))
                                     (Some (Number_of_query "limit" 10 q)) in
      let cachedResult := decoded (cached c1 key) in
      qs_truthy (query_get "search" q) = false ->
      qs_truthy (query_get "tags" q) = false ->
      truthy cachedResult = true ->
      outcome (getUserFavorites u q) (mk_world d c1)
      = (Ok (mk_response 200 cachedResult), d)).
Proof.
  repeat split; intros.
  - by apply createProperty_blind.
  - by apply updateProperty_blind.
  - by apply deleteProperty_blind.
  - by apply removeFromFavorites_blind.
  - by apply updateFavorite_blind.
  - by apply addToFavorites_agree.
  - unfold outcome, run, exec. by erewrite addToFavorites_cached_hit.
  - by apply signup_blind.
  - by apply login_blind.
  - by apply updateProfile_blind.
  - by apply changePassword_blind.
  - by apply getPropertyById_agree.
  - unfold outcome, run, exec, getPropertyById, getCachedProperty.
    by rewrite (read_through_hit _ (KEYS.PROPERTY id)); [|apply getCache_spec|].
  - by apply checkFavoriteStatus_agree.
  - unfold outcome, run, exec, checkFavoriteStatus, getCachedFavoriteStatus.
    by rewrite (read_through_hit _ (KEYS.FAVORITE_STATUS u p)); [|apply getCache_spec|].
  - by apply getProfile_agree.
  - unfold outcome, run, exec, getProfile, getCachedUserProfile.
    by rewrite (read_through_hit _ (KEYS.USER_PROFILE id)); [|apply getCache_spec|].
  - by eapply getProperties_agree.
  - unfold outcome, run, exec, getProperties.
    by rewrite (read_through_hit _ (KEYS.PROPERTY_SEARCH key));
      [|intros c; apply getCachedPropertySearch_spec|].
  - by apply getUserProperties_agree.
  - unfold outcome, run, exec, getUserProperties, getCachedUserProperties.
    by rewrite (read_through_hit _ key); [|apply getCache_spec|].
  - by apply getUserFavorites_agree.
  - unfold outcome, run, exec. by rewrite getUserFavorites_hit.
Qed.

(** C4, as stated, fails: with the same durable store, [addToFavorites]
    answers 201 and creates the favorite over an empty cache, and answers 400
    and creates nothing over a cache that marks the pair as favorited. *)
Lemma cache_decides_addToFavorites :
  ~ (forall (d : mem_store) (c1 c2 : env) u req,
       outcome (addToFavorites u req) (mk_world d c1)
       = outcome (addToFavorites u req) (mk_world d c2)).
Proof.
  intros Hall. specialize (Hall store0 empty_cache stale_cache "userA" request0).
  vm_compute in Hall. discriminate Hall.
Qed.

Lemma cache_independent_outcomes_witness :
  outcome (updateFavorite "userA" "fav1" notes_only) (mk_world store1 empty_cache)
  = outcome (updateFavorite "userA" "fav1" notes_only) (mk_world store1 warm_cache)
  /\ match run (updateFavorite "userA" "fav1" notes_only) (mk_world store1 warm_cache) with
     | Ok res => status res = 200
     | Throw _ => False
     end
  /\ outcome (addToFavorites "userA" request0) (mk_world store0 stale_cache)
     = (Ok (failure 400 "Property is already in your favorites"), store0)
  /\ outcome (checkFavoriteStatus "userA" "propX") (mk_world store0 stale_cache)
     = (Ok (mk_response 200
              (VObj [("success", VBool true);
                     ("message", VStr "Favorite status retrieved");
                     ("isFavorited", VBool true);
                     ("favoriteId", VStr "fav0")])), store0)
  /\ outcome (getUserProperties "userA" [("page", QStr "1")]) (mk_world store0 warm_cache)
     = (Ok (mk_response 200 (VObj [("total", VNum 1)])), store0).
Proof.
  pose proof (cache_independent_outcomes None None store1 users0 empty_cache warm_cache)
    as (_ & _ & _ & _ & Hupdate & _).
  pose proof (cache_independent_outcomes None None store0 users0 stale_cache empty_cache)
    as (_ & _ & _ & _ & _ & _ & Hadd & _ & _ & _ & _ & _ & _ & _ & Hcheck & _).
  pose proof (cache_independent_outcomes None None store0 users0 warm_cache empty_cache)
    as (_ & _ & _ & _ & _ & _ & _ & _ & _ & _ & _ & _ & _ & _ & _ & _ & _ & _ & _ & _
        & Hlist & _).
  split; [apply Hupdate|]. split; [vm_compute; reflexivity|]. split; [|split].
  - apply (Hadd "userA" request0 "propX" propX store0);
      [reflexivity|discriminate|reflexivity|reflexivity].
  - etransitivity; [apply (Hcheck "userA" "propX"); reflexivity|].
    vm_compute. reflexivity.
  - etransitivity; [apply (Hlist "userA" [("page", QStr "1")]); reflexivity|].
    vm_compute. reflexivity.
Defined.

(** ** The scenarios, run on the reference store *)

Lemma addToFavorites_drops_status_witness :
  cached (cache (exec (addToFavorites "userA" request0) world0))
         (KEYS.FAVORITE_STATUS "userA" "propX") = None
  /\ ms_reads (durable (exec (checkFavoriteStatus "userA" "propX")
                             (exec (addToFavorites "userA" request0) world0)))
     = S (ms_reads (durable (exec (addToFavorites "userA" request0) world0))).
Proof.
  split; [|vm_compute; reflexivity].
  let x := eval vm_compute in (run (addToFavorites "userA" request0) world0) in
  lazymatch x with
  | Ok ?r => apply (addToFavorites_drops_status world0 _ "userA" request0 "propX" r)
  end.
  - vm_compute. reflexivity.
  - reflexivity.
  - reflexivity.
  - reflexivity.
Defined.

(** C5, as stated, fails: the update succeeds and the favorite-status entry
    that was cached before it is gone after it. *)
Lemma updateFavorite_deletes_status :
  run (updateFavorite "userA" "fav1" notes_only) world1
  = Ok (mk_response 200
          (VObj [("success", VBool true);
                 ("message", VStr "Favorite updated successfully");
                 ("favorite",
                  favoriteResponse
                    (MemStore.set_notes_tags (Some "near work") None
                       (MemStore.new_favorite "fav1" "userA" "propX" "" [])))]))
  /\ cached (cache world1) (KEYS.FAVORITE_STATUS "userA" "propX") <> None
  /\ cached (cache (exec (updateFavorite "userA" "fav1" notes_only) world1))
            (KEYS.FAVORITE_STATUS "userA" "propX") = None.
Proof. vm_compute. repeat split. discriminate. Qed.

Lemma updateFavorite_invalidates_witness :
  cached (cache (exec (updateFavorite "userA" "fav1" notes_only) world1))
         (KEYS.FAVORITE_STATUS "userA" "propX") = None
  /\ cached (cache (exec (updateFavorite "userA" "fav1" notes_only) world1))
            (KEYS.USER_PROPERTIES "userA" (Some 1) (Some 10))
     = cached (cache world1) (KEYS.USER_PROPERTIES "userA" (Some 1) (Some 10)).
Proof.
  pose proof (updateFavorite_invalidates world1 "userA" "fav1" notes_only _ _ eq_refl) as Hu.
  cbv zeta in Hu. destruct Hu as (_ & _ & Hframe & Hstatus). split.
  - apply Hstatus. reflexivity.
  - rewrite Hframe. reflexivity.
Defined.

(** C3, as stated, fails: after the update of the price of [propX], with the
    cache available, the read of [propX] is neither a miss nor the fresh
    value of the response: the [availableFrom] date has become a text. *)
Lemma updateProperty_read_is_not_fresh :
  exists fresh,
    run (updateProperty "userA" "propX" [("price", VNum 120)]) world1
    = Ok (mk_response 200
            (VObj [("success", VBool true);
                   ("message", VStr "Property updated successfully");
                   ("property", fresh)]))
    /\ js_get fresh "price" = VNum 120
    /\ run (getCachedProperty "propX")
           (cache (exec (updateProperty "userA" "propX" [("price", VNum 120)]) world1))
       <> Ok VNull
    /\ run (getCachedProperty "propX")
           (cache (exec (updateProperty "userA" "propX" [("price", VNum 120)]) world1))
       <> Ok fresh.
Proof.
  eexists. split; [vm_compute; reflexivity|].
  split; [vm_compute; reflexivity|].
  split; vm_compute; discriminate.
Qed.

Lemma updateProperty_cascades_witness :
  cached (cache (exec (updateProperty "userA" "propX" [("price", VNum 120)]) world1))
         (KEYS.USER_PROPERTIES "userA" (Some 1) (Some 10)) = None
  /\ run (getCachedProperty "propX")
         (tick 10 (cache (exec (updateProperty "userA" "propX" [("price", VNum 120)]) world1)))
     = Ok (VObj [("_id", VStr "propX"); ("id", VStr "PROP1"); ("title", VStr "Flat");
                 ("price", VNum 120);
                 ("availableFrom", VStr "2024-06-01T00:00:00.000Z");
                 ("createdBy", VStr "userA")]).
Proof.
  pose proof (updateProperty_cascades world1 "userA" "propX" [("price", VNum 120)]
                _ _ eq_refl) as Hu.
  cbv zeta in Hu.
  destruct Hu as (_ & _ & _ & _ & _ & Hread & _ & _ & _ & Hlist); [discriminate|].
  split.
  - apply Hlist. reflexivity.
  - etransitivity; [apply (Hread 10); lia|]. vm_compute. reflexivity.
Defined.

(** * The rest of the cache layer *)

(** ** Patterns that are a literal text and a star *)

Lemma stringmatchlen_literal_prefix lit rest : forall fuel key,
  glob_literal lit = true ->
  stringmatchlen fuel (lit +:+ rest) key = true -> String.prefix lit key = true.
Proof.
  induction lit as [|pc lit IH]; [by intros ? []|]. intros fuel key Hlit Hm.
  cbn [glob_literal] in Hlit. apply andb_true_iff in Hlit as [Hpc Hlit].
  destruct fuel as [|fuel]; [done|]. rewrite string_app_cons in Hm.
  cbn [stringmatchlen] in Hm. destruct key as [|c key]; [done|].
  rewrite (glob_plain_not_star _ Hpc), (match_one_literal _ _ _ Hpc) in Hm.
  cbn [String.prefix].
  destruct (Ascii.eqb_spec pc c) as [->|Hne]; [|done].
  destruct (ascii_dec c c) as [_|]; [|done].
  destruct lit as [|pc' lit].
  - by destruct key.
  - destruct key as [|c' key].
    + rewrite string_app_cons in Hm. cbn [glob_literal] in Hlit.
      apply andb_true_iff in Hlit as [Hpc' _].
      cbn [strip_stars] in Hm. by rewrite (glob_plain_not_star _ Hpc') in Hm.
    + by apply (IH fuel).
Qed.

Lemma stringmatch_literal_prefix lit rest key :
  glob_literal lit = true ->
  stringmatch (lit +:+ rest) key = true -> String.prefix lit key = true.
Proof. intros Hlit Hm. by apply stringmatchlen_literal_prefix in Hm. Qed.

Lemma prefix_app lit t : String.prefix lit (lit +:+ t) = true.
Proof.
  induction lit as [|c lit IH]; [by destruct t|].
  rewrite string_app_cons. cbn [String.prefix]. by destruct (ascii_dec c c).
Qed.

Lemma prefix_split lit key : String.prefix lit key = true -> exists t, key = lit +:+ t.
Proof.
  revert key. induction lit as [|c lit IH]; intros key Hp; [by exists key|].
  destruct key as [|c' key]; [done|]. cbn [String.prefix] in Hp.
  destruct (ascii_dec c c') as [->|]; [|done].
  destruct (IH key Hp) as [t ->]. by exists t.
Qed.

Lemma stringmatch_literal_star lit key :
  glob_literal lit = true -> lit <> "" ->
  stringmatch (lit +:+ "*") key = String.prefix lit key.
Proof.
  intros Hlit Hne. destruct (String.prefix lit key) eqn:Hp.
  - destruct (prefix_split _ _ Hp) as [t ->]. by apply stringmatch_prefix.
  - destruct (stringmatch (lit +:+ "*") key) eqn:Hm; [|done].
    apply stringmatch_literal_prefix in Hm; [congruence|done].
Qed.

Lemma prefix_app_l a b key : String.prefix (a +:+ b) key = true -> String.prefix a key = true.
Proof.
  intros [t ->]%prefix_split. rewrite string_app_assoc. apply prefix_app.
Qed.

Lemma prefix_app_inv a b key :
  String.prefix (a +:+ b) (a +:+ key) = String.prefix b key.
Proof.
  induction a as [|c a IH]; [done|]. rewrite !string_app_cons. cbn [String.prefix].
  by destruct (ascii_dec c c).
Qed.

Lemma colon_free_sep a b x y :
  colon_free a = true -> colon_free b = true ->
  a +:+ String ":" x = b +:+ String ":" y -> a = b.
Proof.
  revert b. induction a as [|c a IH]; intros [|c' b] Ha Hb Heq; try done.
  - rewrite string_app_nil_l, string_app_cons in Heq. injection Heq as <- _.
    cbn in Hb. done.
  - rewrite string_app_nil_l, string_app_cons in Heq. injection Heq as -> _.
    cbn in Ha. done.
  - rewrite !string_app_cons in Heq. injection Heq as -> Heq.
    cbn [colon_free] in Ha, Hb.
    apply andb_true_iff in Ha as [_ Ha]. apply andb_true_iff in Hb as [_ Hb].
    f_equal. by apply IH.
Qed.

(** The pattern [<family>:<user>:*] against a key [<family>:<other>:...]. *)
Lemma user_pattern_other family u u' rest :
  glob_literal family = true -> family <> "" ->
  glob_literal u = true -> colon_free u = true -> colon_free u' = true -> u' <> u ->
  stringmatch (family +:+ u +:+ ":*") (family +:+ u' +:+ ":" +:+ rest) = false.
Proof.
  intros Hf Hne Hu Hcu Hcu' Hdiff.
  change (":" +:+ rest) with (String ":" rest).
  replace (family +:+ u +:+ ":*") with ((family +:+ u +:+ ":") +:+ "*")
    by by rewrite !string_app_assoc.
  rewrite stringmatch_literal_star.
  - rewrite prefix_app_inv. destruct (String.prefix _ _) eqn:Hp; [|done].
    apply prefix_split in Hp as [t Ht]. rewrite string_app_assoc in Ht.
    rewrite string_app_cons, string_app_nil_l in Ht.
    symmetry in Ht. apply colon_free_sep in Ht; done.
  - rewrite !glob_literal_app, Hf, Hu. reflexivity.
  - destruct family; done.
Qed.

Lemma user_pattern_family family u key :
  glob_literal family = true -> family <> "" -> glob_literal u = true ->
  String.prefix family key = false ->
  stringmatch (family +:+ u +:+ ":*") key = false.
Proof.
  intros Hf Hne Hu Hp.
  replace (family +:+ u +:+ ":*") with ((family +:+ u +:+ ":") +:+ "*")
    by by rewrite !string_app_assoc.
  rewrite stringmatch_literal_star.
  - destruct (String.prefix (family +:+ u +:+ ":") key) eqn:Hp'; [|done].
    apply prefix_app_l in Hp'. congruence.
  - rewrite !glob_literal_app, Hf, Hu. reflexivity.
  - destruct family; done.
Qed.

(** X1. [deleteCachePattern] with a pattern that is a literal text followed by
    one star never throws and deletes exactly the entries whose key starts
    with that text; every other entry, the clock and the connection stay as
    they were. *)
Theorem deleteCachePattern_prefix (lit : string) (s : env) :
  glob_literal lit = true -> lit <> "" ->
  run (deleteCachePattern (lit +:+ "*")) s = Ok tt
  /\ time (exec (deleteCachePattern (lit +:+ "*")) s) = time s
  /\ store_up (exec (deleteCachePattern (lit +:+ "*")) s) = store_up s
  /\ forall k, cached (exec (deleteCachePattern (lit +:+ "*")) s) k
               = if String.prefix lit k then None else cached s k.
Proof.
  intros Hlit Hne. split; [apply deleteCachePattern_ok|].
  split; [apply deleteCachePattern_time|]. split; [apply deleteCachePattern_up|].
  intros k. by rewrite deleteCachePattern_cached, stringmatch_literal_star.
Qed.

Lemma deleteCachePattern_prefix_witness :
  cached (exec (deleteCachePattern ("search:properties:" +:+ "*")) warm_cache)
         (KEYS.FAVORITE_STATUS "userA" "propX")
  = cached warm_cache (KEYS.FAVORITE_STATUS "userA" "propX")
  /\ forall q, cached (exec (deleteCachePattern ("search:properties:" +:+ "*")) warm_cache)
                      (KEYS.PROPERTY_SEARCH q) = None.
Proof.
  pose proof (deleteCachePattern_prefix "search:properties:" warm_cache eq_refl) as Hd.
  destruct Hd as (_ & _ & _ & Hd); [discriminate|]. split.
  - rewrite Hd. reflexivity.
  - intros q. rewrite Hd. unfold KEYS.PROPERTY_SEARCH. by rewrite prefix_app.
Defined.

(** X2. [invalidateFavorites] of one user leaves the entries of every other
    user and of every other key family as they were (user ids without [:]
    and without glob metacharacters). *)
Theorem invalidateFavorites_other_users (u : string) (s : env) :
  glob_literal u = true -> colon_free u = true ->
  (forall u' page limit, colon_free u' = true -> u' <> u ->
     cached (exec (invalidateFavorites u) s) (KEYS.USER_FAVORITES u' page limit)
     = cached s (KEYS.USER_FAVORITES u' page limit))
  /\ (forall u' p, colon_free u' = true -> u' <> u ->
     cached (exec (invalidateFavorites u) s) (KEYS.FAVORITE_STATUS u' p)
     = cached s (KEYS.FAVORITE_STATUS u' p))
  /\ (forall k, String.prefix "user:favorites:" k = false ->
                String.prefix "favorite:status:" k = false ->
     cached (exec (invalidateFavorites u) s) k = cached s k).
Proof.
  intros Hu Hcu. repeat split.
  - intros u' page limit Hcu' Hne. rewrite invalidateFavorites_cached.
    unfold KEYS.USER_FAVORITES.
    rewrite (user_pattern_other "user:favorites:") by done.
    by rewrite (user_pattern_family "favorite:status:").
  - intros u' p Hcu' Hne. rewrite invalidateFavorites_cached.
    unfold KEYS.FAVORITE_STATUS.
    rewrite (user_pattern_family "user:favorites:") by done.
    by rewrite (user_pattern_other "favorite:status:").
  - intros k H1 H2. rewrite invalidateFavorites_cached.
    rewrite (user_pattern_family "user:favorites:") by done.
    by rewrite (user_pattern_family "favorite:status:").
Qed.

Lemma app_inv_head_str a x y : a +:+ x = a +:+ y -> x = y.
Proof.
  induction a as [|c a IH]; [done|]. rewrite !string_app_cons. intros [= Heq]. auto.
Qed.

Lemma invalidateProperty_entries (id : string) (s : env) :
  cached (exec (invalidateProperty id) s) (KEYS.PROPERTY id) = None
  /\ (forall q, cached (exec (invalidateProperty id) s) (KEYS.PROPERTY_SEARCH q) = None)
  /\ (forall u page limit,
        cached (exec (invalidateProperty id) s) (KEYS.USER_PROPERTIES u page limit) = None)
  /\ (forall k, k <> KEYS.PROPERTY id ->
                String.prefix "search:properties:" k = false ->
                String.prefix "user:properties:" k = false ->
                cached (exec (invalidateProperty id) s) k = cached s k).
Proof.
  assert (Hs' : forall k, cached (exec (invalidateProperty id) s) k
            = if String.prefix "user:properties:" k then None
              else if String.prefix "search:properties:" k then None
              else if decide (k = KEYS.PROPERTY id) then None else cached s k).
  { intros k. unfold exec at 1. rewrite invalidateProperty_run. cbn [snd].
    rewrite !deleteCachePattern_cached, deleteCache_cached.
    by rewrite (stringmatch_literal_star "user:properties:"),
               (stringmatch_literal_star "search:properties:"). }
  repeat split.
  - rewrite Hs'. rewrite decide_True by done.
    by repeat destruct (String.prefix _ _).
  - intros q. rewrite Hs'. unfold KEYS.PROPERTY_SEARCH.
    rewrite (prefix_app "search:properties:"). by destruct (String.prefix _ _).
  - intros u page limit. rewrite Hs'. unfold KEYS.USER_PROPERTIES.
    by rewrite (prefix_app "user:properties:").
  - intros k Hk H1 H2. rewrite Hs', H1, H2. by rewrite decide_False.
Qed.

(** X3. [invalidateProperty] deletes the entry of the property, every search
    entry and the property lists of every user; all other entries stay. *)
Theorem invalidateProperty_scope (id : string) (s : env) :
  let s' := exec (invalidateProperty id) s in
  run (invalidateProperty id) s = Ok tt
  /\ cached s' (KEYS.PROPERTY id) = None
  /\ (forall q, cached s' (KEYS.PROPERTY_SEARCH q) = None)
  /\ (forall u page limit, cached s' (KEYS.USER_PROPERTIES u page limit) = None)
  /\ (forall k, k <> KEYS.PROPERTY id ->
                String.prefix "search:properties:" k = false ->
                String.prefix "user:properties:" k = false ->
                cached s' k = cached s k).
Proof.
  intros s'. split; [apply invalidateProperty_ok|]. apply invalidateProperty_entries.
Qed.

(** X4. [invalidateSpecificFavorite] deletes the status entry of the one pair
    and the favorites-list pages of the user; the status entries of the
    user's other properties stay, unlike under [invalidateFavorites]. *)
Theorem invalidateSpecificFavorite_scope (u p : string) (s : env) :
  glob_literal u = true ->
  let s' := exec (invalidateSpecificFavorite u p) s in
  run (invalidateSpecificFavorite u p) s = Ok tt
  /\ cached s' (KEYS.FAVORITE_STATUS u p) = None
  /\ (forall page limit, cached s' (KEYS.USER_FAVORITES u page limit) = None)
  /\ (forall p', p' <> p ->
        cached s' (KEYS.FAVORITE_STATUS u p') = cached s (KEYS.FAVORITE_STATUS u p'))
  /\ (forall k, k <> KEYS.FAVORITE_STATUS u p ->
                String.prefix "user:favorites:" k = false ->
                cached s' k = cached s k).
Proof.
  intros Hu s'.
  assert (Hs' : forall k, cached s' k
            = if stringmatch ("user:favorites:" +:+ u +:+ ":*") k then None
              else if decide (k = KEYS.FAVORITE_STATUS u p) then None else cached s k).
  { intros k. subst s'. unfold exec at 1. rewrite invalidateSpecificFavorite_run. cbn [snd].
    by rewrite deleteCachePattern_cached, deleteCache_cached. }
  split; [unfold run; by rewrite invalidateSpecificFavorite_run|].
  assert (Hrest : forall k, k <> KEYS.FAVORITE_STATUS u p ->
                String.prefix "user:favorites:" k = false ->
                cached s' k = cached s k).
  { intros k Hk Hp. rewrite Hs'.
    rewrite (user_pattern_family "user:favorites:") by done. by rewrite decide_False. }
  repeat split.
  - rewrite Hs'. rewrite decide_True by done. by destruct (stringmatch _ _).
  - intros page limit. rewrite Hs'. unfold KEYS.USER_FAVORITES.
    replace ("user:favorites:" +:+ u +:+ ":*")
      with (("user:favorites:" +:+ u +:+ ":") +:+ "*") by by rewrite !string_app_assoc.
    replace ("user:favorites:" +:+ u +:+ ":" +:+ Number_toString (default (1 : number) page) +:+ ":"
               +:+ Number_toString (default (10 : number) limit))
      with (("user:favorites:" +:+ u +:+ ":")
              +:+ (Number_toString (default (1 : number) page) +:+ ":" +:+ Number_toString (default (10 : number) limit)))
      by by rewrite !string_app_assoc.
    rewrite stringmatch_prefix; [done| |done].
    rewrite !glob_literal_app, Hu. reflexivity.
  - intros p' Hp'. apply Hrest; [|done].
    unfold KEYS.FAVORITE_STATUS. intros Heq.
    apply app_inv_head_str, app_inv_head_str, app_inv_head_str in Heq. done.
  - exact Hrest.
Qed.

(** ** The keys *)

Lemma paged_key_inj family u u' a b a' b' :
  colon_free u = true -> colon_free u' = true ->
  family +:+ u +:+ ":" +:+ Number_toString a +:+ ":" +:+ Number_toString b
  = family +:+ u' +:+ ":" +:+ Number_toString a' +:+ ":" +:+ Number_toString b' ->
  u = u' /\ same_number a a' /\ same_number b b'.
Proof.
  intros Hu Hu' Heq. apply app_inv_head_str in Heq.
  assert (u = u') as <-.
  { revert Heq. change (":" +:+ ?x) with (String ":" x). by apply colon_free_sep. }
  split; [done|]. do 2 apply app_inv_head_str in Heq.
  assert (Number_toString a = Number_toString a') as Ha.
  { revert Heq. change (":" +:+ ?x) with (String ":" x).
    apply colon_free_sep; apply Number_toString_colon_free. }
  split; [by apply Number_toString_inj|].
  rewrite Ha in Heq. do 2 apply app_inv_head_str in Heq. by apply Number_toString_inj.
Qed.

(** X5. The keys of the cache are unambiguous. Two keys of different families
    are different, whatever they are made from. Within a family a key
    determines the ids and, as numbers, the page and the limit it was made
    from, up to the sign of a zero, which the text of a number does not show
    (user ids without [:]). *)
Theorem keys_unambiguous :
  (forall id id', KEYS.PROPERTY id = KEYS.PROPERTY id' -> id = id')
  /\ (forall id id', KEYS.USER_PROFILE id = KEYS.USER_PROFILE id' -> id = id')
  /\ (forall q q', KEYS.PROPERTY_SEARCH q = KEYS.PROPERTY_SEARCH q' -> q = q')
  /\ (forall u u' page page' limit limit',
        colon_free u = true -> colon_free u' = true ->
        KEYS.USER_PROPERTIES u page limit = KEYS.USER_PROPERTIES u' page' limit' ->
        u = u'
        /\ same_number (default (1 : number) page) (default (1 : number) page')
        /\ same_number (default (10 : number) limit) (default (10 : number) limit'))
  /\ (forall u u' page page' limit limit',
        colon_free u = true -> colon_free u' = true ->
        KEYS.USER_FAVORITES u page limit = KEYS.USER_FAVORITES u' page' limit' ->
        u = u'
        /\ same_number (default (1 : number) page) (default (1 : number) page')
        /\ same_number (default (10 : number) limit) (default (10 : number) limit'))
  /\ (forall u u' p p',
        colon_free u = true -> colon_free u' = true ->
        KEYS.FAVORITE_STATUS u p = KEYS.FAVORITE_STATUS u' p' -> u = u' /\ p = p')
  /\ (forall id id' q u1 page1 limit1 u2 page2 limit2 u3 p,
        NoDup [KEYS.PROPERTY id; KEYS.USER_PROFILE id'; KEYS.PROPERTY_SEARCH q;
               KEYS.USER_PROPERTIES u1 page1 limit1; KEYS.USER_FAVORITES u2 page2 limit2;
               KEYS.FAVORITE_STATUS u3 p]).
Proof.
  split; [intros id id'; apply app_inv_head_str|].
  split; [intros id id'; apply app_inv_head_str|].
  split; [intros q q'; apply app_inv_head_str|].
  split; [intros u u' page page' limit limit' Hu Hu' Heq; by eapply paged_key_inj|].
  split; [intros u u' page page' limit limit' Hu Hu' Heq; by eapply paged_key_inj|].
  split.
  - intros u u' p p' Hu Hu' Heq. apply app_inv_head_str in Heq.
    assert (u = u') as <-.
    { revert Heq. change (":" +:+ ?x) with (String ":" x). by apply colon_free_sep. }
    by do 2 apply app_inv_head_str in Heq.
  - intros id id' q u1 page1 limit1 u2 page2 limit2 u3 p.
    unfold KEYS.PROPERTY, KEYS.USER_PROFILE, KEYS.PROPERTY_SEARCH, KEYS.USER_PROPERTIES,
      KEYS.USER_FAVORITES, KEYS.FAVORITE_STATUS.
    repeat (apply NoDup_cons; split;
            [rewrite ?elem_of_cons, elem_of_nil; intros Hin;
             repeat (destruct Hin as [Hin|Hin]; [discriminate Hin|]); done|]).
    apply NoDup_nil_2.
Qed.

(** ** The search key has no collisions *)

Lemma below_spec (P : N -> bool) k n :
  forallb P (below k) = true -> (n < N.of_nat k)%N -> P n = true.
Proof.
  intros Hall Hn. rewrite forallb_forall in Hall. apply Hall.
  unfold below. apply in_map_iff. exists (N.to_nat n). split; [lia|].
  apply in_seq. lia.
Qed.

Lemma below2_spec (P : N -> N -> bool) k a b :
  forallb (fun a => forallb (P a) (below k)) (below k) = true ->
  (a < N.of_nat k)%N -> (b < N.of_nat k)%N -> P a b = true.
Proof.
  intros Hall Ha Hb.
  apply (below_spec (fun a => forallb (P a) (below k)) k a) in Hall; [|done].
  by apply (below_spec (P a) k b) in Hall.
Qed.

Lemma base64_char_inj m n :
  (m < 64)%N -> (n < 64)%N -> base64_char m = base64_char n -> m = n.
Proof.
  intros Hm Hn Heq.
  pose proof (below2_spec
    (fun m n => implb (Ascii.eqb (base64_char m) (base64_char n)) (m =? n)%N) 64 m n) as Hb.
  cbv beta in Hb. rewrite Heq, Ascii.eqb_refl in Hb. cbn [implb] in Hb.
  apply N.eqb_eq, Hb; [by vm_compute|done|done].
Qed.

Lemma base64_char_not_pad n : (n < 64)%N -> base64_char n <> "="%char.
Proof.
  intros Hn Heq.
  pose proof (below_spec (fun n => negb (Ascii.eqb (base64_char n) "=")) 64 n) as Hb.
  cbv beta in Hb. rewrite Heq in Hb. discriminate Hb; [by vm_compute|done].
Qed.

Lemma sextets_below a b :
  (a < 256)%N -> (b < 256)%N ->
  (sextet1 a < 64)%N /\ (sextet2 a b < 64)%N /\ (sextet3 a b < 64)%N /\ (sextet4 a < 64)%N.
Proof.
  intros Ha Hb.
  pose proof (below2_spec
    (fun a b => (sextet1 a <? 64)%N && (sextet2 a b <? 64)%N && (sextet3 a b <? 64)%N
                && (sextet4 a <? 64)%N) 256 a b) as H.
  cbv beta in H. specialize (H ltac:(by vm_compute) Ha Hb).
  rewrite !andb_true_iff, !N.ltb_lt in H. tauto.
Qed.

Lemma sextets_recover a b :
  (a < 256)%N -> (b < 256)%N ->
  a = (4 * sextet1 a + sextet2 a b / 16)%N
  /\ (sextet2 a b mod 16 = b / 16)%N
  /\ (sextet3 a b / 4 = a mod 16)%N
  /\ (sextet3 a b mod 4 = b / 64)%N
  /\ (sextet4 a = a mod 64)%N.
Proof.
  intros Ha Hb.
  pose proof (below2_spec
    (fun a b => (a =? 4 * sextet1 a + sextet2 a b / 16)%N
                && (sextet2 a b mod 16 =? b / 16)%N
                && (sextet3 a b / 4 =? a mod 16)%N
                && (sextet3 a b mod 4 =? b / 64)%N
                && (sextet4 a =? a mod 64)%N) 256 a b) as H.
  cbv beta in H. specialize (H ltac:(by vm_compute) Ha Hb).
  rewrite !andb_true_iff, !N.eqb_eq in H. tauto.
Qed.

Lemma sextet2_0 a : sextet2 a 0 = N.shiftl (N.land a 3) 4.
Proof. unfold sextet2. apply N.lor_0_r. Qed.

Lemma sextet3_0 b : sextet3 b 0 = N.shiftl (N.land b 15) 2.
Proof. unfold sextet3. apply N.lor_0_r. Qed.

Lemma triple_inj a b c a' b' c' :
  (a < 256)%N -> (b < 256)%N -> (c < 256)%N ->
  (a' < 256)%N -> (b' < 256)%N -> (c' < 256)%N ->
  sextet1 a = sextet1 a' -> sextet2 a b = sextet2 a' b' ->
  sextet3 b c = sextet3 b' c' -> sextet4 c = sextet4 c' ->
  a = a' /\ b = b' /\ c = c'.
Proof.
  intros Ha Hb Hc Ha' Hb' Hc' H1 H2 H3 H4.
  destruct (sextets_recover a b Ha Hb) as (Ea & Eb & _).
  destruct (sextets_recover a' b' Ha' Hb') as (Ea' & Eb' & _).
  destruct (sextets_recover b c Hb Hc) as (_ & _ & Fb & Fc & _).
  destruct (sextets_recover b' c' Hb' Hc') as (_ & _ & Fb' & Fc' & _).
  destruct (sextets_recover c c Hc Hc) as (_ & _ & _ & _ & Gc).
  destruct (sextets_recover c' c' Hc' Hc') as (_ & _ & _ & _ & Gc').
  rewrite H1, H2 in Ea. rewrite H2 in Eb. rewrite H3 in Fb, Fc. rewrite H4 in Gc.
  split; [congruence|]. split.
  - rewrite (N.div_mod b 16), (N.div_mod b' 16) by done. congruence.
  - rewrite (N.div_mod c 64), (N.div_mod c' 64) by done. congruence.
Qed.

Lemma toString_base64_inj l : forall l',
  Forall (fun n => (n < 256)%N) l -> Forall (fun n => (n < 256)%N) l' ->
  toString_base64 l = toString_base64 l' -> l = l'.
Proof.
  remember (length l) as k eqn:Hk. assert (Hlen : (length l <= k)%nat) by lia.
  clear Hk. revert l Hlen. induction k as [|k IH]; intros l Hlen l' Hl Hl' Heq.
  { destruct l; [|cbn in Hlen; lia]. by destruct l' as [|a' [|b' [|c' r']]]. }
  assert (Hpad : forall n x, (n < 64)%N -> String (base64_char n) x <> String "=" x).
  { intros n x Hn [= Hc]. by apply base64_char_not_pad in Hc. }
  destruct l as [|a [|b [|c r]]], l' as [|a' [|b' [|c' r']]]; try done;
    repeat match goal with
           | H : Forall _ (_ :: _) |- _ => apply Forall_cons in H as [? H]
           end;
    cbn [toString_base64] in Heq;
    repeat change (N.lor (N.shiftl (N.land ?a 3) 4) (N.shiftr ?b 4)) with (sextet2 a b) in Heq;
    repeat change (N.lor (N.shiftl (N.land ?b 15) 2) (N.shiftr ?c 6)) with (sextet3 b c) in Heq;
    repeat change (N.shiftr ?a 2) with (sextet1 a) in Heq;
    repeat change (N.land ?c 63) with (sextet4 c) in Heq;
    rewrite <- ?sextet2_0, <- ?sextet3_0 in Heq;
    repeat match goal with
           | H : String _ _ = String _ _ |- _ => injection H as ? H
           end;
    repeat match goal with
           | H : base64_char ?m = base64_char ?n |- _ =>
               apply base64_char_inj in H;
               [|by apply sextets_below || (eapply sextets_below; done)..]
           end;
    try (exfalso; eapply base64_char_not_pad; [|eassumption || (symmetry; eassumption)];
         by apply sextets_below || (eapply sextets_below; done)).
  - destruct (triple_inj a 0 0 a' 0 0) as (-> & _); [done..|]. reflexivity.
  - destruct (triple_inj a b 0 a' b' 0) as (-> & -> & _); [done..|]. reflexivity.
  - destruct (triple_inj a b c a' b' c') as (-> & -> & ->); [done..|].
    f_equal. f_equal. f_equal. apply IH; [cbn in Hlen; lia|done|done|done].
Qed.

Lemma N_of_ascii_below c : (N_of_ascii c < 256)%N.
Proof. apply N_ascii_bounded. Qed.

Lemma utf8_char_bytes c : Forall (fun n => (n < 256)%N) (utf8_char c).
Proof.
  pose proof (below_spec
    (fun n => forallb (fun b => (b <? 256)%N) (utf8_char (ascii_of_N n))) 256
    (N_of_ascii c)) as H.
  cbv beta in H. rewrite ascii_N_embedding in H.
  specialize (H ltac:(by vm_compute) (N_of_ascii_below c)).
  apply Forall_forall. intros b Hb. apply N.ltb_lt.
  rewrite forallb_forall in H. apply H. by apply list_elem_of_In.
Qed.

Lemma Buffer_from_bytes s : Forall (fun n => (n < 256)%N) (Buffer_from s).
Proof.
  induction s as [|c s IH]; [constructor|]. cbn [Buffer_from].
  apply Forall_app. split; [apply utf8_char_bytes|done].
Qed.

(** The bytes of two characters, each followed by other bytes: the same
    bytes only for the same character. *)
Lemma utf8_char_inj c c' r r' :
  (utf8_char c ++ r = utf8_char c' ++ r')%list -> c = c' /\ r = r'.
Proof.
  pose proof (below2_spec
    (fun m n =>
       let x := utf8_char (ascii_of_N m) in
       let y := utf8_char (ascii_of_N n) in
       match x, y with
       | [a], [b] => implb (a =? b)%N (m =? n)%N && (a <? 128)%N && (b <? 128)%N
       | [a; a2], [b; b2] =>
           implb ((a =? b)%N && (a2 =? b2)%N) (m =? n)%N
           && (192 <=? a)%N && (192 <=? b)%N
           && (128 <=? a2)%N && (a2 <? 192)%N && (128 <=? b2)%N && (b2 <? 192)%N
       | [a], [b; b2] => (a <? 128)%N && (192 <=? b)%N && (128 <=? b2)%N && (b2 <? 192)%N
       | [a; a2], [b] => (b <? 128)%N && (192 <=? a)%N && (128 <=? a2)%N && (a2 <? 192)%N
       | _, _ => false
       end) 256 (N_of_ascii c) (N_of_ascii c')) as H.
  cbv beta zeta in H. rewrite !ascii_N_embedding in H.
  specialize (H ltac:(by vm_compute) (N_of_ascii_below c) (N_of_ascii_below c')).
  assert (Hc : (N_of_ascii c =? N_of_ascii c')%N = true -> c = c').
  { intros E%N.eqb_eq. by rewrite <- (ascii_N_embedding c), <- (ascii_N_embedding c'), E. }
  destruct (utf8_char c) as [|a [|a2 [|]]], (utf8_char c') as [|b [|b2 [|]]]; try done;
    cbn [app]; intros Heq.
  - injection Heq as -> ->. rewrite N.eqb_refl in H. cbn [implb] in H.
    apply andb_true_iff in H as [[H _]%andb_true_iff _]. auto.
  - injection Heq as -> Heq. exfalso.
    repeat (apply andb_true_iff in H as [H ?]).
    rewrite ?N.ltb_lt, ?N.leb_le in *. lia.
  - injection Heq as -> Heq. exfalso.
    repeat (apply andb_true_iff in H as [H ?]).
    rewrite ?N.ltb_lt, ?N.leb_le in *. lia.
  - injection Heq as -> -> ->. rewrite !N.eqb_refl in H. cbn [andb implb] in H.
    repeat (apply andb_true_iff in H as [H ?]). auto.
Qed.

Lemma Buffer_from_inj s : forall s', Buffer_from s = Buffer_from s' -> s = s'.
Proof.
  induction s as [|c s IH]; intros [|c' s'] Heq; [done| | |].
  - cbn [Buffer_from] in Heq. unfold utf8_char in Heq. by destruct (_ <? _)%N.
  - cbn [Buffer_from] in Heq. unfold utf8_char in Heq. by destruct (_ <? _)%N.
  - cbn [Buffer_from] in Heq.
    apply utf8_char_inj in Heq as [-> Heq].
    f_equal. by apply IH.
Qed.

Lemma obj_get_fold_define k (l : obj) : forall acc,
  obj_get k (fold_left (fun o kv => obj_define (fst kv) (snd kv) o) l acc)
  = obj_get k (rev l ++ acc)%list.
Proof.
  induction l as [|[k' v'] l IH]; intros acc; [done|]. cbn [fold_left rev fst snd].
  rewrite IH, <- app_assoc, obj_get_app, (obj_get_app k (rev l)). cbn [app obj_get].
  by rewrite obj_get_define.
Qed.

Lemma obj_keys_replace k v (o : obj) : obj_keys (obj_replace k v o) = obj_keys o.
Proof.
  induction o as [|[k1 v1] o IH]; [done|]. cbn [obj_replace].
  destruct (String.eqb k k1); [done|]. unfold obj_keys in *. cbn [map fst]. by rewrite IH.
Qed.

Lemma obj_keys_add_index n k v (o : obj) :
  obj_keys (obj_add_index n k v o) ≡ₚ k :: obj_keys o.
Proof.
  induction o as [|[k1 v1] o IH]; [done|]. cbn [obj_add_index].
  destruct (array_index k1) as [n'|]; [destruct (n' <? n)%N|]; try done.
  unfold obj_keys in *. cbn [map fst]. rewrite IH. apply Permutation_swap.
Qed.

Lemma obj_keys_define k v (o : obj) :
  obj_keys (obj_define k v o) ≡ₚ if obj_has k o then obj_keys o else k :: obj_keys o.
Proof.
  unfold obj_define. destruct (obj_has k o).
  - by rewrite obj_keys_replace.
  - destruct (array_index k); [apply obj_keys_add_index|].
    unfold obj_keys. rewrite map_app. cbn [map fst]. by rewrite Permutation_app_comm.
Qed.

Lemma obj_define_NoDup k v (o : obj) : NoDup (obj_keys o) -> NoDup (obj_keys (obj_define k v o)).
Proof.
  intros Hnd. rewrite obj_keys_define. destruct (obj_has k o) eqn:Hh; [done|].
  apply NoDup_cons. split; [|done].
  rewrite obj_has_keys in Hh. by apply bool_decide_eq_false in Hh.
Qed.

Lemma obj_define_Forall (P : jsval -> Prop) k v (o : obj) :
  P v -> Forall (fun kv => P (snd kv)) o -> Forall (fun kv => P (snd kv)) (obj_define k v o).
Proof.
  intros Hv Ho. unfold obj_define. destruct (obj_has k o).
  - induction Ho as [|[k1 v1] o H1 Ho IH]; [constructor|]. cbn [obj_replace].
    destruct (String.eqb k k1); constructor; done.
  - destruct (array_index k) as [n|].
    + induction Ho as [|[k1 v1] o H1 Ho IH]; [by repeat constructor|]. cbn [obj_add_index].
      destruct (array_index k1) as [n'|]; [destruct (n' <? n)%N|]; by repeat constructor.
    + apply Forall_app. split; [done|]. by repeat constructor.
Qed.

(** The object that [generateSearchKey] builds has its keys once, holds the
    values of the query, and nothing under [__proto__]. *)
Lemma sortedQuery_fold (query : obj) (P : jsval -> Prop) ks : forall acc,
  (forall k, k ∈ ks -> k <> "__proto__" -> P (obj_get k query)) ->
  NoDup (obj_keys acc) -> Forall (fun kv => P (snd kv)) acc ->
  let o := fold_left (fun o key => obj_set key (obj_get key query) o) ks acc in
  NoDup (obj_keys o) /\ Forall (fun kv => P (snd kv)) o
  /\ forall k, obj_get k o
               = if bool_decide (k ∈ ks) && negb (String.eqb k "__proto__")
                 then obj_get k query else obj_get k acc.
Proof.
  induction ks as [|key ks IH]; intros acc HP Hnd Hacc; cbn [fold_left].
  { repeat split; try done. }
  destruct (IH (obj_set key (obj_get key query) acc)) as (H1 & H2 & H3).
  - intros k Hk. apply HP. by right.
  - unfold obj_set. destruct (String.eqb key "__proto__"); [done|]. by apply obj_define_NoDup.
  - unfold obj_set. destruct (String.eqb_spec key "__proto__"); [done|].
    apply obj_define_Forall; [|done]. apply HP; [by left|done].
  - split; [done|]. split; [done|]. intros k. rewrite H3.
    unfold obj_set.
    destruct (String.eqb_spec k "__proto__") as [->|Hkp]; cbn [negb];
      rewrite ?andb_false_r, ?andb_true_r.
    + destruct (String.eqb_spec key "__proto__") as [->|Hne]; [done|].
      rewrite obj_get_define. by rewrite (proj2 (String.eqb_neq "__proto__" key)).
    + destruct (decide (k ∈ ks)) as [Hin|Hout].
      * rewrite !bool_decide_eq_true_2; [done|by right|done].
      * rewrite (bool_decide_eq_false_2 (k ∈ ks)) by done.
        destruct (String.eqb_spec k key) as [->|Hne].
        -- rewrite bool_decide_eq_true_2 by left.
           rewrite (proj2 (String.eqb_neq key "__proto__")) by done.
           by rewrite obj_get_define, String.eqb_refl.
        -- rewrite bool_decide_eq_false_2 by (rewrite elem_of_cons; by intros [?|?]).
           destruct (String.eqb key "__proto__"); [done|].
           rewrite obj_get_define. by rewrite (proj2 (String.eqb_neq k key)).
Qed.

Lemma obj_get_in_keys (o : obj) k : k ∈ obj_keys o -> (k, obj_get k o) ∈ o.
Proof.
  induction o as [|[k1 v1] o IH]; [by intros ?%elem_of_nil|]. cbn [obj_get obj_keys map fst].
  intros Hk. destruct (String.eqb_spec k k1) as [->|Hne]; [left|].
  right. apply IH. by apply elem_of_cons in Hk as [?|?].
Qed.

Lemma sortedQuery_spec (query : obj) :
  (forall k v, (k, v) ∈ query -> plain v = true) ->
  NoDup (obj_keys (sortedQuery query))
  /\ Forall (fun kv => plain (snd kv) = true) (sortedQuery query)
  /\ forall k, obj_get k (sortedQuery query)
               = if String.eqb k "__proto__" then VUndef else obj_get k query.
Proof.
  intros Hplain.
  destruct (sortedQuery_fold query
              (fun v => plain v = true) (sort_keys (obj_keys query)) [])
    as (H1 & H2 & H3).
  - intros k Hk _. unfold sort_keys in Hk. rewrite merge_sort_Permutation in Hk.
    eapply Hplain. by apply obj_get_in_keys.
  - constructor.
  - constructor.
  - split; [exact H1|]. split; [exact H2|].
    intros k. unfold sortedQuery. rewrite H3. cbn [obj_get].
    destruct (String.eqb k "__proto__"); [by rewrite andb_false_r|].
    rewrite andb_true_r. case_bool_decide as Hin; [done|].
    unfold sort_keys in Hin. rewrite merge_sort_Permutation in Hin.
    symmetry. by apply obj_get_absent.
Qed.

Lemma plain_members_image (l : obj) :
  Forall (fun kv => plain (snd kv) = true) l ->
  omap (fun kv => match snd kv with
                  | VUndef => None
                  | _ => Some (fst kv, json_image (snd kv))
                  end) l = l.
Proof.
  induction 1 as [|[k v] l Hv Hl IH]; [done|]. rewrite omap_cons', IH. cbn [fst snd] in *.
  rewrite (plain_image v Hv). by destruct v.
Qed.

Lemma obj_get_rev (l : obj) k : NoDup (obj_keys l) -> obj_get k (rev l) = obj_get k l.
Proof.
  intros Hnd. destruct (decide (k ∈ obj_keys l)) as [Hin|Hout].
  - unfold obj_keys in Hin. apply list_elem_of_fmap in Hin as ([k' v] & -> & Hin).
    cbn [fst]. rewrite (obj_get_elem l k' v Hnd Hin).
    apply obj_get_elem; [|by rewrite <- Permutation_rev].
    unfold obj_keys. rewrite map_rev. by rewrite <- Permutation_rev.
  - rewrite (obj_get_absent l k Hout). apply obj_get_absent.
    unfold obj_keys in *. rewrite map_rev. by rewrite <- Permutation_rev.
Qed.

(** X6. The search key has no collisions: two queries whose values JSON
    carries without loss get the same key only if they hold the same value
    under every name (other than [__proto__], which the key leaves out). *)
Theorem search_key_injective (Q1 Q2 : obj) :
  (forall k v, (k, v) ∈ Q1 -> plain v = true) ->
  (forall k v, (k, v) ∈ Q2 -> plain v = true) ->
  generateSearchKey Q1 = generateSearchKey Q2 ->
  forall k, k <> "__proto__" -> obj_get k Q1 = obj_get k Q2.
Proof.
  intros HQ1 HQ2 Hkey k Hk.
  destruct (sortedQuery_spec Q1 HQ1) as (Hnd1 & Hp1 & Hg1).
  destruct (sortedQuery_spec Q2 HQ2) as (Hnd2 & Hp2 & Hg2).
  unfold generateSearchKey in Hkey.
  destruct (JSON_stringify (VObj (sortedQuery Q1))) as [t1|] eqn:E1; [|done].
  destruct (JSON_stringify (VObj (sortedQuery Q2))) as [t2|] eqn:E2; [|done].
  injection Hkey as Hkey.
  apply toString_base64_inj in Hkey; [|apply Buffer_from_bytes..].
  apply Buffer_from_inj in Hkey as <-.
  apply JSON_roundtrip in E1, E2. rewrite E1 in E2. injection E2 as E.
  rewrite !plain_members_image in E by done. unfold build_object in E.
  apply (f_equal (obj_get k)) in E. rewrite !obj_get_fold_define, !app_nil_r in E.
  rewrite !obj_get_rev, Hg1, Hg2 in E by done.
  by rewrite (proj2 (String.eqb_neq k "__proto__")) in E.
Qed.

Lemma search_key_injective_witness :
  generateSearchKey [("page", VStr "1"); ("city", VStr "Pune")]
  = generateSearchKey [("city", VStr "Pune"); ("page", VStr "1")]
  /\ obj_get "city" [("page", VStr "1"); ("city", VStr "Pune")]
     = obj_get "city" [("city", VStr "Pune"); ("page", VStr "1")].
Proof.
  split; [vm_compute; reflexivity|].
  apply (search_key_injective [("page", VStr "1"); ("city", VStr "Pune")]
                              [("city", VStr "Pune"); ("page", VStr "1")]).
  - intros k v Hin. rewrite !elem_of_cons, elem_of_nil in Hin.
    destruct Hin as [[= -> ->]|[[= -> ->]|[]]]; reflexivity.
  - intros k v Hin. rewrite !elem_of_cons, elem_of_nil in Hin.
    destruct Hin as [[= -> ->]|[[= -> ->]|[]]]; reflexivity.
  - vm_compute. reflexivity.
  - discriminate.
Defined.

(** ** What the controllers answer *)

Lemma try_catch_responds {S} (body : M S response) handler (codes : list Z) s :
  (forall r s', body s = (Ok r, s') -> status r ∈ codes) ->
  (forall e s0, exists r, handler e s0 = (Ok r, s0) /\ status r ∈ codes) ->
  exists r, run (try_catch body handler) s = Ok r /\ status r ∈ codes.
Proof.
  intros Hb Hh. unfold run, try_catch. destruct (body s) as [[r|e] s'] eqn:E.
  - exists r. split; [done|]. by eapply Hb.
  - destruct (Hh e s') as (r & -> & Hr). by exists r.
Qed.

Ltac code_in := cbn [status failure]; by repeat constructor.

(** Follow a run that ended in a response through the binds and the
    branches of the body. *)
Ltac walk H :=
  repeat first
    [ apply ret_inv in H as [<- _]
    | apply bind_inv in H as (? & ? & _ & H)
    | match type of H with
      | context [match ?x with _ => _ end] => destruct x
      end ].

Ltac handler_codes :=
  intros ? ?; repeat match goal with
                     | |- context [if ?c then _ else _] => destruct c
                     end; eexists; (split; [reflexivity|code_in]).

Section responses.
Context {D : Type} `{DurableStore D}.

(** X7. No exception leaves a controller: whatever the durable store and the
    cache do, each controller answers, with one of its status codes. *)
Theorem controllers_always_respond (w : world D) :
  (forall u req, exists r,
      run (addToFavorites u req) w = Ok r /\ status r ∈ [201; 400; 404; 500])
  /\ (forall u p, exists r,
      run (removeFromFavorites u p) w = Ok r /\ status r ∈ [200; 400; 404; 500])
  /\ (forall u id req, exists r,
      run (updateFavorite u id req) w = Ok r /\ status r ∈ [200; 400; 404; 500])
  /\ (forall u p, exists r,
      run (checkFavoriteStatus u p) w = Ok r /\ status r ∈ [200; 500])
  /\ (forall u data, exists r,
      run (createProperty u data) w = Ok r /\ status r ∈ [201; 400; 500])
  /\ (forall id, exists r,
      run (getPropertyById id) w = Ok r /\ status r ∈ [200; 400; 404; 500])
  /\ (forall u id body, exists r,
      run (updateProperty u id body) w = Ok r /\ status r ∈ [200; 400; 404; 500])
  /\ (forall u id, exists r,
      run (deleteProperty u id) w = Ok r /\ status r ∈ [200; 400; 404; 500]).
Proof.
  repeat split; intros.
  - apply try_catch_responds; [|handler_codes]. intros r s' Hr. walk Hr; code_in.
  - apply try_catch_responds; [|handler_codes]. intros r s' Hr. walk Hr; code_in.
  - apply try_catch_responds; [|handler_codes]. intros r s' Hr. walk Hr; code_in.
  - apply try_catch_responds; [|handler_codes]. intros r s' Hr. walk Hr; code_in.
  - apply try_catch_responds; [|handler_codes]. intros r s' Hr. walk Hr; code_in.
  - apply try_catch_responds; [|handler_codes]. intros r s' Hr. walk Hr; code_in.
  - apply try_catch_responds; [|handler_codes]. intros r s' Hr. walk Hr; code_in.
  - apply try_catch_responds; [|handler_codes]. intros r s' Hr. walk Hr; code_in.
Qed.
End responses.

Lemma user_favorites_pattern_matches u page limit :
  glob_literal u = true ->
  stringmatch ("user:favorites:" +:+ u +:+ ":*") (KEYS.USER_FAVORITES u page limit) = true.
Proof.
  intros Hu. unfold KEYS.USER_FAVORITES.
  replace ("user:favorites:" +:+ u +:+ ":*")
    with (("user:favorites:" +:+ u +:+ ":") +:+ "*") by by rewrite !string_app_assoc.
  replace ("user:favorites:" +:+ u +:+ ":" +:+ Number_toString (default (1 : number) page) +:+ ":"
             +:+ Number_toString (default (10 : number) limit))
    with (("user:favorites:" +:+ u +:+ ":")
            +:+ (Number_toString (default (1 : number) page) +:+ ":" +:+ Number_toString (default (10 : number) limit)))
    by by rewrite !string_app_assoc.
  apply stringmatch_prefix; [|done].
  rewrite !glob_literal_app, Hu. reflexivity.
Qed.

Lemma status_plain st : plain (status_js st) = true.
Proof. destruct st as [b [id|]]; reflexivity. Qed.

Lemma status_truthy st : truthy (status_js st) = true.
Proof. by destruct st as [b [id|]]. Qed.

Lemma plain_stringify_some v : plain v = true -> is_Some (JSON_stringify v).
Proof. intros Hv. destruct (plain_stringify v Hv) as [t Ht]. by exists t. Qed.

(** What a read finds after a write of a JSON-plain value, the store being
    available: the value, for as long as the TTL lasts. *)
Lemma decoded_after_write key data ttl s dt :
  store_up s = true -> 0 < ttl -> 0 <= dt < ttl -> plain data = true ->
  decoded (cached (tick dt (exec (setCache key data ttl) s)) key) = data.
Proof.
  intros Hup Httl Hdt Hpl. destruct (plain_stringify data Hpl) as [t Ht].
  pose proof (read_after_write key data ttl s dt t Hup Httl Hdt Ht) as Hr.
  rewrite getCache_spec in Hr. injection Hr as Hr. by rewrite Hr, plain_image.
Qed.

Section reads.
Context {D : Type} `{DurableStore D}.

(** X8. After a [removeFromFavorites] that succeeds, the favorite-status entry
    of the pair is not in the cache: the [isFavorited: false] it has just
    written is deleted by [invalidateFavorites] with the user's other status
    entries and list pages. *)
Theorem removeFromFavorites_drops_status (w w' : world D) u p resp :
  removeFromFavorites u p w = (Ok resp, w') ->
  status resp = 200 ->
  glob_literal u = true ->
  (forall p', cached (cache w') (KEYS.FAVORITE_STATUS u p') = None)
  /\ (forall page limit, cached (cache w') (KEYS.USER_FAVORITES u page limit) = None)
  /\ getCachedFavoriteStatus u p (cache w') = (Ok VNull, cache w').
Proof.
  intros Hrun Hst Hu.
  assert (forall k, stringmatch ("user:favorites:" +:+ u +:+ ":*") k
                    || stringmatch ("favorite:status:" +:+ u +:+ ":*") k = true ->
                    cached (cache w') k = None) as Hc.
  { unfold removeFromFavorites in Hrun.
    apply (try_catch_inv _ _ _ _ _ 200) in Hrun; [|clear|done].
    2:{ intros e s0 r s1.
        repeat match goal with |- context [if ?c then _ else _] => destruct c end;
          intros [<- _]%ret_inv; discriminate. }
    destruct (negb (truthy (VStr p))).
    { apply ret_inv in Hrun as [<- _]. discriminate Hst. }
    apply bind_inv in Hrun as ([deleted|] & w1 & _ & Hrun).
    2:{ apply ret_inv in Hrun as [<- _]. discriminate Hst. }
    apply bind_inv in Hrun as ([] & w2 & _ & Hrun).
    apply bind_inv in Hrun as ([] & w3 & Hinv & Hrun).
    apply ret_inv in Hrun as [_ <-].
    apply liftC_inv in Hinv as [_ ->]. cbn [cache].
    intros k Hk. by rewrite invalidateFavorites_cached, Hk. }
  split; [|split].
  - intros p'. apply Hc. by rewrite (status_pattern_matches u p' Hu), orb_true_r.
  - intros page limit. apply Hc. by rewrite (user_favorites_pattern_matches u page limit Hu).
  - unfold getCachedFavoriteStatus. rewrite (getCache_spec _ (cache w')).
    rewrite Hc; [done|]. by rewrite (status_pattern_matches u p Hu), orb_true_r.
Qed.

(** X9. [checkFavoriteStatus] reads through the cache. On a miss it asks the
    favorites collection and caches the status; for the next 600 seconds it
    gives the same answer from the cache without asking the collection,
    whatever the collection holds by then. *)
Theorem checkFavoriteStatus_read_through (w : world D) u p fav d' :
  store_up (cache w) = true ->
  cached (cache w) (KEYS.FAVORITE_STATUS u p) = None ->
  Favorite_findOne u p (durable w) = (Ok fav, d') ->
  let w1 := exec (checkFavoriteStatus u p) w in
  let answer :=
    mk_response 200
      (VObj [("success", VBool true);
             ("message", VStr "Favorite status retrieved");
             ("isFavorited", VBool (bool_decide (is_Some fav)));
             ("favoriteId",
              js_or (from_option (fun f => VStr (fav_id f)) VUndef fav) VNull)]) in
  run (checkFavoriteStatus u p) w = Ok answer
  /\ durable w1 = d'
  /\ forall dt d2, 0 <= dt < 600 ->
       checkFavoriteStatus u p (mk_world d2 (tick dt (cache w1)))
       = (Ok answer, mk_world d2 (tick dt (cache w1))).
Proof.
  intros Hup Hmiss Hfind w1 answer.
  set (st := mk_status (bool_decide (is_Some fav))
               (match js_or (from_option (fun f => VStr (fav_id f)) VUndef fav) VNull with
                | VStr id =>
                    if truthy (js_or (from_option (fun f => VStr (fav_id f)) VUndef fav) VNull)
                    then Some id else None
                | _ => None
                end)).
  assert (checkFavoriteStatus u p w
          = (Ok answer, mk_world d' (exec (cacheFavoriteStatus u p st) (cache w)))) as Hrun.
  { unfold checkFavoriteStatus, try_catch. unfold getCachedFavoriteStatus.
    rewrite getCache_bind, Hmiss. cbn [decoded truthy].
    rewrite (liftD_bind _ _ _ _ _ Hfind).
    rewrite liftC_seq by apply cacheFavoriteStatus_ok. cbn [cache durable].
    subst answer st. by destruct fav. }
  assert (Hw : w1 = mk_world d' (exec (cacheFavoriteStatus u p st) (cache w)))
    by (subst w1; unfold exec at 1; by rewrite Hrun).
  clearbody w1. subst w1. unfold run. rewrite Hrun. cbn [fst durable cache].
  split; [done|]. split; [done|]. intros dt d2 Hdt.
  unfold checkFavoriteStatus, try_catch, getCachedFavoriteStatus.
  rewrite getCache_bind. cbn [cache]. unfold cacheFavoriteStatus.
  rewrite decoded_after_write; [|done|done|done|apply status_plain].
  rewrite status_truthy. unfold ret. f_equal. f_equal. subst answer st.
  destruct fav as [f|]; [|reflexivity]. cbn [from_option].
  unfold js_or. cbn [truthy].
  destruct (String.eqb (fav_id f) "") eqn:E; cbn; rewrite ?E; cbn; rewrite ?E; reflexivity.
Qed.
End reads.

(** One call of the durable store, by cases on what it returns. *)
Ltac store_call :=
  unfold bind at 1, liftD;
  match goal with
  | |- context [let '(r, d) := ?m ?d0 in _] =>
      let E := fresh "E" in destruct (m d0) as [[?|?] ?] eqn:E
  end.

(** The branch on an optional document, or on a test. *)
Ltac branch :=
  match goal with
  | |- context [match ?x with Some _ => _ | None => _ end] => destruct x
  | |- context [if ?c then _ else _] => destruct c
  end.

(** One call of the cache service that returns nothing. *)
Ltac cache_ok :=
  lazymatch goal with
  | |- run (cacheProperty _) _ = _ => apply cacheProperty_ok
  | |- run (cacheUserProfile _) _ = _ => apply cacheUserProfile_ok
  | |- run invalidatePropertySearches _ = _ => apply invalidatePropertySearches_ok
  | |- run (invalidateUserProperties _) _ = _ => apply invalidateUserProperties_ok
  | |- run (invalidateFavorites _) _ = _ => apply invalidateFavorites_ok
  | |- run (invalidateProperty _) _ = _ => apply invalidateProperty_ok
  | |- run (cacheFavoriteStatus _ _ _) _ = _ => apply cacheFavoriteStatus_ok
  | |- run (setCache _ _ _) _ = _ => apply setCache_ok
  | |- run (deleteCache _) _ = _ => apply deleteCache_ok
  | |- run (deleteCachePattern _) _ = _ => apply deleteCachePattern_ok
  end.

Ltac cache_call := rewrite liftC_seq by cache_ok.

Section failures.
Context {D : Type} `{DurableStore D}.

(** X10. A request that fails leaves the cache as it was: the controllers
    below write to the cache or invalidate only after the durable store has
    done its part, and a request answered with an error status has not come
    that far. *)
Theorem failures_leave_cache (w : world D) :
  (forall u data r w', createProperty u data w = (Ok r, w') ->
     status r <> 201 -> cache w' = cache w)
  /\ (forall u id body r w', updateProperty u id body w = (Ok r, w') ->
     status r <> 200 -> cache w' = cache w)
  /\ (forall u id r w', deleteProperty u id w = (Ok r, w') ->
     status r <> 200 -> cache w' = cache w)
  /\ (forall u p r w', removeFromFavorites u p w = (Ok r, w') ->
     status r <> 200 -> cache w' = cache w)
  /\ (forall u id req r w', updateFavorite u id req w = (Ok r, w') ->
     status r <> 200 -> cache w' = cache w)
  /\ (forall id r w', getPropertyById id w = (Ok r, w') ->
     status r <> 200 -> cache w' = cache w)
  /\ (forall u p r w', checkFavoriteStatus u p w = (Ok r, w') ->
     status r <> 200 -> cache w' = cache w).
Proof.
  repeat split.
  - intros u data r w'. unfold createProperty, try_catch.
    destruct (first_missing requiredFields data); [by intros [= <- <-]|].
    store_call; [|by repeat case_match; intros [= <- <-]].
    branch; [by intros [= <- <-]|].
    store_call; [|by repeat case_match; intros [= <- <-]].
    do 3 cache_call. by intros [= <- <-].
  - intros u id body r w'. unfold updateProperty, try_catch.
    store_call; [|by repeat case_match; intros [= <- <-]].
    branch; [|by intros [= <- <-]].
    do 3 cache_call. by intros [= <- <-].
  - intros u id r w'. unfold deleteProperty, try_catch.
    store_call; [|by repeat case_match; intros [= <- <-]].
    branch; [|by intros [= <- <-]].
    do 2 cache_call. by intros [= <- <-].
  - intros u p r w'. unfold removeFromFavorites, try_catch.
    branch; [by intros [= <- <-]|].
    store_call; [|by repeat case_match; intros [= <- <-]].
    branch; [|by intros [= <- <-]].
    do 2 cache_call. by intros [= <- <-].
  - intros u id req r w'. unfold updateFavorite, try_catch.
    store_call; [|by repeat case_match; intros [= <- <-]].
    branch; [|by intros [= <- <-]].
    cache_call. by intros [= <- <-].
  - intros id r w'. unfold getPropertyById, try_catch, getCachedProperty.
    rewrite getCache_bind. branch; [by intros [= <- <-]|].
    store_call; [|by repeat case_match; intros [= <- <-]].
    branch; [|by intros [= <- <-]].
    cache_call. by intros [= <- <-].
  - intros u p r w'. unfold checkFavoriteStatus, try_catch, getCachedFavoriteStatus.
    rewrite getCache_bind. branch; [by intros [= <- <-]|].
    store_call; [|by repeat case_match; intros [= <- <-]].
    cache_call. by intros [= <- <-].
Qed.
End failures.

Lemma first_missing_split fs data pre field post :
  fs = (pre ++ field :: post)%list ->
  Forall (fun g => truthy (obj_get g data) = true) pre ->
  truthy (obj_get field data) = false ->
  first_missing fs data = Some field.
Proof.
  intros -> Hpre Hf. induction Hpre as [|g pre Hg Hpre IH]; cbn [app first_missing].
  - by rewrite Hf.
  - by rewrite Hg.
Qed.

(** The pattern of one user's property lists matches keys of that family only. *)
Lemma user_properties_pattern_prefix u k :
  stringmatch ("user:properties:" +:+ u +:+ ":*") k = true ->
  String.prefix "user:properties:" k = true.
Proof. by apply stringmatch_literal_prefix. Qed.

Section property_controllers.
Context {D : Type} `{DurableStore D}.

(** X11. [createProperty] refuses a request in which a required field is
    falsy (absent, empty, [false] or the number 0) with status 400 and the
    name of the first such field, before it reads the store or touches the
    cache. *)
Theorem createProperty_requires (w : world D) u data pre field post :
  requiredFields = (pre ++ field :: post)%list ->
  Forall (fun g => truthy (obj_get g data) = true) pre ->
  truthy (obj_get field data) = false ->
  createProperty u data w = (Ok (failure 400 (field +:+ " is required")), w).
Proof.
  intros Hfs Hpre Hf. unfold createProperty, try_catch.
  by rewrite (first_missing_split _ _ _ _ _ Hfs Hpre Hf).
Qed.

Lemma getPropertyById_miss_run (w : world D) id doc d' :
  cached (cache w) (KEYS.PROPERTY id) = None ->
  Property_findById id (durable w) = (Ok (Some doc), d') ->
  doc_id doc = id -> id <> "" ->
  getPropertyById id w
  = (Ok (mk_response 200
           (VObj [("success", VBool true);
                  ("message", VStr "Property retrieved successfully");
                  ("property", entity_js (propertyResponse doc))])),
     mk_world d' (exec (setCache (KEYS.PROPERTY id) (entity_js (propertyResponse doc))
                                 TTL.PROPERTY) (cache w))).
Proof.
  intros Hmiss Hfind Hid Hne.
  unfold getPropertyById, try_catch, getCachedProperty.
  rewrite getCache_bind, Hmiss. cbn [decoded truthy].
  rewrite (liftD_bind _ _ _ _ _ Hfind).
  rewrite liftC_seq by apply cacheProperty_ok. cbn [cache durable].
  unfold ret. f_equal. f_equal. unfold cacheProperty. cbn [propertyResponse _id].
  rewrite Hid. apply String.eqb_neq in Hne. cbn [truthy]. by rewrite Hne.
Qed.

(** X12. [getPropertyById] reads through the cache. On a miss it asks the
    store and caches the property it answers with; for the next 900 seconds
    it answers with the cached copy (the JSON image) and does not ask the
    store, whatever the store holds by then. *)
Theorem getPropertyById_read_through (w : world D) id doc d' :
  store_up (cache w) = true ->
  cached (cache w) (KEYS.PROPERTY id) = None ->
  Property_findById id (durable w) = (Ok (Some doc), d') ->
  doc_id doc = id -> id <> "" ->
  let w1 := exec (getPropertyById id) w in
  let found v :=
    mk_response 200
      (VObj [("success", VBool true);
             ("message", VStr "Property retrieved successfully");
             ("property", v)]) in
  let p := entity_js (propertyResponse doc) in
  run (getPropertyById id) w = Ok (found p)
  /\ durable w1 = d'
  /\ forall dt d2, 0 <= dt < 900 ->
       getPropertyById id (mk_world d2 (tick dt (cache w1)))
       = (Ok (found (json_image p)), mk_world d2 (tick dt (cache w1))).
Proof.
  intros Hup Hmiss Hfind Hid Hne w1 found p.
  assert (getPropertyById id w
          = (Ok (found p),
             mk_world d' (exec (setCache (KEYS.PROPERTY id) p TTL.PROPERTY) (cache w))))
    as Hrun by by apply getPropertyById_miss_run.
  assert (Hw : w1 = mk_world d' (exec (setCache (KEYS.PROPERTY id) p TTL.PROPERTY) (cache w)))
    by (subst w1; unfold exec at 1; by rewrite Hrun).
  clearbody w1. subst w1. unfold run. rewrite Hrun. cbn [fst durable cache].
  split; [done|]. split; [done|]. intros dt d2 Hdt.
  unfold getPropertyById, try_catch, getCachedProperty.
  rewrite getCache_bind. cbn [cache].
  assert (exists t, JSON_stringify p = Some t) as [t Ht] by (cbn; eauto).
  pose proof (read_after_write (KEYS.PROPERTY id) p TTL.PROPERTY (cache w) dt t
                Hup eq_refl Hdt Ht) as Hr.
  rewrite getCache_spec in Hr. injection Hr as Hr. rewrite Hr.
  subst p. unfold entity_js at 1. cbn [propertyResponse _id json_image truthy]. done.
Qed.

(** X13. [deleteProperty] removes the entry of the property, every search
    entry and every user's property lists, and leaves the favorites entries
    and the user profiles as they were: a favorite status cached for the
    deleted property stays in the cache. *)
Theorem deleteProperty_keeps_favorites (w : world D) u id doc d' :
  Property_findByIdAndDelete id (durable w) = (Ok (Some doc), d') ->
  let w' := exec (deleteProperty u id) w in
  run (deleteProperty u id) w
    = Ok (mk_response 200
            (VObj [("success", VBool true);
                   ("message", VStr "Property deleted successfully")]))
  /\ durable w' = d'
  /\ cached (cache w') (KEYS.PROPERTY id) = None
  /\ (forall q, cached (cache w') (KEYS.PROPERTY_SEARCH q) = None)
  /\ (forall u' page limit, cached (cache w') (KEYS.USER_PROPERTIES u' page limit) = None)
  /\ (forall u' p, cached (cache w') (KEYS.FAVORITE_STATUS u' p)
                   = cached (cache w) (KEYS.FAVORITE_STATUS u' p))
  /\ (forall u' page limit, cached (cache w') (KEYS.USER_FAVORITES u' page limit)
                            = cached (cache w) (KEYS.USER_FAVORITES u' page limit))
  /\ (forall id', cached (cache w') (KEYS.USER_PROFILE id')
                  = cached (cache w) (KEYS.USER_PROFILE id')).
Proof.
  intros Hd w'.
  set (c1 := exec (invalidateProperty id) (cache w)).
  assert (deleteProperty u id w
          = (Ok (mk_response 200
                   (VObj [("success", VBool true);
                          ("message", VStr "Property deleted successfully")])),
             mk_world d' (exec (invalidateUserProperties u) c1))) as Hrun.
  { unfold deleteProperty, try_catch.
    rewrite (liftD_bind _ _ _ _ _ Hd). by do 2 cache_call. }
  assert (Hw : w' = mk_world d' (exec (invalidateUserProperties u) c1))
    by (subst w'; unfold exec at 1; by rewrite Hrun).
  clearbody w'. subst w'. unfold run. rewrite Hrun. cbn [fst durable cache].
  destruct (invalidateProperty_entries id (cache w)) as (Hp & Hs & Hl & Hrest).
  fold c1 in Hp, Hs, Hl, Hrest.
  assert (Hc : forall k, cached (exec (invalidateUserProperties u) c1) k
                 = if stringmatch "search:properties:*" k
                      || stringmatch ("user:properties:" +:+ u +:+ ":*") k
                   then None else cached c1 k).
  { intros k. unfold exec at 1. rewrite invalidateUserProperties_run. cbn [snd].
    rewrite !deleteCachePattern_cached.
    by destruct (stringmatch "search:properties:*" k), (stringmatch _ k). }
  assert (Hgone : forall k, cached c1 k = None ->
                            cached (exec (invalidateUserProperties u) c1) k = None).
  { intros k Hk. rewrite Hc, Hk. by destruct (_ || _). }
  assert (Hkeep : forall k, k <> KEYS.PROPERTY id ->
                    String.prefix "search:properties:" k = false ->
                    String.prefix "user:properties:" k = false ->
                    cached (exec (invalidateUserProperties u) c1) k = cached (cache w) k).
  { intros k H1 H2 H3. rewrite Hc, (Hrest k H1 H2 H3).
    rewrite (stringmatch_literal_star "search:properties:"), H2 by done.
    destruct (stringmatch ("user:properties:" +:+ u +:+ ":*") k) eqn:Hm; [|done].
    apply user_properties_pattern_prefix in Hm. congruence. }
  repeat split; try (intros; apply Hgone; auto; fail).
  - intros u' p. by apply Hkeep.
  - intros u' page limit. by apply Hkeep.
  - intros id'. by apply Hkeep.
Qed.
End property_controllers.

(** ** The client and the maintenance routes *)

Lemma env_eta s c : client s = Some c ->
  mk_env (Some (mk_connection (db c) (reachable c))) (time s) = s.
Proof. destruct s as [[[]|] ?]; by intros [= <-]. Qed.

Lemma clearAllCache_run s :
  clearAllCache s
  = (Ok tt,
     match client s with
     | Some c => if reachable c then mk_env (Some (mk_connection ∅ true)) (time s) else s
     | None => s
     end).
Proof.
  unfold clearAllCache, try_catch, bind, getClient, redis_flushdb, command.
  destruct (client s) as [c|] eqn:Ec; [|done]. rewrite Ec.
  by destruct (reachable c).
Qed.

Lemma clearAllCache_cached s k : cached (exec clearAllCache s) k = None.
Proof.
  unfold exec. rewrite clearAllCache_run. cbn [snd]. unfold cached.
  destruct (client s) as [c|] eqn:Ec; [|by rewrite Ec].
  destruct (reachable c) eqn:Er; [done|]. by rewrite Ec, Er.
Qed.

Lemma clearAllCache_down s : store_up s = false -> exec clearAllCache s = s.
Proof.
  unfold exec. rewrite clearAllCache_run. cbn [snd]. unfold store_up.
  destruct (client s) as [c|]; [|done]. by intros ->.
Qed.

(** X14. [clearAllCache] never throws; after it every read of the cache is a
    miss, and when the store is unavailable nothing changes. *)
Theorem clearAllCache_clears (s : env) :
  let s' := exec clearAllCache s in
  run clearAllCache s = Ok tt
  /\ time s' = time s
  /\ store_up s' = store_up s
  /\ (forall k, cached s' k = None)
  /\ (forall key, getCache key s' = (Ok VNull, s'))
  /\ (store_up s = false -> s' = s).
Proof.
  intros s'. subst s'.
  split; [unfold run; by rewrite clearAllCache_run|].
  split; [|split; [|split; [|split]]].
  - unfold exec. rewrite clearAllCache_run. cbn [snd].
    destruct (client s) as [c|]; [|done]. by destruct (reachable c).
  - unfold exec. rewrite clearAllCache_run. cbn [snd]. unfold store_up.
    destruct (client s) as [c|] eqn:Ec; [|by rewrite Ec].
    destruct (reachable c) eqn:Er; [done|]. by rewrite Ec, Er.
  - apply clearAllCache_cached.
  - intros key. by rewrite getCache_spec, clearAllCache_cached.
  - apply clearAllCache_down.
Qed.

Import redisClient.

(** X15. [connect] never throws. Without a [REDIS_URL] it leaves the client as
    it was; with one, the client is set before the test ping, so it stays
    set when the ping fails, and the cache service then takes every read
    for a miss. *)
Theorem connect_keeps_going (REDIS_URL : option string) (server : string -> connection)
        (s : env) :
  let s' := exec (connect REDIS_URL server) s in
  run (connect REDIS_URL server) s = Ok tt
  /\ time s' = time s
  /\ (REDIS_URL = None \/ REDIS_URL = Some "" -> s' = s)
  /\ (forall url, REDIS_URL = Some url -> url <> "" ->
        client s' = Some (server url)
        /\ store_up s' = reachable (server url)
        /\ (reachable (server url) = false ->
            forall key, getCache key s' = (Ok VNull, s')))
  /\ (forall url, REDIS_URL = Some url -> url <> "" ->
        forall key, cached s' key
                    = if reachable (server url)
                      then visible (time s) (db (server url)) key else None).
Proof.
  intros s'. subst s'. unfold run, exec.
  assert (Hurl : forall url, REDIS_URL = Some url -> url <> "" ->
            connect REDIS_URL server s = (Ok tt, mk_env (Some (server url)) (time s))).
  { intros url -> Hne. unfold connect, try_catch, bind, new_Redis, redis_ping, command.
    apply String.eqb_neq in Hne. cbn [truthy]. rewrite Hne. cbn [negb client time].
    destruct (server url) as [d []]; reflexivity. }
  assert (Hnone : REDIS_URL = None \/ REDIS_URL = Some "" ->
            connect REDIS_URL server s = (Ok tt, s)).
  { by intros [->| ->]. }
  split; [|split; [|split; [|split]]].
  - destruct REDIS_URL as [url|]; [|by rewrite Hnone by auto].
    destruct (String.eqb_spec url "") as [->|Hne]; [by rewrite Hnone by auto|].
    by rewrite (Hurl url).
  - destruct REDIS_URL as [url|]; [|by rewrite Hnone by auto].
    destruct (String.eqb_spec url "") as [->|Hne]; [by rewrite Hnone by auto|].
    by rewrite (Hurl url).
  - intros Hn. by rewrite Hnone.
  - intros url Hu Hne. rewrite (Hurl url Hu Hne). cbn [snd client].
    split; [done|]. split; [done|]. intros Hr key. by apply getCache_down.
  - intros url Hu Hne key. rewrite (Hurl url Hu Hne). cbn [snd]. reflexivity.
Qed.

(** X16. [disconnect] forgets the client: after it the service is inert, every
    read is a miss and every write or invalidation leaves the state as it
    is, and [isConnected] answers no; a second [disconnect] changes nothing. *)
Theorem disconnect_forgets (s : env) :
  let s' := exec disconnect s in
  run disconnect s = Ok tt
  /\ client s' = None
  /\ time s' = time s
  /\ exec disconnect s' = s'
  /\ (forall client_status, run (isConnected client_status) s' = Ok false)
  /\ (forall key, getCache key s' = (Ok VNull, s'))
  /\ (forall key data ttl, setCache key data ttl s' = (Ok tt, s'))
  /\ (forall pattern, deleteCachePattern pattern s' = (Ok tt, s'))
  /\ clearAllCache s' = (Ok tt, s').
Proof.
  intros s'.
  assert (Hs' : client s' = None).
  { subst s'. unfold exec, disconnect. by destruct (client s) as [c|] eqn:Ec. }
  assert (Hdown : store_up s' = false) by (unfold store_up; by rewrite Hs').
  split; [unfold run, disconnect; by destruct (client s)|].
  split; [done|].
  split; [subst s'; unfold exec, disconnect; by destruct (client s)|].
  split; [unfold exec, disconnect; by rewrite Hs'|].
  split; [intros st; unfold run, isConnected; by rewrite Hs'|].
  split; [intros key; by apply getCache_down|].
  split; [intros key data ttl; by apply setCache_run_down|].
  split; [intros pattern; by apply deleteCachePattern_run_down|].
  rewrite clearAllCache_run. by rewrite Hs'.
Qed.

Lemma clearAllCache_ok s : run clearAllCache s = Ok tt.
Proof. unfold run. by rewrite clearAllCache_run. Qed.

(** X17. The maintenance routes report success whether or not the cache can
    be reached: when it cannot, they answer 200 all the same and nothing has
    been cleared. The warm route answers 200 and caches nothing. *)
Theorem cache_routes_report_success (s : env) :
  (run cacheRoutes.clear s = Ok (cacheRoutes.success "All cache cleared successfully")
   /\ forall k, cached (exec cacheRoutes.clear s) k = None)
  /\ (run cacheRoutes.clear_search s
        = Ok (cacheRoutes.success "Search cache cleared successfully")
      /\ forall q, cached (exec cacheRoutes.clear_search s) (KEYS.PROPERTY_SEARCH q) = None)
  /\ (forall id, id <> "" ->
        run (cacheRoutes.clear_property id) s
          = Ok (cacheRoutes.success ("Cache cleared for property " +:+ id))
        /\ cached (exec (cacheRoutes.clear_property id) s) (KEYS.PROPERTY id) = None)
  /\ (forall id, id <> "" ->
        cacheRoutes.warm_property id s
          = (Ok (cacheRoutes.success ("Cache warming initiated for property " +:+ id)), s))
  /\ (store_up s = false ->
        exec cacheRoutes.clear s = s
        /\ exec cacheRoutes.clear_search s = s
        /\ forall id, exec (cacheRoutes.clear_property id) s = s).
Proof.
  assert (Hclear : cacheRoutes.clear s
            = (Ok (cacheRoutes.success "All cache cleared successfully"),
               exec clearAllCache s)).
  { unfold cacheRoutes.clear, try_catch. by rewrite seq_ok by apply clearAllCache_ok. }
  assert (Hsearch : cacheRoutes.clear_search s
            = (Ok (cacheRoutes.success "Search cache cleared successfully"),
               exec invalidatePropertySearches s)).
  { unfold cacheRoutes.clear_search, try_catch.
    by rewrite seq_ok by apply invalidatePropertySearches_ok. }
  assert (Hprop : forall id, id <> "" -> cacheRoutes.clear_property id s
            = (Ok (cacheRoutes.success ("Cache cleared for property " +:+ id)),
               exec (invalidateProperty id) s)).
  { intros id Hne%String.eqb_neq. unfold cacheRoutes.clear_property, try_catch.
    cbn [truthy]. rewrite Hne. cbn [negb].
    by rewrite seq_ok by apply invalidateProperty_ok. }
  split; [|split; [|split; [|split]]].
  - unfold run, exec. rewrite Hclear. cbn [fst snd]. split; [done|].
    apply clearAllCache_cached.
  - unfold run, exec at 1. rewrite Hsearch. cbn [fst snd]. split; [done|].
    intros q. unfold invalidatePropertySearches.
    rewrite deleteCachePattern_cached. by rewrite search_pattern_matches.
  - intros id Hne. unfold run, exec at 1. rewrite (Hprop id Hne). cbn [fst snd].
    split; [done|]. apply invalidateProperty_entries.
  - intros id Hne%String.eqb_neq. unfold cacheRoutes.warm_property, try_catch.
    cbn [truthy]. by rewrite Hne.
  - intros Hdown. split; [|split].
    + unfold exec at 1. rewrite Hclear. cbn [snd]. by apply clearAllCache_down.
    + unfold exec at 1. rewrite Hsearch. cbn [snd].
      unfold invalidatePropertySearches. by apply deleteCachePattern_down.
    + intros id. unfold cacheRoutes.clear_property, try_catch, exec.
      destruct (negb (truthy (VStr id))); [done|].
      rewrite seq_ok by apply invalidateProperty_ok.
      cbn [snd]. unfold exec. rewrite invalidateProperty_run. cbn [snd].
      rewrite !deleteCachePattern_down; rewrite ?deleteCache_down; try done.
      all: by rewrite ?deleteCachePattern_up, ?deleteCache_up.
Qed.

(** X18. The health route answers 200 exactly when there is a client, the
    client reports [ready] and the server answers the ping; in every other
    case it answers 503. It leaves the cache as it is. *)
Theorem health_route_status (client_status : string) (s : env) :
  exists r,
    cacheRoutes.health client_status s = (Ok r, s)
    /\ status r = if String.eqb client_status "ready" && store_up s then 200 else 503.
Proof.
  unfold cacheRoutes.health, try_catch, bind, redisClient.isConnected, getClient,
    redis_ping, command, store_up.
  destruct (client s) as [c|] eqn:Ec; cbn [negb].
  - destruct (String.eqb client_status "ready"); cbn [negb andb]; [|by eexists].
    cbn beta iota. rewrite !Ec. cbn beta iota. rewrite (env_eta s c Ec).
    destruct (reachable c) eqn:Er; by eexists.
  - rewrite andb_false_r. by eexists.
Qed.

(** ** The cache middleware *)

Lemma redis_get_run key s :
  store_up s = true -> redis_get key s = (Ok (e_data <$> cached s key), s).
Proof.
  unfold store_up, redis_get, command, cached. destruct (client s) as [c|] eqn:Ec; [|done].
  intros Hr. rewrite Hr. cbn beta iota. by rewrite <- Hr, (env_eta s c Ec).
Qed.

Lemma redis_get_down key s :
  store_up s = false -> exists e, redis_get key s = (Throw e, s).
Proof.
  unfold store_up, redis_get, command. destruct (client s) as [c|]; [|by eexists].
  intros ->. by eexists.
Qed.

(** What the part of the middleware before [next()] comes to. *)
Lemma before_next_spec options client_status req s :
  Middleware.before_next options client_status req s
  = (Ok (if Middleware.skipCondition_of options req then Middleware.Pass
         else if negb (String.eqb client_status "ready" && store_up s) then Middleware.Pass
         else match Middleware.keyGenerator_of options req with
              | Throw _ => Middleware.Pass
              | Ok cacheKey =>
                  match cached s cacheKey with
                  | Some e =>
                      if truthy (VStr (e_data e))
                      then match JSON_parse (e_data e) with
                           | Some parsedData => Middleware.Hit parsedData
                           | None => Middleware.Pass
                           end
                      else Middleware.Miss cacheKey
                  | None => Middleware.Miss cacheKey
                  end
              end), s).
Proof.
  unfold Middleware.before_next, try_catch.
  destruct (Middleware.skipCondition_of options req); [done|].
  unfold bind at 1, redisClient.isConnected.
  destruct (client s) as [c|] eqn:Ec.
  2:{ cbn. unfold store_up. rewrite Ec. by rewrite andb_false_r. }
  destruct (String.eqb client_status "ready"); [|done]. cbn [negb andb].
  unfold bind at 1, getClient. rewrite Ec.
  unfold bind at 1, Middleware.call_keyGenerator.
  destruct (Middleware.keyGenerator_of options req) as [cacheKey|e].
  2:{ cbn. by destruct (store_up s). }
  cbn [ret]. unfold bind at 1.
  destruct (store_up s) eqn:Hup; cbn [negb].
  - rewrite (redis_get_run _ _ Hup). destruct (cached s cacheKey) as [e|]; [|done].
    cbn [fmap option_fmap option_map]. destruct (truthy (VStr (e_data e))); [|done].
    unfold bind, JSON_parse_or_throw. by destruct (JSON_parse (e_data e)).
  - destruct (redis_get_down cacheKey s Hup) as [e ->]. done.
Qed.

Lemma store_response_spec options cacheKey res s :
  Middleware.store_response options cacheKey res s
  = if (200 <=? status res) && (status res <? 300)
    then (Ok tt, exec (setCache cacheKey (body res) (Middleware.ttl_of options)) s)
    else (Ok tt, s).
Proof.
  unfold Middleware.store_response. destruct (_ && _); [|done].
  unfold exec, setCache, try_catch, bind, getClient, redis_setex, command.
  destruct s as [[[d []]|] now]; cbn [client reachable db time]; try done.
  by destruct (0 <? _).
Qed.

Lemma cached_after_write key data ttl s dt t :
  store_up s = true -> 0 < ttl -> 0 <= dt < ttl -> JSON_stringify data = Some t ->
  cached (tick dt (exec (setCache key data ttl) s)) key = Some (mk_entry t ttl (time s)).
Proof.
  intros Hup Httl Hdt Ht.
  pose proof (setCache_cached key data ttl s key Httl Hup) as Hs.
  rewrite decide_True, Ht in Hs by done.
  apply (cached_tick _ _ dt _ Hs). cbn [e_written e_ttl]. rewrite setCache_time. lia.
Qed.

Lemma world_eta {D} (w : world D) : mk_world (durable w) (cache w) = w.
Proof. by destruct w. Qed.

Section middleware.
Context {D : Type}.

(** X19. The cache middleware hands the request on untouched, and stores
    nothing, when the skip condition holds, when the client is not ready or
    the server rejects the read, when the key generator throws, and when the
    entry under the key is no JSON text ([JSON.parse] throws). In the last
    case the entry is not replaced: it stays until it expires. *)
Theorem cacheMiddleware_bypass options client_status req
        (next : M (world D) response) (w : world D) :
  Middleware.skipCondition_of options req = true
  \/ client_status <> "ready"
  \/ store_up (cache w) = false
  \/ (exists e, Middleware.keyGenerator_of options req = Throw e)
  \/ (exists cacheKey e,
        Middleware.keyGenerator_of options req = Ok cacheKey
        /\ cached (cache w) cacheKey = Some e
        /\ e_data e <> "" /\ JSON_grammar (e_data e) = false) ->
  cacheMiddleware options client_status req next w = next w.
Proof.
  intros Hcase. unfold cacheMiddleware, bind. rewrite liftC_run.
  unfold run, exec. rewrite before_next_spec. cbn [fst snd]. rewrite world_eta.
  destruct (Middleware.skipCondition_of options req); [done|].
  destruct Hcase
    as [?|[Hst|[Hup|[[e He]|(k & e & Hk & Hc & Hd & Hp%JSON_grammar_refuses)]]]]; [done|..].
  - apply String.eqb_neq in Hst. by rewrite Hst.
  - by rewrite Hup, andb_false_r.
  - rewrite He. by destruct (negb _).
  - rewrite Hk, Hc, Hp. apply String.eqb_neq in Hd. cbn [truthy]. rewrite Hd.
    by destruct (negb _).
Qed.

(** X20. On a hit the cache middleware answers with status 200 and the stored
    value; the handler is not run and nothing changes. *)
Theorem cacheMiddleware_hit options req cacheKey e parsedData
        (next : M (world D) response) (w : world D) :
  Middleware.skipCondition_of options req = false ->
  store_up (cache w) = true ->
  Middleware.keyGenerator_of options req = Ok cacheKey ->
  cached (cache w) cacheKey = Some e ->
  e_data e <> "" -> JSON_parse (e_data e) = Some parsedData ->
  cacheMiddleware options "ready" req next w = (Ok (mk_response 200 parsedData), w).
Proof.
  intros Hskip Hup Hk Hc Hd Hp. unfold cacheMiddleware, bind. rewrite liftC_run.
  unfold run, exec. rewrite before_next_spec. cbn [fst snd]. rewrite world_eta.
  rewrite Hskip, Hup, Hk, Hc, Hp. apply String.eqb_neq in Hd. cbn. by rewrite Hd.
Qed.

Lemma cacheMiddleware_miss_run options req cacheKey
      (next : M (world D) response) (w w1 : world D) res :
  Middleware.skipCondition_of options req = false ->
  store_up (cache w) = true ->
  Middleware.keyGenerator_of options req = Ok cacheKey ->
  cached (cache w) cacheKey = None ->
  next w = (Ok res, w1) ->
  cacheMiddleware options "ready" req next w
  = (Ok res,
     mk_world (durable w1)
       (if (200 <=? status res) && (status res <? 300)
        then exec (setCache cacheKey (body res) (Middleware.ttl_of options)) (cache w1)
        else cache w1)).
Proof.
  intros Hskip Hup Hk Hc Hnext.
  unfold cacheMiddleware, bind. rewrite liftC_run.
  unfold run, exec. rewrite before_next_spec. cbn [fst snd]. rewrite world_eta.
  rewrite Hskip, Hup, Hk, Hc. cbn. rewrite Hnext. rewrite liftC_run.
  unfold run, exec. rewrite store_response_spec. by destruct (_ && _).
Qed.

(** X21. On a miss the cache middleware runs the handler and passes its answer
    on. An answer with a 2xx status is stored under the key with the TTL of
    the options, and for that long the next request with the same key is
    answered from the cache with the JSON image of the body, whatever the
    handler would answer by then; an answer with another status is not
    stored. *)
Theorem cacheMiddleware_miss options req cacheKey
        (next : M (world D) response) (w w1 : world D) res :
  Middleware.skipCondition_of options req = false ->
  store_up (cache w) = true ->
  Middleware.keyGenerator_of options req = Ok cacheKey ->
  cached (cache w) cacheKey = None ->
  next w = (Ok res, w1) ->
  let w' := exec (cacheMiddleware options "ready" req next) w in
  run (cacheMiddleware options "ready" req next) w = Ok res
  /\ durable w' = durable w1
  /\ (status res < 200 \/ 300 <= status res -> cache w' = cache w1)
  /\ (200 <= status res < 300 -> store_up (cache w1) = true ->
      0 < Middleware.ttl_of options -> body res <> VUndef ->
      forall dt (next' : M (world D) response) d2,
        0 <= dt < Middleware.ttl_of options ->
        cacheMiddleware options "ready" req next' (mk_world d2 (tick dt (cache w')))
        = (Ok (mk_response 200 (json_image (body res))),
           mk_world d2 (tick dt (cache w')))).
Proof.
  intros Hskip Hup Hk Hc Hnext w'.
  pose proof (cacheMiddleware_miss_run options req cacheKey next w w1 res
                Hskip Hup Hk Hc Hnext) as Hrun.
  assert (Hw : w' = mk_world (durable w1)
       (if (200 <=? status res) && (status res <? 300)
        then exec (setCache cacheKey (body res) (Middleware.ttl_of options)) (cache w1)
        else cache w1))
    by (subst w'; unfold exec at 1; by rewrite Hrun).
  clearbody w'. subst w'. unfold run. rewrite Hrun. cbn [fst durable cache].
  split; [done|]. split; [done|]. split.
  - intros Hst. assert ((200 <=? status res) && (status res <? 300) = false) as ->; [|done].
    apply andb_false_iff. rewrite Z.leb_gt, Z.ltb_ge. lia.
  - intros Hst Hup1 Httl Hbody dt next' d2 Hdt.
    assert ((200 <=? status res) && (status res <? 300) = true) as ->.
    { apply andb_true_iff. rewrite Z.leb_le, Z.ltb_lt. lia. }
    destruct (JSON_stringify (body res)) as [t|] eqn:Ht.
    2:{ by apply stringify_None in Ht. }
    pose proof (cached_after_write cacheKey _ _ _ dt t Hup1 Httl Hdt Ht) as Hc'.
    assert (Hup' : store_up (tick dt (exec (setCache cacheKey (body res)
                     (Middleware.ttl_of options)) (cache w1))) = true)
      by by rewrite store_up_tick, setCache_up.
    set (c' := tick dt _) in *.
    unfold cacheMiddleware, bind. rewrite liftC_run.
    unfold run, exec. rewrite before_next_spec. cbn [fst snd cache durable].
    rewrite Hskip, Hk, Hup', Hc'.
    cbn [e_data andb negb String.eqb Ascii.eqb Bool.eqb].
    by rewrite (stringify_truthy _ _ Ht), (JSON_roundtrip _ _ Ht).
Qed.
End middleware.

(** ** The ownership check and the detail cache *)

Section ownership.
Context {D : Type} `{DurableStore D}.

Lemma ownership_before_next_spec (w : world D) id u found d1 :
  id <> "" -> u <> "" ->
  Property_findById id (durable w) = (Ok found, d1) ->
  ownership_before_next id (Some u) w
  = (Ok match found with
        | None => Refused (failure 404 "Property not found")
        | Some doc =>
            match doc_createdBy doc with
            | None => Refused (failure 500 "Internal server error")
            | Some createdBy =>
                if String.eqb createdBy u then Owner doc
                else Refused (failure 403
                       "Access denied. You can only modify properties you created.")
            end
        end, mk_world d1 (cache w)).
Proof.
  intros Hid%String.eqb_neq Hu%String.eqb_neq Hfind.
  unfold ownership_before_next, try_catch. cbn [truthy]. rewrite Hid, Hu. cbn [negb].
  rewrite (liftD_bind _ _ _ _ _ Hfind).
  destruct found as [doc|]; [|done]. destruct (doc_createdBy doc) as [o|]; [|done].
  by destruct (String.eqb o u).
Qed.

(** X22. The ownership check stands between the request and the controller:
    a user who is not the creator of the property gets 403 (404 when there
    is no such property) and neither [updateProperty] nor [deleteProperty]
    runs, so the store has seen one lookup and the cache nothing; for the
    creator the route is the controller, run after the lookup. *)
Theorem ownership_gate (w : world D) u id found d1 :
  id <> "" -> u <> "" ->
  Property_findById id (durable w) = (Ok found, d1) ->
  let refused code message := (Ok (failure code message), mk_world d1 (cache w)) in
  (found = None ->
     (forall body, route_update_property u id body w = refused 404 "Property not found")
     /\ route_delete_property u id w = refused 404 "Property not found")
  /\ (forall doc other, found = Some doc -> doc_createdBy doc = Some other -> other <> u ->
     (forall body, route_update_property u id body w
        = refused 403 "Access denied. You can only modify properties you created.")
     /\ route_delete_property u id w
        = refused 403 "Access denied. You can only modify properties you created.")
  /\ (forall doc, found = Some doc -> doc_createdBy doc = Some u ->
     (forall body, route_update_property u id body w
        = updateProperty u id body (mk_world d1 (cache w)))
     /\ route_delete_property u id w = deleteProperty u id (mk_world d1 (cache w))).
Proof.
  intros Hid Hu Hfind refused.
  pose proof (ownership_before_next_spec w id u found d1 Hid Hu Hfind) as Hspec.
  unfold route_update_property, route_delete_property, checkPropertyOwnership, bind.
  rewrite Hspec. split; [|split].
  - by intros ->.
  - intros doc other -> Ho Hne. rewrite Ho. apply String.eqb_neq in Hne. by rewrite Hne.
  - intros doc -> Ho. by rewrite Ho, String.eqb_refl.
Qed.
End ownership.

Section detail.
Context {D : Type} `{DurableStore D}.

(** X23. [propertyDetailCache] and [CacheService.cacheProperty] write under
    the same key [property:<id>], the one the whole answer and the other the
    property alone. With the middleware in front of [getPropertyById], a
    first request on a cold cache leaves the whole answer under the key, and
    [getCachedProperty] then returns that answer in place of the property. *)
Theorem propertyDetailCache_shares_key (w : world D) id doc d' url q auth :
  store_up (cache w) = true ->
  cached (cache w) (KEYS.PROPERTY id) = None ->
  Property_findById id (durable w) = (Ok (Some doc), d') ->
  doc_id doc = id -> id <> "" ->
  let req := mk_request url q (Some id) auth in
  let answer :=
    VObj [("success", VBool true);
          ("message", VStr "Property retrieved successfully");
          ("property", entity_js (propertyResponse doc))] in
  let w' := exec (cacheMiddleware propertyDetailCache "ready" req (getPropertyById id)) w in
  run (cacheMiddleware propertyDetailCache "ready" req (getPropertyById id)) w
    = Ok (mk_response 200 answer)
  /\ forall dt, 0 <= dt < 900 ->
       run (getCachedProperty id) (tick dt (cache w')) = Ok (json_image answer).
Proof.
  intros Hup Hmiss Hfind Hid Hne req answer w'.
  pose proof (getPropertyById_miss_run w id doc d' Hmiss Hfind Hid Hne) as Hnext.
  pose proof (cacheMiddleware_miss_run propertyDetailCache req (KEYS.PROPERTY id)
                (getPropertyById id) w _ _ eq_refl Hup eq_refl Hmiss Hnext) as Hrun.
  cbn [status body Z.leb Z.ltb Z.compare Pos.compare Pos.compare_cont andb durable cache]
    in Hrun.
  assert (Hw : w' = mk_world d'
            (exec (setCache (KEYS.PROPERTY id) answer (Middleware.ttl_of propertyDetailCache))
               (exec (setCache (KEYS.PROPERTY id) (entity_js (propertyResponse doc))
                        TTL.PROPERTY) (cache w))))
    by (subst w'; unfold exec at 1; by rewrite Hrun).
  clearbody w'. subst w'. unfold run at 1. rewrite Hrun. cbn [fst cache].
  split; [done|]. intros dt Hdt.
  assert (exists t, JSON_stringify answer = Some t) as [t Ht] by (cbn; eauto).
  unfold run, getCachedProperty.
  rewrite (read_after_write _ answer _ _ dt t); [done| |done|done|done].
  by rewrite setCache_up.
Qed.
End detail.

(** ** The [AuthController] *)

Lemma obj_keys_delete k (o : obj) : k ∉ obj_keys (obj_delete k o).
Proof.
  unfold obj_keys, obj_delete. intros ([k' v] & -> & Hin)%list_elem_of_fmap.
  apply list_elem_of_filter in Hin as [Hne _]. done.
Qed.

Lemma image_keys (l : obj) k :
  k ∉ obj_keys l -> js_get (json_image (VObj l)) k = VUndef.
Proof.
  intros Hk. cbn [json_image js_get]. unfold build_object.
  rewrite obj_get_fold_define, app_nil_r. apply obj_get_absent.
  unfold obj_keys. rewrite map_rev, <- Permutation_rev.
  intros ([k' v] & -> & Hin)%list_elem_of_fmap. apply Hk.
  apply list_elem_of_omap in Hin as ([k1 v1] & Hin & Heq).
  cbn [fst snd] in *. destruct v1; simplify_eq; apply list_elem_of_fmap; by eexists (_, _).
Qed.

(** The profile that is cached and sent has no [password]. *)
Lemma userResponse_no_password user :
  js_get (entity_js (userResponse user)) "password" = VUndef
  /\ js_get (json_image (entity_js (userResponse user))) "password" = VUndef.
Proof.
  assert ("password" ∉ obj_keys (("_id", VStr (usr_id user))
                                   :: obj_delete "password" (usr_fields user))) as Hk.
  { cbn [obj_keys map fst]. rewrite not_elem_of_cons. split; [done|].
    apply obj_keys_delete. }
  unfold entity_js. cbn [userResponse _id fields]. split; [|by apply image_keys].
  cbn [js_get]. by apply obj_get_absent.
Qed.

Lemma given_Some v : v <> "" -> given (Some v) = Some v.
Proof. intros Hv%String.eqb_neq. unfold given. cbn [truthy]. by rewrite Hv. Qed.

Lemma cacheUserProfile_run user s :
  usr_id user <> "" ->
  cacheUserProfile (userResponse user) s
  = (Ok tt, exec (setCache (KEYS.USER_PROFILE (usr_id user))
                           (entity_js (userResponse user)) TTL.USER) s).
Proof.
  intros Hid%String.eqb_neq. unfold cacheUserProfile. cbn [userResponse _id truthy].
  rewrite Hid. cbn [negb]. by rewrite (run_exec (setCache _ _ _) s), setCache_ok.
Qed.

Section auth.
Context {D : Type} `{UserStore D}.
Variables JWT_SECRET JWT_EXPIRES_IN : option string.

(** X24. A login that succeeds caches the profile of the user for 1800
    seconds under [user:profile:<id>] and touches no other entry; the
    profile it caches and sends is the document without its [password]. *)
Theorem login_caches_profile (w : world D) email password user token d1 d2 d3 :
  email <> "" -> password <> "" ->
  User_findOne_email email (durable w) = (Ok (Some user), d1) ->
  comparePassword password (obj_get "password" (usr_fields user)) d1 = (Ok true, d2) ->
  generateToken JWT_SECRET JWT_EXPIRES_IN (userResponse user) d2 = (Ok token, d3) ->
  usr_id user <> "" -> store_up (cache w) = true ->
  let req := mk_login (Some email) (Some password) in
  let w' := exec (login JWT_SECRET JWT_EXPIRES_IN req) w in
  let profile := entity_js (userResponse user) in
  run (login JWT_SECRET JWT_EXPIRES_IN req) w
    = Ok (mk_response 200
            (VObj [("success", VBool true);
                   ("message", VStr "Login successful");
                   ("token", VStr token);
                   ("user", profile)]))
  /\ durable w' = d3
  /\ js_get profile "password" = VUndef
  /\ (forall dt, 0 <= dt < 1800 ->
        run (getCachedUserProfile (usr_id user)) (tick dt (cache w'))
          = Ok (json_image profile))
  /\ js_get (json_image profile) "password" = VUndef
  /\ (forall k, k <> KEYS.USER_PROFILE (usr_id user) ->
        cached (cache w') k = cached (cache w) k).
Proof.
  intros He Hp Hfind Hcmp Htok Hid Hup req w' profile.
  assert (login JWT_SECRET JWT_EXPIRES_IN req w
          = (Ok (mk_response 200
                   (VObj [("success", VBool true);
                          ("message", VStr "Login successful");
                          ("token", VStr token);
                          ("user", profile)])),
             mk_world d3 (exec (setCache (KEYS.USER_PROFILE (usr_id user)) profile TTL.USER)
                               (cache w)))) as Hrun.
  { unfold login, try_catch. subst req. cbn [login_email login_password].
    rewrite !given_Some by done.
    rewrite (liftD_bind _ _ _ _ _ Hfind).
    rewrite (liftD_bind _ _ (mk_world d1 (cache w)) _ _ Hcmp). cbn [negb].
    rewrite (liftD_bind _ _ (mk_world d2 (cache w)) _ _ Htok).
    unfold bind. rewrite liftC_run. cbn [cache durable].
    unfold run, exec. by rewrite cacheUserProfile_run. }
  assert (Hw : w' = mk_world d3 (exec (setCache (KEYS.USER_PROFILE (usr_id user)) profile
                                         TTL.USER) (cache w)))
    by (subst w'; unfold exec at 1; by rewrite Hrun).
  clearbody w'. subst w'. unfold run at 1. rewrite Hrun. cbn [fst durable cache].
  destruct (userResponse_no_password user) as [Hn1 Hn2].
  split; [done|]. split; [done|]. split; [exact Hn1|]. split; [|split; [exact Hn2|]].
  - intros dt Hdt. assert (exists t, JSON_stringify profile = Some t) as [t Ht].
    { subst profile. unfold entity_js. cbn; eauto. }
    unfold run, getCachedUserProfile.
    by rewrite (read_after_write _ profile _ _ dt t).
  - intros k Hk. rewrite setCache_cached by done. by rewrite decide_False.
Qed.

Lemma getProfile_hit (w : world D) userId v :
  decoded (cached (cache w) (KEYS.USER_PROFILE userId)) = v -> truthy v = true ->
  getProfile userId w
  = (Ok (mk_response 200
           (VObj [("success", VBool true);
                  ("message", VStr "Profile retrieved successfully");
                  ("user", v)])), w).
Proof.
  intros Hv Ht. unfold getProfile, try_catch, getCachedUserProfile.
  by rewrite getCache_bind, Hv, Ht.
Qed.

(** X25. [updateProfile] writes through: after an update that succeeds, the
    profile in the cache is the updated one, and [getProfile] answers with
    it for the next 1800 seconds without asking the store. *)
Theorem updateProfile_write_through (w : world D) userId username email user d1 d2 :
  given username <> None \/ given email <> None ->
  User_findOne_other userId (given username) (given email) (durable w) = (Ok None, d1) ->
  User_findByIdAndUpdate userId (updateData (given username) (given email)) d1
    = (Ok (Some user), d2) ->
  usr_id user = userId -> userId <> "" -> store_up (cache w) = true ->
  let req := mk_update_profile username email in
  let w' := exec (updateProfile userId req) w in
  let profile := entity_js (userResponse user) in
  run (updateProfile userId req) w
    = Ok (mk_response 200
            (VObj [("success", VBool true);
                   ("message", VStr "Profile updated successfully");
                   ("user", profile)]))
  /\ durable w' = d2
  /\ forall dt d', 0 <= dt < 1800 ->
       getProfile userId (mk_world d' (tick dt (cache w')))
       = (Ok (mk_response 200
                (VObj [("success", VBool true);
                       ("message", VStr "Profile retrieved successfully");
                       ("user", json_image profile)])),
          mk_world d' (tick dt (cache w'))).
Proof.
  intros Hgiven Hother Hupd Hid Hne Hup req w' profile.
  assert (updateProfile userId req w
          = (Ok (mk_response 200
                   (VObj [("success", VBool true);
                          ("message", VStr "Profile updated successfully");
                          ("user", profile)])),
             mk_world d2 (exec (setCache (KEYS.USER_PROFILE userId) profile TTL.USER)
                               (cache w)))) as Hrun.
  { unfold updateProfile, try_catch. subst req. cbn [profile_username profile_email].
    assert (forall A (a b : A),
              match given username, given email with
              | None, None => a
              | _, _ => b
              end = b) as ->.
    { intros A a b. destruct (given username), (given email); try done.
      by destruct Hgiven. }
    rewrite (liftD_bind _ _ _ _ _ Hother).
    rewrite (liftD_bind _ _ (mk_world d1 (cache w)) _ _ Hupd).
    unfold bind. rewrite liftC_run. cbn [cache durable].
    unfold run, exec. rewrite cacheUserProfile_run by by rewrite Hid.
    by rewrite Hid. }
  assert (Hw : w' = mk_world d2 (exec (setCache (KEYS.USER_PROFILE userId) profile
                                         TTL.USER) (cache w)))
    by (subst w'; unfold exec at 1; by rewrite Hrun).
  clearbody w'. subst w'. unfold run at 1. rewrite Hrun. cbn [fst durable cache].
  split; [done|]. split; [done|]. intros dt d' Hdt.
  assert (exists t, JSON_stringify profile = Some t) as [t Ht].
  { subst profile. unfold entity_js. cbn; eauto. }
  pose proof (read_after_write (KEYS.USER_PROFILE userId) profile TTL.USER (cache w) dt t
                Hup eq_refl Hdt Ht) as Hr.
  rewrite getCache_spec in Hr. injection Hr as Hr.
  apply getProfile_hit; [exact Hr|].
  subst profile. unfold entity_js. by cbn [userResponse _id json_image truthy].
Qed.

(** X26. [changePassword] refuses a new password shorter than six characters
    before it reads anything; a change that succeeds deletes the cached
    profile of the user and no other entry. *)
Theorem changePassword_invalidates (w : world D) userId current new :
  current <> "" -> new <> "" ->
  let req := mk_change_password (Some current) (Some new) in
  ((String.length new < 6)%nat ->
     changePassword userId req w
     = (Ok (failure 400 "New password must be at least 6 characters long"), w))
  /\ (forall user hashed updated d1 d2 d3 d4,
       (6 <= String.length new)%nat ->
       User_findById userId (durable w) = (Ok (Some user), d1) ->
       comparePassword current (obj_get "password" (usr_fields user)) d1 = (Ok true, d2) ->
       hashPassword new d2 = (Ok hashed, d3) ->
       User_findByIdAndUpdate userId [("password", VStr hashed)] d3 = (Ok updated, d4) ->
       let w' := exec (changePassword userId req) w in
       run (changePassword userId req) w
         = Ok (mk_response 200
                 (VObj [("success", VBool true);
                        ("message", VStr "Password changed successfully")]))
       /\ durable w' = d4
       /\ cached (cache w') (KEYS.USER_PROFILE userId) = None
       /\ forall k, k <> KEYS.USER_PROFILE userId ->
                    cached (cache w') k = cached (cache w) k).
Proof.
  intros Hc Hn req. split.
  - intros Hlen. unfold changePassword, try_catch. subst req.
    cbn [currentPassword newPassword]. rewrite !given_Some by done.
    by rewrite (proj2 (Nat.ltb_lt _ _) Hlen).
  - intros user hashed updated d1 d2 d3 d4 Hlen Hfind Hcmp Hhash Hupd w'.
    assert (changePassword userId req w
            = (Ok (mk_response 200
                     (VObj [("success", VBool true);
                            ("message", VStr "Password changed successfully")])),
               mk_world d4 (exec (deleteCache (KEYS.USER_PROFILE userId)) (cache w))))
      as Hrun.
    { unfold changePassword, try_catch. subst req.
      cbn [currentPassword newPassword]. rewrite !given_Some by done.
      rewrite (proj2 (Nat.ltb_ge _ _) Hlen).
      rewrite (liftD_bind _ _ _ _ _ Hfind).
      rewrite (liftD_bind _ _ (mk_world d1 (cache w)) _ _ Hcmp). cbn [negb].
      rewrite (liftD_bind _ _ (mk_world d2 (cache w)) _ _ Hhash).
      rewrite (liftD_bind _ _ (mk_world d3 (cache w)) _ _ Hupd).
      unfold invalidateUserProfile. by rewrite liftC_seq by apply deleteCache_ok. }
    assert (Hw : w' = mk_world d4 (exec (deleteCache (KEYS.USER_PROFILE userId)) (cache w)))
      by (subst w'; unfold exec at 1; by rewrite Hrun).
    clearbody w'. subst w'. unfold run at 1. rewrite Hrun. cbn [fst durable cache].
    split; [done|]. split; [done|]. split.
    + rewrite deleteCache_cached. by rewrite decide_True.
    + intros k Hk. rewrite deleteCache_cached. by rewrite decide_False.
Qed.
End auth.

Section auth_failures.
Context {D : Type} `{UserStore D}.
Variables JWT_SECRET JWT_EXPIRES_IN : option string.

(** X27. The [AuthController] answers every request, and a request it does
    not answer with success leaves the cache as it was: a failed login or
    signup caches no profile, and a failed change of password invalidates
    none. *)
Theorem auth_failures_leave_cache (w : world D) :
  (forall req, exists r w',
      signup JWT_SECRET JWT_EXPIRES_IN req w = (Ok r, w')
      /\ status r ∈ [201; 400; 500] /\ (status r <> 201 -> cache w' = cache w))
  /\ (forall req, exists r w',
      login JWT_SECRET JWT_EXPIRES_IN req w = (Ok r, w')
      /\ status r ∈ [200; 400; 401; 500] /\ (status r <> 200 -> cache w' = cache w))
  /\ (forall userId, exists r w',
      getProfile userId w = (Ok r, w')
      /\ status r ∈ [200; 404; 500] /\ (status r <> 200 -> cache w' = cache w))
  /\ (forall userId req, exists r w',
      updateProfile userId req w = (Ok r, w')
      /\ status r ∈ [200; 400; 404; 500] /\ (status r <> 200 -> cache w' = cache w))
  /\ (forall userId req, exists r w',
      changePassword userId req w = (Ok r, w')
      /\ status r ∈ [200; 400; 404; 500] /\ (status r <> 200 -> cache w' = cache w)).
Proof.
  assert (Hend : forall (r : response) (w' : world D) (codes : list Z) (ok : Z),
            status r ∈ codes -> (status r <> ok -> cache w' = cache w) ->
            exists r0 w0, (Ok r, w') = (Ok r0, w0)
                          /\ status r0 ∈ codes /\ (status r0 <> ok -> cache w0 = cache w)).
  { intros r w' codes ok H1 H2. by exists r, w'. }
  split; [|split; [|split; [|split]]].
  - intros req. unfold signup, try_catch.
    destruct (given (signup_username req)), (given (signup_email req)),
      (given (signup_password req)); try (unfold ret; apply Hend; [code_in|done]).
    store_call; [|(repeat branch; (unfold ret; apply Hend; [code_in|done]))].
    branch; [(unfold ret; apply Hend; [code_in|done])|].
    store_call; [|(repeat branch; (unfold ret; apply Hend; [code_in|done]))].
    store_call; [|(repeat branch; (unfold ret; apply Hend; [code_in|done]))].
    unfold generateToken.
    store_call; [|(repeat branch; (unfold ret; apply Hend; [code_in|done]))].
    cache_call. (unfold ret; apply Hend; [code_in|done]).
  - intros req. unfold login, try_catch.
    destruct (given (login_email req)), (given (login_password req));
      try (unfold ret; apply Hend; [code_in|done]).
    store_call; [|(unfold ret; apply Hend; [code_in|done])].
    branch; [|(unfold ret; apply Hend; [code_in|done])].
    store_call; [|(unfold ret; apply Hend; [code_in|done])].
    branch; [(unfold ret; apply Hend; [code_in|done])|].
    unfold generateToken.
    store_call; [|(unfold ret; apply Hend; [code_in|done])].
    cache_call. (unfold ret; apply Hend; [code_in|done]).
  - intros userId. unfold getProfile, try_catch, getCachedUserProfile.
    rewrite getCache_bind. branch; [(unfold ret; apply Hend; [code_in|done])|].
    store_call; [|(unfold ret; apply Hend; [code_in|done])].
    branch; [|(unfold ret; apply Hend; [code_in|done])].
    cache_call. (unfold ret; apply Hend; [code_in|done]).
  - intros userId req. unfold updateProfile, try_catch.
    assert (Hcont : forall (k : M (world D) response),
      (exists r0 w0, (let (r, s') := k w in
                      match r with
                      | Ok a => (Ok a, s')
                      | Throw e =>
                          (if String.eqb (err_name e) "ValidationError"
                           then ret (failure 400 (validation_message e))
                           else ret (failure 500 "Internal server error")) s'
                      end) = (Ok r0, w0)
                     /\ status r0 ∈ [200; 400; 404; 500]
                     /\ (status r0 <> 200 -> cache w0 = cache w)) ->
      exists r0 w0,
        (let (r, s') :=
           match given (profile_username req), given (profile_email req) with
           | None, None =>
               ret (failure 400 "At least one field (username or email) is required")
           | _, _ => k
           end w in
         match r with
         | Ok a => (Ok a, s')
         | Throw e =>
             (if String.eqb (err_name e) "ValidationError"
              then ret (failure 400 (validation_message e))
              else ret (failure 500 "Internal server error")) s'
         end) = (Ok r0, w0)
        /\ status r0 ∈ [200; 400; 404; 500]
        /\ (status r0 <> 200 -> cache w0 = cache w)).
    { intros k Hk. destruct (given (profile_username req)), (given (profile_email req));
        try exact Hk. (unfold ret; apply Hend; [code_in|done]). }
    apply Hcont.
    store_call; [|(repeat branch; (unfold ret; apply Hend; [code_in|done]))].
    branch; [(unfold ret; apply Hend; [code_in|done])|].
    store_call; [|(repeat branch; (unfold ret; apply Hend; [code_in|done]))].
    branch; [|(unfold ret; apply Hend; [code_in|done])].
    cache_call. (unfold ret; apply Hend; [code_in|done]).
  - intros userId req. unfold changePassword, try_catch.
    destruct (given (currentPassword req)), (given (newPassword req));
      try (unfold ret; apply Hend; [code_in|done]).
    branch; [(unfold ret; apply Hend; [code_in|done])|].
    store_call; [|(unfold ret; apply Hend; [code_in|done])].
    branch; [|(unfold ret; apply Hend; [code_in|done])].
    store_call; [|(unfold ret; apply Hend; [code_in|done])].
    branch; [(unfold ret; apply Hend; [code_in|done])|].
    store_call; [|(unfold ret; apply Hend; [code_in|done])].
    store_call; [|(unfold ret; apply Hend; [code_in|done])].
    unfold invalidateUserProfile. cache_call. (unfold ret; apply Hend; [code_in|done]).
Qed.
End auth_failures.

(** ** A favorite that exists already *)

Section duplicate.
Context {D : Type} `{DurableStore D}.

(** X28. [addToFavorites] for a pair that the store already holds answers 400
    and writes the status of the pair to the cache, where it stays: for the
    next 600 seconds [checkFavoriteStatus] answers from the cache that the
    property is favorited, with the id of the favorite. *)
Theorem addToFavorites_existing_caches (w : world D) u req pid prop existing d1 d2 :
  propertyId req = Some pid -> pid <> "" ->
  store_up (cache w) = true ->
  says_favorited (cache w) u pid = false ->
  Property_findById pid (durable w) = (Ok (Some prop), d1) ->
  Favorite_findOne u pid d1 = (Ok (Some existing), d2) ->
  let w' := exec (addToFavorites u req) w in
  run (addToFavorites u req) w
    = Ok (failure 400 "Property is already in your favorites")
  /\ durable w' = d2
  /\ forall dt d', 0 <= dt < 600 ->
       checkFavoriteStatus u pid (mk_world d' (tick dt (cache w')))
       = (Ok (mk_response 200
                (VObj [("success", VBool true);
                       ("message", VStr "Favorite status retrieved");
                       ("isFavorited", VBool true);
                       ("favoriteId", js_or (VStr (fav_id existing)) VNull)])),
          mk_world d' (tick dt (cache w'))).
Proof.
  intros Hpid Hne Hup Hsay Hprop Hfav w'.
  set (st := mk_status true (Some (fav_id existing))).
  assert (addToFavorites u req w
          = (Ok (failure 400 "Property is already in your favorites"),
             mk_world d2 (exec (cacheFavoriteStatus u pid st) (cache w)))) as Hrun.
  { unfold addToFavorites, try_catch. rewrite Hpid.
    apply String.eqb_neq in Hne. cbn [truthy]. rewrite Hne. cbn [negb].
    rewrite (liftD_bind _ _ _ _ _ Hprop).
    unfold getCachedFavoriteStatus. rewrite getCache_bind. cbn [cache].
    unfold says_favorited in Hsay. rewrite Hsay.
    rewrite (liftD_bind _ _ (mk_world d1 (cache w)) _ _ Hfav).
    by rewrite liftC_seq by apply cacheFavoriteStatus_ok. }
  assert (Hw : w' = mk_world d2 (exec (cacheFavoriteStatus u pid st) (cache w)))
    by (subst w'; unfold exec at 1; by rewrite Hrun).
  clearbody w'. subst w'. unfold run at 1. rewrite Hrun. cbn [fst durable cache].
  split; [done|]. split; [done|]. intros dt d' Hdt.
  unfold checkFavoriteStatus, try_catch, getCachedFavoriteStatus.
  rewrite getCache_bind. cbn [cache]. unfold cacheFavoriteStatus.
  rewrite decoded_after_write; [|done|done|done|apply status_plain].
  by rewrite status_truthy.
Qed.
End duplicate.

(** ** Profiles read through the cache *)

Section profiles.
Context {D : Type} `{UserStore D}.
Variables JWT_SECRET JWT_EXPIRES_IN : option string.

Lemma getProfile_after_write (s : env) user dt (d' : D) :
  store_up s = true -> usr_id user <> "" -> 0 <= dt < 1800 ->
  let c := tick dt (exec (setCache (KEYS.USER_PROFILE (usr_id user))
                            (entity_js (userResponse user)) TTL.USER) s) in
  getProfile (usr_id user) (mk_world d' c)
  = (Ok (mk_response 200
           (VObj [("success", VBool true);
                  ("message", VStr "Profile retrieved successfully");
                  ("user", json_image (entity_js (userResponse user)))])),
     mk_world d' c).
Proof.
  intros Hup Hne Hdt c. subst c.
  assert (exists t, JSON_stringify (entity_js (userResponse user)) = Some t) as [t Ht].
  { unfold entity_js. cbn; eauto. }
  pose proof (read_after_write (KEYS.USER_PROFILE (usr_id user))
                (entity_js (userResponse user)) TTL.USER s dt t
                Hup eq_refl Hdt Ht) as Hr.
  rewrite getCache_spec in Hr. injection Hr as Hr.
  apply getProfile_hit; [exact Hr|].
  unfold entity_js. by cbn [userResponse _id json_image truthy].
Qed.

(** X29. A signup that succeeds answers 201 with the token and the new user,
    without the password hash, and caches the profile: for the next 1800
    seconds [getProfile] of the new user is answered from the cache and
    does not ask the store. *)
Theorem signup_caches_profile (w : world D) username email password hashed user token
        d1 d2 d3 d4 :
  username <> "" -> email <> "" -> password <> "" ->
  User_findOne_email_or_username email username (durable w) = (Ok None, d1) ->
  hashPassword password d1 = (Ok hashed, d2) ->
  User_create username email hashed d2 = (Ok user, d3) ->
  generateToken JWT_SECRET JWT_EXPIRES_IN (userResponse user) d3 = (Ok token, d4) ->
  usr_id user <> "" -> store_up (cache w) = true ->
  let req := mk_signup (Some username) (Some email) (Some password) in
  let w' := exec (signup JWT_SECRET JWT_EXPIRES_IN req) w in
  let profile := entity_js (userResponse user) in
  run (signup JWT_SECRET JWT_EXPIRES_IN req) w
    = Ok (mk_response 201
            (VObj [("success", VBool true);
                   ("message", VStr "User created successfully");
                   ("token", VStr token);
                   ("user", profile)]))
  /\ durable w' = d4
  /\ js_get profile "password" = VUndef
  /\ forall dt d', 0 <= dt < 1800 ->
       getProfile (usr_id user) (mk_world d' (tick dt (cache w')))
       = (Ok (mk_response 200
                (VObj [("success", VBool true);
                       ("message", VStr "Profile retrieved successfully");
                       ("user", json_image profile)])),
          mk_world d' (tick dt (cache w'))).
Proof.
  intros Hu He Hp Hfind Hhash Hcreate Htok Hid Hup req w' profile.
  assert (signup JWT_SECRET JWT_EXPIRES_IN req w
          = (Ok (mk_response 201
                   (VObj [("success", VBool true);
                          ("message", VStr "User created successfully");
                          ("token", VStr token);
                          ("user", profile)])),
             mk_world d4 (exec (setCache (KEYS.USER_PROFILE (usr_id user)) profile TTL.USER)
                               (cache w)))) as Hrun.
  { unfold signup, try_catch. subst req.
    cbn [signup_username signup_email signup_password].
    rewrite !given_Some by done.
    rewrite (liftD_bind _ _ _ _ _ Hfind).
    rewrite (liftD_bind _ _ (mk_world d1 (cache w)) _ _ Hhash).
    rewrite (liftD_bind _ _ (mk_world d2 (cache w)) _ _ Hcreate).
    rewrite (liftD_bind _ _ (mk_world d3 (cache w)) _ _ Htok).
    unfold bind. rewrite liftC_run. cbn [cache durable].
    unfold run, exec. by rewrite cacheUserProfile_run. }
  assert (Hw : w' = mk_world d4 (exec (setCache (KEYS.USER_PROFILE (usr_id user)) profile
                                         TTL.USER) (cache w)))
    by (subst w'; unfold exec at 1; by rewrite Hrun).
  clearbody w'. subst w'. unfold run at 1. rewrite Hrun. cbn [fst durable cache].
  split; [done|]. split; [done|].
  split; [apply userResponse_no_password|].
  intros dt d' Hdt. by apply getProfile_after_write.
Qed.

(** X30. [getProfile] reads through the cache. On a miss it loads the user
    from the store, answers with the profile without the password hash and
    caches it; for the next 1800 seconds it answers with the cached copy
    and does not ask the store, whatever the store holds by then. *)
Theorem getProfile_read_through (w : world D) user d1 :
  store_up (cache w) = true ->
  cached (cache w) (KEYS.USER_PROFILE (usr_id user)) = None ->
  User_findById (usr_id user) (durable w) = (Ok (Some user), d1) ->
  usr_id user <> "" ->
  let w1 := exec (getProfile (usr_id user)) w in
  let found v :=
    mk_response 200
      (VObj [("success", VBool true);
             ("message", VStr "Profile retrieved successfully");
             ("user", v)]) in
  let profile := entity_js (userResponse user) in
  run (getProfile (usr_id user)) w = Ok (found profile)
  /\ durable w1 = d1
  /\ js_get profile "password" = VUndef
  /\ js_get (json_image profile) "password" = VUndef
  /\ forall dt d2, 0 <= dt < 1800 ->
       getProfile (usr_id user) (mk_world d2 (tick dt (cache w1)))
       = (Ok (found (json_image profile)), mk_world d2 (tick dt (cache w1))).
Proof.
  intros Hup Hmiss Hfind Hid w1 found profile.
  assert (getProfile (usr_id user) w
          = (Ok (found profile),
             mk_world d1 (exec (setCache (KEYS.USER_PROFILE (usr_id user)) profile TTL.USER)
                               (cache w)))) as Hrun.
  { unfold getProfile, try_catch, getCachedUserProfile.
    rewrite getCache_bind, Hmiss. cbn [decoded truthy].
    rewrite (liftD_bind _ _ _ _ _ Hfind).
    unfold bind. rewrite liftC_run. cbn [cache durable].
    unfold run, exec. by rewrite cacheUserProfile_run. }
  assert (Hw : w1 = mk_world d1 (exec (setCache (KEYS.USER_PROFILE (usr_id user)) profile
                                         TTL.USER) (cache w)))
    by (subst w1; unfold exec at 1; by rewrite Hrun).
  clearbody w1. subst w1. unfold run at 1. rewrite Hrun. cbn [fst durable cache].
  destruct (userResponse_no_password user) as [Hn1 Hn2].
  split; [done|]. split; [done|]. split; [exact Hn1|]. split; [exact Hn2|].
  intros dt d2 Hdt. by apply getProfile_after_write.
Qed.

End profiles.

(** ** The rest, run on the reference stores *)

Lemma invalidateFavorites_other_users_witness :
  cached (exec (invalidateFavorites "userA") warm_cache) (KEYS.FAVORITE_STATUS "userB" "propX")
  = cached warm_cache (KEYS.FAVORITE_STATUS "userB" "propX")
  /\ cached (exec (invalidateFavorites "userA") warm_cache)
            (KEYS.USER_PROPERTIES "userA" (Some 1) (Some 10))
     = cached warm_cache (KEYS.USER_PROPERTIES "userA" (Some 1) (Some 10)).
Proof.
  pose proof (invalidateFavorites_other_users "userA" warm_cache eq_refl eq_refl)
    as (_ & Hs & Hrest).
  split; [by apply Hs|by apply Hrest].
Defined.

Lemma invalidateSpecificFavorite_scope_witness :
  cached (exec (invalidateSpecificFavorite "userA" "propY") warm_cache)
         (KEYS.FAVORITE_STATUS "userA" "propX")
  = cached warm_cache (KEYS.FAVORITE_STATUS "userA" "propX").
Proof.
  pose proof (invalidateSpecificFavorite_scope "userA" "propY" warm_cache eq_refl) as Hs.
  cbv zeta in Hs. destruct Hs as (_ & _ & _ & Hother & _). by apply Hother.
Defined.

Lemma removeFromFavorites_drops_status_witness :
  cached (cache (exec (removeFromFavorites "userA" "propX") world1))
         (KEYS.FAVORITE_STATUS "userA" "propX") = None.
Proof.
  let x := eval vm_compute in (run (removeFromFavorites "userA" "propX") world1) in
  lazymatch x with
  | Ok ?r =>
      pose proof (removeFromFavorites_drops_status world1
                    (exec (removeFromFavorites "userA" "propX") world1)
                    "userA" "propX" r) as Hr
  end.
  destruct Hr as (Hs & _ & _); [vm_compute; reflexivity|reflexivity|reflexivity|].
  apply Hs.
Defined.

Lemma checkFavoriteStatus_read_through_witness :
  run (checkFavoriteStatus "userA" "propX") (mk_world store1 empty_cache)
  = run (checkFavoriteStatus "userA" "propX")
        (mk_world store0
           (tick 599 (cache (exec (checkFavoriteStatus "userA" "propX")
                                  (mk_world store1 empty_cache))))).
Proof.
  pose proof (checkFavoriteStatus_read_through (mk_world store1 empty_cache)
                "userA" "propX" _ _ eq_refl eq_refl eq_refl) as Hc.
  cbv zeta in Hc. destruct Hc as (Hrun & _ & Hnext).
  rewrite Hrun. unfold run at 1. by rewrite (Hnext 599 store0).
Defined.

Lemma createProperty_requires_witness :
  createProperty "userA"
    [("id", VStr "P2"); ("title", VStr "Studio"); ("type", VStr "flat");
     ("price", VNum 100); ("state", VStr "MH"); ("city", VStr "Pune");
     ("areaSqFt", VNum 300); ("bedrooms", VNum 0)] world0
  = (Ok (failure 400 "bedrooms is required"), world0).
Proof.
  apply (createProperty_requires world0 "userA" _
           ["id"; "title"; "type"; "price"; "state"; "city"; "areaSqFt"] "bedrooms"
           ["bathrooms"; "amenities"; "furnished"; "availableFrom";
            "listedBy"; "tags"; "colorTheme"; "rating"; "listingType"]).
  - reflexivity.
  - repeat constructor.
  - reflexivity.
Defined.

Lemma getPropertyById_read_through_witness :
  durable (exec (getPropertyById "propX") world0) = store0
  /\ run (getPropertyById "propX")
         (mk_world (mk_mem_store [] [] 1 0)
                   (tick 10 (cache (exec (getPropertyById "propX") world0))))
     = Ok (mk_response 200
             (VObj [("success", VBool true);
                    ("message", VStr "Property retrieved successfully");
                    ("property", json_image (entity_js (propertyResponse propX)))])).
Proof.
  pose proof (getPropertyById_read_through world0 "propX" propX store0
                eq_refl eq_refl eq_refl eq_refl) as Hg.
  cbv zeta in Hg. destruct Hg as (_ & Hd & Hnext); [discriminate|].
  split; [exact Hd|]. unfold run. rewrite Hnext by lia. reflexivity.
Defined.

Lemma deleteProperty_keeps_favorites_witness :
  cached (cache (exec (deleteProperty "userA" "propX") world1))
         (KEYS.FAVORITE_STATUS "userA" "propX")
  = cached warm_cache (KEYS.FAVORITE_STATUS "userA" "propX")
  /\ cached warm_cache (KEYS.FAVORITE_STATUS "userA" "propX") <> None.
Proof.
  pose proof (deleteProperty_keeps_favorites world1 "userA" "propX" _ _ eq_refl) as Hd.
  cbv zeta in Hd. destruct Hd as (_ & _ & _ & _ & _ & Hkeep & _).
  split; [apply Hkeep|]. vm_compute. discriminate.
Defined.

Lemma cacheMiddleware_bypass_witness :
  cacheMiddleware propertyDetailCache "connecting" request1 (getPropertyById "propX") world0
  = getPropertyById "propX" world0
  /\ JSON_grammar "{oops" = false
  /\ cacheMiddleware propertyDetailCache "ready" request1 (getPropertyById "propX")
                     (mk_world store0 corrupted)
     = getPropertyById "propX" (mk_world store0 corrupted).
Proof.
  split; [|split; [reflexivity|]].
  - apply (cacheMiddleware_bypass propertyDetailCache "connecting" request1).
    right. left. discriminate.
  - apply (cacheMiddleware_bypass propertyDetailCache "ready" request1).
    do 4 right. exists "property:propX", (mk_entry "{oops" 900 990).
    split; [reflexivity|]. split; [vm_compute; reflexivity|].
    split; [discriminate|reflexivity].
Defined.

Lemma cacheMiddleware_hit_witness :
  cacheMiddleware (mk_options None None None) "ready" request1 (getPropertyById "propX")
                  (mk_world store0 route_cache)
  = (Ok (mk_response 200 (VObj [("total", VNum 1)])), mk_world store0 route_cache).
Proof.
  let x := eval vm_compute in (cached route_cache "route:/api/properties/propX") in
  lazymatch x with
  | Some ?e =>
      apply (cacheMiddleware_hit (mk_options None None None) request1
               "route:/api/properties/propX" e)
  end.
  - reflexivity.
  - reflexivity.
  - reflexivity.
  - vm_compute. reflexivity.
  - discriminate.
  - vm_compute. reflexivity.
Defined.

Lemma cacheMiddleware_miss_witness :
  cacheMiddleware propertyDetailCache "ready" request1 (ret (failure 500 ""))
    (mk_world store0
       (tick 899 (cache (exec (cacheMiddleware propertyDetailCache "ready" request1
                                 (getPropertyById "propX")) world0))))
  = (Ok (mk_response 200
           (json_image
              (VObj [("success", VBool true);
                     ("message", VStr "Property retrieved successfully");
                     ("property", entity_js (propertyResponse propX))]))),
     mk_world store0
       (tick 899 (cache (exec (cacheMiddleware propertyDetailCache "ready" request1
                                 (getPropertyById "propX")) world0)))).
Proof.
  pose proof (getPropertyById_miss_run world0 "propX" propX store0
                eq_refl eq_refl eq_refl ltac:(discriminate)) as Hnext.
  pose proof (cacheMiddleware_miss propertyDetailCache request1 "property:propX"
                (getPropertyById "propX") world0 _ _ eq_refl eq_refl eq_refl eq_refl Hnext)
    as Hm.
  cbv zeta in Hm. destruct Hm as (_ & _ & _ & Hstored).
  apply (Hstored ltac:(cbn; lia)); [|reflexivity|discriminate|cbn; lia].
  cbn [cache]. by rewrite setCache_up.
Defined.

Lemma ownership_gate_witness :
  route_delete_property "userB" "propX" world0
  = (Ok (failure 403 "Access denied. You can only modify properties you created."), world0)
  /\ route_delete_property "userA" "propX" world0 = deleteProperty "userA" "propX" world0.
Proof.
  split.
  - pose proof (ownership_gate world0 "userB" "propX" (Some propX) store0
                  ltac:(discriminate) ltac:(discriminate) eq_refl) as Hg.
    cbv zeta in Hg. destruct Hg as (_ & Hother & _).
    by apply (Hother propX "userA").
  - pose proof (ownership_gate world0 "userA" "propX" (Some propX) store0
                  ltac:(discriminate) ltac:(discriminate) eq_refl) as Hg.
    cbv zeta in Hg. destruct Hg as (_ & _ & Howner).
    by apply (Howner propX).
Defined.

Lemma propertyDetailCache_shares_key_witness :
  run (getCachedProperty "propX")
      (tick 10 (cache (exec (cacheMiddleware propertyDetailCache "ready" request1
                               (getPropertyById "propX")) world0)))
  = Ok (json_image
          (VObj [("success", VBool true);
                 ("message", VStr "Property retrieved successfully");
                 ("property", entity_js (propertyResponse propX))])).
Proof.
  pose proof (propertyDetailCache_shares_key world0 "propX" propX store0
                "/api/properties/propX" [] None eq_refl eq_refl eq_refl eq_refl
                ltac:(discriminate)) as Hp.
  cbv zeta in Hp. destruct Hp as (_ & Hread). apply Hread. lia.
Defined.

Lemma login_caches_profile_witness :
  obj_get "password" (usr_fields alice) = VStr "hashed:secret1"
  /\ js_get (json_image (entity_js (userResponse alice))) "password" = VUndef
  /\ run (getCachedUserProfile "userA")
         (cache (exec (login None None
                         (mk_login (Some "alice@example.com") (Some "secret1")))
                      world_users))
     = Ok (json_image (entity_js (userResponse alice))).
Proof.
  split; [reflexivity|].
  pose proof (login_caches_profile None None world_users "alice@example.com" "secret1"
                alice _ users0 users0 users0
                ltac:(discriminate) ltac:(discriminate) eq_refl eq_refl eq_refl
                ltac:(discriminate) eq_refl) as Hl.
  cbv zeta in Hl. destruct Hl as (_ & _ & _ & Hread & Hno & _).
  split; [exact Hno|]. apply (Hread 0). lia.
Defined.

Lemma updateProfile_write_through_witness :
  run (getProfile "userA")
      (mk_world users0
         (tick 60 (cache (exec (updateProfile "userA"
                                  (mk_update_profile (Some "alicia") None))
                               world_users))))
  = Ok (mk_response 200
          (VObj [("success", VBool true);
                 ("message", VStr "Profile retrieved successfully");
                 ("user",
                  json_image
                    (entity_js
                       (userResponse
                          (MemUsers.apply_user_update [("username", VStr "alicia")]
                             alice))))])).
Proof.
  pose proof (updateProfile_write_through world_users "userA" (Some "alicia") None
                _ users0 _ ltac:(left; discriminate) eq_refl eq_refl eq_refl
                ltac:(discriminate) eq_refl) as Hu.
  cbv zeta in Hu. destruct Hu as (_ & _ & Hnext).
  unfold run. by rewrite (Hnext 60 users0) by lia.
Defined.

Lemma changePassword_invalidates_witness :
  changePassword "userA" (mk_change_password (Some "secret1") (Some "abc")) world_users
  = (Ok (failure 400 "New password must be at least 6 characters long"), world_users)
  /\ cached (cache (exec (changePassword "userA"
                            (mk_change_password (Some "secret1") (Some "secret22")))
                         (mk_world users0 warm_cache)))
            (KEYS.FAVORITE_STATUS "userA" "propX")
     = cached warm_cache (KEYS.FAVORITE_STATUS "userA" "propX").
Proof.
  split.
  - apply (changePassword_invalidates world_users "userA" "secret1" "abc");
      [discriminate|discriminate|]. cbn. lia.
  - pose proof (changePassword_invalidates (mk_world users0 warm_cache) "userA"
                  "secret1" "secret22" ltac:(discriminate) ltac:(discriminate)) as Hc.
    cbv zeta in Hc. destruct Hc as (_ & Hc).
    destruct (Hc alice _ _ users0 users0 users0 _ ltac:(cbn; lia) eq_refl eq_refl
                 eq_refl eq_refl) as (_ & _ & _ & Hkeep).
    by apply Hkeep.
Defined.

Lemma addToFavorites_existing_caches_witness :
  run (addToFavorites "userA" request0) (mk_world store1 empty_cache)
  = Ok (failure 400 "Property is already in your favorites")
  /\ cached (cache (exec (addToFavorites "userA" request0) (mk_world store1 empty_cache)))
            (KEYS.FAVORITE_STATUS "userA" "propX") <> None.
Proof.
  pose proof (addToFavorites_existing_caches (mk_world store1 empty_cache) "userA" request0
                "propX" propX _ store1 _ eq_refl ltac:(discriminate) eq_refl eq_refl
                eq_refl eq_refl) as Ha.
  cbv zeta in Ha. destruct Ha as (Hrun & _ & _).
  split; [exact Hrun|]. vm_compute. discriminate.
Defined.

Lemma signup_caches_profile_witness :
  (exists r, run (signup None None
                     (mk_signup (Some "bob") (Some "bob@example.com") (Some "secret2")))
                  world_users = Ok r
             /\ status r = 201)
  /\ forall dt, 0 <= dt < 1800 ->
       exists r, run (getProfile "user1")
                     (mk_world users0
                        (tick dt (cache (exec (signup None None
                           (mk_signup (Some "bob") (Some "bob@example.com") (Some "secret2")))
                           world_users)))) = Ok r
                 /\ status r = 200 /\ js_get (js_get (body r) "user") "password" = VUndef.
Proof.
  pose proof (signup_caches_profile None None world_users "bob" "bob@example.com" "secret2"
                "hashed:secret2"
                (mk_user_doc "user1"
                   [("username", VStr "bob"); ("email", VStr "bob@example.com");
                    ("password", VStr "hashed:secret2");
                    ("createdAt", VDate "2024-01-01T00:00:00.000Z")])
                _ _ _ _ _ ltac:(discriminate) ltac:(discriminate) ltac:(discriminate)
                eq_refl eq_refl eq_refl eq_refl ltac:(discriminate) eq_refl) as Hs.
  cbv zeta in Hs. destruct Hs as (Hrun & _ & _ & Hnext). cbn [usr_id] in Hnext.
  split; [eexists; split; [exact Hrun|reflexivity]|].
  intros dt Hdt. eexists. unfold run at 1. rewrite (Hnext dt users0 Hdt). cbn [fst].
  split; [reflexivity|]. split; [reflexivity|]. vm_compute. reflexivity.
Defined.

Lemma getProfile_read_through_witness :
  run (getProfile "userA")
      (mk_world (mk_mem_users [] 1) (tick 1799 (cache (exec (getProfile "userA") world_users))))
  = Ok (mk_response 200
          (VObj [("success", VBool true);
                 ("message", VStr "Profile retrieved successfully");
                 ("user", json_image (entity_js (userResponse alice)))])).
Proof.
  pose proof (getProfile_read_through world_users alice users0
                eq_refl eq_refl eq_refl ltac:(discriminate)) as Hg.
  cbv zeta in Hg. destruct Hg as (_ & _ & _ & _ & Hnext).
  unfold run. change "userA" with (usr_id alice). by rewrite Hnext by lia.
Defined.
